(* ===== verification/_CoqProject ===== *)
-Q . S2P
Prelude.v
CDefs.v
Util.v
PathRes.v
Tailq.v
Queues.v
Circleq.v
TailqOps.v
Sched.v
UserHeap.v
ProcTable.v
Kern.v
BufCache.v
Inode.v
SdAsm.v
Fat.v
SdCard.v
Spi.v
SdSpec.v
SdDetect.v
SdPins.v
SdCache.v
SdSim.v
FatSpec.v
FatDir.v
Devices.v
Ramfs.v
File.v
Vfs.v
Symlink.v
FsCalls.v
FileSpec.v
DirSpec.v
FatFile.v
System.v
Boot.v
Witness.v
Shell.v
Clock.v
Getopt.v
Info.v
Cpu.v
Switcher.v
Syscall.v
Trap.v
Target.v
Board.v
Commands.v
ShellSpec.v
LsSpec.v
RootfsSpec.v
SessionSpec.v
