(* ===== verification/Prelude.v ===== *)
(** * A verification of MOSnix

    MOSnix is a small Unix-like kernel for 6502 computers (llvm-mos C, with
    assembly where the CPU demands it), a minimal C library and a shell.  This
    development translates the kernel with its file systems, drivers and
    assembly, the library and the shell into executable Rocq definitions, and
    proves what makes them correct.

    ** The program and the files of this development

    Each C function is a definition of the same name.  A part of a function
    that is a loop is a [Fixpoint] with the suffix [_loop], or carries the name
    of what it does.  Global state is a record that a small state-and-fault
    monad ([M S A] of Prelude) threads through the calls.

    - Prelude: integers of fixed width, faults, the monad, arrays, little-endian
      words, weakest preconditions.  CDefs: the constants of the headers.
    - Util (os/util.c): string functions on bounded memory.
    - PathRes (os/inode.c: inode_resolve_relative, inode_path_to_abs): the
      in-place normalisation of paths, and its specification on component lists.
    - Tailq (include/sys/queue.h): TAILQ with its back pointers on a shared
      store; TailqOps, Queues and Circleq: the other macros of the header.  Sched
      (os/sched.c, os/sem.c, include/mosnix/proc.h): run queue, context switch,
      semaphores; [sched_step] is one operation, and the reachable states are the
      closure of the start under it.
    - UserHeap (os/kmalloc.c, user half): byte memory, first-fit list of free
      blocks, kmalloc_copy_argv().  ProcTable (os/proc.c): the process table over
      that heap and the scheduler, and the first stack frame of a process.
    - Kern (os/kmalloc.c, buffer half, and the shared state [kern]): the buffers
      with the structures in them, the file table, the current process, the
      clock, the console and the device class [sdcard].  BufCache: the
      specification of the buffer cache.
    - Inode (os/inode.c, releases of both file systems), Ramfs (os/fs/ram/ramfs.c
      and the walk of paths), Fat (os/fs/fat/fatutils.c, fatfs.c), Devices
      (os/drivers/devices.c, misc/null.c, tty/basictty.c), File (os/file.c,
      os/dir.c, os/mount.c): the file system.
    - Vfs: the abstract inode table [afs] and the invariant [vfs_ok] that ties the
      buffers to it.  FsCalls, FileSpec, DirSpec: the system calls on paths, on
      descriptors and on directories.  System: sequences of all these calls.  Boot
      (os/main.c): the start.  Witness: the theorems at concrete states.
    - SdAsm (os/drivers/sdcard/sdasm.S): two routines byte by byte.  SdCard
      (sdcard.c): commands, detection, block reads, the one-block cache.  SdSpec,
      SdDetect, SdCache: the laws of the bus and the theorems.  SdSim: a simulated
      card.  Spi (target/eater/spi.S): the routines on the pins of the port, which
      are that bus; SdPins: the pins keep the laws of the bus.  FatSpec, FatDir,
      FatFile: names, cluster chains, and the operations of FAT on directories and
      files of a card.
    - Symlink (ramfs_readlink, inode_symlink_to_abs): symbolic links, which the
      configuration leaves out.
    - Shell (shell/command.c, main.c, print.c, div10.S): the command line, the
      search of the builtin commands, line editing, number output.
    - Clock (os/time.c, libc-mosnix/time.c): the clock calls and the kernel's part
      of them.  Getopt (libc-mosnix/getopt.c, with the option loops of
      shell/ls.c and shell/uname.c): option parsing.
    - Info (os/ident.c, uname.c, strerror.c, printk.c): user ids, system names,
      messages and formatted output of the kernel.
    - Cpu: the 6502 as far as the assembly needs it.  Switcher (os/switcher.S):
      the context switch, instruction by instruction, on the stack page, the
      imaginary registers and the bytes of the process blocks.  Syscall
      (os/dispatch.c, include/mosnix/syscall.h, the stubs of libc-mosnix): user
      memory, argument structures, the table of the system calls and the functions
      of the library.  Trap (libc-mosnix/syscall.S, target/sim/reset.S and
      brk_syscall of os/switcher.S): the way of a call through the processor, from
      the registers and the soft stack of a program to those of the kernel.
    - Target (target/eater/serial.S, systick.S, target.c): the receive buffer of the
      serial port with its interrupt, and the tick counter.  Board
      (target/eater/reset.S, target/sim/target.c, libc-mosnix/startup.S): the break
      and interrupt handler over both, the console of the simulator and the
      arguments of a program.
    - Commands (shell/*.c): the builtin commands, the script of the root file
      system and the main program of the shell, as clients of the system calls.
      ShellSpec: what a line of the shell and its prompt do.  LsSpec, RootfsSpec: a
      directory listing, and the root file system.  SessionSpec: whole sessions.

    ** Interfaces

    What a component relies on is a class, so that its theorems hold for every
    implementation: [sdcard] (Kern) is the block device under FAT, implemented
    by [sd_device] (SdCard); [spi_bus] (SdCard) is the bus with the card and the
    clock behind it, with the laws [bus_laws] (SdSpec: each poll of the clock makes
    progress within bounded time) and [card_laws] (SdCache: the card answers the
    commands of the SD protocol), both met by the simulated card of SdSim;
    [spi_slave] (Spi) is what the pins of the bus are wired to, and [pin_bus]
    makes a [spi_bus] of it; [block_reader] (FatDir) is what FAT needs from the
    driver, and the driver on a card that follows the protocol is an instance;
    [user_ram] (UserHeap) is the range that the linker script gives; [code_addrs]
    (ProcTable), [switch_addrs] (Switcher), [trap_addrs] (Trap) and [board_addrs]
    (Board) are the addresses that go on a stack and the words of the table, which
    the linker places; [console_config] (Devices) and [build_config] (Info) are the
    configuration of the console and of the build; [kernel_rom] (Syscall) is where
    constant strings are, and [c_heap] (Syscall) the malloc() and free() of the
    compiler's library; [sim_reg] (Board) is the interface of the simulator.

    ** What the theorems show

    - System calls.  From the state after the start (kernel_boot_establishes),
      every sequence of calls on files, with valid arguments (buffers below 32768
      bytes, mount() without a card), completes and keeps the invariant, or stops at
      an open() that jumps through NULL; without open() it always completes
      (run_calls_safe): no use of a freed buffer, no access out of bounds,
      reference counts of inodes and files exact.  The calls
      refine their effect on the abstract inode table and the descriptor table
      (inode_lookup_path_refines, sys_mkdir_refines, sys_chdir_refines,
      sys_opendir_refines, sys_close_refines, sys_dup2_refines,
      sys_read_dir_refines), errors included; sys_read_dir_complete,
      sys_mkdir_chdir and sys_chdir_getcwd compose them.  A call of the library with
      its arguments on the user's stack does what the kernel's function does with
      the values (syscall_equiv).
    - Queues.  For all five kinds, a macro that inserts or removes is the operation
      on the list that the heads and elements stand for, and keeps every other
      pointer; loops visit the list in order (tailq_op_refines, queue_op_refines,
      circle_op_refines).
    - Processes.  Reachable scheduler states have well-formed queues; in each of
      them every operation returns but for two cases: waiting without another
      runnable process stops the kernel, and waiting before the first switch goes
      through NULL (sched_reachable_safe).  Wait, signal and interrupt refine the
      abstract queues; proc_create() has no leak on an error.
    - Assembly.  The instructions of proc_switch_to() implement the switch of
      Sched (proc_switch_refines); a switch away and back returns to its caller
      (proc_switch_roundtrip); the first switch to a new process enters its function
      (proc_create_enters); the trap of a system call computes the result and errno
      of Syscall (syscall_trap_refines); the serial port loses no character under
      any interleaving (serial_fifo); an interrupt of the breadboard is transparent
      to the program it interrupts, and takes the tick and the character
      (board_handler_refines).
    - Memory.  The user heap is a sorted, coalesced list of disjoint blocks;
      allocation is first fit and freeing returns exactly the bytes of the block.
    - SD card and FAT.  Detection ends in bounded time whatever the card sends,
      keeps the types of sd_info, and reads through the cache return the card's
      blocks; the cluster chain, the lookup of a name, the reading of a directory
      and mounting are those of the card, on every branch (fatfs_lookup_refines,
      fatfs_dir_read_refines, fatfs_mount_sd_refines).  The routines on the pins are
      the bus that the driver is written against (spi_routines_refine), which keeps
      the laws that its theorems ask for (detection_on_pins).
    - Shell and library.  The in-place parser yields exactly the tokens of the
      line and undoes escaping; numbers are printed right below 2^24; option
      parsing visits the options in order; the clock calls round-trip.  The script
      builds the whole root file system (make_rootfs_builds), ls prints every entry
      of a directory in order and closes it (list_dir_lists), and any session of the
      shell without an SD card, on keys that make no line whose command sorts after
      uname, runs to the end of its input without a fault and keeps the invariant
      of the kernel (shell_session_safe).
    - Faults of the code that the theorems state as behaviour: open() never
      succeeds, the heap's first split overruns, argument vectors are not filled
      in, sem_wait() loses its result, FAT names with an extension are not
      found, the last directory entry of a block is refused and an opened file
      reads as empty, a card that
      goes silent reads as 0xFF, the cache survives a failed detection, the
      builtin search leaves its table, div10() is wrong from 2^24 on,
      getopt() reads past an option's end after a separate argument, the context
      switch never saves the registers it restores and shares the first kernel
      stack, and the tick's start clears a byte too many.
    - Comments that the code does not keep: inode_lookup_path() returns 0 and not
      1 for a new inode (inode_lookup_path_refines), and the queue of runnable
      processes has the running one in it (sched_reachable_invariant).

    ** Bounds and fuel

    Fuel stands for the iterations of a loop that has no structural argument; a
    loop that runs out ends in the fault [FFuel], and the theorems show that it
    does not: [heap_fuel] (UserHeap) exceeds the number of blocks that user RAM
    can hold, four bytes of header each; [list_fuel] (Inode) exceeds the number
    of buffers, which bounds each chain; [patience] (SdCard) bounds the polls
    of the two detection loops, and sd_detect_terminates asks for more of them
    than two seconds of the clock can take; the search of a FAT block has 16
    entries and 17 rounds; the search of six places in the builtin table has
    five; parsing a line takes at most one round per character, an option loop
    one per letter, and a listing (list_fuel of Commands) one per entry, of which
    there are fewer than buffers; the shell's loop has more rounds than there
    are keys; the copy loops of the switch have 256 and 13 rounds, more than the
    64 and 12 bytes they copy.  Integers are
    [Z] with each conversion to a C type written out ([u8], [u16], [u32], [s8],
    [s16], [s32], [s64]); [int] and pointers have 16 bits.

    ** What is not modelled

    - Reset code, linker scripts and the choice of drivers of a target: hardware
      access without logic.  The time that a bit takes on the pins of the SPI bus.
    - Static initialisers of queue heads, and user ids, which are configured out
      (CONFIG_ACCESS_UID).
    - The theorem on sessions is about the build without an SD card (CONFIG_SD of
      the simulated machine); the card has its own theorems.  Trap takes the C
      functions behind the table as a parameter; Syscall has the functions. *)
From Stdlib Require Export ZifyBool.
From Stdlib Require Ascii String.
Export String.StringSyntax.
From stdpp Require Export base numbers tactics option list gmap.
#[global] Open Scope Z_scope.

(** ** Fixed-width integers of the llvm-mos target

    [int], [short], [size_t], [ssize_t] and pointers are 16 bits wide,
    [long] is 32 bits and [long long] 64 bits; alignment is one byte.  A C
    integer is a [Z] and each conversion to a type is written out. *)

Definition u8 (x : Z) : Z := x mod 256.
Definition u16 (x : Z) : Z := x mod 65536.
Definition u32 (x : Z) : Z := x mod 4294967296.
Definition s8 (x : Z) : Z := (x + 128) mod 256 - 128.
Definition s16 (x : Z) : Z := (x + 32768) mod 65536 - 32768.
Definition s32 (x : Z) : Z := (x + 2147483648) mod 4294967296 - 2147483648.
Definition s64 (x : Z) : Z :=
  (x + 9223372036854775808) mod 18446744073709551616 - 9223372036854775808.

Lemma u8_small x : 0 ≤ x < 256 → u8 x = x.
Proof. apply Z.mod_small. Qed.
Lemma u16_small x : 0 ≤ x < 65536 → u16 x = x.
Proof. apply Z.mod_small. Qed.
Lemma u32_small x : 0 ≤ x < 4294967296 → u32 x = x.
Proof. apply Z.mod_small. Qed.
Lemma s8_small x : -128 ≤ x < 128 → s8 x = x.
Proof. intros. unfold s8. rewrite Z.mod_small; lia. Qed.
Lemma s16_small x : -32768 ≤ x < 32768 → s16 x = x.
Proof. intros. unfold s16. rewrite Z.mod_small; lia. Qed.
Lemma s32_small x : -2147483648 ≤ x < 2147483648 → s32 x = x.
Proof. intros. unfold s32. rewrite Z.mod_small; lia. Qed.

Lemma land_lxor_distr x y z : Z.land (Z.lxor x y) z = Z.lxor (Z.land x z) (Z.land y z).
Proof.
  apply Z.bits_inj'. intros n Hn. rewrite Z.land_spec, !Z.lxor_spec, !Z.land_spec.
  by destruct (Z.testbit x n), (Z.testbit y n), (Z.testbit z n).
Qed.

(** ** Outcomes: a value, or a fault

    A C function that dereferences NULL, reads or writes outside an object,
    uses a freed or differently typed object, or does not terminate within
    the loop bound of the model, ends in a fault.  "No fault" theorems are
    therefore memory-safety and termination theorems. *)

Inductive fault :=
  | FNull       (* NULL pointer dereference, or a call through a NULL table *)
  | FBounds     (* access outside the bounds of an array or a string *)
  | FWild       (* use of a freed buffer or of memory of another type *)
  | FFuel       (* the bound on the iterations of a loop was exhausted *)
  | FHalt.      (* the kernel stopped with _exit() *)

#[export] Instance fault_eq_dec : EqDecision fault.
Proof. solve_decision. Defined.

Inductive res (A : Type) :=
  | Ok (a : A)
  | Err (f : fault).
Arguments Ok {A} a.
Arguments Err {A} f.

#[export] Instance res_ret : MRet res := λ A a, Ok a.
#[export] Instance res_bind : MBind res := λ A B f m,
  match m with Ok a => f a | Err e => Err e end.
#[export] Instance res_fmap : FMap res := λ A B f m,
  match m with Ok a => Ok (f a) | Err e => Err e end.

(** Kernel code that works on a global state [S]. *)
Definition M (S A : Type) : Type := S → res (A * S).
#[export] Instance M_ret S : MRet (M S) := λ A a s, Ok (a, s).
#[export] Instance M_bind S : MBind (M S) := λ A B f m s,
  match m s with Ok (a, s') => f a s' | Err e => Err e end.
#[export] Instance M_fmap S : FMap (M S) := λ A B f m s,
  match m s with Ok (a, s') => Ok (f a, s') | Err e => Err e end.

Definition get {S} : M S S := λ s, Ok (s, s).
Definition put {S} (s : S) : M S () := λ _, Ok ((), s).
Definition gets {S A} (f : S → A) : M S A := λ s, Ok (f s, s).
Definition modify {S} (f : S → S) : M S () := λ s, Ok ((), f s).
Definition fail {S A} (e : fault) : M S A := λ _, Err e.
Definition lift {S A} (m : res A) : M S A := λ s,
  match m with Ok a => Ok (a, s) | Err e => Err e end.
Definition of_option {A} (e : fault) (o : option A) : res A :=
  match o with Some a => Ok a | None => Err e end.

(** Running a sequence: the first action has returned or faulted. *)
Lemma bind_ok {S A B} (m : M S A) (f : A → M S B) s a s' :
  m s = Ok (a, s') → (m ≫= f) s = f a s'.
Proof. unfold mbind, M_bind. by intros ->. Qed.

Lemma bind_err {S A B} (m : M S A) (f : A → M S B) s e :
  m s = Err e → (m ≫= f) s = Err e.
Proof. unfold mbind, M_bind. by intros ->. Qed.

Lemma bind_inv {S A B} (m : M S A) (f : A → M S B) s b s'' :
  (m ≫= f) s = Ok (b, s'') → ∃ a s', m s = Ok (a, s') ∧ f a s' = Ok (b, s'').
Proof. unfold mbind, M_bind. destruct (m s) as [[a s']|] eqn:E; [eauto|done]. Qed.

(** ** Arrays and byte strings

    An array, or the memory from a pointer to the end of the object it points
    into, is a list.  An access outside of it is a fault. *)

Section Arrays.
Context {A : Type}.
Implicit Types (b src : list A) (i n : Z) (v : A).

Definition zlen b : Z := Z.of_nat (length b).

Definition rd b i : res A :=
  if i <? 0 then Err FBounds else of_option FBounds (b !! Z.to_nat i).

Definition wr b i v : res (list A) :=
  if (0 <=? i) && (i <? zlen b) then Ok (<[Z.to_nat i := v]> b)
  else Err FBounds.

(** memcpy (b + i, src, n) *)
Definition memcpy b i src n : res (list A) :=
  if (0 <=? n) && (n <=? zlen src) && (0 <=? i) && (i + n <=? zlen b)
  then Ok (take (Z.to_nat i) b ++ take (Z.to_nat n) src
           ++ drop (Z.to_nat (i + n)) b)
  else Err FBounds.

Lemma rd_lookup b i v :
  rd b i = Ok v ↔ 0 ≤ i ∧ b !! Z.to_nat i = Some v.
Proof.
  unfold rd. destruct (Z.ltb_spec i 0); [split; [done|lia]|].
  destruct (b !! Z.to_nat i); simpl; split; try done; naive_solver.
Qed.

Lemma rd_app_at b1 v b2 : rd (b1 ++ v :: b2) (zlen b1) = Ok v.
Proof.
  apply rd_lookup. unfold zlen. split; [lia|]. rewrite Nat2Z.id.
  by rewrite lookup_app_r, Nat.sub_diag by lia.
Qed.

Lemma wr_app_at b1 v v' b2 :
  wr (b1 ++ v :: b2) (zlen b1) v' = Ok (b1 ++ v' :: b2).
Proof.
  unfold wr, zlen. rewrite length_app. simpl.
  replace (_ && _) with true by (symmetry; lia).
  rewrite Nat2Z.id, insert_app_r_alt, Nat.sub_diag by lia. done.
Qed.

Lemma wr_length b i v b' : wr b i v = Ok b' → length b' = length b.
Proof.
  unfold wr. destruct (_ && _); [|done]. intros [= <-]. apply length_insert.
Qed.

Lemma memcpy_length b i src n b' :
  memcpy b i src n = Ok b' → length b' = length b.
Proof.
  unfold memcpy, zlen. destruct (_ && _) eqn:E; [|done]. intros [= <-].
  rewrite !length_app, !length_take, length_drop. lia.
Qed.

Lemma memcpy_app_at b1 b2 b3 src src' :
  length b2 = length src →
  memcpy (b1 ++ b2 ++ b3) (zlen b1) (src ++ src') (zlen src)
  = Ok (b1 ++ src ++ b3).
Proof.
  intros Hl. unfold memcpy, zlen. rewrite !length_app.
  replace (_ && _) with true by (symmetry; lia).
  f_equal. rewrite !Nat2Z.id, take_app_length, take_app_length.
  replace (Z.to_nat _) with (length b1 + length src)%nat by lia.
  by rewrite drop_app_add, <- Hl, drop_app_length.
Qed.
End Arrays.

Lemma zlen_app {A} (l1 l2 : list A) : zlen (l1 ++ l2) = zlen l1 + zlen l2.
Proof. unfold zlen. rewrite length_app. lia. Qed.

Lemma zlen_cons {A} (x : A) l : zlen (x :: l) = zlen l + 1.
Proof. unfold zlen. simpl. lia. Qed.

Lemma exists_last_or_nil {A} (l : list A) : l = [] ∨ ∃ l' x, l = l' ++ [x].
Proof. destruct l using rev_ind; eauto. Qed.

Lemma zlen_nonneg {A} (l : list A) : 0 ≤ zlen l.
Proof. unfold zlen. lia. Qed.

(** The sum of a measure over a list, and its change under an update. *)
Definition sumZ {A} (g : A → Z) (l : list A) : Z := foldr (λ x n, g x + n) 0 l.

Lemma sumZ_cons {A} (g : A → Z) x l : sumZ g (x :: l) = g x + sumZ g l.
Proof. done. Qed.

Lemma sumZ_insert {A} (g : A → Z) l i x y :
  l !! i = Some x → sumZ g (<[i := y]> l) = sumZ g l - g x + g y.
Proof.
  revert i. induction l as [|z l IH]; intros [|i]; simpl; try done.
  - intros [= ->]. lia.
  - intros Hi. rewrite IH by done. lia.
Qed.

Lemma sumZ_nonneg {A} (g : A → Z) l : (∀ x, 0 ≤ g x) → 0 ≤ sumZ g l.
Proof. intros Hg. induction l as [|x l IH]; simpl; [done|]. pose proof (Hg x). lia. Qed.

Lemma sumZ_ge {A} (g : A → Z) l i x :
  (∀ x, 0 ≤ g x) → l !! i = Some x → g x ≤ sumZ g l.
Proof.
  intros Hg. revert i. induction l as [|z l IH]; intros [|i]; simpl; try done.
  - intros [= ->]. pose proof (sumZ_nonneg g l Hg). lia.
  - intros Hi%IH. pose proof (Hg z). lia.
Qed.

Lemma sumZ_le {A} (g : A → Z) l : (∀ x, g x ≤ 1) → sumZ g l ≤ zlen l.
Proof.
  intros Hg. induction l as [|x l IH]; [done|]. rewrite zlen_cons. simpl. pose proof (Hg x). lia.
Qed.

Lemma wr_ok {A} (b : list A) i v :
  0 ≤ i < zlen b → wr b i v = Ok (<[Z.to_nat i := v]> b).
Proof. intros [? ?]. unfold wr. by rewrite (proj2 (Z.leb_le _ _)), (proj2 (Z.ltb_lt _ _)). Qed.

Lemma rd_ok {A} (b : list A) i : 0 ≤ i < zlen b → ∃ v, rd b i = Ok v ∧ b !! Z.to_nat i = Some v.
Proof.
  intros [? Hi]. destruct (lookup_lt_is_Some_2 b (Z.to_nat i)) as [v Hv]; [unfold zlen in Hi; lia|].
  exists v. split; [|done]. by apply rd_lookup.
Qed.

Arguments rd : simpl never.
Arguments wr : simpl never.
Arguments memcpy : simpl never.

(** The bytes of a string literal of the sources. *)
Definition chars (s : String.string) : list Z :=
  Z.of_nat ∘ Ascii.nat_of_ascii <$> String.list_ascii_of_string s.
Delimit Scope string_scope with string.
Arguments chars s%_string_scope.

(** ** Automation *)

Create HintDb kernel.
Create Rewrite HintDb wrap.
#[export] Hint Rewrite u8_small u16_small u32_small s8_small s16_small
  using lia : wrap.

(** Runs the first action of a sequence, with a proof of its outcome. *)
Tactic Notation "mstep" "by" tactic3(tac) := erewrite bind_ok; [|tac]; cbv beta iota.

(** Case analysis on the outermost [if] or [match] of a hypothesis. *)
Ltac case_if_in H :=
  match type of H with
  | context [if ?b then _ else _] => destruct b eqn:?
  end.

(** Turns boolean comparisons of the code into arithmetic facts. *)
Ltac to_prop :=
  repeat match goal with
  | H : (_ && _)%bool = true |- _ => apply andb_true_iff in H as [??]
  | H : (_ || _)%bool = false |- _ => apply orb_false_iff in H as [??]
  | H : negb _ = true |- _ => apply negb_true_iff in H
  | H : negb _ = false |- _ => apply negb_false_iff in H
  | H : (_ <? _)%Z = true |- _ => apply Z.ltb_lt in H
  | H : (_ <? _)%Z = false |- _ => apply Z.ltb_ge in H
  | H : (_ <=? _)%Z = true |- _ => apply Z.leb_le in H
  | H : (_ <=? _)%Z = false |- _ => apply Z.leb_gt in H
  | H : (_ >? _)%Z = true |- _ => rewrite Z.gtb_ltb in H
  | H : (_ >? _)%Z = false |- _ => rewrite Z.gtb_ltb in H
  | H : (_ >=? _)%Z = true |- _ => rewrite Z.geb_leb in H
  | H : (_ >=? _)%Z = false |- _ => rewrite Z.geb_leb in H
  | H : (_ =? _)%Z = true |- _ => apply Z.eqb_eq in H
  | H : (_ =? _)%Z = false |- _ => apply Z.eqb_neq in H
  end.

(** Linear arithmetic on the lengths of lists. *)
Ltac len_lia :=
  unfold zlen in *;
  repeat progress (rewrite ?length_app, ?length_insert, ?length_take,
    ?length_drop, ?length_replicate in *; cbn [length] in * );
  lia.

(** Proves a decidable closed proposition by evaluation. *)
Ltac compute_decide :=
  match goal with |- ?P => apply (@bool_decide_unpack P _); vm_compute; exact I end.

(** ** Little-endian integers in memory *)

Definition le16 (b : list Z) (i : Z) : res Z :=
  b0 ← rd b i; b1 ← rd b (i + 1); Ok (Z.lor b0 (Z.shiftl b1 8)).
Definition le32 (b : list Z) (i : Z) : res Z :=
  lo ← le16 b i; hi ← le16 b (i + 2); Ok (Z.lor lo (Z.shiftl hi 16)).

Lemma lor_add a b n : 0 ≤ n → 0 ≤ b < 2 ^ n → Z.lor b (Z.shiftl a n) = b + a * 2 ^ n.
Proof.
  intros Hn Hb. rewrite Z.shiftl_mul_pow2 by done.
  rewrite <- Z.lxor_lor, Z.add_nocarry_lxor; [done|..].
  all: apply Z.bits_inj'; intros i Hi; rewrite Z.land_spec, Z.bits_0.
  all: destruct (Z.ltb_spec i n); [rewrite Z.mul_pow2_bits_low by lia; by rewrite andb_false_r|].
  all: rewrite <- (Z.mod_small b (2 ^ n)) by done; by rewrite Z.mod_pow2_bits_high by lia.
Qed.

(** ** Weakest preconditions

    [wp m Q s]: [m] returns from [s], without a fault, and [Q] holds of the
    result and the new state. *)

Definition wp {S A} (m : M S A) (Q : A → S → Prop) (s : S) : Prop :=
  ∃ a s', m s = Ok (a, s') ∧ Q a s'.

Lemma wp_ret {S A} (a : A) (Q : A → S → Prop) s : Q a s → wp (mret a) Q s.
Proof. intros HQ. by exists a, s. Qed.

Lemma wp_bind {S A B} (m : M S A) (f : A → M S B) Q s :
  wp m (λ a, wp (f a) Q) s → wp (m ≫= f) Q s.
Proof.
  intros (a & s1 & E1 & b & s2 & E2 & HQ). exists b, s2. split; [|done].
  by rewrite (bind_ok _ _ _ _ _ E1).
Qed.

Lemma wp_mono {S A} (m : M S A) (P Q : A → S → Prop) s :
  wp m P s → (∀ a s', P a s' → Q a s') → wp m Q s.
Proof. intros (a & s' & E & HP) H. exists a, s'. auto. Qed.

Lemma wp_seq {S A B} (m : M S A) (f : A → M S B) P Q s :
  wp m P s → (∀ a s', P a s' → wp (f a) Q s') → wp (m ≫= f) Q s.
Proof. intros Hm Hf. apply wp_bind. by eapply wp_mono. Qed.

Lemma wp_ok {S A} (m : M S A) (Q : A → S → Prop) s a s' : m s = Ok (a, s') → Q a s' → wp m Q s.
Proof. intros E HQ. by exists a, s'. Qed.

Lemma wp_gets {S A} (f : S → A) (Q : A → S → Prop) s : Q (f s) s → wp (gets f) Q s.
Proof. intros HQ. by exists (f s), s. Qed.

Lemma wp_modify {S} (f : S → S) (Q : () → S → Prop) s : Q () (f s) → wp (modify f) Q s.
Proof. intros HQ. by exists (), (f s). Qed.

Lemma wp_lift {S A} (r : res A) (P : A → Prop) (Q : A → S → Prop) s :
  (∃ a, r = Ok a ∧ P a) → (∀ a, P a → Q a s) → wp (lift r) Q s.
Proof. intros (a & -> & HP) H. exists a, s. auto. Qed.

(** The result code is enough to know that the run returned. *)
Lemma run_result {S A} (m : res (A * S)) (a0 a : A) (s0 : S) :
  match m with Ok (a, _) => a | Err _ => a0 end = a → a ≠ a0 →
  m = Ok (a, match m with Ok (_, s) => s | Err _ => s0 end).
Proof. destruct m as [[a' s]|]; [by intros ->|]. intros -> H. by destruct H. Qed.
