(* ===== verification/CDefs.v ===== *)
(** Constants of the kernel headers: configuration limits, error numbers,
    mode bits, open flags, device numbers, and the predicates on modes. *)
From S2P Require Import Prelude.

(** ** include/mosnix/config.h *)
Definition CONFIG_PROC_MAX : Z := 6.
Definition CONFIG_FD_MAX : Z := 32.
Definition CONFIG_PROC_FD_MAX : Z := 8.
Definition CONFIG_ARG_MAX : Z := 128.
Definition CONFIG_ARGC_MAX : Z := 64.
Definition CONFIG_RETURN_STACK_SIZE : Z := 64.
Definition CONFIG_NUM_BUFFERS : Z := 100.
Definition CONFIG_PATH_MAX : Z := 64.

(** ** include/bits/errno.h *)
Definition EPERM : Z := 1.
Definition ENOENT : Z := 2.
Definition ESRCH : Z := 3.
Definition EINTR : Z := 4.
Definition EIO : Z := 5.
Definition ENXIO : Z := 6.
Definition E2BIG : Z := 7.
Definition ENOEXEC : Z := 8.
Definition EBADF : Z := 9.
Definition ECHILD : Z := 10.
Definition EAGAIN : Z := 11.
Definition ENOMEM : Z := 12.
Definition EACCES : Z := 13.
Definition EFAULT : Z := 14.
Definition ENOTBLK : Z := 15.
Definition EBUSY : Z := 16.
Definition EEXIST : Z := 17.
Definition EXDEV : Z := 18.
Definition ENODEV : Z := 19.
Definition ENOTDIR : Z := 20.
Definition EISDIR : Z := 21.
Definition EINVAL : Z := 22.
Definition ENFILE : Z := 23.
Definition EMFILE : Z := 24.
Definition ENOTTY : Z := 25.
Definition ETXTBSY : Z := 26.
Definition EFBIG : Z := 27.
Definition ENOSPC : Z := 28.
Definition ESPIPE : Z := 29.
Definition EROFS : Z := 30.
Definition EMLINK : Z := 31.
Definition EPIPE : Z := 32.
Definition EDOM : Z := 33.
Definition ERANGE : Z := 34.
Definition EDEADLK : Z := 35.
Definition ENAMETOOLONG : Z := 36.
Definition ENOLCK : Z := 37.
Definition ENOSYS : Z := 38.
Definition ENOTEMPTY : Z := 39.
Definition ELOOP : Z := 40.

(** ** include/bits/stat.h and include/sys/stat.h *)
Definition S_IFMT : Z := 0xF000.
Definition S_IFIFO : Z := 0x1000.
Definition S_IFCHR : Z := 0x2000.
Definition S_IFDIR : Z := 0x4000.
Definition S_IFBLK : Z := 0x6000.
Definition S_IFREG : Z := 0x8000.
Definition S_IFLNK : Z := 0xA000.
Definition S_IFSOCK : Z := 0xC000.
Definition S_ISUID : Z := 0x0800.
Definition S_ISGID : Z := 0x0400.
Definition S_ISVTX : Z := 0x0200.
Definition S_IRUSR : Z := 0x0100.
Definition S_IWUSR : Z := 0x0080.
Definition S_IXUSR : Z := 0x0040.
Definition S_IRGRP : Z := 0x0020.
Definition S_IWGRP : Z := 0x0010.
Definition S_IXGRP : Z := 0x0008.
Definition S_IROTH : Z := 0x0004.
Definition S_IWOTH : Z := 0x0002.
Definition S_IXOTH : Z := 0x0001.

(** The octal constants 0777, 0755, 0555, 0660 of the sources. *)
Definition MODE_0777 : Z := 511.
Definition MODE_0755 : Z := 493.
Definition MODE_0555 : Z := 365.
Definition MODE_0660 : Z := 432.

Definition S_ISCHR (mode : Z) : bool := Z.land mode S_IFMT =? S_IFCHR.
Definition S_ISDIR (mode : Z) : bool := Z.land mode S_IFMT =? S_IFDIR.
Definition S_ISBLK (mode : Z) : bool := Z.land mode S_IFMT =? S_IFBLK.
Definition S_ISREG (mode : Z) : bool := Z.land mode S_IFMT =? S_IFREG.
Definition S_ISLNK (mode : Z) : bool := Z.land mode S_IFMT =? S_IFLNK.

(** C truth of a masked flag: [x & m] used as a condition. *)
Definition has_bits (x m : Z) : bool := negb (Z.land x m =? 0).

(** ** include/bits/fcntl.h and O_EXEC of include/mosnix/inode.h *)
Definition O_RDONLY : Z := 0x0000.
Definition O_WRONLY : Z := 0x0001.
Definition O_RDWR : Z := 0x0002.
Definition O_ACCMODE : Z := 0x0003.
Definition O_CREAT : Z := 0x0040.
Definition O_EXCL : Z := 0x0080.
Definition O_NONBLOCK : Z := 0x0800.
Definition O_EXEC : Z := 3.
Definition F_DUPFD : Z := 0.
Definition F_GETFD : Z := 1.
Definition F_SETFD : Z := 2.
Definition F_GETFL : Z := 3.
Definition F_SETFL : Z := 4.
Definition FD_CLOEXEC : Z := 1.

(** ** access() modes of include/unistd.h.  The header gives R_OK the value 3,
    which is also W_OK | X_OK. *)
Definition F_OK : Z := 0.
Definition X_OK : Z := 1.
Definition W_OK : Z := 2.
Definition R_OK : Z := 3.

(** ** include/sys/mount.h *)
Definition MS_REMOUNT : Z := 0x20.

(** ** include/sys/sysmacros.h and include/mosnix/devnum.h *)
Definition makedev (maj min : Z) : Z := Z.lor (u16 (Z.shiftl (u16 maj) 8)) (u16 min).
Definition major (dev : Z) : Z := u8 (Z.shiftr dev 8).
Definition minor (dev : Z) : Z := u8 dev.

Definition DEV_MAJOR_MEMORY : Z := 1.
Definition DEV_MAJOR_TTY : Z := 4.
Definition DEV_MAJOR_TTY_ALT : Z := 5.
Definition DEV_MAJOR_MMC : Z := 179.
Definition DEV_NULL : Z := makedev DEV_MAJOR_MEMORY 3.
Definition DEV_ZERO : Z := makedev DEV_MAJOR_MEMORY 5.
Definition DEV_FULL : Z := makedev DEV_MAJOR_MEMORY 7.
Definition DEV_TTY0 : Z := makedev DEV_MAJOR_TTY 0.
Definition DEV_TTY : Z := makedev DEV_MAJOR_TTY_ALT 0.
Definition DEV_CONSOLE : Z := makedev DEV_MAJOR_TTY_ALT 1.
Definition DEV_MMCBLK0 : Z := makedev DEV_MAJOR_MMC 0.

(** ** ASCII characters of the sources *)
Definition NUL : Z := 0.
Definition CH_SLASH : Z := 47.
Definition CH_DOT : Z := 46.
Definition CH_SPACE : Z := 32.
