(* ===== verification/Util.v ===== *)
(** Kernel string utilities (os/util.c).

    A [const char *] is the memory from the pointer to the end of the object
    it points into, as a list of bytes; NULL is [None].  Each loop counts the
    [max] argument down, so it is a fixpoint on [max]. *)
From S2P Require Import Prelude CDefs.

(** ** Definitions *)

Fixpoint strlen_constrained_loop (max : nat) (s : list Z) (len : Z) : res Z :=
  match max with
  | O => Ok len
  | S max' =>
      match s with
      | [] => Err FBounds
      | c :: s' =>
          if c =? NUL then Ok len
          else strlen_constrained_loop max' s' (u16 (len + 1))
      end
  end.

Definition strlen_constrained (s : option (list Z)) (max : Z) : res Z :=
  match s with
  | None => Ok 0
  | Some s => strlen_constrained_loop (Z.to_nat max) s 0
  end.

(** The loop runs while [max > 1]; [n] counts [max - 1] down to 0 and [i] is
    the distance of [dest] from the start of the destination buffer. *)
Fixpoint strcpy_constrained_loop
    (n : nat) (dest : list Z) (i : Z) (src : list Z) : res (list Z) :=
  match n with
  | O => wr dest i NUL
  | S n' =>
      match src with
      | [] => Err FBounds
      | c :: src' =>
          if c =? NUL then wr dest i NUL
          else dest' ← wr dest i c;
               strcpy_constrained_loop n' dest' (i + 1) src'
      end
  end.

Definition strcpy_constrained
    (dest : list Z) (src : option (list Z)) (max : Z) : res (list Z) :=
  match src with
  | None => wr dest 0 NUL
  | Some src => strcpy_constrained_loop (Z.to_nat (max - 1)) dest 0 src
  end.

Fixpoint str_is_too_long_loop (max : nat) (s : list Z) : res bool :=
  match max with
  | O => Ok true
  | S max' =>
      match s with
      | [] => Err FBounds
      | c :: s' => if c =? NUL then Ok false else str_is_too_long_loop max' s'
      end
  end.

Definition str_is_too_long (s : list Z) (max : Z) : res bool :=
  str_is_too_long_loop (Z.to_nat max) s.

Fixpoint strlen_path_component_loop (max : nat) (s : list Z) (len : Z) : res Z :=
  match max with
  | O => Ok len
  | S max' =>
      match s with
      | [] => Err FBounds
      | c :: s' =>
          if (c =? CH_SLASH) || (c =? NUL) then Ok len
          else strlen_path_component_loop max' s' (u16 (len + 1))
      end
  end.

Definition strlen_path_component (s : list Z) (max : Z) : res Z :=
  strlen_path_component_loop (Z.to_nat max) s 0.

Definition oflag_to_access_mode (oflag : Z) : Z :=
  let acc := Z.land oflag O_ACCMODE in
  if acc =? O_RDONLY then R_OK
  else if acc =? O_WRONLY then W_OK
  else if acc =? O_RDWR then Z.lor R_OK W_OK
  else X_OK.

Arguments strlen_constrained : simpl never.
Arguments strcpy_constrained : simpl never.
Arguments str_is_too_long : simpl never.
Arguments strlen_path_component : simpl never.

(** ** C strings

    [cstring s t]: the memory [s] holds the string [t], NUL-terminated. *)

Definition nonul (t : list Z) : Prop := Forall (λ c, c ≠ NUL) t.
Definition noslash (t : list Z) : Prop := Forall (λ c, c ≠ CH_SLASH) t.
Definition cstring (s t : list Z) : Prop :=
  nonul t ∧ ∃ junk, s = t ++ NUL :: junk.

Definition nonul_dec t : Decision (nonul t).
Proof. unfold nonul. apply _. Defined.
#[export] Hint Extern 0 (Decision (nonul _)) => apply nonul_dec : typeclass_instances.
Definition noslash_dec t : Decision (noslash t).
Proof. unfold noslash. apply _. Defined.
#[export] Hint Extern 0 (Decision (noslash _)) => apply noslash_dec : typeclass_instances.

Lemma cstring_intro t junk : nonul t → cstring (t ++ NUL :: junk) t.
Proof. split; eauto. Qed.

(** ** Correctness *)

Lemma strlen_constrained_loop_spec max s t len :
  cstring s t → 0 ≤ len → len + Z.of_nat max < 65536 →
  strlen_constrained_loop max s len
  = Ok (len + Z.min (zlen t) (Z.of_nat max)).
Proof.
  intros [Hn [junk ->]]. unfold zlen. revert max len.
  induction Hn as [|c t Hc Hn IH]; intros [|max] len ??; simpl; f_equal; try lia.
  rewrite (proj2 (Z.eqb_neq c NUL)) by done.
  rewrite IH; rewrite u16_small; (lia || f_equal; lia).
Qed.

Lemma strlen_constrained_spec max s t :
  cstring s t → 0 ≤ max < 65536 →
  strlen_constrained (Some s) max = Ok (Z.min (zlen t) max).
Proof.
  intros Hs Hm. unfold strlen_constrained.
  rewrite (strlen_constrained_loop_spec _ _ t) by (done || lia). f_equal. lia.
Qed.

Lemma strlen_path_component_loop_spec max t d junk len :
  nonul t → noslash t → d = NUL ∨ d = CH_SLASH →
  0 ≤ len → len + Z.of_nat max < 65536 →
  strlen_path_component_loop max (t ++ d :: junk) len
  = Ok (len + Z.min (zlen t) (Z.of_nat max)).
Proof.
  intros Hn Hs Hd. unfold zlen. revert max len Hs.
  induction Hn as [|c t Hc Hn IH]; intros [|max] len Hs ??; simpl; f_equal; try lia.
  - destruct Hd as [-> | ->]; simpl; f_equal; lia.
  - inversion Hs as [|? ? Hc' Hs']; subst.
    rewrite (proj2 (Z.eqb_neq c CH_SLASH)), (proj2 (Z.eqb_neq c NUL)) by done.
    simpl. rewrite IH; try done; rewrite u16_small; (lia || f_equal; lia).
Qed.

Lemma strlen_path_component_spec t d junk max :
  nonul t → noslash t → d = NUL ∨ d = CH_SLASH →
  0 ≤ max < 65536 → zlen t ≤ max →
  strlen_path_component (t ++ d :: junk) max = Ok (zlen t).
Proof.
  intros. unfold strlen_path_component.
  rewrite strlen_path_component_loop_spec by (done || lia). f_equal. lia.
Qed.

Lemma str_is_too_long_spec max s t :
  cstring s t → 0 ≤ max → str_is_too_long s max = Ok (max <=? zlen t).
Proof.
  intros [Hn [junk ->]] Hm. unfold str_is_too_long, zlen.
  rewrite <- (Z2Nat.id max) at 2 by done. generalize (Z.to_nat max) as n. clear Hm.
  induction Hn as [|c t Hc Hn IH]; intros [|n]; simpl; f_equal; try lia.
  rewrite (proj2 (Z.eqb_neq c NUL)) by done. rewrite IH. f_equal. lia.
Qed.

(** The destination always ends up NUL-terminated within [max] bytes and
    holds the longest prefix of the source that fits. *)
Lemma strcpy_constrained_loop_spec n d1 d2 src t :
  cstring src t → (n < length d2)%nat →
  ∃ d3, strcpy_constrained_loop n (d1 ++ d2) (zlen d1) src
        = Ok (d1 ++ take n t ++ NUL :: d3) ∧
        (length d3 + S (length (take n t)) = length d2)%nat.
Proof.
  intros [Hn [junk ->]]. revert n d1 d2.
  induction Hn as [|c t Hc Hn IH]; intros n d1 [|e d2] Hl; simpl in Hl; try lia.
  - exists d2. destruct n; simpl; rewrite wr_app_at; split; done || (simpl; lia).
  - destruct n as [|n]; simpl.
    + exists d2. rewrite wr_app_at. split; done || (simpl; lia).
    + rewrite (proj2 (Z.eqb_neq c NUL)) by done.
      rewrite wr_app_at. simpl.
      destruct (IH n (d1 ++ [c]) d2) as (d3 & E & El); [lia|].
      exists d3. rewrite <- !app_assoc in E. simpl in E.
      replace (zlen d1 + 1) with (zlen (d1 ++ [c]))
        by (unfold zlen; rewrite length_app; simpl; lia).
      rewrite E. split; [done|]. simpl. lia.
Qed.
