(* ===== verification/PathRes.v ===== *)
(** Path resolution (os/inode.c: inode_resolve_relative, inode_path_to_abs).

    The code resolves a path in place in a bounded output buffer.  The
    specification is on lists of components: "." is dropped, ".." removes the
    last component, any other component is appended if the rendered path
    still fits.  [resolve_refines] relates the two. *)
From S2P Require Import Prelude CDefs Util.

(** ** The code *)

(** while (pathname[0] == '/') { isdir = 1; ++pathname; } *)
Fixpoint skip_slashes (pathname : list Z) (isdir : Z) : list Z * Z :=
  match pathname with
  | c :: rest => if c =? CH_SLASH then skip_slashes rest 1 else (pathname, isdir)
  | [] => ([], isdir)
  end.

(** while (posn > 1 && out[posn - 1] != '/') --posn; *)
Fixpoint strip_component (posn : nat) (out : list Z) : res nat :=
  match posn with
  | S (S _ as m) =>
      c ← rd out (Z.of_nat m);
      if c =? CH_SLASH then Ok posn else strip_component m out
  | _ => Ok posn
  end.

(** The ".." branch: the new position and directory flag. *)
Definition resolve_dotdot (out : list Z) (posn : Z) : res (Z * Z) :=
  if posn >? 1 then
    p ← strip_component (Z.to_nat posn) out;
    let posn := Z.of_nat p in
    if posn >? 1 then Ok (posn - 1, 0) else Ok (posn, 1)
  else Ok (posn, 1).

(** Appending a component: if (posn > 1) out[posn++] = '/'; *)
Definition append_slash (out : list Z) (posn : Z) : res (list Z * Z) :=
  if posn >? 1 then
    out' ← wr out posn CH_SLASH; Ok (out', u16 (posn + 1))
  else Ok (out, posn).

(** The for (;;) loop.  The result is the return value and the buffer. *)
Fixpoint resolve_loop (fuel : nat) (out : list Z) (outlen posn isdir : Z)
    (pathname : list Z) : res (Z * list Z) :=
  match fuel with
  | O => Err FFuel
  | S fuel =>
      let '(pathname, isdir) := skip_slashes pathname isdir in
      c0 ← rd pathname 0;
      if c0 =? NUL then out' ← wr out posn NUL; Ok (isdir, out')
      else
        len ← strlen_path_component pathname CONFIG_PATH_MAX;
        if (c0 =? CH_DOT) && (len =? 1) then
          resolve_loop fuel out outlen posn isdir (drop 1 pathname)
        else
          dotdot ← (if (c0 =? CH_DOT) && (len =? 2)
                    then c1 ← rd pathname 1; Ok (c1 =? CH_DOT)
                    else Ok false);
          if (dotdot : bool) then
            '(posn, isdir) ← resolve_dotdot out posn;
            resolve_loop fuel out outlen posn isdir (drop 2 pathname)
          else
            '(out, posn) ← append_slash out posn;
            if u16 (posn + len) >=? outlen then Ok (- ENAMETOOLONG, out)
            else
              out ← memcpy out posn pathname len;
              resolve_loop fuel out outlen (u16 (posn + len)) 0
                (drop (Z.to_nat len) pathname)
  end.

(** The loop body consumes at least one character of [pathname], so the
    length of the string bounds the number of iterations. *)
Definition inode_resolve_relative (out : list Z) (outlen posn : Z)
    (pathname : list Z) : res (Z * list Z) :=
  resolve_loop (S (length pathname)) out outlen posn
    (if posn =? 1 then 1 else 0) pathname.

Definition inode_path_to_abs (cwd : list Z) (out : list Z) (outlen : Z)
    (pathname : option (list Z)) : res (Z * list Z) :=
  match pathname with
  | None => Ok (- EFAULT, out)
  | Some pathname =>
      c0 ← rd pathname 0;
      if c0 =? NUL then Ok (- EINVAL, out)
      else
        toolong ← str_is_too_long pathname (CONFIG_PATH_MAX - 1);
        if (toolong : bool) then Ok (- ENAMETOOLONG, out)
        else if c0 =? CH_SLASH then
          if outlen <? 2 then Ok (- ENAMETOOLONG, out)
          else
            out ← wr out 0 CH_SLASH;
            inode_resolve_relative out outlen 1 (drop 1 pathname)
        else
          posn ← strlen_constrained (Some cwd) CONFIG_PATH_MAX;
          if u16 (posn + 1) >=? outlen then Ok (- ENAMETOOLONG, out)
          else
            out ← memcpy out 0 cwd posn;
            inode_resolve_relative out outlen posn pathname
  end.

(** ** Specification on component lists *)

Definition dot : list Z := [CH_DOT].
Definition dotdot : list Z := [CH_DOT; CH_DOT].

Fixpoint components_aux (acc p : list Z) : list (list Z) :=
  match p with
  | [] => if decide (acc = []) then [] else [acc]
  | c :: p' =>
      if c =? CH_SLASH
      then (if decide (acc = []) then [] else [acc]) ++ components_aux [] p'
      else components_aux (acc ++ [c]) p'
  end.

(** The non-empty components of a path. *)
Definition components (p : list Z) : list (list Z) := components_aux [] p.

Definition join (base : list (list Z)) : list Z :=
  concat ((λ c, CH_SLASH :: c) <$> base).

(** The absolute path of a component list. *)
Definition render (base : list (list Z)) : list Z :=
  match base with [] => [CH_SLASH] | _ => join base end.

Definition resolve_step (outlen : Z) (base : list (list Z)) (c : list Z)
    : option (list (list Z)) :=
  if decide (c = dot) then Some base
  else if decide (c = dotdot) then Some (removelast base)
  else if zlen (render (base ++ [c])) >=? outlen then None
  else Some (base ++ [c]).

Fixpoint resolve_path (outlen : Z) (base : list (list Z)) (cs : list (list Z))
    : option (list (list Z)) :=
  match cs with
  | [] => Some base
  | c :: cs => base' ← resolve_step outlen base c; resolve_path outlen base' cs
  end.

(** A component that can occur in a resolved path. *)
Definition wf_name (c : list Z) : Prop :=
  c ≠ [] ∧ nonul c ∧ noslash c ∧ c ≠ dot ∧ c ≠ dotdot.
Definition wf_path (base : list (list Z)) : Prop := Forall wf_name base.

Definition wf_name_dec c : Decision (wf_name c).
Proof. unfold wf_name. apply _. Defined.
#[export] Hint Extern 0 (Decision (wf_name _)) => apply wf_name_dec : typeclass_instances.
Definition wf_path_dec base : Decision (wf_path base).
Proof. unfold wf_path. apply _. Defined.
#[export] Hint Extern 0 (Decision (wf_path _)) => apply wf_path_dec : typeclass_instances.

(** ** Lemmas on components and rendering *)

Lemma components_aux_span acc t p :
  noslash t → components_aux acc (t ++ p) = components_aux (acc ++ t) p.
Proof.
  intros Hs. revert acc. induction Hs as [|c t Hc _ IH]; intros acc; simpl.
  - by rewrite app_nil_r.
  - rewrite (proj2 (Z.eqb_neq c CH_SLASH)) by done.
    by rewrite IH, <- app_assoc.
Qed.

Lemma components_slash p : components (CH_SLASH :: p) = components p.
Proof. done. Qed.

Lemma components_cons t p :
  t ≠ [] → noslash t → (p = [] ∨ ∃ p', p = CH_SLASH :: p') →
  components (t ++ p) = t :: components p.
Proof.
  intros Ht Hs Hp. unfold components. rewrite components_aux_span by done. simpl.
  destruct Hp as [-> | [p' ->]]; simpl; by rewrite decide_False by done.
Qed.

Lemma skip_slashes_components p isdir rest isdir' :
  skip_slashes p isdir = (rest, isdir') →
  components rest = components p ∧ (length rest ≤ length p)%nat ∧
  (∀ P, Forall P p → Forall P rest) ∧ head rest ≠ Some CH_SLASH ∧
  (isdir' = isdir ∨ isdir' = 1).
Proof.
  revert isdir. induction p as [|c p IH]; simpl; intros isdir.
  - intros [= <- <-]. split_and!; auto.
  - destruct (Z.eqb_spec c CH_SLASH) as [-> | Hc].
    + intros (H1 & H2 & H3 & H4 & H5)%IH. rewrite components_slash.
      split_and!; [done | lia | | done | by right; destruct H5].
      intros P HP. inversion HP; subst. auto.
    + intros [= <- <-]. split_and!; auto. simpl. congruence.
Qed.

(** [skip_slashes] does not look past the terminating NUL. *)
Lemma skip_slashes_nul p junk isdir :
  skip_slashes (p ++ NUL :: junk) isdir
  = let '(rest, isdir') := skip_slashes p isdir in (rest ++ NUL :: junk, isdir').
Proof.
  revert isdir. induction p as [|c p IH]; intros isdir; simpl; [done|].
  destruct (c =? CH_SLASH); [apply IH | done].
Qed.

(** The first component of a path that does not start with a slash. *)
Lemma first_component c p :
  c ≠ CH_SLASH →
  ∃ t p', c :: p = t ++ p' ∧ t ≠ [] ∧ noslash t ∧
          (p' = [] ∨ ∃ p'', p' = CH_SLASH :: p'').
Proof.
  revert c. induction p as [|d p IH]; intros c Hc.
  - exists [c], []. split_and!; [done..| by constructor | by left].
  - destruct (decide (d = CH_SLASH)) as [-> | Hd].
    + exists [c], (CH_SLASH :: p). split_and!; [done..| by constructor | eauto].
    + destruct (IH d Hd) as (t & p' & E & Ht & Hs & Hp).
      exists (c :: t), p'. rewrite E. split_and!; [done..| by constructor | done].
Qed.

Lemma join_app b1 b2 : join (b1 ++ b2) = join b1 ++ join b2.
Proof. unfold join. by rewrite fmap_app, concat_app. Qed.

Lemma join_one c : join [c] = CH_SLASH :: c.
Proof. unfold join. simpl. by rewrite app_nil_r. Qed.

Lemma render_snoc b c : render (b ++ [c]) = join b ++ CH_SLASH :: c.
Proof.
  rewrite <- join_one, <- join_app. by destruct b.
Qed.

Lemma render_length b : (1 ≤ length (render b))%nat.
Proof. destruct b; simpl; lia. Qed.

Lemma join_length_pos b : b ≠ [] → wf_path b → (2 ≤ length (join b))%nat.
Proof.
  intros Hb Hwf. destruct Hwf as [|c b [Hc _] _]; [done|].
  unfold join. simpl. rewrite length_app. destruct c; simpl; [done|lia].
Qed.

Lemma join_le_render b : zlen (join b) ≤ zlen (render b).
Proof. by destruct b. Qed.

Lemma render_length_1 b :
  wf_path b → length (render b) = 1%nat ↔ b = [].
Proof.
  intros Hwf. split; [|by intros ->].
  destruct b as [|c b]; [done|]. intros E.
  pose proof (join_length_pos (c :: b) ltac:(done) Hwf). simpl in *. lia.
Qed.

Lemma strip_component_SS m out :
  strip_component (S (S m)) out
  = (c ← rd out (Z.of_nat (S m));
     if c =? CH_SLASH then Ok (S (S m)) else strip_component (S m) out).
Proof. done. Qed.

Lemma strip_component_spec x c rest :
  noslash c →
  strip_component (length x + 1 + length c) (x ++ CH_SLASH :: c ++ rest)
  = Ok (length x + 1)%nat.
Proof.
  intros Hc. induction c as [|d c IH] using rev_ind in rest, Hc |- *.
  - simpl. rewrite Nat.add_0_r, Nat.add_1_r. destruct x as [|e x]; [done|].
    cbn [length]. rewrite strip_component_SS.
    change (Z.of_nat (S (length x))) with (zlen (e :: x)).
    by rewrite rd_app_at.
  - apply Forall_app in Hc as [Hc Hd].
    inversion Hd as [|?? Hd' _]; subst.
    rewrite length_app. simpl. rewrite <- app_assoc. simpl.
    replace (length x + 1 + (length c + 1))%nat
      with (S (S (length x + length c))) by lia.
    rewrite strip_component_SS.
    replace (Z.of_nat (S (length x + length c)))
      with (zlen (x ++ CH_SLASH :: c))
      by (unfold zlen; rewrite length_app; simpl; lia).
    replace (x ++ CH_SLASH :: c ++ d :: rest)
      with ((x ++ CH_SLASH :: c) ++ d :: rest) by (by rewrite <- app_assoc).
    rewrite rd_app_at. cbn [mbind res_bind].
    rewrite (proj2 (Z.eqb_neq d CH_SLASH)) by done.
    rewrite <- app_assoc. cbn [app].
    replace (S (length x + length c)) with (length x + 1 + length c)%nat by lia.
    by apply IH.
Qed.

Lemma resolve_dotdot_spec base rest :
  wf_path base →
  resolve_dotdot (render base ++ rest) (zlen (render base))
  = Ok (zlen (render (removelast base)),
        if decide (removelast base = []) then 1 else 0).
Proof.
  intros Hwf. unfold resolve_dotdot, zlen.
  destruct (exists_last_or_nil base) as [-> | (b & c & ->)]; [done|].
  apply Forall_app in Hwf as [Hb Hc]. inversion Hc as [|?? Hc' _]; subst.
  rewrite render_snoc, removelast_last, <- app_assoc, length_app. cbn [app length].
  destruct (decide (b = [])) as [-> | Hne].
  - destruct c as [|d c]; [by destruct Hc'|]. cbn [join fmap list_fmap concat length].
    replace (_ >? 1) with true by (simpl; lia). rewrite Nat2Z.id.
    pose proof (strip_component_spec [] (d :: c) rest) as Hs.
    simpl in Hs |- *. rewrite Hs by apply Hc'. done.
  - pose proof (join_length_pos b Hne Hb).
    replace (_ >? 1) with true by lia. rewrite Nat2Z.id.
    replace (length (join b) + S (length c))%nat
      with (length (join b) + 1 + length c)%nat by lia.
    rewrite strip_component_spec by apply Hc'. cbn [mbind res_bind].
    replace (_ >? 1) with true by lia.
    destruct b; [done|]. simpl. f_equal. f_equal. lia.
Qed.

(** Appending a component in the buffer is appending it to the list. *)
Lemma append_slash_spec base rest t src :
  wf_path base → zlen (render base) < zlen (render base ++ rest) →
  zlen (render base ++ rest) < 65535 →
  ∃ out posn, append_slash (render base ++ rest) (zlen (render base)) = Ok (out, posn) ∧
    posn + zlen t = zlen (render (base ++ [t])) ∧
    zlen out = zlen (render base ++ rest) ∧
    (zlen (render (base ++ [t])) < zlen (render base ++ rest) → ∃ rest',
       memcpy out posn (t ++ src) (zlen t) = Ok (render (base ++ [t]) ++ rest')).
Proof.
  intros Hwf Hlt Hb. rewrite render_snoc.
  assert (∃ out1 x y, append_slash (render base ++ rest) (zlen (render base))
                    = Ok (out1, zlen x) ∧ x = join base ++ [CH_SLASH] ∧
                      out1 = x ++ y ∧ zlen (x ++ y) = zlen (render base ++ rest))
    as (out1 & x & y & -> & -> & -> & El).
  { unfold append_slash. destruct (decide (base = [])) as [-> | Hne].
    - by exists (CH_SLASH :: rest), [CH_SLASH], rest.
    - pose proof (join_length_pos base Hne Hwf).
      replace (render base) with (join base) in * by by destruct base.
      replace (zlen (join base) >? 1) with true by (unfold zlen; lia).
      destruct rest as [|e rest]; [rewrite app_nil_r in *; lia|].
      rewrite wr_app_at. cbn [mbind res_bind].
      exists (join base ++ CH_SLASH :: rest), (join base ++ [CH_SLASH]), rest.
      rewrite <- app_assoc. split_and!; try done.
      + do 2 f_equal. rewrite u16_small; len_lia.
      + len_lia. }
  exists ((join base ++ [CH_SLASH]) ++ y), (zlen (join base ++ [CH_SLASH])).
  split; [done|]. split; [len_lia|].
  split; [done|]. intros Hfit.
  assert (length t ≤ length y)%nat as Hty.
  { rewrite <- El in Hfit. len_lia. }
  exists (drop (length t) y). rewrite <- (take_drop (length t) y) at 1.
  rewrite memcpy_app_at by (rewrite length_take; lia).
  by rewrite <- !app_assoc.
Qed.

Lemma dot_test c t :
  (c =? CH_DOT) && (zlen (c :: t) =? 1) = bool_decide (c :: t = dot).
Proof.
  unfold dot, zlen. apply eq_true_iff_eq. rewrite bool_decide_eq_true.
  split; [|by intros [= -> ->]].
  intros; to_prop; subst. destruct t; simpl in *; [done|lia].
Qed.

Lemma dotdot_test c t src :
  (if (c =? CH_DOT) && (zlen (c :: t) =? 2)
   then c1 ← rd ((c :: t) ++ src) 1; Ok (c1 =? CH_DOT)
   else Ok false) = Ok (bool_decide (c :: t = dotdot)).
Proof.
  destruct (_ && _) eqn:E; to_prop; unfold zlen in *; simpl in *.
  - destruct t as [|d [|]]; simpl in *; try lia. cbn. f_equal.
    apply eq_true_iff_eq. rewrite bool_decide_eq_true, Z.eqb_eq. subst.
    unfold dotdot. naive_solver.
  - f_equal. symmetry. apply bool_decide_eq_false. intros [= -> ->]. done.
Qed.

Lemma removelast_wf base : wf_path base → wf_path (removelast base).
Proof.
  destruct (exists_last_or_nil base) as [-> | (b & c & ->)]; [done|].
  rewrite removelast_last. by intros [? _]%Forall_app.
Qed.

(** The parent's path is a prefix of the path, so the buffer already holds it. *)
Lemma render_removelast base :
  ∃ x, render base = render (removelast base) ++ x.
Proof.
  destruct (exists_last_or_nil base) as [-> | (b & c & ->)]; [by exists []|].
  rewrite removelast_last, render_snoc. destruct b as [|d b].
  - by exists c.
  - by exists (CH_SLASH :: c).
Qed.

(** ** Refinement *)

Lemma skip_slashes_id q isdir :
  head q ≠ Some CH_SLASH → skip_slashes q isdir = (q, isdir).
Proof.
  destruct q as [|c q]; [done|]. simpl. intros Hc.
  by rewrite (proj2 (Z.eqb_neq c CH_SLASH)) by congruence.
Qed.

(** One iteration of the loop on a path that starts with the component [t]. *)
Lemma resolve_loop_component fuel out outlen posn isdir t p junk :
  t ≠ [] → nonul t → noslash t → zlen t ≤ CONFIG_PATH_MAX →
  (p = [] ∨ ∃ p', p = CH_SLASH :: p') →
  resolve_loop (S fuel) out outlen posn isdir (t ++ p ++ NUL :: junk)
  = if decide (t = dot) then
      resolve_loop fuel out outlen posn isdir (p ++ NUL :: junk)
    else if decide (t = dotdot) then
      '(posn, isdir) ← resolve_dotdot out posn;
      resolve_loop fuel out outlen posn isdir (p ++ NUL :: junk)
    else
      '(out, posn) ← append_slash out posn;
      if u16 (posn + zlen t) >=? outlen then Ok (- ENAMETOOLONG, out)
      else
        out ← memcpy out posn (t ++ p ++ NUL :: junk) (zlen t);
        resolve_loop fuel out outlen (u16 (posn + zlen t)) 0 (p ++ NUL :: junk).
Proof.
  intros Ht Hn Hs Hl Hp. destruct t as [|c t]; [done|].
  inversion Hn as [|?? Hc _]; inversion Hs as [|?? Hc' _]; subst.
  cbn [resolve_loop]. rewrite skip_slashes_id by (simpl; congruence).
  replace (rd _ 0) with (Ok c) by done. cbn [mbind res_bind].
  rewrite (proj2 (Z.eqb_neq c NUL)) by done.
  assert (∃ d tl, p ++ NUL :: junk = d :: tl ∧ (d = NUL ∨ d = CH_SLASH))
    as (d & tl & E & Hd) by (destruct Hp as [-> | [p' ->]]; simpl; eauto).
  rewrite E, strlen_path_component_spec by done. cbn [mbind res_bind].
  rewrite dot_test, dotdot_test. cbn [mbind res_bind].
  case_decide as Hdot.
  { rewrite Hdot, bool_decide_eq_true_2 by done. done. }
  rewrite bool_decide_eq_false_2 by done. case_decide as Hdd.
  { rewrite Hdd, bool_decide_eq_true_2 by done. done. }
  rewrite bool_decide_eq_false_2 by done.
  replace (Z.to_nat (zlen (c :: t))) with (length (c :: t)) by len_lia.
  by rewrite drop_app_length.
Qed.

Lemma resolve_loop_skip fuel out outlen posn isdir p q isdir' junk :
  skip_slashes p isdir = (q, isdir') → head q ≠ Some CH_SLASH →
  resolve_loop (S fuel) out outlen posn isdir (p ++ NUL :: junk)
  = resolve_loop (S fuel) out outlen posn isdir' (q ++ NUL :: junk).
Proof.
  intros Hs Hq. cbn [resolve_loop]. rewrite !skip_slashes_nul, Hs.
  by rewrite skip_slashes_id.
Qed.

(** The outcome of a resolution, against the specification's. *)
Definition resolve_outcome (m : res (Z * list Z)) (outlen : Z)
    (spec : option (list (list Z))) : Prop :=
  ∃ r out, m = Ok (r, out) ∧ zlen out = outlen ∧
    match spec with
    | Some b => (r = 0 ∨ r = 1) ∧ wf_path b ∧ ∃ rest, out = render b ++ NUL :: rest
    | None => r = - ENAMETOOLONG
    end.

Lemma resolve_loop_refines fuel base rest isdir p junk outlen :
  wf_path base → nonul p → zlen p < CONFIG_PATH_MAX →
  outlen = zlen (render base ++ rest) → zlen (render base) < outlen < 65535 - CONFIG_PATH_MAX →
  (length p < fuel)%nat → isdir = 0 ∨ isdir = 1 →
  resolve_outcome
    (resolve_loop fuel (render base ++ rest) outlen (zlen (render base)) isdir
       (p ++ NUL :: junk))
    outlen (resolve_path outlen base (components p)).
Proof.
  unfold CONFIG_PATH_MAX. revert base rest isdir p.
  induction fuel as [|fuel IH]; intros base rest isdir p Hwf Hn Hp Ho Hlt Hf Hd; [lia|].
  destruct (skip_slashes p isdir) as [q isdir'] eqn:Hq.
  pose proof Hq as (<- & Hlen & HP & Hhd & Hd')%skip_slashes_components.
  rewrite (resolve_loop_skip _ _ _ _ _ _ _ _ _ Hq Hhd).
  apply HP in Hn. assert (isdir' = 0 ∨ isdir' = 1) as Hd2 by (destruct Hd' as [-> | ->]; auto).
  clear Hd' HP.
  destruct q as [|c q].
  { destruct rest as [|e rest]; [len_lia|]. simpl. rewrite wr_app_at.
    do 2 eexists. split_and!; [done | len_lia | done | done | eauto]. }
  destruct (first_component c q) as (t & p' & E & Ht & Hs & Hp');
    [by intros -> |].
  rewrite E in *. apply Forall_app in Hn as [Hnt Hnp'].
  rewrite components_cons, <- app_assoc by done.
  rewrite resolve_loop_component by (done || unfold CONFIG_PATH_MAX; len_lia).
  cbn [resolve_path]. unfold resolve_step.
  assert (0 < length t)%nat by (destruct t; simpl; [done|lia]).
  case_decide; [apply IH; done || len_lia|].
  case_decide.
  { rewrite resolve_dotdot_spec by done. cbn [mbind res_bind option_bind].
    destruct (render_removelast base) as [x Hx]. rewrite Hx, <- app_assoc in *.
    apply IH; try done; [by apply removelast_wf | len_lia | len_lia | len_lia |].
    case_decide; auto. }
  destruct (append_slash_spec base rest t (p' ++ NUL :: junk))
    as (out & posn & -> & Epos & Eout & Hcpy); [done | lia | lia |].
  cbn [mbind res_bind]. rewrite Epos.
  pose proof (zlen_nonneg (render (base ++ [t]))).
  assert (zlen (render (base ++ [t])) < 65536) as Hw.
  { rewrite render_snoc, zlen_app, zlen_cons in *.
    pose proof (join_le_render base). len_lia. }
  rewrite u16_small by lia. rewrite Z.geb_leb.
  destruct (Z.leb_spec outlen (zlen (render (base ++ [t])))).
  { exists (- ENAMETOOLONG), out. split_and!; [done | lia | done]. }
  destruct Hcpy as [rest' Hcpy]; [lia|]. rewrite Hcpy. cbn [mbind res_bind option_bind].
  apply memcpy_length in Hcpy.
  apply IH; try done; [| len_lia | len_lia | len_lia | len_lia | by left].
  apply Forall_app; split; [done|]. apply Forall_singleton. by split_and!.
Qed.

(** What inode_path_to_abs promises for the path [p] in the working directory
    [base]: the component list of the result, or [None] for -ENAMETOOLONG. *)
Definition path_spec (outlen : Z) (base : list (list Z)) (p : list Z)
    : option (list (list Z)) :=
  if CONFIG_PATH_MAX - 1 <=? zlen p then None
  else if decide (head p = Some CH_SLASH) then resolve_path outlen [] (components p)
  else if zlen (render base) + 1 >=? outlen then None
  else resolve_path outlen base (components p).

Lemma cstring_head s t : cstring s t → rd s 0 = Ok (default NUL (head t)).
Proof. intros [_ [junk ->]]. by destruct t. Qed.

Lemma resolve_relative_refines out base rest p junk :
  out = render base ++ rest → wf_path base → nonul p → zlen p < CONFIG_PATH_MAX →
  zlen (render base) < zlen out < 65535 - CONFIG_PATH_MAX →
  resolve_outcome
    (inode_resolve_relative out (zlen out) (zlen (render base)) (p ++ NUL :: junk))
    (zlen out) (resolve_path (zlen out) base (components p)).
Proof.
  intros -> Hwf Hn Hp Hlt. unfold inode_resolve_relative.
  apply resolve_loop_refines; try done; [len_lia|]. case_match; auto.
Qed.

Lemma memcpy_prefix (b src src' : list Z) :
  zlen src ≤ zlen b → ∃ b', memcpy b 0 (src ++ src') (zlen src) = Ok (src ++ b').
Proof.
  intros Hl. exists (drop (length src) b).
  pose proof (memcpy_app_at [] (take (length src) b) (drop (length src) b) src src') as E.
  cbn [app] in E. rewrite take_drop in E. apply E. len_lia.
Qed.

Lemma path_to_abs_outcome cwd base out pathname p :
  cstring cwd (render base) → wf_path base → zlen (render base) < CONFIG_PATH_MAX →
  cstring pathname p → p ≠ [] → 2 ≤ zlen out < 65535 - CONFIG_PATH_MAX →
  resolve_outcome (inode_path_to_abs cwd out (zlen out) (Some pathname))
    (zlen out) (path_spec (zlen out) base p).
Proof.
  intros Hcwd Hwf Hb Hp Hne Hout. unfold inode_path_to_abs, path_spec.
  rewrite (cstring_head _ _ Hp). destruct p as [|c p]; [done|]. simpl.
  pose proof Hp as [Hn [junk ->]]. inversion Hn as [|?? Hc Hn']; subst.
  rewrite (proj2 (Z.eqb_neq c NUL)) by done.
  rewrite (str_is_too_long_spec _ _ _ Hp) by done. cbn [mbind res_bind].
  destruct (Z.leb_spec (CONFIG_PATH_MAX - 1) (zlen (c :: p))) as [|Hlen].
  { exists (- ENAMETOOLONG), out. done. }
  destruct (Z.eqb_spec c CH_SLASH) as [-> | Hcs].
  - rewrite decide_True by done. replace (zlen out <? 2) with false by lia.
    destruct out as [|e out]; [len_lia|].
    change (wr (e :: out) 0 CH_SLASH) with (Ok (render [] ++ out)).
    rewrite components_slash. cbn [mbind res_bind].
    change (zlen (e :: out)) with (zlen (render [] ++ out)) in *.
    apply (resolve_relative_refines _ [] out p junk);
      [done | by constructor | done | len_lia | cbn [render app] in *; len_lia].
  - rewrite decide_False by congruence.
    rewrite (strlen_constrained_spec _ _ _ Hcwd) by done.
    rewrite Z.min_l by lia. cbn [mbind res_bind]. pose proof (zlen_nonneg (render base)).
    unfold CONFIG_PATH_MAX in Hb. rewrite u16_small, Z.geb_leb by lia.
    destruct (Z.leb_spec (zlen out) (zlen (render base) + 1)).
    { exists (- ENAMETOOLONG), out. done. }
    destruct Hcwd as [_ [junk' ->]].
    destruct (memcpy_prefix out (render base) (NUL :: junk')) as [rest E]; [lia|].
    rewrite E. apply memcpy_length in E. cbn [mbind res_bind].
    replace (zlen out) with (zlen (render base ++ rest)) in * by len_lia.
    eapply resolve_relative_refines; try done; unfold CONFIG_PATH_MAX in *; len_lia.
Qed.

(** ** Properties of the specification *)

Lemma render_nonul b : wf_path b → nonul (render b).
Proof.
  intros Hwf. assert (nonul (join b)) as Hj.
  { induction Hwf as [|c b (_ & Hn & _) _ IH]; [by constructor|].
    change (join (c :: b)) with (CH_SLASH :: c ++ join b).
    constructor; [done|]. apply Forall_app. done. }
  destruct b; [by constructor | done].
Qed.

Lemma components_join b : wf_path b → components (join b) = b.
Proof.
  induction 1 as [|c b (Hc & _ & Hs & _) Hb IH]; [done|].
  change (join (c :: b)) with (CH_SLASH :: c ++ join b).
  rewrite components_slash, components_cons, IH; try done.
  destruct b; simpl; eauto.
Qed.

Lemma resolve_path_self outlen b1 b2 :
  wf_path b2 → zlen (render (b1 ++ b2)) < outlen →
  resolve_path outlen b1 b2 = Some (b1 ++ b2).
Proof.
  intros Hwf. revert b1. induction Hwf as [|c b2 (Hc & _ & _ & Hd & Hdd) _ IH];
    intros b1 Hl; [by rewrite app_nil_r|].
  cbn [resolve_path]. unfold resolve_step. rewrite !decide_False by done.
  assert (zlen (render (b1 ++ [c])) ≤ zlen (render (b1 ++ c :: b2))) as Hle.
  { rewrite render_snoc. replace (render (b1 ++ c :: b2)) with (join (b1 ++ c :: b2))
      by by destruct b1.
    rewrite join_app. change (join (c :: b2)) with (CH_SLASH :: c ++ join b2). len_lia. }
  replace (_ >=? _) with false by lia. cbn [mbind option_bind].
  rewrite IH; rewrite <- app_assoc; done.
Qed.

Lemma path_spec_idempotent outlen base b :
  wf_path b → zlen (render b) < CONFIG_PATH_MAX - 1 → zlen (render b) < outlen →
  path_spec outlen base (render b) = Some b.
Proof.
  intros Hwf Hl Ho. unfold path_spec.
  replace (_ <=? _) with false by lia.
  rewrite decide_True by (by destruct b).
  replace (components (render b)) with b
    by (destruct b; [done|]; symmetry; by apply components_join).
  by rewrite resolve_path_self.
Qed.

(** The room the components of a path take in the output. *)
Definition room (cs : list (list Z)) : Z :=
  foldr (λ c n, zlen c + 1 + n) 0 cs.

Lemma room_nonneg cs : 0 ≤ room cs.
Proof. induction cs as [|c cs IH]; simpl; [done|]. pose proof (zlen_nonneg c). lia. Qed.

Lemma room_app cs1 cs2 : room (cs1 ++ cs2) = room cs1 + room cs2.
Proof. induction cs1 as [|c cs1 IH]; simpl; lia. Qed.

Lemma room_components p : room (components p) ≤ zlen p + 1.
Proof.
  enough (∀ acc, room (components_aux acc p) ≤ zlen acc + zlen p + 1) as H
    by (specialize (H []); unfold components; len_lia).
  induction p as [|c p IH]; intros acc; simpl.
  - case_decide; simpl; [|len_lia]. subst. len_lia.
  - destruct (c =? CH_SLASH).
    + rewrite room_app. specialize (IH []). case_decide; simpl; len_lia.
    + specialize (IH (acc ++ [c])). len_lia.
Qed.

Lemma join_removelast base : zlen (join (removelast base)) ≤ zlen (join base).
Proof.
  destruct (exists_last_or_nil base) as [-> | (b & c & ->)]; [done|].
  rewrite removelast_last, join_app. len_lia.
Qed.

Lemma join_snoc_zlen b c : zlen (join (b ++ [c])) = zlen (join b) + 1 + zlen c.
Proof. rewrite join_app, join_one. len_lia. Qed.

Lemma resolve_path_fits outlen base cs :
  zlen (join base) + room cs < outlen → is_Some (resolve_path outlen base cs).
Proof.
  revert base. induction cs as [|c cs IH]; intros base Hr; simpl in *; [eauto|].
  pose proof (zlen_nonneg c). pose proof (join_snoc_zlen base c).
  pose proof (room_nonneg cs). unfold resolve_step.
  case_decide; [apply IH; lia|]. case_decide; simpl.
  - apply IH. pose proof (join_removelast base). lia.
  - assert (zlen (render (base ++ [c])) = zlen (join base) + 1 + zlen c) as -> by (rewrite render_snoc; len_lia).
    replace (_ >=? _) with false by lia. apply IH. lia.
Qed.

(** The length of the absolute path that [p] stands for, before "." and ".."
    and the repeated slashes are taken out. *)
Definition absolute_length (base : list (list Z)) (p : list Z) : Z :=
  if decide (head p = Some CH_SLASH) then zlen p else zlen (join base) + 1 + zlen p.

Lemma path_spec_fits outlen base p :
  p ≠ [] → zlen p < CONFIG_PATH_MAX - 1 → absolute_length base p < outlen →
  is_Some (path_spec outlen base p).
Proof.
  unfold absolute_length. intros Hne Hp Ho. unfold path_spec.
  replace (_ <=? _) with false by lia. case_decide as Habs.
  - destruct p as [|c p]; [done|]. injection Habs as ->. apply resolve_path_fits.
    rewrite components_slash. pose proof (room_components p). change (zlen (join [])) with 0. len_lia.
  - destruct p as [|c p]; [done|]. pose proof (room_components (c :: p)). pose proof (zlen_nonneg p).
    assert (zlen (render base) + 1 < outlen) by
      (destruct base as [|d b]; [change (zlen (render [])) with 1; change (zlen (join [])) with 0 in Ho; len_lia|
       change (render (d :: b)) with (join (d :: b)); len_lia]).
    replace (_ >=? _) with false by lia. apply resolve_path_fits. lia.
Qed.

(** ** Theorems about inode_path_to_abs *)

Section Theorems.
Context (cwd : list Z) (base : list (list Z)) (out : list Z).
Context (Hcwd : cstring cwd (render base)) (Hwf : wf_path base).
Context (Hbase : zlen (render base) < CONFIG_PATH_MAX).
Context (Hout : 2 ≤ zlen out < 65535 - CONFIG_PATH_MAX).

(** C23: [inode_path_to_abs] terminates without accessing memory outside of
    the path, the working directory or the output buffer, and computes the
    specified absolute path: "." components are dropped, ".." removes the
    last component and stays at the root, repeated slashes are collapsed,
    relative paths start at the working directory; -ENAMETOOLONG is returned
    exactly when the path or an intermediate result does not fit. *)
Theorem inode_path_to_abs_refines pathname p :
  cstring pathname p → p ≠ [] →
  resolve_outcome (inode_path_to_abs cwd out (zlen out) (Some pathname))
    (zlen out) (path_spec (zlen out) base p).
Proof. intros. by apply path_to_abs_outcome. Qed.

(** Resolution is stable on its own results: a resolved absolute path of
    at most 62 characters that fits in the output buffer resolves to itself,
    whatever the working directory is. *)
Theorem inode_path_to_abs_idempotent b junk :
  wf_path b → zlen (render b) < CONFIG_PATH_MAX - 1 → zlen (render b) < zlen out →
  ∃ r rest, inode_path_to_abs cwd out (zlen out) (Some (render b ++ NUL :: junk))
            = Ok (r, render b ++ NUL :: rest) ∧ (r = 0 ∨ r = 1).
Proof.
  intros Hb Hl Ho.
  destruct (path_to_abs_outcome cwd base out (render b ++ NUL :: junk) (render b))
    as (r & out' & E & _ & H); try done; [| by destruct b |].
  { split; [by apply render_nonul | eauto]. }
  rewrite path_spec_idempotent in H by done.
  destruct H as (Hr & _ & rest & ->). eauto.
Qed.

(** C24: no spurious -ENAMETOOLONG: a non-empty path of at most 62 characters
    resolves whenever the absolute path that it stands for, as it is written,
    leaves room for the terminator in the output buffer.  For an absolute path
    that is the path itself, whatever the working directory is, so that with the
    buffers of 64 bytes of the kernel no absolute path of up to 62 characters
    is refused; a relative path needs room for the working directory and a
    slash as well. *)
Theorem inode_path_to_abs_fits pathname p :
  cstring pathname p → p ≠ [] → zlen p < CONFIG_PATH_MAX - 1 →
  absolute_length base p < zlen out →
  ∃ r b rest, inode_path_to_abs cwd out (zlen out) (Some pathname)
              = Ok (r, render b ++ NUL :: rest) ∧ 0 ≤ r ∧ wf_path b.
Proof.
  intros Hp Hne Hl Ho.
  destruct (path_to_abs_outcome cwd base out pathname p)
    as (r & out' & E & _ & H); try done.
  destruct (path_spec_fits (zlen out) base p) as [b Hb]; [done..|].
  rewrite Hb in H. destruct H as (Hr & Hwb & rest & ->).
  exists r, b, rest. split_and!; [done | lia | done].
Qed.
End Theorems.

(** ** Witnesses *)

(** The working directory of the shell and a 64-byte buffer such as temp_path. *)
Definition w_base : list (list Z) := [chars "root"].
Definition w_cwd : list Z := chars "/root" ++ NUL :: replicate 58 0.
Definition w_out : list Z := replicate 64 0.
Definition w_path : list Z := chars "../bin//./ls/".

(** In /root, "../bin//./ls/" resolves to /bin/ls, and names a directory. *)
Lemma inode_path_to_abs_refines_witness :
  resolve_outcome (inode_path_to_abs w_cwd w_out (zlen w_out) (Some (w_path ++ [NUL])))
    (zlen w_out) (path_spec (zlen w_out) w_base w_path) ∧
  path_spec (zlen w_out) w_base w_path = Some [chars "bin"; chars "ls"] ∧
  inode_path_to_abs w_cwd w_out (zlen w_out) (Some (w_path ++ [NUL]))
  = Ok (1, chars "/bin/ls" ++ NUL :: replicate 56 0).
Proof.
  split; [|by vm_compute].
  apply inode_path_to_abs_refines;
    [apply (cstring_intro (chars "/root")); compute_decide | compute_decide
    | done | done | apply cstring_intro; compute_decide | done].
Defined.

Lemma inode_path_to_abs_idempotent_witness :
  ∃ r rest, inode_path_to_abs w_cwd w_out (zlen w_out)
              (Some (render [chars "mnt"; chars "sd"] ++ NUL :: []))
            = Ok (r, render [chars "mnt"; chars "sd"] ++ NUL :: rest) ∧ (r = 0 ∨ r = 1).
Proof.
  apply (inode_path_to_abs_idempotent w_cwd w_base);
    [apply (cstring_intro (chars "/root")); compute_decide | compute_decide
    | done | done | compute_decide | done | done].
Defined.

(** An absolute path of 62 characters, and the relative path of 57 that is the
    longest for which /root leaves room in 64 bytes. *)
Definition w_long : list Z := CH_SLASH :: replicate 61 97.
Definition w_relative : list Z := replicate 57 97.

Lemma inode_path_to_abs_fits_witness :
  zlen w_long = 62 ∧
  (∃ r b rest, inode_path_to_abs w_cwd w_out (zlen w_out) (Some (w_long ++ [NUL]))
               = Ok (r, render b ++ NUL :: rest) ∧ 0 ≤ r ∧ wf_path b) ∧
  (∃ r b rest, inode_path_to_abs w_cwd w_out (zlen w_out) (Some (w_relative ++ [NUL]))
               = Ok (r, render b ++ NUL :: rest) ∧ 0 ≤ r ∧ wf_path b).
Proof.
  split; [reflexivity|]. split.
  - apply (inode_path_to_abs_fits w_cwd w_base) with (p := w_long);
      [apply (cstring_intro (chars "/root")); compute_decide | compute_decide
      | done | done | apply cstring_intro; compute_decide | done | done | done].
  - apply (inode_path_to_abs_fits w_cwd w_base) with (p := w_relative);
      [apply (cstring_intro (chars "/root")); compute_decide | compute_decide
      | done | done | apply cstring_intro; compute_decide | done | done | done].
Defined.
