(* ===== verification/Tailq.v ===== *)
(** Doubly-linked tail queues (the TAILQ macros of include/sys/queue.h), as the
    scheduler and the semaphores use them to link [struct proc] objects.

    A queue head holds the first element and the address of the pointer that
    ends the queue; an element holds the next element and the address of the
    pointer that points to it.  Such an address is a [cell].  The state of
    all queue heads and of the [qptrs] fields of all processes is a [tq]. *)
From S2P Require Import Prelude.

(** The queues of the kernel: the run queue and the waiters of a semaphore,
    the latter named by the semaphore's address. *)
Inductive qid := QRun | QSem (s : Z).

#[export] Instance qid_eq_dec : EqDecision qid.
Proof. solve_decision. Defined.
#[export] Instance qid_countable : Countable qid.
Proof.
  refine (inj_countable' (λ q, match q with QRun => None | QSem s => Some s end)
            (λ o, match o with None => QRun | Some s => QSem s end) _).
  by intros [].
Defined.

(** Addresses of [struct proc *] variables inside heads and elements, and the
    NULL of a zeroed element. *)
Inductive cell := CNull | CFirst (q : qid) | CNext (p : Z).

Record tqhead := TqHead { tqh_first : option Z; tqh_last : cell }.
Record tqentry := TqEntry { tqe_next : option Z; tqe_prev : cell }.
Record tq := Tq { heads : gmap qid tqhead; entries : gmap Z tqentry }.

(** ** The macros *)

Definition get_head (q : qid) : M tq tqhead := λ t,
  match heads t !! q with Some h => Ok (h, t) | None => Err FWild end.
Definition get_entry (p : Z) : M tq tqentry := λ t,
  match entries t !! p with Some e => Ok (e, t) | None => Err FWild end.
Definition set_head (q : qid) (h : tqhead) : M tq () :=
  modify (λ t, Tq (<[q := h]> (heads t)) (entries t)).
Definition set_entry (p : Z) (e : tqentry) : M tq () :=
  modify (λ t, Tq (heads t) (<[p := e]> (entries t))).

(** [*c = v] for the address [c] of a process pointer. *)
Definition set_cell (c : cell) (v : option Z) : M tq () :=
  match c with
  | CNull => fail FNull
  | CFirst q => h ← get_head q; set_head q (TqHead v (tqh_last h))
  | CNext p => e ← get_entry p; set_entry p (TqEntry v (tqe_prev e))
  end.

Definition TAILQ_INIT (q : qid) : M tq () := set_head q (TqHead None (CFirst q)).

Definition TAILQ_FIRST (q : qid) : M tq (option Z) := h ← get_head q; mret (tqh_first h).

Definition TAILQ_INSERT_TAIL (q : qid) (elm : Z) : M tq () :=
  e ← get_entry elm;
  set_entry elm (TqEntry None (tqe_prev e));;
  h ← get_head q;
  set_entry elm (TqEntry None (tqh_last h));;
  set_cell (tqh_last h) (Some elm);;
  h ← get_head q;
  set_head q (TqHead (tqh_first h) (CNext elm)).

Definition TAILQ_REMOVE (q : qid) (elm : Z) : M tq () :=
  e ← get_entry elm;
  match tqe_next e with
  | Some n => en ← get_entry n; set_entry n (TqEntry (tqe_next en) (tqe_prev e))
  | None => h ← get_head q; set_head q (TqHead (tqh_first h) (tqe_prev e))
  end;;
  e ← get_entry elm;
  set_cell (tqe_prev e) (tqe_next e).

(** ** Representation

    [seg E prev l nxt last]: the elements [l] are linked by the entries [E],
    the first one is pointed to by [prev], the last one points to [nxt], and
    [last] is the address of the pointer that ends the segment. *)

Fixpoint seg (E : gmap Z tqentry) (prev : cell) (l : list Z) (nxt : option Z)
    (last : cell) : Prop :=
  match l with
  | [] => last = prev
  | p :: l' =>
      E !! p = Some (TqEntry (from_option Some nxt (head l')) prev) ∧
      seg E (CNext p) l' nxt last
  end.

Definition tq_rep (t : tq) (q : qid) (l : list Z) : Prop :=
  ∃ h, heads t !! q = Some h ∧ tqh_first h = head l ∧
       seg (entries t) (CFirst q) l None (tqh_last h).

(** The state represents a list of processes for each queue of [Q]; a process
    is at most once in at most one queue. *)
Record queues_ok (t : tq) (Q : gmap qid (list Z)) : Prop := {
  qo_rep q l : Q !! q = Some l → tq_rep t q l;
  qo_nodup q l : Q !! q = Some l → NoDup l;
  qo_disj q1 q2 l1 l2 p : Q !! q1 = Some l1 → Q !! q2 = Some l2 →
    p ∈ l1 → p ∈ l2 → q1 = q2;
}.

Lemma seg_app E prev l1 l2 nxt last :
  seg E prev (l1 ++ l2) nxt last ↔
  ∃ mid, seg E prev l1 (from_option Some nxt (head l2)) mid ∧ seg E mid l2 nxt last.
Proof.
  revert prev. induction l1 as [|p l1 IH]; intros prev; simpl; [naive_solver|].
  rewrite IH. destruct l1; simpl; naive_solver.
Qed.

(** Entries outside of the segment do not matter. *)
Lemma seg_frame E E' prev l nxt last :
  (∀ p, p ∈ l → E' !! p = E !! p) →
  seg E prev l nxt last → seg E' prev l nxt last.
Proof.
  revert prev. induction l as [|p l IH]; intros prev HE; simpl; [done|].
  intros [Hp Hl]. split; [rewrite HE by set_solver; done|].
  apply IH; [set_solver | done].
Qed.

Lemma seg_snoc E prev l x nxt last :
  seg E prev (l ++ [x]) nxt last →
  last = CNext x ∧ ∃ mid, E !! x = Some (TqEntry nxt mid) ∧ seg E prev l (Some x) mid.
Proof. intros (mid & ? & ? & ?)%seg_app. naive_solver. Qed.

(** Storing through the address that ends a segment redirects its end. *)
Lemma seg_store_end E prev l x nxt last e nxt' :
  seg E prev (l ++ [x]) nxt last → NoDup (l ++ [x]) → E !! x = Some e →
  seg (<[x := TqEntry nxt' (tqe_prev e)]> E) prev (l ++ [x]) nxt' last.
Proof.
  intros (mid & H1 & H2 & H3)%seg_app Hnd He. simpl in H2, H3.
  apply seg_app. exists mid. apply NoDup_app in Hnd as (_ & Hx & _).
  split.
  - eapply seg_frame; [|done]. intros p Hp. rewrite lookup_insert_ne; [done|].
    intros ->. by apply (Hx p Hp); left.
  - simpl. split; [|done]. rewrite H2 in He. injection He as <-.
    by rewrite lookup_insert_eq.
Qed.

(** The common shape of the two operations: the queue [q] is updated to [l']
    by changing only its own head and entries that no other queue uses. *)
Lemma queues_ok_update t t' Q q l l' :
  queues_ok t Q → Q !! q = Some l →
  tq_rep t' q l' → NoDup l' →
  (∀ p, p ∈ l' → p ∈ l ∨ ∀ q2 l2, Q !! q2 = Some l2 → p ∉ l2) →
  (∀ q2, q2 ≠ q → heads t' !! q2 = heads t !! q2) →
  (∀ q2 l2 p, q2 ≠ q → Q !! q2 = Some l2 → p ∈ l2 → entries t' !! p = entries t !! p) →
  queues_ok t' (<[q := l']> Q).
Proof.
  intros HQ Hq Hrep Hnd Hin Hh He.
  assert (∀ q2 l2 p, q2 ≠ q → Q !! q2 = Some l2 → p ∈ l2 → p ∈ l' → False) as Hd.
  { intros q2 l2 p Hne Hq2 Hp2 [Hp | Hp]%Hin; [|by eapply Hp].
    apply Hne. by eapply (qo_disj _ _ HQ). }
  split.
  - intros q2 l2. destruct (decide (q2 = q)) as [-> | Hne].
    + rewrite lookup_insert_eq. by intros [= <-].
    + rewrite lookup_insert_ne by done. intros Hq2.
      destruct (qo_rep _ _ HQ _ _ Hq2) as (h & Hh2 & Hf & Hs).
      exists h. rewrite Hh by done. split_and!; try done.
      eapply seg_frame; [|done]. eauto.
  - intros q2 l2. rewrite lookup_insert. case_decide.
    + by intros [= <-].
    + intros Hq2. by eapply (qo_nodup _ _ HQ).
  - intros q1 q2 l1 l2 p. rewrite !lookup_insert.
    repeat case_decide; subst; try done.
    + intros [= <-] ???. exfalso. eapply (Hd q2); eauto.
    + intros ? [= <-] ??. exfalso. eapply (Hd q1); eauto.
    + eapply (qo_disj _ _ HQ).
Qed.

Lemma tq_rep_entry t q l p : tq_rep t q l → p ∈ l → is_Some (entries t !! p).
Proof.
  intros (h & _ & _ & Hs) (l1 & l2 & ->)%list_elem_of_split.
  apply seg_app in Hs as (mid & _ & Hp & _). eauto.
Qed.

(** Runs a sequence of loads and stores, resolving the lookups it makes. *)
Ltac tq_run :=
  unfold set_cell, get_entry, get_head, set_entry, set_head, modify;
  unfold mbind, M_bind, mret, M_ret; simpl; simplify_map_eq.

Section Insert.
Context (t : tq) (q : qid) (p : Z) (h : tqhead) (e : tqentry).
Context (Hh : heads t !! q = Some h) (He : entries t !! p = Some e).

Lemma insert_tail_run_empty :
  tqh_last h = CFirst q →
  TAILQ_INSERT_TAIL q p t
  = Ok ((), Tq (<[q := TqHead (Some p) (CNext p)]> (heads t))
               (<[p := TqEntry None (CFirst q)]> (entries t))).
Proof.
  intros Hl. unfold TAILQ_INSERT_TAIL. tq_run. rewrite Hl. tq_run.
  by rewrite !insert_insert_eq.
Qed.

Lemma insert_tail_run_append x ex :
  tqh_last h = CNext x → x ≠ p → entries t !! x = Some ex →
  TAILQ_INSERT_TAIL q p t
  = Ok ((), Tq (<[q := TqHead (tqh_first h) (CNext p)]> (heads t))
               (<[x := TqEntry (Some p) (tqe_prev ex)]>
                  (<[p := TqEntry None (CNext x)]> (entries t)))).
Proof.
  intros Hl Hne Hx. unfold TAILQ_INSERT_TAIL. tq_run. rewrite Hl. tq_run.
  by rewrite !insert_insert_eq.
Qed.
End Insert.

Lemma dom_insert_lookup {A} (m : gmap Z A) k v :
  is_Some (m !! k) → dom (<[k := v]> m) = dom m.
Proof. intros H%elem_of_dom. rewrite dom_insert_L. set_solver. Qed.

(** TAILQ_INSERT_TAIL appends a process that is in no queue. *)
Lemma TAILQ_INSERT_TAIL_spec t Q q l p :
  queues_ok t Q → Q !! q = Some l → is_Some (entries t !! p) →
  (∀ q2 l2, Q !! q2 = Some l2 → p ∉ l2) →
  ∃ t', TAILQ_INSERT_TAIL q p t = Ok ((), t') ∧
        queues_ok t' (<[q := l ++ [p]]> Q) ∧ dom (entries t') = dom (entries t).
Proof.
  intros HQ Hq [e He] Hp. pose proof (qo_rep _ _ HQ _ _ Hq) as (h & Hh & Hf & Hs).
  assert (p ∉ l) as Hpl by eauto. pose proof (qo_nodup _ _ HQ _ _ Hq) as Hndl.
  assert (NoDup (l ++ [p])) as Hnd.
  { apply NoDup_app. split_and!; [done | set_solver | apply NoDup_singleton]. }
  assert (∀ r, r ∈ l ++ [p] → r ∈ l ∨ ∀ q2 l2, Q !! q2 = Some l2 → r ∉ l2) as Hin
    by set_solver.
  destruct (exists_last_or_nil l) as [-> | (l0 & x & ->)].
  - rewrite (insert_tail_run_empty _ _ _ _ _ Hh He) by done.
    eexists. split; [done|]. split; [|by apply dom_insert_lookup].
    eapply queues_ok_update; try done; simpl.
    + unfold tq_rep. simpl. eexists. rewrite !lookup_insert_eq. done.
    + intros q2 Hne. by rewrite lookup_insert_ne.
    + intros q2 l2 r Hne Hq2 Hr. rewrite lookup_insert_ne; [done|]. intros ->. by eapply Hp.
  - pose proof Hs as (Hlast & mid & Hx & _)%seg_snoc.
    assert (x ≠ p) as Hxp by set_solver.
    rewrite (insert_tail_run_append _ _ _ _ _ Hh He x _) by done.
    eexists. split; [done|].
    split; [|simpl; rewrite !dom_insert_lookup; [done | eauto | by rewrite lookup_insert_ne]].
    eapply queues_ok_update; try done; simpl.
    + unfold tq_rep. simpl. eexists. rewrite lookup_insert_eq. simpl.
      split_and!; [done | by rewrite Hf; destruct l0 |].
      apply seg_app. exists (CNext x). split; [|by simplify_map_eq].
      apply (seg_store_end _ _ _ _ None _ (TqEntry None mid)); [|done|by simplify_map_eq].
      rewrite Hlast in Hs. eapply seg_frame; [|done].
      intros r Hr. rewrite lookup_insert_ne; [done|]. by intros ->.
    + intros q2 Hne. by rewrite lookup_insert_ne.
    + intros q2 l2 r Hne Hq2 Hr. rewrite !lookup_insert_ne; [done | |]; intros ->.
      * by eapply Hp.
      * apply Hne. eapply (qo_disj _ _ HQ); [done | done | done | set_solver].
Qed.

Section Remove.
Context (t : tq) (q : qid) (p : Z) (h : tqhead) (prev : cell).
Context (Hh : heads t !! q = Some h).

Lemma remove_run_middle n en :
  entries t !! p = Some (TqEntry (Some n) prev) → entries t !! n = Some en → n ≠ p →
  TAILQ_REMOVE q p t
  = set_cell prev (Some n)
      (Tq (heads t) (<[n := TqEntry (tqe_next en) prev]> (entries t))).
Proof. intros Hp Hn Hne. unfold TAILQ_REMOVE. by tq_run. Qed.

Lemma remove_run_last :
  entries t !! p = Some (TqEntry None prev) →
  TAILQ_REMOVE q p t
  = set_cell prev None (Tq (<[q := TqHead (tqh_first h) prev]> (heads t)) (entries t)).
Proof. intros Hp. unfold TAILQ_REMOVE. by tq_run. Qed.
End Remove.


(** What an operation on the queue [q] leaves alone: the other heads, and the
    entries of processes outside of [l]. *)
Definition tq_frame (q : qid) (l : list Z) (t t' : tq) : Prop :=
  (∀ q2, q2 ≠ q → heads t' !! q2 = heads t !! q2) ∧
  (∀ r, r ∉ l → entries t' !! r = entries t !! r) ∧
  dom (entries t') = dom (entries t).

Lemma tq_frame_trans q l t1 t2 t3 :
  tq_frame q l t1 t2 → tq_frame q l t2 t3 → tq_frame q l t1 t3.
Proof.
  intros (H1 & H2 & H3) (H4 & H5 & H6). split_and!; [| |congruence].
  - intros. rewrite H4, H1; done.
  - intros. rewrite H5, H2; done.
Qed.

(** Storing the head of [l2] through the address that ends [l1] links [l1] and
    [l2]. *)
Lemma set_cell_link_gen t q l1 l2 nxt prev h :
  heads t !! q = Some h → (l1 ≠ [] → tqh_first h = head l1) → NoDup (l1 ++ l2) →
  seg (entries t) (CFirst q) l1 nxt prev →
  seg (entries t) prev l2 None (tqh_last h) →
  ∃ t', set_cell prev (head l2) t = Ok ((), t') ∧ tq_rep t' q (l1 ++ l2) ∧
        tq_frame q l1 t t'.
Proof.
  intros Hh Hf Hnd H1 H2. destruct (exists_last_or_nil l1) as [-> | (l0 & x & ->)].
  - simpl in H1. subst. tq_run. eexists. split; [done|]. split.
    + unfold tq_rep. simpl. eexists. rewrite lookup_insert_eq. done.
    + split_and!; simpl; try done. intros. by rewrite lookup_insert_ne.
  - pose proof H1 as (-> & mid & Hx & _)%seg_snoc. tq_run.
    eexists. split; [done|]. apply NoDup_app in Hnd as (Hnd & Hd & _). split.
    + unfold tq_rep. simpl. exists h. split_and!; [done|rewrite Hf by (by destruct l0); by destruct l0|].
      apply seg_app. exists (CNext x). split.
      * replace (from_option Some None (head l2)) with (head l2) by by destruct l2.
        by apply (seg_store_end _ _ _ _ nxt _ (TqEntry nxt mid)).
      * eapply seg_frame; [|done]. intros r Hr. rewrite lookup_insert_ne; [done|].
        intros <-. eapply Hd; [|done]. set_solver.
    + split_and!; simpl; [done | | by apply dom_insert_lookup].
      intros r Hr. rewrite lookup_insert_ne; [done|]. set_solver.
Qed.

Lemma set_cell_link t q l1 l2 p prev h :
  heads t !! q = Some h → tqh_first h = head (l1 ++ [p]) → NoDup (l1 ++ l2) →
  seg (entries t) (CFirst q) l1 (Some p) prev →
  seg (entries t) prev l2 None (tqh_last h) →
  ∃ t', set_cell prev (head l2) t = Ok ((), t') ∧ tq_rep t' q (l1 ++ l2) ∧
        tq_frame q l1 t t'.
Proof.
  intros Hh Hf Hnd H1 H2. eapply set_cell_link_gen; try done. intros Hl. rewrite Hf. by destruct l1.
Qed.

Lemma tq_frame_mono q l l' t t' : l ⊆ l' → tq_frame q l t t' → tq_frame q l' t t'.
Proof. intros Hl (H1 & H2 & H3). split_and!; [done | | done]. set_solver. Qed.

Lemma remove_last_link t q l1 p prev h :
  heads t !! q = Some h → tqh_first h = head (l1 ++ [p]) → NoDup l1 →
  seg (entries t) (CFirst q) l1 (Some p) prev →
  entries t !! p = Some (TqEntry None prev) →
  ∃ t', TAILQ_REMOVE q p t = Ok ((), t') ∧ tq_rep t' q l1 ∧ tq_frame q l1 t t'.
Proof.
  intros Hh Hf Hnd Hs Hp. rewrite (remove_run_last _ _ _ _ _ Hh Hp).
  set (t1 := Tq (<[q := TqHead (tqh_first h) prev]> (heads t)) (entries t)).
  destruct (set_cell_link t1 q l1 [] p prev (TqHead (tqh_first h) prev))
    as (t' & E & Hrep & Hfr); try done.
  { apply lookup_insert_eq. }
  { by rewrite app_nil_r. }
  rewrite app_nil_r in Hrep. exists t'. split_and!; [done..|].
  eapply tq_frame_trans; [|done]. split_and!; [|done..].
  intros q2 Hne. by apply lookup_insert_ne.
Qed.

Lemma remove_middle_link t q l1 p n l2 prev h :
  heads t !! q = Some h → tqh_first h = head (l1 ++ [p]) → NoDup (l1 ++ p :: n :: l2) →
  seg (entries t) (CFirst q) l1 (Some p) prev →
  seg (entries t) prev (p :: n :: l2) None (tqh_last h) →
  ∃ t', TAILQ_REMOVE q p t = Ok ((), t') ∧ tq_rep t' q (l1 ++ n :: l2) ∧
        tq_frame q (l1 ++ n :: l2) t t'.
Proof.
  intros Hh Hf Hnd Hs (Hp & Hn & Hs2).
  apply NoDup_app in Hnd as (Hnd1 & Hd & [Hnp Hnd2]%NoDup_cons).
  pose proof Hnd2 as [Hn2 _]%NoDup_cons.
  assert (n ∉ l1) as Hn1 by (intros Hin; eapply Hd; [done|set_solver]).
  rewrite (remove_run_middle t q p prev n _ Hp Hn) by set_solver.
  set (t1 := Tq (heads t) (<[n := _]> (entries t))).
  assert (∀ r, r ≠ n → entries t1 !! r = entries t !! r) as Hfr1.
  { intros r Hr. by apply lookup_insert_ne. }
  destruct (set_cell_link t1 q l1 (n :: l2) p prev h) as (t' & E & Hrep & Hfr); try done.
  { apply NoDup_app. set_solver. }
  { eapply seg_frame; [|done]. set_solver. }
  { split; [by apply lookup_insert_eq|]. eapply seg_frame; [|done]. set_solver. }
  exists t'. split_and!; [done..|].
  eapply tq_frame_trans; [|eapply tq_frame_mono; [|done]; set_solver].
  split_and!; [done | set_solver | apply dom_insert_lookup; eauto].
Qed.

(** TAILQ_REMOVE removes a process from the queue that it is in. *)
Lemma TAILQ_REMOVE_spec t Q q l1 p l2 :
  queues_ok t Q → Q !! q = Some (l1 ++ p :: l2) →
  ∃ t', TAILQ_REMOVE q p t = Ok ((), t') ∧
        queues_ok t' (<[q := l1 ++ l2]> Q) ∧ dom (entries t') = dom (entries t).
Proof.
  intros HQ Hq. pose proof (qo_rep _ _ HQ _ _ Hq) as (h & Hh & Hf & Hs).
  pose proof (qo_nodup _ _ HQ _ _ Hq) as Hnd.
  apply seg_app in Hs as (prev & Hs1 & Hs2). simpl in Hs1.
  assert (NoDup (l1 ++ l2)) as Hnd'.
  { apply NoDup_app in Hnd as (? & Hd & [??]%NoDup_cons). apply NoDup_app. set_solver. }
  assert (tqh_first h = head (l1 ++ [p])) as Hf' by (rewrite Hf; by destruct l1).
  assert (∃ t', TAILQ_REMOVE q p t = Ok ((), t') ∧ tq_rep t' q (l1 ++ l2) ∧
                tq_frame q (l1 ++ l2) t t') as (t' & -> & Hrep & Hfr1 & Hfr2 & Hfr3).
  { destruct l2 as [|n l2]; [|by eapply remove_middle_link].
    rewrite app_nil_r in *. destruct Hs2. by eapply remove_last_link. }
  exists t'. split_and!; try done.
  eapply queues_ok_update; try done; [set_solver|].
  intros q2 l r Hne Hq2 Hr. apply Hfr2. intros Hin. apply Hne.
  eapply (qo_disj _ _ HQ); [done..| set_solver].
Qed.
