(* ===== verification/Queues.v ===== *)
(** The other queues of include/sys/queue.h: lists with a back pointer (LIST),
    singly linked lists (SLIST) and singly linked tail queues (STAILQ, and SIMPLEQ
    which is the same code under other names).  Circular queues are in Circleq.v,
    and the tail queues that the kernel uses in Tailq.v and TailqOps.v.

    The memory of the queues is their members: the pointers to elements, which
    are the first element of a head and the next element of an element, each
    with its address; the end pointer of a head; and the back pointer of an
    element, which is the address of the pointer to it. *)
From S2P Require Import Prelude.

Inductive cell := CFirst (q : Z) | CNext (p : Z).

#[export] Instance cell_eq_dec : EqDecision cell.
Proof. solve_decision. Defined.
#[export] Instance cell_countable : Countable cell.
Proof.
  refine (inj_countable' (λ c, match c with CFirst q => inl q | CNext p => inr p end)
            (λ s, match s with inl q => CFirst q | inr p => CNext p end) _).
  by intros [].
Defined.

Record qmem := QMem {
  ptrs : gmap cell (option Z);   (* lh_first, le_next and the like *)
  lasts : gmap Z cell;           (* stqh_last *)
  prevs : gmap Z cell;           (* le_prev *)
}.

(** ** Loads and stores *)

Definition ld (c : cell) : M qmem (option Z) := λ t,
  match ptrs t !! c with Some v => Ok (v, t) | None => Err FWild end.
Definition st (c : cell) (v : option Z) : M qmem () :=
  ld c;; modify (λ t, QMem (<[c := v]> (ptrs t)) (lasts t) (prevs t)).
Definition get_last (q : Z) : M qmem cell := λ t,
  match lasts t !! q with Some c => Ok (c, t) | None => Err FWild end.
Definition set_last (q : Z) (c : cell) : M qmem () :=
  get_last q;; modify (λ t, QMem (ptrs t) (<[q := c]> (lasts t)) (prevs t)).
Definition get_prev (p : Z) : M qmem cell := λ t,
  match prevs t !! p with Some c => Ok (c, t) | None => Err FWild end.
Definition set_prev (p : Z) (c : cell) : M qmem () :=
  get_prev p;; modify (λ t, QMem (ptrs t) (lasts t) (<[p := c]> (prevs t))).
(** The element that a pointer points to. *)
Definition deref (v : option Z) : M qmem Z :=
  match v with Some p => mret p | None => fail FNull end.

(** A loop over the elements from a pointer on, with the body of the macro's user. *)
Fixpoint foreach {A} (fuel : nat) (body : A → Z → M qmem A) (a : A) (var : option Z) : M qmem A :=
  match fuel, var with
  | _, None => mret a
  | O, _ => fail FFuel
  | S fuel, Some p => a ← body a p; n ← ld (CNext p); foreach fuel body a n
  end.

(** ** LIST *)

Definition LIST_INIT (head : Z) : M qmem () := st (CFirst head) None.

Definition LIST_INSERT_AFTER (listelm elm : Z) : M qmem () :=
  n ← ld (CNext listelm);
  st (CNext elm) n;;
  (if bool_decide (n ≠ None)
   then n ← ld (CNext listelm); n ← deref n; set_prev n (CNext elm)
   else mret ());;
  st (CNext listelm) (Some elm);;
  set_prev elm (CNext listelm).

Definition LIST_INSERT_BEFORE (listelm elm : Z) : M qmem () :=
  c ← get_prev listelm;
  set_prev elm c;;
  st (CNext elm) (Some listelm);;
  c ← get_prev listelm;
  st c (Some elm);;
  set_prev listelm (CNext elm).

Definition LIST_INSERT_HEAD (head elm : Z) : M qmem () :=
  n ← ld (CFirst head);
  st (CNext elm) n;;
  (if bool_decide (n ≠ None)
   then n ← ld (CFirst head); n ← deref n; set_prev n (CNext elm)
   else mret ());;
  st (CFirst head) (Some elm);;
  set_prev elm (CFirst head).

Definition LIST_REMOVE (elm : Z) : M qmem () :=
  n ← ld (CNext elm);
  (if bool_decide (n ≠ None)
   then n ← ld (CNext elm); n ← deref n; c ← get_prev elm; set_prev n c
   else mret ());;
  c ← get_prev elm;
  n ← ld (CNext elm);
  st c n.

Definition LIST_FOREACH {A} (fuel : nat) (body : A → Z → M qmem A) (a : A) (head : Z) : M qmem A :=
  var ← ld (CFirst head); foreach fuel body a var.
Definition LIST_EMPTY (head : Z) : M qmem bool := n ← ld (CFirst head); mret (bool_decide (n = None)).
Definition LIST_FIRST (head : Z) : M qmem (option Z) := ld (CFirst head).
Definition LIST_NEXT (elm : Z) : M qmem (option Z) := ld (CNext elm).

(** ** SLIST *)

Definition SLIST_INIT (head : Z) : M qmem () := st (CFirst head) None.

Definition SLIST_INSERT_AFTER (slistelm elm : Z) : M qmem () :=
  n ← ld (CNext slistelm);
  st (CNext elm) n;;
  st (CNext slistelm) (Some elm).

Definition SLIST_INSERT_HEAD (head elm : Z) : M qmem () :=
  n ← ld (CFirst head);
  st (CNext elm) n;;
  st (CFirst head) (Some elm).

Definition SLIST_REMOVE_HEAD (head : Z) : M qmem () :=
  p ← ld (CFirst head); p ← deref p;
  n ← ld (CNext p);
  st (CFirst head) n.

(** The element before [elm], from [curelm] on. *)
Fixpoint find_before (fuel : nat) (elm curelm : Z) : M qmem Z :=
  match fuel with
  | O => fail FFuel
  | S fuel =>
      n ← ld (CNext curelm);
      if bool_decide (n = Some elm) then mret curelm
      else n ← deref n; find_before fuel elm n
  end.

Definition SLIST_REMOVE (fuel : nat) (head elm : Z) : M qmem () :=
  first ← ld (CFirst head);
  if bool_decide (first = Some elm) then SLIST_REMOVE_HEAD head
  else
    curelm ← deref first;
    curelm ← find_before fuel elm curelm;
    n ← ld (CNext curelm); n ← deref n;
    n ← ld (CNext n);
    st (CNext curelm) n.

Definition SLIST_FOREACH {A} (fuel : nat) (body : A → Z → M qmem A) (a : A) (head : Z) : M qmem A :=
  var ← ld (CFirst head); foreach fuel body a var.
Definition SLIST_EMPTY (head : Z) : M qmem bool := n ← ld (CFirst head); mret (bool_decide (n = None)).
Definition SLIST_FIRST (head : Z) : M qmem (option Z) := ld (CFirst head).
Definition SLIST_NEXT (elm : Z) : M qmem (option Z) := ld (CNext elm).

(** ** STAILQ *)

Definition STAILQ_INIT (head : Z) : M qmem () :=
  st (CFirst head) None;;
  set_last head (CFirst head).

Definition STAILQ_INSERT_HEAD (head elm : Z) : M qmem () :=
  n ← ld (CFirst head);
  st (CNext elm) n;;
  (if bool_decide (n = None) then set_last head (CNext elm) else mret ());;
  st (CFirst head) (Some elm).

Definition STAILQ_INSERT_TAIL (head elm : Z) : M qmem () :=
  st (CNext elm) None;;
  c ← get_last head;
  st c (Some elm);;
  set_last head (CNext elm).

Definition STAILQ_INSERT_AFTER (head listelm elm : Z) : M qmem () :=
  n ← ld (CNext listelm);
  st (CNext elm) n;;
  (if bool_decide (n = None) then set_last head (CNext elm) else mret ());;
  st (CNext listelm) (Some elm).

Definition STAILQ_REMOVE_HEAD (head : Z) : M qmem () :=
  p ← ld (CFirst head); p ← deref p;
  n ← ld (CNext p);
  st (CFirst head) n;;
  if bool_decide (n = None) then set_last head (CFirst head) else mret ().

Definition STAILQ_REMOVE (fuel : nat) (head elm : Z) : M qmem () :=
  first ← ld (CFirst head);
  if bool_decide (first = Some elm) then STAILQ_REMOVE_HEAD head
  else
    curelm ← deref first;
    curelm ← find_before fuel elm curelm;
    n ← ld (CNext curelm); n ← deref n;
    n ← ld (CNext n);
    st (CNext curelm) n;;
    if bool_decide (n = None) then set_last head (CNext curelm) else mret ().

Definition STAILQ_FOREACH {A} (fuel : nat) (body : A → Z → M qmem A) (a : A) (head : Z) : M qmem A :=
  var ← ld (CFirst head); foreach fuel body a var.
Definition STAILQ_EMPTY (head : Z) : M qmem bool := n ← ld (CFirst head); mret (bool_decide (n = None)).
Definition STAILQ_FIRST (head : Z) : M qmem (option Z) := ld (CFirst head).
Definition STAILQ_NEXT (elm : Z) : M qmem (option Z) := ld (CNext elm).

Definition STAILQ_CONCAT (head1 head2 : Z) : M qmem () :=
  empty ← STAILQ_EMPTY head2;
  if (empty : bool) then mret ()
  else
    c ← get_last head1;
    n ← ld (CFirst head2);
    st c n;;
    c ← get_last head2;
    set_last head1 c;;
    STAILQ_INIT head2.

(** ** SIMPLEQ: the bodies of STAILQ with the members sqh_ and sqe_ *)

Definition SIMPLEQ_INIT : Z → M qmem () := STAILQ_INIT.
Definition SIMPLEQ_INSERT_HEAD : Z → Z → M qmem () := STAILQ_INSERT_HEAD.
Definition SIMPLEQ_INSERT_TAIL : Z → Z → M qmem () := STAILQ_INSERT_TAIL.
Definition SIMPLEQ_INSERT_AFTER : Z → Z → Z → M qmem () := STAILQ_INSERT_AFTER.
Definition SIMPLEQ_REMOVE_HEAD : Z → M qmem () := STAILQ_REMOVE_HEAD.
Definition SIMPLEQ_REMOVE : nat → Z → Z → M qmem () := STAILQ_REMOVE.
Definition SIMPLEQ_FOREACH {A} : nat → (A → Z → M qmem A) → A → Z → M qmem A := STAILQ_FOREACH.
Definition SIMPLEQ_EMPTY : Z → M qmem bool := STAILQ_EMPTY.
Definition SIMPLEQ_FIRST : Z → M qmem (option Z) := STAILQ_FIRST.
Definition SIMPLEQ_NEXT : Z → M qmem (option Z) := STAILQ_NEXT.

(** ** Chains of pointers

    The elements [l] are reached one after the other from the pointer at [c], and
    the last pointer is NULL. *)
Fixpoint chain (P : gmap cell (option Z)) (c : cell) (l : list Z) : Prop :=
  match l with
  | [] => P !! c = Some None
  | p :: l => P !! c = Some (Some p) ∧ chain P (CNext p) l
  end.

(** The same up to the pointer that ends the elements. *)
Fixpoint path (P : gmap cell (option Z)) (c : cell) (l : list Z) : Prop :=
  match l with
  | [] => True
  | p :: l => P !! c = Some (Some p) ∧ path P (CNext p) l
  end.

Fixpoint end_cell (c : cell) (l : list Z) : cell :=
  match l with [] => c | p :: l => end_cell (CNext p) l end.

(** The back pointers of the elements. *)
Fixpoint backs (B : gmap Z cell) (c : cell) (l : list Z) : Prop :=
  match l with
  | [] => True
  | p :: l => B !! p = Some c ∧ backs B (CNext p) l
  end.

Definition cells (c : cell) (l : list Z) : list cell := c :: (CNext <$> l).

Lemma end_cell_app c l1 l2 : end_cell c (l1 ++ l2) = end_cell (end_cell c l1) l2.
Proof. revert c. induction l1 as [|p l1 IH]; intros c; simpl; [done|apply IH]. Qed.

Lemma end_cell_in c l : end_cell c l ∈ cells c l.
Proof.
  revert c. induction l as [|p l IH]; intros c; simpl; [by left|].
  specialize (IH (CNext p)). unfold cells in *. set_solver.
Qed.

Lemma chain_app P c l1 l2 : chain P c (l1 ++ l2) ↔ path P c l1 ∧ chain P (end_cell c l1) l2.
Proof. revert c. induction l1 as [|p l1 IH]; intros c; simpl; [tauto|]. rewrite IH. tauto. Qed.

Lemma backs_app B c l1 l2 : backs B c (l1 ++ l2) ↔ backs B c l1 ∧ backs B (end_cell c l1) l2.
Proof. revert c. induction l1 as [|p l1 IH]; intros c; simpl; [tauto|]. rewrite IH. tauto. Qed.

Lemma chain_head P c l : chain P c l → P !! c = Some (head l).
Proof. destruct l; simpl; naive_solver. Qed.

Lemma chain_ext P P' c l : (∀ x, x ∈ cells c l → P' !! x = P !! x) → chain P c l → chain P' c l.
Proof.
  revert c. induction l as [|p l IH]; intros c Hx; simpl; [rewrite Hx; [done|by left]|].
  intros [Hc Hl]. split; [rewrite Hx; [done|by left]|]. apply IH; [|done]. unfold cells in *. set_solver.
Qed.

Lemma path_ext P P' c l :
  NoDup (cells c l) → (∀ x, x ∈ cells c l → x ≠ end_cell c l → P' !! x = P !! x) → path P c l → path P' c l.
Proof.
  revert c. induction l as [|p l IH]; intros c Hn Hx; simpl; [done|]. intros [Hc Hl].
  apply NoDup_cons in Hn as [Hci Hn]. split.
  - rewrite Hx; [done|by left|]. intros E. apply Hci. rewrite E. simpl. apply end_cell_in.
  - apply IH; [done| |done]. intros x Hxi Hxe. apply Hx; [by right|done].
Qed.

Lemma backs_ext B B' c l : (∀ p, p ∈ l → B' !! p = B !! p) → backs B c l → backs B' c l.
Proof.
  revert c. induction l as [|p l IH]; intros c Hp; simpl; [done|].
  intros [Hc Hl]. split; [rewrite Hp; [done|by left]|]. apply IH; [|done]. set_solver.
Qed.

Lemma cells_app c l1 l2 x : x ∈ cells c (l1 ++ l2) ↔ x ∈ cells c l1 ∨ x ∈ CNext <$> l2.
Proof. unfold cells. rewrite fmap_app. set_solver. Qed.

(** The cell between two parts is in neither of them but at the end of the first. *)
Lemma cells_split c l1 l2 :
  NoDup (cells c (l1 ++ l2)) → NoDup (cells c l1) ∧ (∀ x, x ∈ cells c l1 → x ∉ CNext <$> l2) ∧ NoDup (CNext <$> l2).
Proof. unfold cells. rewrite fmap_app, app_comm_cons. intros (H1 & H2 & H3)%NoDup_app. done. Qed.

Lemma chain_insert P c l1 p l2 :
  NoDup (cells c (l1 ++ l2)) → CNext p ∉ cells c (l1 ++ l2) → chain P c (l1 ++ l2) →
  chain (<[end_cell c l1 := Some p]> (<[CNext p := head l2]> P)) c (l1 ++ p :: l2).
Proof.
  intros (Hn1 & Hd & _)%cells_split Hp [H1 H2]%chain_app. rewrite cells_app in Hp.
  pose proof (end_cell_in c l1) as He. apply chain_app. simpl. split_and!.
  - eapply path_ext; [done| |exact H1]. intros x Hx Hne.
    rewrite !lookup_insert_ne; [done| |done]. intros <-. tauto.
  - by rewrite lookup_insert_eq.
  - assert (end_cell c l1 ≠ CNext p) by (intros E; rewrite E in He; tauto).
    destruct l2 as [|n l2]; simpl in *.
    + by rewrite lookup_insert_ne, lookup_insert_eq.
    + split; [by rewrite lookup_insert_ne, lookup_insert_eq|]. destruct H2 as [_ H2].
      eapply chain_ext; [|exact H2]. intros x Hx. unfold cells in Hx. rewrite !lookup_insert_ne; [done| |].
      * intros <-. apply Hp. right. set_solver.
      * intros <-. apply (Hd _ He). set_solver.
Qed.

Lemma chain_remove P c l1 p l2 :
  NoDup (cells c (l1 ++ p :: l2)) → chain P c (l1 ++ p :: l2) →
  chain (<[end_cell c l1 := head l2]> P) c (l1 ++ l2).
Proof.
  intros (Hn1 & Hd & Hn2)%cells_split (H1 & Hp & H2)%chain_app. pose proof (end_cell_in c l1) as He.
  apply chain_app. split.
  - eapply path_ext; [done| |exact H1]. intros x Hx Hne. by rewrite lookup_insert_ne.
  - destruct l2 as [|n l2]; simpl in *; [by rewrite lookup_insert_eq|].
    split; [by rewrite lookup_insert_eq|]. destruct H2 as [_ H2].
    eapply chain_ext; [|exact H2]. intros x Hx. unfold cells in Hx. rewrite lookup_insert_ne; [done|].
    intros <-. apply (Hd _ He). set_solver.
Qed.

(** The back pointers after an insertion: the new element, and the element after. *)
Definition set_back (n : option Z) (c : cell) (B : gmap Z cell) : gmap Z cell :=
  match n with Some n => <[n := c]> B | None => B end.

Lemma backs_insert B c l1 p l2 :
  NoDup (l1 ++ l2) → p ∉ l1 ++ l2 → backs B c (l1 ++ l2) →
  backs (<[p := end_cell c l1]> (set_back (head l2) (CNext p) B)) c (l1 ++ p :: l2).
Proof.
  intros (Hn1 & Hd & Hn2)%NoDup_app Hp [H1 H2]%backs_app. apply backs_app. simpl. split_and!.
  - eapply backs_ext; [|exact H1]. intros x Hx. rewrite lookup_insert_ne by set_solver.
    destruct l2 as [|n l2]; simpl; [done|]. rewrite lookup_insert_ne; [done|]. intros ->. eapply Hd; [done|]. by left.
  - by rewrite lookup_insert_eq.
  - destruct l2 as [|n l2]; simpl in *; [done|]. destruct H2 as [_ H2]. apply NoDup_cons in Hn2 as [Hn _]. split.
    + rewrite lookup_insert_ne by set_solver. by rewrite lookup_insert_eq.
    + eapply backs_ext; [|exact H2]. intros x Hx. rewrite !lookup_insert_ne; [done|by intros ->|set_solver].
Qed.

Lemma backs_remove B c l1 p l2 :
  NoDup (l1 ++ p :: l2) → backs B c (l1 ++ p :: l2) →
  backs (set_back (head l2) (end_cell c l1) B) c (l1 ++ l2).
Proof.
  intros (Hn1 & Hd & [Hp Hn2]%NoDup_cons)%NoDup_app (H1 & Hb & H2)%backs_app. apply backs_app. split.
  - eapply backs_ext; [|exact H1]. intros x Hx. destruct l2 as [|n l2]; simpl; [done|].
    rewrite lookup_insert_ne; [done|]. intros ->. eapply Hd; [done|]. right. by left.
  - destruct l2 as [|n l2]; simpl in *; [done|]. destruct H2 as [_ H2]. apply NoDup_cons in Hn2 as [Hn _].
    split; [by rewrite lookup_insert_eq|]. eapply backs_ext; [|exact H2]. intros x Hx. rewrite lookup_insert_ne; [done|by intros ->].
Qed.

(** ** The three kinds of queues as lists *)

Inductive family := FList | FSlist | FStailq.

#[export] Instance family_eq_dec : EqDecision family.
Proof. solve_decision. Defined.

(** The head [q] of the given kind holds the elements [l]. *)
Record rep (f : family) (t : qmem) (q : Z) (l : list Z) : Prop := {
  r_nodup : NoDup l;
  r_chain : chain (ptrs t) (CFirst q) l;
  r_backs : f = FList → backs (prevs t) (CFirst q) l;
  r_last : f = FStailq → lasts t !! q = Some (end_cell (CFirst q) l);
}.

(** What an operation on the queue [q] leaves alone: every other head and every
    element outside of [X]. *)
Record qframe (q : Z) (X : list Z) (t t' : qmem) : Prop := {
  qf_ptrs c : c ∉ cells (CFirst q) X → ptrs t' !! c = ptrs t !! c;
  qf_lasts q' : q' ≠ q → lasts t' !! q' = lasts t !! q';
  qf_prevs p : p ∉ X → prevs t' !! p = prevs t !! p;
}.

Lemma cells_nodup q l : NoDup l → NoDup (cells (CFirst q) l).
Proof.
  intros Hl. unfold cells. apply NoDup_cons. split.
  - rewrite list_elem_of_fmap. by intros (? & [=] & _).
  - apply NoDup_fmap_2; [by intros ?? [=]|done].
Qed.

Lemma not_in_cells q l p : p ∉ l → CNext p ∉ cells (CFirst q) l.
Proof.
  intros Hp. unfold cells. rewrite elem_of_cons, list_elem_of_fmap.
  intros [|(x & [= ->] & ?)]; done.
Qed.

(** A queue that shares nothing with the operation is as before. *)
Lemma rep_frame f q X t t' q' l :
  qframe q X t t' → q' ≠ q → (∀ p, p ∈ l → p ∉ X) → rep f t q' l → rep f t' q' l.
Proof.
  intros [H1 H2 H3] Hq Hd [Hn Hc Hb Hl]. split; [done| | |].
  - eapply chain_ext; [|exact Hc]. intros x Hx. apply H1. unfold cells in *.
    rewrite elem_of_cons, list_elem_of_fmap in *. intros [->|(y & -> & Hy)]; destruct Hx as [Hx|(z & Hx & Hz)]; simplify_eq; eauto.
    by apply (Hd z).
  - intros Hf. eapply backs_ext; [|by apply Hb]. eauto.
  - intros Hf. rewrite H2 by done. by apply Hl.
Qed.

Lemma qframe_mono q X Y t t' : (∀ x, x ∈ X → x ∈ Y) → qframe q X t t' → qframe q Y t t'.
Proof.
  intros HXY [H1 H2 H3]. split; [|done|auto]. intros c Hc. apply H1. intros Hin. apply Hc. unfold cells in *.
  rewrite elem_of_cons, list_elem_of_fmap in *. destruct Hin as [->|(y & -> & Hy)]; eauto.
Qed.

(** The state after an insertion of [p] at the pointer [c] before [n], and after
    the removal of the element at [c] that is followed by [n]. *)
Definition ins_state (f : family) (q : Z) (c : cell) (p : Z) (n : option Z) (t : qmem) : qmem :=
  QMem (<[c := Some p]> (<[CNext p := n]> (ptrs t)))
    (if decide (f = FStailq ∧ n = None) then <[q := CNext p]> (lasts t) else lasts t)
    (if decide (f = FList) then <[p := c]> (set_back n (CNext p) (prevs t)) else prevs t).
Definition rem_state (f : family) (q : Z) (c : cell) (n : option Z) (t : qmem) : qmem :=
  QMem (<[c := n]> (ptrs t))
    (if decide (f = FStailq ∧ n = None) then <[q := c]> (lasts t) else lasts t)
    (if decide (f = FList) then set_back n c (prevs t) else prevs t).

Lemma rep_insert f t q l1 p l2 :
  rep f t q (l1 ++ l2) → p ∉ l1 ++ l2 →
  rep f (ins_state f q (end_cell (CFirst q) l1) p (head l2) t) q (l1 ++ p :: l2).
Proof.
  intros [Hn Hc Hb Hl] Hp. split; simpl.
  - apply NoDup_app in Hn as (H1 & H2 & H3). apply NoDup_app. rewrite NoDup_cons. set_solver.
  - apply chain_insert; [by apply cells_nodup|by apply not_in_cells|done].
  - intros ->. rewrite decide_True by done. apply backs_insert; auto.
  - intros ->. rewrite end_cell_app. simpl. destruct l2 as [|n l2]; simpl.
    + repeat (rewrite decide_True by done). by rewrite lookup_insert_eq.
    + repeat (rewrite decide_False by naive_solver). rewrite Hl by done. by rewrite end_cell_app.
Qed.

Lemma rep_remove f t q l1 p l2 :
  rep f t q (l1 ++ p :: l2) → rep f (rem_state f q (end_cell (CFirst q) l1) (head l2) t) q (l1 ++ l2).
Proof.
  intros [Hn Hc Hb Hl]. split; simpl.
  - apply NoDup_app in Hn as (H1 & H2 & [H3 H4]%NoDup_cons). apply NoDup_app. set_solver.
  - eapply chain_remove; [by apply cells_nodup|done].
  - intros ->. rewrite decide_True by done. apply (backs_remove _ _ _ p); auto.
  - intros ->. rewrite end_cell_app. destruct l2 as [|n l2]; simpl.
    + repeat (rewrite decide_True by done). by rewrite lookup_insert_eq.
    + repeat (rewrite decide_False by naive_solver). rewrite Hl by done. by rewrite end_cell_app.
Qed.

Lemma end_cell_cells q l1 l2 : end_cell (CFirst q) l1 ∈ cells (CFirst q) (l1 ++ l2).
Proof. apply cells_app. left. apply end_cell_in. Qed.

Lemma ins_frame f t q l1 p l2 :
  qframe q (l1 ++ p :: l2) t (ins_state f q (end_cell (CFirst q) l1) p (head l2) t).
Proof.
  pose proof (end_cell_cells q l1 (p :: l2)) as He. split; simpl.
  - intros c Hc. rewrite !lookup_insert_ne; [done| |]; intros <-; [|done].
    apply Hc, cells_app. right. simpl. by left.
  - intros q' Hq. case_decide; [by rewrite lookup_insert_ne|done].
  - intros x Hx. case_decide; [|done]. rewrite lookup_insert_ne by set_solver.
    destruct l2 as [|n l2]; simpl; [done|]. rewrite lookup_insert_ne; [done|]. set_solver.
Qed.

Lemma rem_frame f t q l1 l2 X :
  (∀ x, x ∈ l1 ++ l2 → x ∈ X) → qframe q X t (rem_state f q (end_cell (CFirst q) l1) (head l2) t).
Proof.
  intros HX. pose proof (end_cell_cells q l1 l2) as He. split; simpl.
  - intros c Hc. rewrite lookup_insert_ne; [done|]. intros <-. apply Hc. unfold cells in *.
    rewrite elem_of_cons, list_elem_of_fmap in *. destruct He as [->|(y & -> & Hy)]; eauto.
  - intros q' Hq. case_decide; [by rewrite lookup_insert_ne|done].
  - intros x Hx. case_decide; [|done]. destruct l2 as [|n l2]; simpl; [done|].
    rewrite lookup_insert_ne; [done|]. intros ->. apply Hx, HX. set_solver.
Qed.

(** ** Running the macros *)

Lemma ld_ok t c v : ptrs t !! c = Some v → ld c t = Ok (v, t).
Proof. intros H. unfold ld. by rewrite H. Qed.
Lemma st_ok t c v : is_Some (ptrs t !! c) → st c v t = Ok ((), QMem (<[c := v]> (ptrs t)) (lasts t) (prevs t)).
Proof. intros [w H]. unfold st. by mstep by (by apply ld_ok). Qed.
Lemma set_last_ok t q c : is_Some (lasts t !! q) → set_last q c t = Ok ((), QMem (ptrs t) (<[q := c]> (lasts t)) (prevs t)).
Proof. intros [w H]. unfold set_last. mstep by (unfold get_last; by rewrite H). done. Qed.
Lemma get_prev_ok t p c : prevs t !! p = Some c → get_prev p t = Ok (c, t).
Proof. intros H. unfold get_prev. by rewrite H. Qed.
Lemma set_prev_ok t p c : is_Some (prevs t !! p) → set_prev p c t = Ok ((), QMem (ptrs t) (lasts t) (<[p := c]> (prevs t))).
Proof. intros [w H]. unfold set_prev. by mstep by (by apply get_prev_ok). Qed.

(** The bodies that several macros share: insertion and removal at a pointer. *)
Definition list_insert_at (c : cell) (elm : Z) : M qmem () :=
  n ← ld c;
  st (CNext elm) n;;
  (if bool_decide (n ≠ None) then n ← ld c; n ← deref n; set_prev n (CNext elm) else mret ());;
  st c (Some elm);;
  set_prev elm c.
Definition slist_insert_at (c : cell) (elm : Z) : M qmem () :=
  n ← ld c; st (CNext elm) n;; st c (Some elm).
Definition stailq_insert_at (q : Z) (c : cell) (elm : Z) : M qmem () :=
  n ← ld c;
  st (CNext elm) n;;
  (if bool_decide (n = None) then set_last q (CNext elm) else mret ());;
  st c (Some elm).
Definition slist_remove_at (c : cell) : M qmem () :=
  p ← ld c; p ← deref p; n ← ld (CNext p); st c n.
Definition stailq_remove_at (q : Z) (c : cell) : M qmem () :=
  p ← ld c; p ← deref p; n ← ld (CNext p); st c n;;
  if bool_decide (n = None) then set_last q c else mret ().

Section Run.
Context (t : qmem) (q : Z) (l1 l2 : list Z).
Notation c := (end_cell (CFirst q) l1).

(** The pointer between the two parts. *)
Lemma rep_cell f : rep f t q (l1 ++ l2) → ptrs t !! c = Some (head l2).
Proof. intros [_ Hc _ _]. apply chain_app in Hc as [_ Hc]. by apply chain_head. Qed.

Lemma rep_back p l : l2 = p :: l → rep FList t q (l1 ++ l2) → prevs t !! p = Some c.
Proof. intros -> [_ _ Hb _]. specialize (Hb eq_refl). apply backs_app in Hb as [_ Hb]. apply Hb. Qed.

Lemma cell_ne p : p ∉ l1 → c ≠ CNext p.
Proof. intros Hp E. pose proof (end_cell_in (CFirst q) l1) as He. rewrite E in He. by apply not_in_cells in He. Qed.

Context (p : Z) (Hp : p ∉ l1 ++ l2) (Hap : is_Some (ptrs t !! CNext p)).

Lemma slist_insert_run f :
  rep f t q (l1 ++ l2) → f = FSlist → slist_insert_at c p t = Ok ((), ins_state f q c p (head l2) t).
Proof using Hp Hap.
  intros Hr ->. pose proof (rep_cell _ Hr) as Hc. unfold slist_insert_at, ins_state. mstep by (by apply ld_ok).
  mstep by (by apply st_ok). rewrite st_ok; [done|]. simpl. rewrite lookup_insert_ne by (intros E; symmetry in E; revert E; apply cell_ne; set_solver). by eexists.
Qed.

Lemma stailq_insert_run :
  rep FStailq t q (l1 ++ l2) → stailq_insert_at q c p t = Ok ((), ins_state FStailq q c p (head l2) t).
Proof using Hp Hap.
  intros Hr. pose proof (rep_cell _ Hr) as Hc. pose proof (r_last _ _ _ _ Hr eq_refl) as Hl.
  assert (CNext p ≠ c) as Hne by (intros E; symmetry in E; revert E; apply cell_ne; set_solver).
  unfold stailq_insert_at, ins_state. mstep by (by apply ld_ok). mstep by (by apply st_ok).
  destruct (head l2) as [n|]; simpl.
  - mstep by reflexivity. rewrite st_ok; [done|]. simpl. by rewrite lookup_insert_ne.
  - mstep by (by apply set_last_ok; simpl; eexists). rewrite st_ok; [done|]. simpl. by rewrite lookup_insert_ne.
Qed.

Lemma list_insert_run :
  rep FList t q (l1 ++ l2) → is_Some (prevs t !! p) → list_insert_at c p t = Ok ((), ins_state FList q c p (head l2) t).
Proof using Hp Hap.
  intros Hr [b Hb]. pose proof (rep_cell _ Hr) as Hc.
  assert (CNext p ≠ c) as Hne by (intros E; symmetry in E; revert E; apply cell_ne; set_solver).
  unfold list_insert_at, ins_state. mstep by (by apply ld_ok). mstep by (by apply st_ok).
  assert (∀ n, l2 = n :: tail l2 → is_Some (prevs t !! n)) as Hback.
  { intros n E. rewrite (rep_back _ _ E Hr). by eexists. }
  destruct l2 as [|n l2']; simpl.
  - mstep by reflexivity. mstep by (apply st_ok; simpl; by rewrite lookup_insert_ne). by rewrite set_prev_ok by (by eexists).
  - mstep by (mstep by (apply ld_ok; simpl; by rewrite lookup_insert_ne); mstep by reflexivity; apply set_prev_ok; simpl; by apply Hback).
    mstep by (apply st_ok; simpl; by rewrite lookup_insert_ne). rewrite set_prev_ok; [done|]. simpl.
    rewrite lookup_insert_ne by set_solver. by eexists.
Qed.
End Run.

Lemma LIST_INSERT_BEFORE_run t q l1 x l2 p :
  rep FList t q (l1 ++ x :: l2) → p ∉ l1 ++ x :: l2 → is_Some (ptrs t !! CNext p) → is_Some (prevs t !! p) →
  LIST_INSERT_BEFORE x p t = Ok ((), ins_state FList q (end_cell (CFirst q) l1) p (Some x) t).
Proof.
  intros Hr Hp Hap Hbp. pose proof (rep_cell _ _ _ _ _ Hr) as Hc. pose proof (rep_back _ _ _ _ x l2 eq_refl Hr) as Hb.
  assert (p ≠ x) as Hpx by set_solver.
  assert (CNext p ≠ end_cell (CFirst q) l1) as Hne by (intros E; symmetry in E; revert E; apply cell_ne; set_solver).
  unfold LIST_INSERT_BEFORE. mstep by (by apply get_prev_ok). mstep by (by apply set_prev_ok).
  mstep by (by apply st_ok). mstep by (apply get_prev_ok; simpl; by rewrite lookup_insert_ne).
  mstep by (apply st_ok; simpl; by rewrite lookup_insert_ne).
  rewrite set_prev_ok by (simpl; by rewrite lookup_insert_ne). unfold ins_state. simpl.
  by rewrite (insert_insert_ne _ x p).
Qed.

Lemma LIST_REMOVE_run t q l1 p l2 :
  rep FList t q (l1 ++ p :: l2) → LIST_REMOVE p t = Ok ((), rem_state FList q (end_cell (CFirst q) l1) (head l2) t).
Proof.
  intros Hr. pose proof (rep_cell _ _ _ _ _ Hr) as Hc. pose proof (rep_back _ _ _ _ p l2 eq_refl Hr) as Hb.
  assert (rep FList t q ((l1 ++ [p]) ++ l2)) as Hr2 by (by rewrite <- app_assoc).
  pose proof (rep_cell _ _ _ _ _ Hr2) as Hn. rewrite end_cell_app in Hn. simpl in Hn.
  pose proof (r_nodup _ _ _ _ Hr) as Hnd. unfold LIST_REMOVE, rem_state. mstep by (by apply ld_ok).
  destruct l2 as [|n l2]; simpl.
  - mstep by reflexivity. mstep by (by apply get_prev_ok). mstep by (by apply ld_ok). by rewrite st_ok.
  - assert (is_Some (prevs t !! n)) as Hbn by (rewrite (rep_back _ _ _ _ n l2 eq_refl Hr2); by eexists).
    assert (n ≠ p) by (apply NoDup_app in Hnd as (_ & _ & [? _]%NoDup_cons); set_solver).
    mstep by (mstep by (by apply ld_ok); mstep by reflexivity; mstep by (by apply get_prev_ok); by apply set_prev_ok).
    mstep by (apply get_prev_ok; simpl; by rewrite lookup_insert_ne). mstep by (by apply ld_ok). by rewrite st_ok.
Qed.

Lemma slist_remove_run f t q l1 p l2 :
  rep f t q (l1 ++ p :: l2) → f = FSlist →
  slist_remove_at (end_cell (CFirst q) l1) t = Ok ((), rem_state f q (end_cell (CFirst q) l1) (head l2) t).
Proof.
  intros Hr ->. pose proof (rep_cell _ _ _ _ _ Hr) as Hc.
  assert (rep FSlist t q ((l1 ++ [p]) ++ l2)) as Hr2 by (by rewrite <- app_assoc).
  pose proof (rep_cell _ _ _ _ _ Hr2) as Hn. rewrite end_cell_app in Hn. simpl in Hn.
  unfold slist_remove_at, rem_state. mstep by (by apply ld_ok). mstep by reflexivity. mstep by (by apply ld_ok).
  by rewrite st_ok.
Qed.

Lemma stailq_remove_run t q l1 p l2 :
  rep FStailq t q (l1 ++ p :: l2) →
  stailq_remove_at q (end_cell (CFirst q) l1) t = Ok ((), rem_state FStailq q (end_cell (CFirst q) l1) (head l2) t).
Proof.
  intros Hr. pose proof (rep_cell _ _ _ _ _ Hr) as Hc. pose proof (r_last _ _ _ _ Hr eq_refl) as Hl.
  assert (rep FStailq t q ((l1 ++ [p]) ++ l2)) as Hr2 by (by rewrite <- app_assoc).
  pose proof (rep_cell _ _ _ _ _ Hr2) as Hn. rewrite end_cell_app in Hn. simpl in Hn.
  unfold stailq_remove_at, rem_state. mstep by (by apply ld_ok). mstep by reflexivity. mstep by (by apply ld_ok).
  mstep by (by apply st_ok). destruct (head l2) as [n|]; simpl; [done|]. by rewrite set_last_ok.
Qed.

Lemma STAILQ_INSERT_TAIL_run t q l p :
  rep FStailq t q l → p ∉ l → is_Some (ptrs t !! CNext p) →
  STAILQ_INSERT_TAIL q p t = Ok ((), ins_state FStailq q (end_cell (CFirst q) l) p None t).
Proof.
  intros Hr Hp Hap. pose proof (r_last _ _ _ _ Hr eq_refl) as Hl.
  assert (rep FStailq t q (l ++ [])) as Hr2 by (by rewrite app_nil_r). pose proof (rep_cell _ _ _ _ _ Hr2) as Hc.
  assert (CNext p ≠ end_cell (CFirst q) l) as Hne by (intros E; symmetry in E; revert E; by apply cell_ne).
  unfold STAILQ_INSERT_TAIL, ins_state. mstep by (by apply st_ok). mstep by (unfold get_last; simpl; by rewrite Hl).
  mstep by (apply st_ok; simpl; by rewrite lookup_insert_ne). by rewrite set_last_ok by (simpl; by eexists).
Qed.

(** The search for the element before another one. *)
Lemma find_before_spec fuel t y l1 x l2 :
  chain (ptrs t) (CNext y) (l1 ++ x :: l2) → x ∉ l1 → (length l1 < fuel)%nat →
  ∃ z, find_before fuel x y t = Ok (z, t) ∧ CNext z = end_cell (CNext y) l1.
Proof.
  revert y l1. induction fuel as [|fuel IH]; intros y l1 Hc Hx Hf; [lia|]. cbn [find_before].
  destruct l1 as [|z l1]; simpl in *; destruct Hc as [Hy Hc].
  - exists y. split; [|done]. mstep by (by apply ld_ok). by rewrite bool_decide_true.
  - mstep by (by apply ld_ok). rewrite bool_decide_false by set_solver. mstep by reflexivity.
    apply IH; [done|set_solver|lia].
Qed.

(** The elements of a loop, when its body leaves the queue alone. *)
Lemma foreach_spec {A} fuel body (g : A → Z → A) (a : A) t c l :
  (∀ a p, p ∈ l → body a p t = Ok (g a p, t)) → chain (ptrs t) c l → (length l ≤ fuel)%nat →
  ∀ v, ptrs t !! c = Some v → foreach fuel body a v t = Ok (foldl g a l, t).
Proof.
  intros Hb. revert fuel a c. induction l as [|p l IH]; intros fuel a c Hc Hf v Hv; simpl in *.
  - rewrite Hv in Hc. injection Hc as ->. by destruct fuel.
  - destruct Hc as [Hp Hc]. rewrite Hv in Hp. injection Hp as ->. destruct fuel as [|fuel]; [lia|]. cbn [foreach].
    mstep by (apply Hb; by left). mstep by (apply ld_ok, chain_head; exact Hc).
    eapply IH; [|exact Hc|lia|by apply chain_head]. intros a' p' Hp'. apply Hb. by right.
Qed.

(** ** The operations as operations on lists *)

Inductive qop :=
  | OHead (p : Z) | OTail (p : Z) | OAfter (x p : Z) | OBefore (x p : Z)
  | ORemoveHead | ORemove (x : Z).

(** The elements before and after [x]. *)
Fixpoint split_elem (x : Z) (l : list Z) : option (list Z * list Z) :=
  match l with
  | [] => None
  | y :: l => if decide (y = x) then Some ([], l) else '(l1, l2) ← split_elem x l; Some (y :: l1, l2)
  end.

(** The new list, if the operation makes sense: an inserted element is not in
    the list yet, and the element that is removed, or next to which another one
    is inserted, is. *)
Definition op_list (o : qop) (l : list Z) : option (list Z) :=
  match o with
  | OHead p => if decide (p ∈ l) then None else Some (p :: l)
  | OTail p => if decide (p ∈ l) then None else Some (l ++ [p])
  | OAfter x p => if decide (p ∈ l) then None else '(l1, l2) ← split_elem x l; Some (l1 ++ x :: p :: l2)
  | OBefore x p => if decide (p ∈ l) then None else '(l1, l2) ← split_elem x l; Some (l1 ++ p :: x :: l2)
  | ORemoveHead => match l with [] => None | _ :: l => Some l end
  | ORemove x => '(l1, l2) ← split_elem x l; Some (l1 ++ l2)
  end.

Definition op_new (o : qop) : option Z :=
  match o with OHead p | OTail p | OAfter _ p | OBefore _ p => Some p | _ => None end.

(** The macro of a kind of queue for an operation. *)
Definition op_run (f : family) (fuel : nat) (q : Z) (o : qop) : option (M qmem ()) :=
  match f, o with
  | FList, OHead p => Some (LIST_INSERT_HEAD q p)
  | FList, OAfter x p => Some (LIST_INSERT_AFTER x p)
  | FList, OBefore x p => Some (LIST_INSERT_BEFORE x p)
  | FList, ORemove x => Some (LIST_REMOVE x)
  | FSlist, OHead p => Some (SLIST_INSERT_HEAD q p)
  | FSlist, OAfter x p => Some (SLIST_INSERT_AFTER x p)
  | FSlist, ORemoveHead => Some (SLIST_REMOVE_HEAD q)
  | FSlist, ORemove x => Some (SLIST_REMOVE fuel q x)
  | FStailq, OHead p => Some (STAILQ_INSERT_HEAD q p)
  | FStailq, OTail p => Some (STAILQ_INSERT_TAIL q p)
  | FStailq, OAfter x p => Some (STAILQ_INSERT_AFTER q x p)
  | FStailq, ORemoveHead => Some (STAILQ_REMOVE_HEAD q)
  | FStailq, ORemove x => Some (STAILQ_REMOVE fuel q x)
  | _, _ => None
  end.

Definition q_init (f : family) (q : Z) : M qmem () :=
  match f with FList => LIST_INIT q | FSlist => SLIST_INIT q | FStailq => STAILQ_INIT q end.
Definition q_foreach {A} (f : family) (fuel : nat) (body : A → Z → M qmem A) (a : A) (q : Z) : M qmem A :=
  match f with
  | FList => LIST_FOREACH fuel body a q
  | FSlist => SLIST_FOREACH fuel body a q
  | FStailq => STAILQ_FOREACH fuel body a q
  end.

(** The memory of a head, and of an element. *)
Definition head_alloc (f : family) (t : qmem) (q : Z) : Prop :=
  is_Some (ptrs t !! CFirst q) ∧ (f = FStailq → is_Some (lasts t !! q)).
Definition elm_alloc (f : family) (t : qmem) (p : Z) : Prop :=
  is_Some (ptrs t !! CNext p) ∧ (f = FList → is_Some (prevs t !! p)).

Lemma split_elem_Some x l l1 l2 : split_elem x l = Some (l1, l2) → l = l1 ++ x :: l2 ∧ x ∉ l1.
Proof.
  revert l1. induction l as [|y l IH]; intros l1; simpl; [done|].
  case_decide as Hy; [intros [= <- <-]; subst; split; [done|apply not_elem_of_nil]|].
  destruct (split_elem x l) as [[a b]|]; simpl; [|done]. intros [= <- <-].
  destruct (IH a eq_refl) as [-> Hx]. split; [done|]. set_solver.
Qed.

(** What an insertion and a removal do, in terms of the two parts of the list. *)
Definition inserts (f : family) (m : M qmem ()) (t : qmem) (q : Z) (l1 : list Z) (p : Z) (l2 : list Z) : Prop :=
  rep f t q (l1 ++ l2) → p ∉ l1 ++ l2 → elm_alloc f t p →
  m t = Ok ((), ins_state f q (end_cell (CFirst q) l1) p (head l2) t).
Definition removes (f : family) (m : M qmem ()) (t : qmem) (q : Z) (l1 : list Z) (p : Z) (l2 : list Z) : Prop :=
  rep f t q (l1 ++ p :: l2) → m t = Ok ((), rem_state f q (end_cell (CFirst q) l1) (head l2) t).

Lemma remove_found_run f fuel t q x l1 l2 :
  (f = FSlist ∨ f = FStailq) → x ∉ l1 → (length l1 < fuel)%nat →
  removes f (if decide (f = FSlist) then SLIST_REMOVE fuel q x else STAILQ_REMOVE fuel q x) t q l1 x l2.
Proof.
  intros Hf Hx Hfu Hr. pose proof (r_chain _ _ _ _ Hr) as Hc. destruct l1 as [|y l1].
  - simpl in Hc. destruct Hf as [->| ->]; [rewrite decide_True by done|rewrite decide_False by done].
    + unfold SLIST_REMOVE. mstep by (apply ld_ok, Hc). rewrite bool_decide_true by done.
      by apply (slist_remove_run FSlist t q [] x l2).
    + unfold STAILQ_REMOVE. mstep by (apply ld_ok, Hc). rewrite bool_decide_true by done.
      by apply (stailq_remove_run t q [] x l2).
  - simpl in Hc. destruct Hc as [Hy Hc].
    destruct (find_before_spec fuel t y l1 x l2) as (z & E & Ez); [done|set_solver|simpl in Hfu; lia|].
    destruct Hf as [->| ->]; [rewrite decide_True by done|rewrite decide_False by done].
    + unfold SLIST_REMOVE. mstep by (by apply ld_ok). rewrite bool_decide_false by (intros [= ->]; set_solver).
      mstep by reflexivity. mstep by exact E. pose proof (slist_remove_run FSlist t q (y :: l1) x l2 Hr eq_refl) as H.
      simpl in H. rewrite <- Ez in H. simpl. by rewrite <- Ez.
    + unfold STAILQ_REMOVE. mstep by (by apply ld_ok). rewrite bool_decide_false by (intros [= ->]; set_solver).
      mstep by reflexivity. mstep by exact E. pose proof (stailq_remove_run t q (y :: l1) x l2 Hr) as H.
      simpl in H. rewrite <- Ez in H. simpl. by rewrite <- Ez.
Qed.

(** Insertions at the pointer between two parts. *)
Lemma insert_at_run f fuel t q l1 l2 p o m :
  rep f t q (l1 ++ l2) → p ∉ l1 ++ l2 → elm_alloc f t p → op_run f fuel q o = Some m →
  ((o = OHead p ∧ l1 = []) ∨ (∃ x l0, o = OAfter x p ∧ l1 = l0 ++ [x])) →
  m t = Ok ((), ins_state f q (end_cell (CFirst q) l1) p (head l2) t).
Proof.
  intros Hr Hp [Ha1 Ha2] Hm Ho.
  assert (∃ c, c = end_cell (CFirst q) l1 ∧ m = match f with
    | FList => list_insert_at c p | FSlist => slist_insert_at c p | FStailq => stailq_insert_at q c p end) as (c & -> & ->).
  { destruct Ho as [[-> ->]|(x & l0 & -> & ->)].
    - exists (CFirst q). split; [done|]. destruct f; injection Hm as <-; reflexivity.
    - exists (CNext x). split; [by rewrite end_cell_app|]. destruct f; injection Hm as <-; reflexivity. }
  destruct f; [apply list_insert_run; auto|eapply slist_insert_run; done|by apply stailq_insert_run].
Qed.

(** Every operation is an insertion or a removal at one place of the list. *)
Lemma op_run_spec f fuel t q o l l' m :
  rep f t q l → (length l < fuel)%nat → op_run f fuel q o = Some m → op_list o l = Some l' →
  (∀ p, op_new o = Some p → elm_alloc f t p) →
  (∃ l1 p l2, l = l1 ++ l2 ∧ l' = l1 ++ p :: l2 ∧ p ∉ l1 ++ l2 ∧
     m t = Ok ((), ins_state f q (end_cell (CFirst q) l1) p (head l2) t)) ∨
  (∃ l1 p l2, l = l1 ++ p :: l2 ∧ l' = l1 ++ l2 ∧
     m t = Ok ((), rem_state f q (end_cell (CFirst q) l1) (head l2) t)).
Proof.
  intros Hr Hf Hm Ho Ha. destruct o as [p|p|x p|x p| |x]; simpl in Ho; try (case_decide as Hp; [done|]).
  - left. injection Ho as <-. exists [], p, l. split_and!; [done..|].
    eapply insert_at_run; [done|done|by apply Ha|done|]. by left.
  - left. injection Ho as <-. exists l, p, []. rewrite app_nil_r. split_and!; [done..|].
    destruct f; try done. injection Hm as <-. apply STAILQ_INSERT_TAIL_run; [done..|]. by apply Ha.
  - destruct (split_elem x l) as [[l1 l2]|] eqn:E; [|done]. injection Ho as <-.
    apply split_elem_Some in E as [-> Hx]. left. exists (l1 ++ [x]), p, l2. rewrite <- !app_assoc. split_and!; [done..|].
    eapply insert_at_run; [by rewrite <- app_assoc|by rewrite <- app_assoc|by apply Ha|done|]. right. by exists x, l1.
  - destruct (split_elem x l) as [[l1 l2]|] eqn:E; [|done]. injection Ho as <-.
    apply split_elem_Some in E as [-> Hx]. left. exists l1, p, (x :: l2). split_and!; [done..|].
    destruct (Ha p eq_refl) as [Ha1 Ha2]. destruct f; try done. injection Hm as <-.
    apply (LIST_INSERT_BEFORE_run t q l1 x l2); auto.
  - destruct l as [|y l]; [done|]. injection Ho as <-. right. exists [], y, l. split_and!; [done..|].
    destruct f; try done; injection Hm as <-; [by eapply (slist_remove_run FSlist t q [])|by eapply (stailq_remove_run t q [])].
  - destruct (split_elem x l) as [[l1 l2]|] eqn:E; [|done]. injection Ho as <-.
    apply split_elem_Some in E as [-> Hx]. right. exists l1, x, l2. split_and!; [done..|].
    rewrite length_app in Hf. simpl in Hf.
    destruct f; injection Hm as <-; [by eapply LIST_REMOVE_run| |].
    + by apply (remove_found_run FSlist fuel t q x l1 l2 (or_introl eq_refl) Hx ltac:(lia)).
    + by apply (remove_found_run FStailq fuel t q x l1 l2 (or_intror eq_refl) Hx ltac:(lia)).
Qed.

(** An initialised head represents the empty list. *)
Lemma q_init_spec f t q : head_alloc f t q → ∃ t', q_init f q t = Ok ((), t') ∧ rep f t' q [] ∧ qframe q [] t t'.
Proof.
  intros [Hc Hl]. destruct f; simpl; unfold LIST_INIT, SLIST_INIT, STAILQ_INIT.
  1,2: rewrite st_ok by done; eexists; split; [done|]; split; [split; simpl; try done; [constructor|by rewrite lookup_insert_eq]|].
  1,2: split; simpl; try done; intros c Hne; rewrite lookup_insert_ne; [done|]; intros <-; apply Hne; by left.
  mstep by (by apply st_ok). rewrite set_last_ok by (by apply Hl). eexists. split; [done|]. split.
  - split; simpl; try done; [constructor|by rewrite lookup_insert_eq|intros _; by rewrite lookup_insert_eq].
  - split; simpl; [|intros; by rewrite lookup_insert_ne|done].
    intros c Hne. rewrite lookup_insert_ne; [done|]. intros <-. apply Hne. by left.
Qed.

(** C16: the macros of LIST, SLIST and STAILQ (and so of SIMPLEQ) are operations on
    lists: every insertion and removal that
    makes sense for the list returns, and gives the list with the element inserted
    at its place or removed; a loop over the queue visits the elements of the
    list in order; and every other head and every element that was in neither
    list keeps its pointers. *)
Theorem queue_op_refines f fuel t q o l l' m :
  rep f t q l → (length l < fuel)%nat → op_run f fuel q o = Some m → op_list o l = Some l' →
  (∀ p, op_new o = Some p → elm_alloc f t p) →
  ∃ t', m t = Ok ((), t') ∧ rep f t' q l' ∧ qframe q (l ++ l') t t' ∧
    ∀ A (body : A → Z → M qmem A) (g : A → Z → A) (a : A),
      (∀ a p, p ∈ l' → body a p t' = Ok (g a p, t')) → q_foreach f fuel body a q t' = Ok (foldl g a l', t').
Proof.
  intros Hr Hf Hm Ho Ha.
  assert (∃ t', m t = Ok ((), t') ∧ rep f t' q l' ∧ qframe q (l ++ l') t t' ∧ (length l' ≤ fuel)%nat)
    as (t' & E & Hr' & Hfr & Hlen).
  { destruct (op_run_spec f fuel t q o l l' m) as [(l1 & p & l2 & -> & -> & Hp & E)|(l1 & p & l2 & -> & -> & E)]; [done..| |].
    all: rewrite !length_app in *; simpl in *; eexists; split; [exact E|].
    - split; [by apply rep_insert|]. split; [|lia]. eapply qframe_mono; [|apply ins_frame]. set_solver.
    - split; [by eapply rep_remove|]. split; [|lia]. apply rem_frame. set_solver. }
  exists t'. split; [done|]. split; [done|]. split; [done|]. intros A body g a Hb.
  pose proof (r_chain _ _ _ _ Hr') as Hc. pose proof (chain_head _ _ _ Hc) as Hh.
  destruct f; simpl; unfold LIST_FOREACH, SLIST_FOREACH, STAILQ_FOREACH; mstep by (by apply ld_ok);
    by eapply foreach_spec.
Qed.

(** STAILQ_CONCAT moves the elements of the second queue to the end of the first. *)
Lemma STAILQ_CONCAT_spec t q1 q2 l1 l2 :
  rep FStailq t q1 l1 → rep FStailq t q2 l2 → q1 ≠ q2 → (∀ p, p ∈ l1 → p ∉ l2) →
  ∃ t', STAILQ_CONCAT q1 q2 t = Ok ((), t') ∧ rep FStailq t' q1 (l1 ++ l2) ∧ rep FStailq t' q2 [].
Proof.
  intros Hr1 Hr2 Hq Hd. pose proof (r_chain _ _ _ _ Hr2) as Hc2. pose proof (r_last _ _ _ _ Hr2 eq_refl) as Hl2.
  pose proof (r_last _ _ _ _ Hr1 eq_refl) as Hl1. pose proof (chain_head _ _ _ Hc2) as Hh2.
  unfold STAILQ_CONCAT, STAILQ_EMPTY. mstep by (mstep by (by apply ld_ok); reflexivity).
  destruct l2 as [|n l2]; [rewrite app_nil_r; by exists t|]. rewrite bool_decide_false by done.
  assert (rep FStailq t q1 (l1 ++ [])) as Hr1' by (by rewrite app_nil_r).
  pose proof (rep_cell _ _ _ _ _ Hr1') as Hc1.
  assert (end_cell (CFirst q1) l1 ≠ CFirst q2) as Hne.
  { pose proof (end_cell_in (CFirst q1) l1) as Hin. intros E. rewrite E in Hin. unfold cells in Hin.
    rewrite elem_of_cons, list_elem_of_fmap in Hin. destruct Hin as [[=]|(? & [=] & _)]; done. }
  mstep by (unfold get_last; by rewrite Hl1). mstep by (by apply ld_ok). mstep by (by apply st_ok).
  mstep by (unfold get_last; simpl; by rewrite Hl2). mstep by (by apply set_last_ok).
  unfold STAILQ_INIT. mstep by (apply st_ok; simpl; by rewrite lookup_insert_ne).
  rewrite set_last_ok by (simpl; by rewrite lookup_insert_ne). eexists. split; [done|]. split; split; simpl; try done.
  - apply NoDup_app. split_and!; [by apply Hr1|done|by apply Hr2].
  - destruct Hc2 as [_ Hc2]. apply chain_app. split.
    + pose proof (r_chain _ _ _ _ Hr1') as [Hp _]%chain_app. eapply path_ext; [apply cells_nodup, Hr1| |exact Hp].
      intros x Hx Hxe. rewrite !lookup_insert_ne; [done|done|]. intros <-. unfold cells in Hx.
      rewrite elem_of_cons, list_elem_of_fmap in Hx. destruct Hx as [[=]|(? & [=] & _)]; done.
    + simpl. split; [by rewrite lookup_insert_ne, lookup_insert_eq|].
      eapply chain_ext; [|exact Hc2]. intros x Hx. change (cells (CNext n) l2) with (CNext <$> (n :: l2)) in Hx.
      apply list_elem_of_fmap in Hx as (y & -> & Hy). rewrite !lookup_insert_ne; [done| |done].
      apply cell_ne. intros Hy1. by apply (Hd y).
  - intros _. rewrite lookup_insert_ne by done. rewrite lookup_insert_eq. by rewrite end_cell_app.
  - constructor.
  - by rewrite lookup_insert_eq.
  - intros _. by rewrite lookup_insert_eq.
Qed.

(** The list 1, 2 with a third element inserted before the second. *)
Definition w_mem : qmem :=
  QMem (list_to_map [(CFirst 9, Some 1); (CNext 1, Some 2); (CNext 2, None); (CNext 3, None)]) ∅
    (list_to_map [(1, CFirst 9); (2, CNext 1); (3, CFirst 0)]).

Lemma queue_op_refines_witness :
  ∃ t', LIST_INSERT_BEFORE 2 3 w_mem = Ok ((), t') ∧ rep FList t' 9 [1; 3; 2].
Proof.
  destruct (queue_op_refines FList 8 w_mem 9 (OBefore 2 3) [1; 2] [1; 3; 2] (LIST_INSERT_BEFORE 2 3))
    as (t' & E & Hr & _).
  - split; [compute_decide| | |done].
    + vm_compute; repeat split.
    + intros _. vm_compute; repeat split.
  - apply Nat.ltb_lt. reflexivity.
  - reflexivity.
  - vm_compute. reflexivity.
  - intros p [= <-]. split; [|intros _]; eexists; vm_compute; reflexivity.
  - by exists t'.
Defined.
