(* ===== verification/Circleq.v ===== *)
(** Circular queues (the CIRCLEQ macros of include/sys/queue.h).

    The members cqh_first and cqe_next point forward and the members cqh_last and
    cqe_prev point back, each to an element or, where the queue ends, to its head. *)
From S2P Require Import Prelude Queues.

Inductive node := NHead (q : Z) | NElm (p : Z).

#[export] Instance node_eq_dec : EqDecision node.
Proof. solve_decision. Defined.
#[export] Instance node_countable : Countable node.
Proof.
  refine (inj_countable' (λ c, match c with NHead q => inl q | NElm p => inr p end)
            (λ s, match s with inl q => NHead q | inr p => NElm p end) _).
  by intros [].
Defined.

Record cqmem := CqMem {
  fwd : gmap node node;   (* cqh_first of a head, cqe_next of an element *)
  bwd : gmap node node;   (* cqh_last of a head, cqe_prev of an element *)
}.

Definition get_fwd (a : node) : M cqmem node := λ t,
  match fwd t !! a with Some n => Ok (n, t) | None => Err FWild end.
Definition set_fwd (a n : node) : M cqmem () := get_fwd a;; modify (λ t, CqMem (<[a := n]> (fwd t)) (bwd t)).
Definition get_bwd (a : node) : M cqmem node := λ t,
  match bwd t !! a with Some n => Ok (n, t) | None => Err FWild end.
Definition set_bwd (a n : node) : M cqmem () := get_bwd a;; modify (λ t, CqMem (fwd t) (<[a := n]> (bwd t))).
(** The use of a pointer as a pointer to an element. *)
Definition as_elm (n : node) : M cqmem node := match n with NElm p => mret (NElm p) | NHead _ => fail FWild end.

(** ** The macros *)

Definition CIRCLEQ_INIT (head : Z) : M cqmem () :=
  set_fwd (NHead head) (NHead head);;
  set_bwd (NHead head) (NHead head).

Definition CIRCLEQ_INSERT_AFTER (head listelm elm : Z) : M cqmem () :=
  n ← get_fwd (NElm listelm);
  set_fwd (NElm elm) n;;
  set_bwd (NElm elm) (NElm listelm);;
  n ← get_fwd (NElm listelm);
  (if bool_decide (n = NHead head) then set_bwd (NHead head) (NElm elm)
   else n ← get_fwd (NElm listelm); n ← as_elm n; set_bwd n (NElm elm));;
  set_fwd (NElm listelm) (NElm elm).

Definition CIRCLEQ_INSERT_BEFORE (head listelm elm : Z) : M cqmem () :=
  set_fwd (NElm elm) (NElm listelm);;
  n ← get_bwd (NElm listelm);
  set_bwd (NElm elm) n;;
  n ← get_bwd (NElm listelm);
  (if bool_decide (n = NHead head) then set_fwd (NHead head) (NElm elm)
   else n ← get_bwd (NElm listelm); n ← as_elm n; set_fwd n (NElm elm));;
  set_bwd (NElm listelm) (NElm elm).

Definition CIRCLEQ_INSERT_HEAD (head elm : Z) : M cqmem () :=
  n ← get_fwd (NHead head);
  set_fwd (NElm elm) n;;
  set_bwd (NElm elm) (NHead head);;
  n ← get_bwd (NHead head);
  (if bool_decide (n = NHead head) then set_bwd (NHead head) (NElm elm)
   else n ← get_fwd (NHead head); n ← as_elm n; set_bwd n (NElm elm));;
  set_fwd (NHead head) (NElm elm).

Definition CIRCLEQ_INSERT_TAIL (head elm : Z) : M cqmem () :=
  set_fwd (NElm elm) (NHead head);;
  n ← get_bwd (NHead head);
  set_bwd (NElm elm) n;;
  n ← get_fwd (NHead head);
  (if bool_decide (n = NHead head) then set_fwd (NHead head) (NElm elm)
   else n ← get_bwd (NHead head); n ← as_elm n; set_fwd n (NElm elm));;
  set_bwd (NHead head) (NElm elm).

Definition CIRCLEQ_REMOVE (head elm : Z) : M cqmem () :=
  n ← get_fwd (NElm elm);
  (if bool_decide (n = NHead head) then n ← get_bwd (NElm elm); set_bwd (NHead head) n
   else n ← get_fwd (NElm elm); n ← as_elm n; m ← get_bwd (NElm elm); set_bwd n m);;
  n ← get_bwd (NElm elm);
  if bool_decide (n = NHead head) then n ← get_fwd (NElm elm); set_fwd (NHead head) n
  else n ← get_bwd (NElm elm); n ← as_elm n; m ← get_fwd (NElm elm); set_fwd n m.

(** The loops end at the head. *)
Fixpoint circle_loop {A} (step : node → M cqmem node) (fuel : nat) (body : A → Z → M cqmem A)
    (a : A) (head : Z) (var : node) : M cqmem A :=
  if bool_decide (var = NHead head) then mret a
  else match fuel, var with
  | S fuel, NElm p => a ← body a p; n ← step (NElm p); circle_loop step fuel body a head n
  | O, NElm _ => fail FFuel
  | _, NHead _ => fail FWild
  end.
Definition CIRCLEQ_FOREACH {A} (fuel : nat) (body : A → Z → M cqmem A) (a : A) (head : Z) : M cqmem A :=
  var ← get_fwd (NHead head); circle_loop get_fwd fuel body a head var.
Definition CIRCLEQ_FOREACH_REVERSE {A} (fuel : nat) (body : A → Z → M cqmem A) (a : A) (head : Z) : M cqmem A :=
  var ← get_bwd (NHead head); circle_loop get_bwd fuel body a head var.

Definition CIRCLEQ_EMPTY (head : Z) : M cqmem bool :=
  n ← get_fwd (NHead head); mret (bool_decide (n = NHead head)).
Definition CIRCLEQ_FIRST (head : Z) : M cqmem node := get_fwd (NHead head).
Definition CIRCLEQ_LAST (head : Z) : M cqmem node := get_bwd (NHead head).
Definition CIRCLEQ_NEXT (elm : Z) : M cqmem node := get_fwd (NElm elm).
Definition CIRCLEQ_PREV (elm : Z) : M cqmem node := get_bwd (NElm elm).
Definition CIRCLEQ_LOOP_NEXT (head elm : Z) : M cqmem node :=
  n ← get_fwd (NElm elm);
  if bool_decide (n = NHead head) then get_fwd (NHead head) else get_fwd (NElm elm).
Definition CIRCLEQ_LOOP_PREV (head elm : Z) : M cqmem node :=
  n ← get_bwd (NElm elm);
  if bool_decide (n = NHead head) then get_bwd (NHead head) else get_bwd (NElm elm).

(** ** Representation

    From the node [a] the elements [l] are reached forward one after the other, and
    each points back; then comes the node [z]. *)
Fixpoint plinks (t : cqmem) (a : node) (l : list Z) : Prop :=
  match l with
  | [] => True
  | p :: l => fwd t !! a = Some (NElm p) ∧ bwd t !! NElm p = Some a ∧ plinks t (NElm p) l
  end.
Fixpoint links (t : cqmem) (a : node) (l : list Z) (z : node) : Prop :=
  match l with
  | [] => fwd t !! a = Some z ∧ bwd t !! z = Some a
  | p :: l => fwd t !! a = Some (NElm p) ∧ bwd t !! NElm p = Some a ∧ links t (NElm p) l z
  end.
Fixpoint last_node (a : node) (l : list Z) : node :=
  match l with [] => a | p :: l => last_node (NElm p) l end.
Definition first_node (l : list Z) (z : node) : node := match l with [] => z | p :: _ => NElm p end.

Record ring (t : cqmem) (q : Z) (l : list Z) : Prop := {
  ri_nodup : NoDup l;
  ri_links : links t (NHead q) l (NHead q);
}.

Lemma links_app t a l1 l2 z : links t a (l1 ++ l2) z ↔ plinks t a l1 ∧ links t (last_node a l1) l2 z.
Proof. revert a. induction l1 as [|p l1 IH]; intros a; simpl; [tauto|]. rewrite IH. tauto. Qed.

Lemma last_node_app a l1 l2 : last_node a (l1 ++ l2) = last_node (last_node a l1) l2.
Proof. revert a. induction l1 as [|p l1 IH]; intros a; simpl; [done|apply IH]. Qed.

Lemma last_node_in a l : last_node a l = a ∨ ∃ p, p ∈ l ∧ last_node a l = NElm p.
Proof.
  revert a. induction l as [|p l IH]; intros a; simpl; [by left|]. right.
  destruct (IH (NElm p)) as [->|(x & ? & ->)]; [exists p|exists x]; set_solver.
Qed.

(** What follows a node, and what is before it. *)
Lemma links_first t a l z : links t a l z → fwd t !! a = Some (first_node l z) ∧ bwd t !! first_node l z = Some a.
Proof. destruct l; simpl; naive_solver. Qed.
Lemma links_last t a l z : links t a l z → fwd t !! last_node a l = Some z ∧ bwd t !! z = Some (last_node a l).
Proof. revert a. induction l as [|p l IH]; intros a; simpl; [done|]. intros (_ & _ & H). by apply IH. Qed.

Lemma links_ext t t' a l z :
  fwd t' !! a = fwd t !! a → (∀ p, p ∈ l → fwd t' !! NElm p = fwd t !! NElm p ∧ bwd t' !! NElm p = bwd t !! NElm p) →
  bwd t' !! z = bwd t !! z → links t a l z → links t' a l z.
Proof.
  revert a. induction l as [|p l IH]; intros a Ha Hl Hz; simpl; [by rewrite Ha, Hz|].
  intros (H1 & H2 & H3). destruct (Hl p) as [E1 E2]; [by left|]. rewrite Ha, E2. split_and!; [done..|].
  apply IH; [done| |done|done]. intros x Hx. apply Hl. by right.
Qed.

Lemma plinks_ext t t' a l :
  NoDup l → (∀ p, p ∈ l → a ≠ NElm p) →
  (∀ n, n ≠ last_node a l → n = a ∨ (∃ p, p ∈ l ∧ n = NElm p) → fwd t' !! n = fwd t !! n) →
  (∀ p, p ∈ l → bwd t' !! NElm p = bwd t !! NElm p) → plinks t a l → plinks t' a l.
Proof.
  revert a. induction l as [|p l IH]; intros a Hn Ha Hf Hb; simpl; [done|].
  intros (H1 & H2 & H3). apply NoDup_cons in Hn as [Hp Hn]. split_and!.
  - rewrite Hf; [done| |by left]. simpl. intros E. destruct (last_node_in (NElm p) l) as [E'|(x & Hx & E')].
    + apply (Ha p); [by left|congruence].
    + apply (Ha x); [by right|congruence].
  - rewrite Hb; [done|by left].
  - apply IH; [done| | | |done].
    + intros x Hx [= ->]. done.
    + intros n Hne [->|(x & Hx & ->)]; apply Hf; try done; right; [exists p|exists x]; set_solver.
    + intros x Hx. apply Hb. by right.
Qed.

(** ** Insertion and removal between two parts of the circle *)

Definition cq_ins (u : node) (p : Z) (v : node) (t : cqmem) : cqmem :=
  CqMem (<[u := NElm p]> (<[NElm p := v]> (fwd t))) (<[v := NElm p]> (<[NElm p := u]> (bwd t))).
Definition cq_rem (u v : node) (t : cqmem) : cqmem := CqMem (<[u := v]> (fwd t)) (<[v := u]> (bwd t)).

Record cqframe (q : Z) (X : list Z) (t t' : cqmem) : Prop := {
  cf_fwd n : n ≠ NHead q → (∀ p, p ∈ X → n ≠ NElm p) → fwd t' !! n = fwd t !! n;
  cf_bwd n : n ≠ NHead q → (∀ p, p ∈ X → n ≠ NElm p) → bwd t' !! n = bwd t !! n;
}.

(** A circle that shares nothing with the operation is as before. *)
Lemma ring_frame q X t t' q' l :
  cqframe q X t t' → q' ≠ q → (∀ p, p ∈ l → p ∉ X) → ring t q' l → ring t' q' l.
Proof.
  intros [H1 H2] Hq Hd [Hn Hl]. split; [done|]. assert (NHead q' ≠ NHead q) by congruence.
  eapply links_ext; [apply H1|intros p Hp; split; [apply H1|apply H2]|apply H2|exact Hl]; try done.
  all: intros x Hx [= ->]; by eapply Hd.
Qed.

Lemma cqframe_mono q X Y t t' : (∀ x, x ∈ X → x ∈ Y) → cqframe q X t t' → cqframe q Y t t'.
Proof. intros HXY [H1 H2]. split; intros n Hn HX; [apply H1|apply H2]; auto. Qed.

Section Circle.
Context (t : cqmem) (q : Z) (l1 l2 : list Z).
Notation u := (last_node (NHead q) l1).
Notation v := (first_node l2 (NHead q)).

(** The two nodes are the head, or elements of their parts. *)
Lemma u_case : u = NHead q ∨ ∃ x, x ∈ l1 ∧ u = NElm x.
Proof. destruct (last_node_in (NHead q) l1) as [|]; eauto. Qed.
Lemma v_case : v = NHead q ∨ ∃ x, x ∈ l2 ∧ v = NElm x.
Proof. destruct l2 as [|x l]; simpl; [by left|]. right. exists x. split; [by left|done]. Qed.

Lemma ring_insert p : ring t q (l1 ++ l2) → p ∉ l1 ++ l2 → ring (cq_ins u p v t) q (l1 ++ p :: l2).
Proof.
  intros [Hn Hl] Hp. pose proof Hn as (Hn1 & Hd & Hn2)%NoDup_app. apply links_app in Hl as [H1 H2].
  assert (NElm p ≠ u) as Hpu by (destruct u_case as [->|(x & Hx & ->)]; [done|]; intros [= ->]; set_solver).
  assert (NElm p ≠ v) as Hpv by (destruct v_case as [->|(x & Hx & ->)]; [done|]; intros [= ->]; set_solver).
  assert (∀ x, x ∈ l2 → u ≠ NElm x) as Hu2.
  { intros x Hx E. destruct u_case as [E'|(y & Hy & E')]; [congruence|]. assert (x = y) as -> by congruence. by apply (Hd y). }
  assert (∀ x, x ∈ l1 → v ≠ NElm x) as Hv1.
  { intros x Hx E. destruct v_case as [E'|(y & Hy & E')]; [congruence|]. assert (x = y) as -> by congruence. by apply (Hd y). }
  split; [apply NoDup_app; rewrite NoDup_cons; set_solver|].
  apply links_app. split; [|split_and!].
  - eapply plinks_ext; [done|done| | |exact H1]; simpl.
    + intros n Hne Hin. rewrite !lookup_insert_ne; [done| |done]. destruct Hin as [->|(x & Hx & ->)]; [done|].
      intros [= ->]. set_solver.
    + intros x Hx. rewrite !lookup_insert_ne; [done| |by apply Hv1]. intros [= ->]. set_solver.
  - simpl. by rewrite lookup_insert_eq.
  - simpl. rewrite lookup_insert_ne by done. by rewrite lookup_insert_eq.
  - destruct l2 as [|n l2']; simpl in *.
    + split; [by rewrite lookup_insert_ne, lookup_insert_eq|by rewrite lookup_insert_eq].
    + apply NoDup_cons in Hn2 as [Hn2 _]. destruct H2 as (_ & _ & H2).
      split_and!; [by rewrite lookup_insert_ne, lookup_insert_eq|by rewrite lookup_insert_eq|].
      eapply links_ext; [| | |exact H2]; simpl.
      * rewrite !lookup_insert_ne; [done|done|apply Hu2; by left].
      * intros x Hx. rewrite !(lookup_insert_ne _ u), !(lookup_insert_ne _ (NElm n)), !lookup_insert_ne; try done.
        all: try (apply Hu2; by right). all: intros [= ->]; set_solver.
      * by rewrite !lookup_insert_ne.
Qed.

Lemma ring_remove p : ring t q (l1 ++ p :: l2) → ring (cq_rem u v t) q (l1 ++ l2).
Proof.
  intros [Hn Hl]. pose proof Hn as (Hn1 & Hd & [Hp Hn2]%NoDup_cons)%NoDup_app.
  apply links_app in Hl as (H1 & _ & _ & H2).
  assert (∀ x, x ∈ l2 → u ≠ NElm x) as Hu2.
  { intros x Hx E. destruct u_case as [E'|(y & Hy & E')]; [congruence|]. assert (x = y) as -> by congruence.
    apply (Hd y); [done|by right]. }
  assert (∀ x, x ∈ l1 → v ≠ NElm x) as Hv1.
  { intros x Hx E. destruct v_case as [E'|(y & Hy & E')]; [congruence|]. assert (x = y) as -> by congruence.
    apply (Hd y); [done|by right]. }
  split; [apply NoDup_app; set_solver|]. apply links_app. split.
  - eapply plinks_ext; [done|done| | |exact H1]; simpl.
    + intros n Hne Hin. by rewrite lookup_insert_ne.
    + intros x Hx. rewrite lookup_insert_ne; [done|by apply Hv1].
  - destruct l2 as [|n l2']; simpl in *; [by rewrite !lookup_insert_eq|].
    apply NoDup_cons in Hn2 as [Hn2 _]. destruct H2 as (_ & _ & H2).
    split_and!; [by rewrite lookup_insert_eq|by rewrite lookup_insert_eq|].
    eapply links_ext; [| | |exact H2]; simpl.
    + rewrite lookup_insert_ne; [done|apply Hu2; by left].
    + intros x Hx. rewrite !lookup_insert_ne; [done|intros [= ->]; set_solver|apply Hu2; by right].
    + by rewrite lookup_insert_ne.
Qed.

Lemma cq_ins_frame p : cqframe q (l1 ++ p :: l2) t (cq_ins u p v t).
Proof.
  split; simpl; intros n Hn HX; (rewrite !lookup_insert_ne; [done|intros <-; eapply HX; [|done]; set_solver|]); intros <-.
  - destruct u_case as [E|(x & Hx & E)]; [done|]. eapply HX; [|exact E]. set_solver.
  - destruct v_case as [E|(x & Hx & E)]; [done|]. eapply HX; [|exact E]. set_solver.
Qed.

Lemma cq_rem_frame X : (∀ x, x ∈ l1 ++ l2 → x ∈ X) → cqframe q X t (cq_rem u v t).
Proof.
  intros Hsub. split; simpl; intros n Hn HX; (rewrite lookup_insert_ne; [done|]); intros <-.
  - destruct u_case as [E|(x & Hx & E)]; [done|]. eapply HX; [|exact E]. set_solver.
  - destruct v_case as [E|(x & Hx & E)]; [done|]. eapply HX; [|exact E]. set_solver.
Qed.

(** What the pointers between the parts hold. *)
Lemma ring_between : ring t q (l1 ++ l2) → fwd t !! u = Some v ∧ bwd t !! v = Some u.
Proof. intros [_ Hl]. apply links_app in Hl as [_ Hl]. by apply links_first. Qed.
End Circle.

(** ** Running the macros *)

Lemma get_fwd_ok t a n : fwd t !! a = Some n → get_fwd a t = Ok (n, t).
Proof. intros H. unfold get_fwd. by rewrite H. Qed.
Lemma get_bwd_ok t a n : bwd t !! a = Some n → get_bwd a t = Ok (n, t).
Proof. intros H. unfold get_bwd. by rewrite H. Qed.
Lemma set_fwd_ok t a n : is_Some (fwd t !! a) → set_fwd a n t = Ok ((), CqMem (<[a := n]> (fwd t)) (bwd t)).
Proof. intros [m H]. unfold set_fwd. by mstep by (by apply get_fwd_ok). Qed.
Lemma set_bwd_ok t a n : is_Some (bwd t !! a) → set_bwd a n t = Ok ((), CqMem (fwd t) (<[a := n]> (bwd t))).
Proof. intros [m H]. unfold set_bwd. by mstep by (by apply get_bwd_ok). Qed.

(** A branch of a macro that stores through the head or through an element. *)
Lemma store_bwd_ok t q v n (m : M cqmem node) :
  (v = NHead q ∨ ∃ x, v = NElm x) → m t = Ok (v, t) → is_Some (bwd t !! v) →
  (if bool_decide (v = NHead q) then set_bwd (NHead q) n else v ← m; v ← as_elm v; set_bwd v n) t
    = Ok ((), CqMem (fwd t) (<[v := n]> (bwd t))).
Proof.
  intros Hv Em Hb. case_bool_decide as E; [subst v; by apply set_bwd_ok|].
  mstep by exact Em. destruct Hv as [|(x & ->)]; [done|]. mstep by reflexivity. by apply set_bwd_ok.
Qed.
Lemma store_fwd_ok t q v n (m : M cqmem node) :
  (v = NHead q ∨ ∃ x, v = NElm x) → m t = Ok (v, t) → is_Some (fwd t !! v) →
  (if bool_decide (v = NHead q) then set_fwd (NHead q) n else v ← m; v ← as_elm v; set_fwd v n) t
    = Ok ((), CqMem (<[v := n]> (fwd t)) (bwd t)).
Proof.
  intros Hv Em Hb. case_bool_decide as E; [subst v; by apply set_fwd_ok|].
  mstep by exact Em. destruct Hv as [|(x & ->)]; [done|]. mstep by reflexivity. by apply set_fwd_ok.
Qed.

Section Run.
Context (t : cqmem) (q : Z) (l1 l2 : list Z) (p : Z).
Notation u := (last_node (NHead q) l1).
Notation v := (first_node l2 (NHead q)).
Context (Hr : ring t q (l1 ++ l2)) (Hp : p ∉ l1 ++ l2).
Context (Hfp : is_Some (fwd t !! NElm p)) (Hbp : is_Some (bwd t !! NElm p)).

Lemma u_node : u = NHead q ∨ ∃ x, u = NElm x.
Proof. destruct (u_case q l1) as [|(x & _ & ->)]; eauto. Qed.
Lemma v_node : v = NHead q ∨ ∃ x, v = NElm x.
Proof. destruct (v_case q l2) as [|(x & _ & ->)]; eauto. Qed.
Lemma p_ne : NElm p ≠ u ∧ NElm p ≠ v.
Proof using Hp.
  clear -Hp. split; [destruct (u_case q l1) as [->|(x & Hx & ->)]|destruct (v_case q l2) as [->|(x & Hx & ->)]]; try done.
  all: intros [= ->]; set_solver.
Qed.

(** Both ends of the circle are the head only when it is empty. *)
Lemma empty_iff : l1 = [] → (bwd t !! NHead q = Some (NHead q) ↔ v = NHead q).
Proof using Hr.
  clear -Hr. intros ->. destruct Hr as [_ Hl]. pose proof (links_last _ _ _ _ Hl) as [_ Hz]. rewrite Hz.
  destruct l2 as [|n l]; simpl in *; [done|]. split; [|done]. intros [= E].
  by destruct (last_node_in (NElm n) l) as [E'|(? & _ & E')]; rewrite E' in E.
Qed.
Lemma empty_iff_r : l2 = [] → (fwd t !! NHead q = Some (NHead q) ↔ u = NHead q).
Proof using Hr.
  clear -Hr. intros ->. destruct Hr as [_ Hl]. pose proof (links_first _ _ _ _ Hl) as [Hz _]. rewrite Hz.
  rewrite app_nil_r. destruct l1 as [|n l]; simpl in *; [done|]. split; [done|]. intros E.
  by destruct (last_node_in (NElm n) l) as [E'|(? & _ & E')]; rewrite E' in E.
Qed.

Lemma CIRCLEQ_INSERT_AFTER_run x l0 : l1 = l0 ++ [x] → CIRCLEQ_INSERT_AFTER q x p t = Ok ((), cq_ins u p v t).
Proof using Hr Hp Hfp Hbp.
  intros El. pose proof (ring_between _ _ _ _ Hr) as [Hu Hv]. pose proof p_ne as [Hpu Hpv].
  assert (u = NElm x) as Eu by (rewrite El, last_node_app; done). unfold CIRCLEQ_INSERT_AFTER, cq_ins. rewrite <- Eu.
  mstep by (by apply get_fwd_ok). mstep by (by apply set_fwd_ok). mstep by (by apply set_bwd_ok).
  mstep by (apply get_fwd_ok; simpl; by rewrite lookup_insert_ne).
  mstep by (apply store_bwd_ok; [apply v_node|apply get_fwd_ok; simpl; by rewrite lookup_insert_ne|simpl; by rewrite lookup_insert_ne]).
  rewrite set_fwd_ok; [done|]. simpl. by rewrite lookup_insert_ne.
Qed.

Lemma CIRCLEQ_INSERT_HEAD_run : l1 = [] → CIRCLEQ_INSERT_HEAD q p t = Ok ((), cq_ins u p v t).
Proof using Hr Hp Hfp Hbp.
  intros El. pose proof (ring_between _ _ _ _ Hr) as [Hu Hv]. pose proof p_ne as [Hpu Hpv]. pose proof (empty_iff El) as He.
  assert (u = NHead q) as Eu by (by rewrite El). unfold CIRCLEQ_INSERT_HEAD, cq_ins. rewrite Eu in *.
  pose proof (links_last _ _ _ _ (ri_links _ _ _ Hr)) as [_ Hz].
  mstep by (by apply get_fwd_ok). mstep by (by apply set_fwd_ok). mstep by (by apply set_bwd_ok).
  mstep by (apply get_bwd_ok; simpl; by rewrite lookup_insert_ne).
  rewrite (bool_decide_ext _ (v = NHead q)) by (rewrite <- He, Hz; split; congruence).
  mstep by (apply store_bwd_ok; [apply v_node|apply get_fwd_ok; simpl; by rewrite lookup_insert_ne|simpl; by rewrite lookup_insert_ne]).
  rewrite set_fwd_ok; [done|]. simpl. by rewrite lookup_insert_ne.
Qed.

Lemma CIRCLEQ_INSERT_BEFORE_run x l0 : l2 = x :: l0 → CIRCLEQ_INSERT_BEFORE q x p t = Ok ((), cq_ins u p v t).
Proof using Hr Hp Hfp Hbp.
  intros El. pose proof (ring_between _ _ _ _ Hr) as [Hu Hv]. pose proof p_ne as [Hpu Hpv].
  assert (v = NElm x) as Ev by (by rewrite El). unfold CIRCLEQ_INSERT_BEFORE, cq_ins. rewrite <- Ev.
  mstep by (by apply set_fwd_ok). mstep by (by apply get_bwd_ok). mstep by (by apply set_bwd_ok).
  mstep by (apply get_bwd_ok; simpl; by rewrite lookup_insert_ne).
  mstep by (apply store_fwd_ok; [apply u_node|apply get_bwd_ok; simpl; by rewrite lookup_insert_ne|simpl; by rewrite lookup_insert_ne]).
  rewrite set_bwd_ok; [done|]. simpl. by rewrite lookup_insert_ne.
Qed.

Lemma CIRCLEQ_INSERT_TAIL_run : l2 = [] → CIRCLEQ_INSERT_TAIL q p t = Ok ((), cq_ins u p v t).
Proof using Hr Hp Hfp Hbp.
  intros El. pose proof (ring_between _ _ _ _ Hr) as [Hu Hv]. pose proof p_ne as [Hpu Hpv]. pose proof (empty_iff_r El) as He.
  assert (v = NHead q) as Ev by (by rewrite El). unfold CIRCLEQ_INSERT_TAIL, cq_ins. rewrite Ev in *.
  pose proof (links_first _ _ _ _ (ri_links _ _ _ Hr)) as [Hz _].
  mstep by (by apply set_fwd_ok). mstep by (by apply get_bwd_ok). mstep by (by apply set_bwd_ok).
  mstep by (apply get_fwd_ok; simpl; by rewrite lookup_insert_ne).
  rewrite (bool_decide_ext _ (u = NHead q)) by (rewrite <- He, Hz; split; congruence).
  mstep by (apply store_fwd_ok; [apply u_node|apply get_bwd_ok; simpl; by rewrite lookup_insert_ne|simpl; by rewrite lookup_insert_ne]).
  rewrite set_bwd_ok; [done|]. simpl. by rewrite lookup_insert_ne.
Qed.
End Run.

Lemma CIRCLEQ_REMOVE_run t q l1 p l2 :
  ring t q (l1 ++ p :: l2) →
  CIRCLEQ_REMOVE q p t = Ok ((), cq_rem (last_node (NHead q) l1) (first_node l2 (NHead q)) t).
Proof.
  intros Hr. pose proof (ri_nodup _ _ _ Hr) as (Hn1 & Hd & [Hp Hn2]%NoDup_cons)%NoDup_app.
  pose proof (ring_between t q l1 (p :: l2) Hr) as [Hu Hbp]. simpl in Hu, Hbp.
  assert (ring t q ((l1 ++ [p]) ++ l2)) as Hr2 by (by rewrite <- app_assoc).
  pose proof (ring_between _ _ _ _ Hr2) as [Hfp Hv]. rewrite last_node_app in Hfp, Hv. simpl in Hfp, Hv.
  assert (first_node l2 (NHead q) ≠ NElm p) as Hvp.
  { destruct (v_case q l2) as [->|(x & Hx & ->)]; [done|]. intros [= ->]. done. }
  unfold CIRCLEQ_REMOVE, cq_rem. mstep by (by apply get_fwd_ok).
  assert (∀ m : node, (if bool_decide (first_node l2 (NHead q) = NHead q) then n ← get_bwd (NElm p); set_bwd (NHead q) n
    else n ← get_fwd (NElm p); n ← as_elm n; m ← get_bwd (NElm p); set_bwd n m) t =
    Ok ((), CqMem (fwd t) (<[first_node l2 (NHead q) := last_node (NHead q) l1]> (bwd t)))) as E.
  { intros _. case_bool_decide as E; [rewrite E in *|]; [mstep by (by apply get_bwd_ok); by apply set_bwd_ok|].
    mstep by (by apply get_fwd_ok). destruct (v_node q l2) as [|(x & Ex)]; [done|]. rewrite Ex in *.
    mstep by reflexivity. mstep by (by apply get_bwd_ok). by apply set_bwd_ok. }
  mstep by exact (E (NHead q)). mstep by (apply get_bwd_ok; simpl; by rewrite lookup_insert_ne).
  clear E. case_bool_decide as Eu; [rewrite Eu in *|].
  - mstep by (by apply get_fwd_ok). by apply set_fwd_ok.
  - mstep by (apply get_bwd_ok; simpl; by rewrite lookup_insert_ne).
    destruct (u_node q l1) as [|(x & Ex)]; [done|]. rewrite Ex in *.
    mstep by reflexivity. mstep by (by apply get_fwd_ok). by apply set_fwd_ok.
Qed.

(** ** The operations as operations on lists *)

Definition cq_run (q : Z) (o : qop) : option (M cqmem ()) :=
  match o with
  | OHead p => Some (CIRCLEQ_INSERT_HEAD q p)
  | OTail p => Some (CIRCLEQ_INSERT_TAIL q p)
  | OAfter x p => Some (CIRCLEQ_INSERT_AFTER q x p)
  | OBefore x p => Some (CIRCLEQ_INSERT_BEFORE q x p)
  | ORemove x => Some (CIRCLEQ_REMOVE q x)
  | ORemoveHead => None
  end.

Definition celm_alloc (t : cqmem) (p : Z) : Prop := is_Some (fwd t !! NElm p) ∧ is_Some (bwd t !! NElm p).

Lemma CIRCLEQ_INIT_spec t q :
  is_Some (fwd t !! NHead q) → is_Some (bwd t !! NHead q) →
  ∃ t', CIRCLEQ_INIT q t = Ok ((), t') ∧ ring t' q [] ∧ cqframe q [] t t'.
Proof.
  intros Hf Hb. unfold CIRCLEQ_INIT. mstep by (by apply set_fwd_ok). rewrite set_bwd_ok by done.
  eexists. split; [done|]. split; [split; [constructor|by simpl; rewrite !lookup_insert_eq]|].
  split; simpl; intros n Hn _; by rewrite lookup_insert_ne.
Qed.

Lemma cq_run_spec t q o l l' m :
  ring t q l → cq_run q o = Some m → op_list o l = Some l' → (∀ p, op_new o = Some p → celm_alloc t p) →
  (∃ l1 p l2, l = l1 ++ l2 ∧ l' = l1 ++ p :: l2 ∧ p ∉ l1 ++ l2 ∧
     m t = Ok ((), cq_ins (last_node (NHead q) l1) p (first_node l2 (NHead q)) t)) ∨
  (∃ l1 p l2, l = l1 ++ p :: l2 ∧ l' = l1 ++ l2 ∧
     m t = Ok ((), cq_rem (last_node (NHead q) l1) (first_node l2 (NHead q)) t)).
Proof.
  intros Hr Hm Ho Ha. destruct o as [p|p|x p|x p| |x]; simpl in Ho; try (case_decide as Hp; [done|]); simpl in Hm;
    try discriminate Hm; injection Hm as <-.
  - left. injection Ho as <-. destruct (Ha p eq_refl). exists [], p, l. split_and!; [done..|].
    by apply CIRCLEQ_INSERT_HEAD_run.
  - left. injection Ho as <-. destruct (Ha p eq_refl). exists l, p, []. rewrite app_nil_r. split_and!; [done..|].
    apply CIRCLEQ_INSERT_TAIL_run; rewrite ?app_nil_r; done.
  - destruct (split_elem x l) as [[l1 l2]|] eqn:E; [|done]. injection Ho as <-. destruct (Ha p eq_refl).
    apply split_elem_Some in E as [-> Hx]. left. exists (l1 ++ [x]), p, l2. rewrite <- !app_assoc. split_and!; [done..|].
    apply (CIRCLEQ_INSERT_AFTER_run t q (l1 ++ [x]) l2 p) with (l0 := l1); rewrite <- ?app_assoc; done.
  - destruct (split_elem x l) as [[l1 l2]|] eqn:E; [|done]. injection Ho as <-. destruct (Ha p eq_refl).
    apply split_elem_Some in E as [-> Hx]. left. exists l1, p, (x :: l2). split_and!; [done..|].
    by eapply (CIRCLEQ_INSERT_BEFORE_run t q l1 (x :: l2)).
  - destruct (split_elem x l) as [[l1 l2]|] eqn:E; [|done]. injection Ho as <-.
    apply split_elem_Some in E as [-> Hx]. right. exists l1, x, l2. split_and!; [done..|]. by apply CIRCLEQ_REMOVE_run.
Qed.

(** ** Loops *)

Lemma circle_forward {A} fuel body (g : A → Z → A) (a : A) t q l n :
  (∀ a p, p ∈ l → body a p t = Ok (g a p, t)) → (length l ≤ fuel)%nat → links t n l (NHead q) →
  circle_loop get_fwd fuel body a q (first_node l (NHead q)) t = Ok (foldl g a l, t).
Proof.
  revert fuel a n. induction l as [|p l IH]; intros fuel a n Hb Hf Hl.
  - destruct fuel; cbn [circle_loop first_node]; by rewrite bool_decide_true.
  - destruct fuel as [|fuel]; [simpl in Hf; lia|]. cbn [circle_loop first_node]. rewrite bool_decide_false by done.
    mstep by (apply Hb; by left). destruct Hl as (_ & _ & Hl).
    mstep by (apply get_fwd_ok, (links_first _ _ _ _ Hl)).
    apply (IH fuel (g a p) (NElm p)); [|simpl in Hf; lia|exact Hl]. intros a' p' Hp'. apply Hb. by right.
Qed.

Lemma circle_backward {A} fuel body (g : A → Z → A) (a : A) t q l :
  (∀ a p, p ∈ l → body a p t = Ok (g a p, t)) → (length l ≤ fuel)%nat → plinks t (NHead q) l →
  circle_loop get_bwd fuel body a q (last_node (NHead q) l) t = Ok (foldl g a (rev l), t).
Proof.
  revert fuel a. induction l as [|p l IH] using rev_ind; intros fuel a Hb Hf Hl.
  - destruct fuel; cbn [circle_loop last_node]; by rewrite bool_decide_true.
  - rewrite length_app in Hf. simpl in Hf. rewrite last_node_app, rev_app_distr. cbn [last_node rev app foldl].
    destruct fuel as [|fuel]; [lia|]. cbn [circle_loop]. rewrite bool_decide_false by done.
    mstep by (apply Hb; set_solver).
    assert (plinks t (NHead q) l ∧ bwd t !! NElm p = Some (last_node (NHead q) l)) as [Hl1 Hp].
    { clear -Hl. revert Hl. generalize (NHead q). induction l as [|y l IH]; intros n; simpl; naive_solver. }
    mstep by (by apply get_bwd_ok). apply IH; [|lia|done]. intros a' p' Hp'. apply Hb. set_solver.
Qed.

Lemma last_node_last x l : last_node (NElm x) l = NElm (List.last l x).
Proof.
  destruct (exists_last_or_nil l) as [-> | (l0 & y & ->)]; [done|]. by rewrite last_node_app, last_last.
Qed.

(** The neighbours of an element around the circle. *)
Lemma CIRCLEQ_LOOP_spec t q l1 x l2 :
  ring t q (l1 ++ x :: l2) →
  CIRCLEQ_LOOP_NEXT q x t = Ok (NElm (hd x (l2 ++ l1)), t) ∧
  CIRCLEQ_LOOP_PREV q x t = Ok (NElm (List.last (l2 ++ l1) x), t).
Proof.
  intros Hr. pose proof (ring_between t q l1 (x :: l2) Hr) as [Hu Hbp]. simpl in Hu, Hbp.
  assert (ring t q ((l1 ++ [x]) ++ l2)) as Hr2 by (by rewrite <- app_assoc).
  pose proof (ring_between _ _ _ _ Hr2) as [Hfp Hv]. rewrite last_node_app in Hfp, Hv. simpl in Hfp, Hv.
  pose proof (links_first _ _ _ _ (ri_links _ _ _ Hr)) as [Hf _].
  pose proof (links_last _ _ _ _ (ri_links _ _ _ Hr)) as [_ Hl]. rewrite last_node_app in Hl. simpl in Hl. split.
  - unfold CIRCLEQ_LOOP_NEXT. mstep by (by apply get_fwd_ok). destruct l2 as [|n l2]; simpl.
    + rewrite bool_decide_true by done. erewrite get_fwd_ok by done. by destruct l1.
    + by apply get_fwd_ok.
  - unfold CIRCLEQ_LOOP_PREV. mstep by (by apply get_bwd_ok). destruct (exists_last_or_nil l1) as [-> | (l0 & y & ->)].
    + rewrite bool_decide_true by done. erewrite get_bwd_ok by done. by rewrite app_nil_r, last_node_last.
    + rewrite last_node_app in *. cbn [last_node] in *. rewrite bool_decide_false by done.
      erewrite get_bwd_ok by done. by rewrite app_assoc, last_last.
Qed.

(** C17: the macros of CIRCLEQ are operations on lists: every insertion and removal
    that makes sense for the list returns, and gives the circle with the element
    inserted at its place or removed; a loop visits the elements of the list in
    order, and the reverse loop in reverse order; and every other head and every
    element that was in neither list keeps its pointers. *)
Theorem circle_op_refines t q o l l' m :
  ring t q l → cq_run q o = Some m → op_list o l = Some l' → (∀ p, op_new o = Some p → celm_alloc t p) →
  ∃ t', m t = Ok ((), t') ∧ ring t' q l' ∧ cqframe q (l ++ l') t t' ∧
    ∀ A (body : A → Z → M cqmem A) (g : A → Z → A) (a : A) fuel,
      (∀ a p, p ∈ l' → body a p t' = Ok (g a p, t')) → (length l' ≤ fuel)%nat →
      CIRCLEQ_FOREACH fuel body a q t' = Ok (foldl g a l', t') ∧
      CIRCLEQ_FOREACH_REVERSE fuel body a q t' = Ok (foldl g a (rev l'), t').
Proof.
  intros Hr Hm Ho Ha.
  assert (∃ t', m t = Ok ((), t') ∧ ring t' q l' ∧ cqframe q (l ++ l') t t') as (t' & E & Hr' & Hfr).
  { destruct (cq_run_spec t q o l l' m) as [(l1 & p & l2 & -> & -> & Hp & E)|(l1 & p & l2 & -> & -> & E)]; [done..| |].
    all: eexists; split; [exact E|].
    - split; [by apply ring_insert|]. eapply cqframe_mono; [|apply cq_ins_frame]. set_solver.
    - split; [by eapply ring_remove|]. apply cq_rem_frame. set_solver. }
  exists t'. split; [done|]. split; [done|]. split; [done|]. intros A body g a fuel Hb Hf.
  pose proof (ri_links _ _ _ Hr') as Hl. split.
  - unfold CIRCLEQ_FOREACH. mstep by (apply get_fwd_ok, (links_first _ _ _ _ Hl)). by eapply circle_forward.
  - unfold CIRCLEQ_FOREACH_REVERSE. mstep by (apply get_bwd_ok, (links_last _ _ _ _ Hl)). apply circle_backward; [done|done|].
    rewrite <- (app_nil_r l') in Hl. by apply links_app in Hl as [Hl _].
Qed.

(** The circle 1, 2 with a third element inserted before the second. *)
Definition w_circle : cqmem :=
  CqMem (list_to_map [(NHead 9, NElm 1); (NElm 1, NElm 2); (NElm 2, NHead 9); (NElm 3, NHead 0)])
        (list_to_map [(NHead 9, NElm 2); (NElm 2, NElm 1); (NElm 1, NHead 9); (NElm 3, NHead 0)]).

Lemma circle_op_refines_witness :
  ∃ t', CIRCLEQ_INSERT_BEFORE 9 2 3 w_circle = Ok ((), t') ∧ ring t' 9 [1; 3; 2].
Proof.
  destruct (circle_op_refines w_circle 9 (OBefore 2 3) [1; 2] [1; 3; 2] (CIRCLEQ_INSERT_BEFORE 9 2 3))
    as (t' & E & Hr & _).
  - split; [compute_decide|vm_compute; repeat split].
  - reflexivity.
  - vm_compute. reflexivity.
  - intros p [= <-]. split; eexists; vm_compute; reflexivity.
  - by exists t'.
Defined.
