(* ===== verification/TailqOps.v ===== *)
(** The other operations on tail queues (the TAILQ macros of include/sys/queue.h
    that the kernel does not use), on the queues of Tailq.v: insertion at the
    head and next to an element, concatenation, the last and the previous element,
    and the two loops. *)
From S2P Require Import Prelude Queues Tailq.

(** ** The macros *)

Definition TAILQ_INSERT_HEAD (q : qid) (elm : Z) : M tq () :=
  h ← get_head q; e ← get_entry elm;
  set_entry elm (TqEntry (tqh_first h) (tqe_prev e));;
  (h ← get_head q;
   match tqh_first h with
   | Some n => en ← get_entry n; set_entry n (TqEntry (tqe_next en) (CNext elm))
   | None => set_head q (TqHead (tqh_first h) (CNext elm))
   end);;
  h ← get_head q;
  set_head q (TqHead (Some elm) (tqh_last h));;
  e ← get_entry elm;
  set_entry elm (TqEntry (tqe_next e) (CFirst q)).

Definition TAILQ_INSERT_AFTER (q : qid) (listelm elm : Z) : M tq () :=
  l ← get_entry listelm; e ← get_entry elm;
  set_entry elm (TqEntry (tqe_next l) (tqe_prev e));;
  (e ← get_entry elm;
   match tqe_next e with
   | Some n => en ← get_entry n; set_entry n (TqEntry (tqe_next en) (CNext elm))
   | None => h ← get_head q; set_head q (TqHead (tqh_first h) (CNext elm))
   end);;
  l ← get_entry listelm;
  set_entry listelm (TqEntry (Some elm) (tqe_prev l));;
  e ← get_entry elm;
  set_entry elm (TqEntry (tqe_next e) (CNext listelm)).

Definition TAILQ_INSERT_BEFORE (listelm elm : Z) : M tq () :=
  l ← get_entry listelm; e ← get_entry elm;
  set_entry elm (TqEntry (tqe_next e) (tqe_prev l));;
  e ← get_entry elm;
  set_entry elm (TqEntry (Some listelm) (tqe_prev e));;
  l ← get_entry listelm;
  set_cell (tqe_prev l) (Some elm);;
  l ← get_entry listelm;
  set_entry listelm (TqEntry (tqe_next l) (CNext elm)).

Definition TAILQ_EMPTY (q : qid) : M tq bool := h ← get_head q; mret (bool_decide (tqh_first h = None)).
Definition TAILQ_NEXT (elm : Z) : M tq (option Z) := e ← get_entry elm; mret (tqe_next e).

Definition TAILQ_CONCAT (head1 head2 : qid) : M tq () :=
  empty ← TAILQ_EMPTY head2;
  if (empty : bool) then mret ()
  else
    h1 ← get_head head1; h2 ← get_head head2;
    set_cell (tqh_last h1) (tqh_first h2);;
    h2 ← get_head head2; h1 ← get_head head1;
    (match tqh_first h2 with
     | Some n => en ← get_entry n; set_entry n (TqEntry (tqe_next en) (tqh_last h1))
     | None => fail FNull
     end);;
    h1 ← get_head head1; h2 ← get_head head2;
    set_head head1 (TqHead (tqh_first h1) (tqh_last h2));;
    TAILQ_INIT head2.

(** The address of a pointer read as the address of a head: a head and an entry
    have the same layout, so that the second member is tqh_last or tqe_prev. *)
Definition second_member (c : cell) : M tq cell :=
  match c with
  | CNull => fail FNull
  | CFirst q => h ← get_head q; mret (tqh_last h)
  | CNext p => e ← get_entry p; mret (tqe_prev e)
  end.
Definition get_cell (c : cell) : M tq (option Z) :=
  match c with
  | CNull => fail FNull
  | CFirst q => h ← get_head q; mret (tqh_first h)
  | CNext p => e ← get_entry p; mret (tqe_next e)
  end.

Definition TAILQ_LAST (q : qid) : M tq (option Z) :=
  h ← get_head q; c ← second_member (tqh_last h); get_cell c.
Definition TAILQ_PREV (elm : Z) : M tq (option Z) :=
  e ← get_entry elm; c ← second_member (tqe_prev e); get_cell c.

(** The loops, with the body of the macro's user. *)
Fixpoint tailq_loop {A} (step : Z → M tq (option Z)) (fuel : nat) (body : A → Z → M tq A) (a : A) (var : option Z)
    : M tq A :=
  match fuel, var with
  | _, None => mret a
  | O, _ => fail FFuel
  | S fuel, Some p => a ← body a p; n ← step p; tailq_loop step fuel body a n
  end.
Definition TAILQ_FOREACH {A} (fuel : nat) (body : A → Z → M tq A) (a : A) (q : qid) : M tq A :=
  var ← TAILQ_FIRST q; tailq_loop TAILQ_NEXT fuel body a var.
Definition TAILQ_FOREACH_REVERSE {A} (fuel : nat) (body : A → Z → M tq A) (a : A) (q : qid) : M tq A :=
  var ← TAILQ_LAST q; tailq_loop TAILQ_PREV fuel body a var.

(** ** Insertion between two parts of a queue

    The state before the pointer at the end of the first part is redirected: the new
    element is linked to both parts, and the second part points back to it. *)
Definition link_back (q : qid) (p : Z) (n : option Z) (t : tq) : tq :=
  match n with
  | Some n =>
      Tq (heads t) (<[n := TqEntry (from_option tqe_next None (entries t !! n)) (CNext p)]> (entries t))
  | None => Tq (<[q := TqHead (from_option tqh_first None (heads t !! q)) (CNext p)]> (heads t)) (entries t)
  end.
Definition link_new (p : Z) (n : option Z) (c : cell) (t : tq) : tq :=
  Tq (heads t) (<[p := TqEntry n c]> (entries t)).

Lemma rep_parts t q l1 l2 :
  tq_rep t q (l1 ++ l2) → ∃ c h, heads t !! q = Some h ∧ tqh_first h = head (l1 ++ l2) ∧
    seg (entries t) (CFirst q) l1 (head l2) c ∧ seg (entries t) c l2 None (tqh_last h).
Proof.
  intros (h & Hh & Hf & (c & H1 & H2)%seg_app). exists c, h. split_and!; [done|done| |done].
  by replace (from_option Some None (head l2)) with (head l2) in H1 by (by destruct l2).
Qed.

Lemma insert_link t q l1 p l2 c h :
  heads t !! q = Some h → tqh_first h = head (l1 ++ l2) →
  seg (entries t) (CFirst q) l1 (head l2) c → seg (entries t) c l2 None (tqh_last h) →
  NoDup (l1 ++ l2) → p ∉ l1 ++ l2 → is_Some (entries t !! p) →
  ∃ t', set_cell c (Some p) (link_back q p (head l2) (link_new p (head l2) c t)) = Ok ((), t') ∧
    tq_rep t' q (l1 ++ p :: l2) ∧ tq_frame q (l1 ++ p :: l2) t t'.
Proof.
  intros Hh Hf H1 H2 Hnd Hp Hpe. pose proof Hnd as (Hn1 & Hd & Hn2)%NoDup_app.
  set (t1 := link_back q p (head l2) (link_new p (head l2) c t)).
  assert (tq_frame q (p :: l2) t t1) as Hfr1.
  { unfold t1, link_back, link_new. destruct l2 as [|n l2]; simpl; split_and!; simpl; try done.
    - intros q' Hq'. by rewrite lookup_insert_ne.
    - intros r Hr. rewrite lookup_insert_ne by set_solver. done.
    - by apply dom_insert_lookup.
    - intros r Hr. rewrite !lookup_insert_ne by set_solver. done.
    - rewrite !dom_insert_lookup; [done|done|]. destruct H2 as [H2 _].
      rewrite lookup_insert_ne by set_solver. rewrite H2. by eexists. }
  assert (∃ h1, heads t1 !! q = Some h1 ∧ tqh_first h1 = tqh_first h ∧ seg (entries t1) c (p :: l2) None (tqh_last h1))
    as (h1 & Hh1 & Hf1 & Hs1).
  { unfold t1, link_back, link_new. destruct l2 as [|n l2]; simpl.
    - eexists. rewrite lookup_insert_eq. split_and!; [done|by rewrite Hh|by rewrite lookup_insert_eq|done].
    - exists h. destruct H2 as [H2 H3]. apply NoDup_cons in Hn2 as [Hn2 _]. split_and!; [done|done| | |].
      + rewrite lookup_insert_ne by set_solver. by rewrite lookup_insert_eq.
      + rewrite lookup_insert_eq, lookup_insert_ne by set_solver. by rewrite H2.
      + eapply seg_frame; [|exact H3]. intros r Hr. rewrite !lookup_insert_ne; [done|set_solver|]. by intros ->. }
  destruct (set_cell_link_gen t1 q l1 (p :: l2) (head l2) c h1) as (t' & E & Hrep & Hfr).
  - done.
  - intros Hl. rewrite Hf1, Hf. by destruct l1.
  - apply NoDup_app. rewrite NoDup_cons. set_solver.
  - eapply seg_frame; [|exact H1]. intros r Hr. apply Hfr1. intros Hin. apply elem_of_cons in Hin as [->|Hin]; [set_solver|].
    by eapply Hd.
  - exact Hs1.
  - exists t'. split; [exact E|]. split; [done|].
    eapply tq_frame_trans; [eapply tq_frame_mono; [|exact Hfr1]|eapply tq_frame_mono; [|exact Hfr]]; set_solver.
Qed.

(** ** Running the insertions *)

Lemma insert_over (E : gmap Z tqentry) p n a b v :
  n ≠ p → <[p := a]> (<[n := v]> (<[p := b]> E)) = <[n := v]> (<[p := a]> E).
Proof. intros Hne. by rewrite (insert_insert_ne _ p n), insert_insert_eq by done. Qed.

Section Run.
Context (t : tq) (q : qid) (p : Z) (h : tqhead) (ep : tqentry).
Context (Hh : heads t !! q = Some h) (Hep : entries t !! p = Some ep).

Lemma TAILQ_INSERT_HEAD_run l2 :
  tqh_first h = head l2 → (∀ n, head l2 = Some n → n ≠ p ∧ is_Some (entries t !! n)) →
  TAILQ_INSERT_HEAD q p t = set_cell (CFirst q) (Some p) (link_back q p (head l2) (link_new p (head l2) (CFirst q) t)).
Proof using Hh Hep.
  intros Hf Hn. unfold TAILQ_INSERT_HEAD, link_back, link_new. destruct (head l2) as [n|].
  - destruct (Hn n eq_refl) as [Hne [en Hen]]. tq_run. rewrite ?Hf. tq_run. by rewrite insert_over.
  - tq_run. rewrite ?Hf. tq_run. by rewrite !insert_insert_eq.
Qed.

Lemma TAILQ_INSERT_AFTER_run x ex :
  entries t !! x = Some ex → x ≠ p → (∀ n, tqe_next ex = Some n → n ≠ p ∧ n ≠ x ∧ is_Some (entries t !! n)) →
  TAILQ_INSERT_AFTER q x p t = set_cell (CNext x) (Some p) (link_back q p (tqe_next ex) (link_new p (tqe_next ex) (CNext x) t)).
Proof using Hh Hep.
  intros Hx Hxp Hn. unfold TAILQ_INSERT_AFTER, link_back, link_new. destruct (tqe_next ex) as [n|] eqn:En.
  - destruct (Hn n eq_refl) as (Hne & Hnx & [en Hen]). tq_run. rewrite ?En. tq_run.
    do 3 f_equal. by rewrite (insert_insert_ne _ p x), insert_over by done.
  - tq_run. rewrite ?En. tq_run. do 3 f_equal. by rewrite (insert_insert_ne _ p x), insert_insert_eq by done.
Qed.

Lemma TAILQ_INSERT_BEFORE_run x ex c :
  entries t !! x = Some ex → x ≠ p → tqe_prev ex = c → c ≠ CNext x → c ≠ CNext p →
  TAILQ_INSERT_BEFORE x p t = set_cell c (Some p) (link_back q p (Some x) (link_new p (Some x) c t)).
Proof using Hep.
  intros Hx Hxp Hc Hcx Hcp. unfold TAILQ_INSERT_BEFORE, link_back, link_new. destruct c as [|q'|y].
  - tq_run. by rewrite ?Hc.
  - tq_run. rewrite ?Hc. tq_run. destruct (heads t !! q') as [h'|] eqn:Eh; [|done]. tq_run. by rewrite insert_insert_eq.
  - assert (y ≠ x) by congruence. assert (y ≠ p) by congruence. tq_run. rewrite ?Hc. tq_run.
    destruct (entries t !! y) as [ey|] eqn:Ey; [|by tq_run]. tq_run.
    do 3 f_equal. by rewrite insert_insert_eq, (insert_insert_ne _ x y).
Qed.
End Run.

(** ** The last and the previous element *)

Section Parts.
Context (t : tq) (q : qid) (l1 l2 : list Z) (c : cell) (h : tqhead).
Context (Hh : heads t !! q = Some h) (Hf : tqh_first h = head (l1 ++ l2)).
Context (H1 : seg (entries t) (CFirst q) l1 (head l2) c) (H2 : seg (entries t) c l2 None (tqh_last h)).

Lemma get_cell_end : get_cell c t = Ok (head l2, t).
Proof using Hh Hf H1.
  clear H2. destruct (exists_last_or_nil l1) as [-> | (l0 & y & ->)].
  - simpl in H1. subst c. cbn [get_cell]. mstep by (unfold get_head; by rewrite Hh). by rewrite Hf.
  - apply seg_snoc in H1 as (-> & mid & Hy & _). unfold get_cell, get_entry. tq_run. done.
Qed.
End Parts.

Lemma prev_cell t q l1 l2 c h :
  heads t !! q = Some h → tqh_first h = head (l1 ++ l2) →
  seg (entries t) (CFirst q) l1 (head l2) c → seg (entries t) c l2 None (tqh_last h) →
  (c ← second_member c; get_cell c) t = Ok (last l1, t).
Proof.
  intros Hh Hf H1 H2. destruct (exists_last_or_nil l1) as [-> | (l0 & y & ->)].
  - simpl in H1. subst c. unfold second_member. mstep by (mstep by (unfold get_head; by rewrite Hh); done).
    apply (get_cell_end t q l2 [] _ h); [done|by rewrite app_nil_r|done].
  - pose proof (seg_snoc _ _ _ _ _ _ H1) as (-> & mid & Hy & H0).
    unfold second_member. mstep by (mstep by (unfold get_entry; by rewrite Hy); done). cbn [tqe_prev].
    rewrite last_snoc. by apply (get_cell_end t q l0 (y :: l2) _ h); [|rewrite Hf, <- app_assoc|].
Qed.

Lemma TAILQ_LAST_spec t q l : tq_rep t q l → TAILQ_LAST q t = Ok (last l, t).
Proof.
  intros Hr. rewrite <- (app_nil_r l) in Hr. destruct (rep_parts _ _ _ _ Hr) as (c & h & Hh & Hf & H1 & H2).
  simpl in H2. unfold TAILQ_LAST. mstep by (unfold get_head; by rewrite Hh). rewrite H2.
  by apply (prev_cell t q l [] c h).
Qed.

Lemma TAILQ_PREV_spec t q l1 x l2 : tq_rep t q (l1 ++ x :: l2) → TAILQ_PREV x t = Ok (last l1, t).
Proof.
  intros Hr. destruct (rep_parts _ _ _ _ Hr) as (c & h & Hh & Hf & H1 & H2). pose proof H2 as [Hx _].
  unfold TAILQ_PREV. mstep by (unfold get_entry; by rewrite Hx). by apply (prev_cell t q l1 (x :: l2) c h).
Qed.

Lemma TAILQ_NEXT_spec t q l1 x l2 : tq_rep t q (l1 ++ x :: l2) → TAILQ_NEXT x t = Ok (head l2, t).
Proof.
  intros Hr. destruct (rep_parts _ _ _ _ Hr) as (c & h & _ & _ & _ & [Hx _]).
  unfold TAILQ_NEXT. mstep by (unfold get_entry; by rewrite Hx). simpl. by destruct l2.
Qed.

Lemma TAILQ_FIRST_ok t q l : tq_rep t q l → TAILQ_FIRST q t = Ok (head l, t).
Proof. intros (h & Hh & Hf & _). unfold TAILQ_FIRST, get_head, mbind, M_bind. rewrite Hh. by rewrite Hf. Qed.

(** ** Loops *)

Lemma loop_forward {A} fuel body (g : A → Z → A) (a : A) t q l1 l2 :
  tq_rep t q (l1 ++ l2) → (∀ a p, p ∈ l2 → body a p t = Ok (g a p, t)) → (length l2 ≤ fuel)%nat →
  tailq_loop TAILQ_NEXT fuel body a (head l2) t = Ok (foldl g a l2, t).
Proof.
  revert fuel a l1. induction l2 as [|p l2 IH]; intros fuel a l1 Hr Hb Hf; [by destruct fuel|].
  destruct fuel as [|fuel]; [simpl in Hf; lia|]. cbn [tailq_loop head]. mstep by (apply Hb; by left).
  mstep by (by eapply TAILQ_NEXT_spec). apply (IH fuel (g a p) (l1 ++ [p])); [by rewrite <- app_assoc| |simpl in Hf; lia].
  intros a' p' Hp'. apply Hb. by right.
Qed.

Lemma loop_backward {A} fuel body (g : A → Z → A) (a : A) t q l1 l2 :
  tq_rep t q (l1 ++ l2) → (∀ a p, p ∈ l1 → body a p t = Ok (g a p, t)) → (length l1 ≤ fuel)%nat →
  tailq_loop TAILQ_PREV fuel body a (last l1) t = Ok (foldl g a (rev l1), t).
Proof.
  revert fuel a l2. induction l1 as [|p l1 IH] using rev_ind; intros fuel a l2 Hr Hb Hf; [by destruct fuel|].
  rewrite length_app in Hf. simpl in Hf. destruct fuel as [|fuel]; [lia|].
  rewrite last_snoc, rev_app_distr. cbn [tailq_loop rev app foldl]. mstep by (apply Hb; set_solver).
  rewrite <- app_assoc in Hr. mstep by (by eapply TAILQ_PREV_spec).
  apply (IH fuel (g a p) (p :: l2)); [done| |lia]. intros a' p' Hp'. apply Hb. set_solver.
Qed.

(** ** The operations as operations on lists *)

Definition tailq_run (q : qid) (o : qop) : option (M tq ()) :=
  match o with
  | OHead p => Some (TAILQ_INSERT_HEAD q p)
  | OTail p => Some (TAILQ_INSERT_TAIL q p)
  | OAfter x p => Some (TAILQ_INSERT_AFTER q x p)
  | OBefore x p => Some (TAILQ_INSERT_BEFORE x p)
  | ORemove x => Some (TAILQ_REMOVE q x)
  | ORemoveHead => None
  end.

(** The three insertions next to an element of the queue. *)
Lemma insert_between_spec t Q q l1 l2 p o m :
  queues_ok t Q → Q !! q = Some (l1 ++ l2) → is_Some (entries t !! p) → (∀ q2 l, Q !! q2 = Some l → p ∉ l) →
  tailq_run q o = Some m →
  (o = OHead p ∧ l1 = []) ∨ (∃ x l0, o = OAfter x p ∧ l1 = l0 ++ [x]) ∨
  (∃ x l0, o = OBefore x p ∧ l2 = x :: l0) →
  ∃ t', m t = Ok ((), t') ∧ queues_ok t' (<[q := l1 ++ p :: l2]> Q) ∧ dom (entries t') = dom (entries t).
Proof.
  intros HQ Hq Hpe Hfresh Hm Ho. pose proof (qo_rep _ _ HQ _ _ Hq) as Hrep. pose proof (qo_nodup _ _ HQ _ _ Hq) as Hnd.
  assert (p ∉ l1 ++ l2) as Hp by eauto. destruct (rep_parts _ _ _ _ Hrep) as (c & h & Hh & Hf & H1 & H2).
  destruct Hpe as [ep Hep].
  assert (m t = set_cell c (Some p) (link_back q p (head l2) (link_new p (head l2) c t))) as Erun.
  { destruct Ho as [[-> ->]|[(x & l0 & -> & ->)|(x & l0 & -> & ->)]]; injection Hm as <-.
    - simpl in H1. subst c. eapply TAILQ_INSERT_HEAD_run; [done..|]. intros n En. destruct l2 as [|n' l2]; [done|].
      injection En as ->. split; [set_solver|]. destruct H2 as [-> _]. by eexists.
    - pose proof (seg_snoc _ _ _ _ _ _ H1) as (-> & mid & Hx & _).
      rewrite (TAILQ_INSERT_AFTER_run t q p h ep Hh Hep x _ Hx); [done|set_solver|]. simpl. intros n En.
      destruct l2 as [|n' l2]; [done|]. injection En as ->. rewrite <- app_assoc in Hnd.
      apply NoDup_app in Hnd as (_ & _ & [Hxn _]%NoDup_cons). split_and!; [set_solver|set_solver|].
      destruct H2 as [-> _]. by eexists.
    - pose proof H2 as [Hx _]. apply NoDup_app in Hnd as (_ & Hd & _).
      eapply (TAILQ_INSERT_BEFORE_run t q p ep Hep x); [exact Hx|set_solver|done| |].
      all: destruct (exists_last_or_nil l1) as [-> | (l0' & y & ->)]; [simpl in H1; by rewrite H1|].
      all: apply seg_snoc in H1 as (-> & _); intros [= ->]; first [by eapply (Hd x); set_solver|set_solver]. }
  destruct (insert_link t q l1 p l2 c h) as (t' & E & Hrep' & Hfr1 & Hfr2 & Hfr3); try done.
  exists t'. split; [by rewrite Erun|]. split; [|done].
  eapply queues_ok_update; [done|exact Hq|done| | |done|].
  - apply NoDup_app in Hnd as (? & ? & ?). apply NoDup_app. rewrite NoDup_cons. set_solver.
  - intros r Hr. destruct (decide (r = p)) as [->|]; [by right|left]. set_solver.
  - intros q2 l r Hne Hq2 Hr. apply Hfr2. intros Hin. destruct (decide (r = p)) as [->|]; [by eapply Hfresh|].
    apply Hne. eapply (qo_disj _ _ HQ); [done|exact Hq|done|set_solver].
Qed.

(** C15: the macros of TAILQ are operations on lists, for any number of queues at
    once: every insertion and removal that makes sense for the list of a queue
    returns, gives that queue the new list and leaves every other queue as it is;
    the first and the last element, and the elements next to another one, are
    those of the list; a loop visits the elements in order, and the reverse loop,
    which reads the address of a pointer as that of a head, in reverse order. *)
Theorem tailq_op_refines t Q q o l l' m :
  queues_ok t Q → Q !! q = Some l → tailq_run q o = Some m → op_list o l = Some l' →
  (∀ p, op_new o = Some p → is_Some (entries t !! p) ∧ ∀ q2 l2, Q !! q2 = Some l2 → p ∉ l2) →
  ∃ t', m t = Ok ((), t') ∧ queues_ok t' (<[q := l']> Q) ∧ dom (entries t') = dom (entries t) ∧
    TAILQ_FIRST q t' = Ok (head l', t') ∧ TAILQ_LAST q t' = Ok (last l', t') ∧
    (∀ l1 x l2, l' = l1 ++ x :: l2 → TAILQ_NEXT x t' = Ok (head l2, t') ∧ TAILQ_PREV x t' = Ok (last l1, t')) ∧
    ∀ A (body : A → Z → M tq A) (g : A → Z → A) (a : A) fuel,
      (∀ a p, p ∈ l' → body a p t' = Ok (g a p, t')) → (length l' ≤ fuel)%nat →
      TAILQ_FOREACH fuel body a q t' = Ok (foldl g a l', t') ∧
      TAILQ_FOREACH_REVERSE fuel body a q t' = Ok (foldl g a (rev l'), t').
Proof.
  intros HQ Hq Hm Ho Ha.
  assert (∃ t', m t = Ok ((), t') ∧ queues_ok t' (<[q := l']> Q) ∧ dom (entries t') = dom (entries t))
    as (t' & E & HQ' & Hdom).
  { destruct o as [p|p|x p|x p| |x]; simpl in Ho; try (case_decide as Hp; [done|]); simpl in Hm; try discriminate Hm.
    - injection Ho as <-. destruct (Ha p eq_refl). by apply (insert_between_spec t Q q [] l p (OHead p) m HQ Hq); [..|left].
    - injection Ho as <-. injection Hm as <-. destruct (Ha p eq_refl). by apply TAILQ_INSERT_TAIL_spec.
    - destruct (split_elem x l) as [[l1 l2]|] eqn:Es; [|done]. injection Ho as <-. destruct (Ha p eq_refl).
      apply split_elem_Some in Es as [-> _].
      replace (l1 ++ x :: p :: l2) with ((l1 ++ [x]) ++ p :: l2) by (by rewrite <- app_assoc).
      apply (insert_between_spec t Q q (l1 ++ [x]) l2 p (OAfter x p) m HQ); [by rewrite <- app_assoc|done..|].
      right. left. by exists x, l1.
    - destruct (split_elem x l) as [[l1 l2]|] eqn:Es; [|done]. injection Ho as <-. destruct (Ha p eq_refl).
      apply split_elem_Some in Es as [-> _]. apply (insert_between_spec t Q q l1 (x :: l2) p (OBefore x p) m HQ Hq); [done..|].
      right. right. by exists x, l2.
    - destruct (split_elem x l) as [[l1 l2]|] eqn:Es; [|done]. injection Ho as <-. injection Hm as <-.
      apply split_elem_Some in Es as [-> _]. by apply TAILQ_REMOVE_spec. }
  assert (tq_rep t' q l') as Hr by (eapply (qo_rep _ _ HQ'); by rewrite lookup_insert_eq).
  exists t'. split; [done|]. split; [done|]. split; [done|]. split; [by apply TAILQ_FIRST_ok|].
  split; [by apply TAILQ_LAST_spec|]. split.
  { intros l1 x l2 ->. split; [by eapply TAILQ_NEXT_spec|by eapply TAILQ_PREV_spec]. }
  intros A body g a fuel Hb Hf. split.
  - unfold TAILQ_FOREACH. mstep by (by apply TAILQ_FIRST_ok). by apply (loop_forward fuel body g a t' q []).
  - unfold TAILQ_FOREACH_REVERSE. mstep by (by apply TAILQ_LAST_spec).
    apply (loop_backward fuel body g a t' q l' []); [by rewrite app_nil_r|done|done].
Qed.

(** ** Concatenation *)

Lemma TAILQ_CONCAT_run t q1 q2 h1 h2 n en :
  heads t !! q1 = Some h1 → heads t !! q2 = Some h2 → q1 ≠ q2 → tqh_first h2 = Some n → entries t !! n = Some en →
  tqh_last h1 = CFirst q1 ∨ (∃ y ey, tqh_last h1 = CNext y ∧ y ≠ n ∧ entries t !! y = Some ey) →
  TAILQ_CONCAT q1 q2 t = set_cell (tqh_last h1) (Some n)
    (Tq (<[q2 := TqHead None (CFirst q2)]> (<[q1 := TqHead (tqh_first h1) (tqh_last h2)]> (heads t)))
        (<[n := TqEntry (tqe_next en) (tqh_last h1)]> (entries t))).
Proof.
  intros Hh1 Hh2 Hq Hf He Hc. unfold TAILQ_CONCAT, TAILQ_EMPTY, TAILQ_INIT.
  destruct h1 as [f1 c]; simpl in *. destruct Hc as [->|(y & ey & -> & Hy & Hey)]; tq_run; rewrite ?Hf; tq_run.
  - do 3 f_equal. rewrite !insert_insert_eq, (insert_insert_ne _ q1 q2), insert_insert_eq by done. done.
  - do 3 f_equal. by rewrite (insert_insert_ne _ n y).
Qed.

(** TAILQ_CONCAT moves the processes of the second queue to the end of the first. *)
Lemma TAILQ_CONCAT_spec t Q q1 q2 l1 l2 :
  queues_ok t Q → Q !! q1 = Some l1 → Q !! q2 = Some l2 → q1 ≠ q2 →
  ∃ t', TAILQ_CONCAT q1 q2 t = Ok ((), t') ∧ queues_ok t' (<[q2 := []]> (<[q1 := l1 ++ l2]> Q)).
Proof.
  intros HQ H1 H2 Hq. pose proof (qo_rep _ _ HQ _ _ H1) as (h1 & Hh1 & Hf1 & Hs1).
  pose proof (qo_rep _ _ HQ _ _ H2) as (h2 & Hh2 & Hf2 & Hs2).
  destruct l2 as [|n l2].
  { exists t. split.
    - unfold TAILQ_CONCAT, TAILQ_EMPTY. mstep by (mstep by (unfold get_head; by rewrite Hh2); done). by rewrite Hf2.
    - rewrite app_nil_r, (insert_id Q q1), insert_id; done. }
  pose proof Hs2 as [Hn Hs2'].
  assert (∀ r, r ∈ l1 → r ∉ n :: l2) as Hd by (intros r Hr1 Hr2; apply Hq; by eapply (qo_disj _ _ HQ)).
  assert (tqh_last h1 = CFirst q1 ∨ ∃ y ey, tqh_last h1 = CNext y ∧ y ≠ n ∧ entries t !! y = Some ey) as Hc.
  { destruct (exists_last_or_nil l1) as [-> | (l0 & y & ->)]; [left; exact Hs1|right].
    apply seg_snoc in Hs1 as (-> & mid & Hy & _). eexists y, _. split_and!; [done| |exact Hy]. intros ->.
    apply (Hd n); set_solver. }
  rewrite (TAILQ_CONCAT_run t q1 q2 h1 h2 n _ Hh1 Hh2 Hq Hf2 Hn Hc). set (t1 := Tq _ _).
  destruct (set_cell_link_gen t1 q1 l1 (n :: l2) None (tqh_last h1) (TqHead (tqh_first h1) (tqh_last h2)))
    as (t' & E & Hrep & Hfr1 & Hfr2 & Hfr3).
  - simpl. rewrite lookup_insert_ne by done. by rewrite lookup_insert_eq.
  - by rewrite Hf1.
  - apply NoDup_app. split_and!; [by apply (qo_nodup _ _ HQ q1)|done|by apply (qo_nodup _ _ HQ q2)].
  - eapply seg_frame; [|exact Hs1]. intros r Hr. simpl. rewrite lookup_insert_ne; [done|]. intros <-. eapply Hd; [done|by left].
  - simpl. rewrite lookup_insert_eq. split; [done|]. eapply seg_frame; [|exact Hs2']. intros r Hr. rewrite lookup_insert_ne; [done|].
    intros <-. pose proof (qo_nodup _ _ HQ _ _ H2) as [? _]%NoDup_cons. done.
  - exists t'. split; [exact E|].
    assert (∀ q l, <[q2:=[]]> (<[q1:=l1 ++ n :: l2]> Q) !! q = Some l →
      (q = q2 ∧ l = []) ∨ (q = q1 ∧ l = l1 ++ n :: l2) ∨ (q ≠ q1 ∧ q ≠ q2 ∧ Q !! q = Some l)) as Hcases.
    { intros q l. rewrite !lookup_insert. repeat case_decide; naive_solver. }
    assert (∀ q l r, q ≠ q1 → q ≠ q2 → Q !! q = Some l → r ∈ l → r ∉ l1 ∧ r ∉ n :: l2) as Hapart.
    { intros q l r Hne1 Hne2 Hql Hr. split; intros Hin; [apply Hne1|apply Hne2]; by eapply (qo_disj _ _ HQ). }
    split.
    + intros q l [[-> ->]|[[-> ->]|(Hne1 & Hne2 & Hql)]]%Hcases; [|done|].
      * eexists. rewrite Hfr1 by done. simpl. rewrite lookup_insert_eq. done.
      * destruct (qo_rep _ _ HQ _ _ Hql) as (h & Hh & Hf & Hs). exists h. rewrite Hfr1 by done. simpl.
        rewrite !lookup_insert_ne by done. split_and!; [done|done|]. eapply seg_frame; [|exact Hs]. intros r Hr.
        destruct (Hapart q l r Hne1 Hne2 Hql Hr) as [Hr1 Hr2]. rewrite Hfr2 by done. simpl.
        rewrite lookup_insert_ne; [done|]. intros <-. apply Hr2. by left.
    + intros q l [[-> ->]|[[-> ->]|(_ & _ & Hql)]]%Hcases; [constructor| |by eapply (qo_nodup _ _ HQ)].
      apply NoDup_app. split_and!; [by apply (qo_nodup _ _ HQ q1)|done|by apply (qo_nodup _ _ HQ q2)].
    + intros qa qb la lb r Ha Hb Hra Hrb.
      apply Hcases in Ha as [[-> ->]|[[-> ->]|(Ha1 & Ha2 & Ha)]]; [by apply elem_of_nil in Hra|..];
      apply Hcases in Hb as [[-> ->]|[[-> ->]|(Hb1 & Hb2 & Hb)]]; try (by apply elem_of_nil in Hrb); try done.
      * exfalso. destruct (Hapart qb lb r Hb1 Hb2 Hb Hrb). set_solver.
      * exfalso. destruct (Hapart qa la r Ha1 Ha2 Ha Hra). set_solver.
      * by eapply (qo_disj _ _ HQ).
Qed.

(** The run queue 1, 2 with process 3 inserted before the second. *)
Definition w_tq : tq :=
  Tq {[QRun := TqHead (Some 1) (CNext 2)]}
     (list_to_map [(1, TqEntry (Some 2) (CFirst QRun)); (2, TqEntry None (CNext 1)); (3, TqEntry None CNull)]).

Lemma w_tq_ok : queues_ok w_tq {[QRun := [1; 2]]}.
Proof.
  assert (∀ q l, ({[QRun := [1; 2]]} : gmap qid (list Z)) !! q = Some l → q = QRun ∧ l = [1; 2]) as H.
  { intros q l. rewrite lookup_singleton_Some. naive_solver. }
  split.
  - intros q l [-> ->]%H. eexists. split; [vm_compute; reflexivity|]. split; [reflexivity|]. vm_compute. repeat split.
  - intros q l [-> ->]%H. compute_decide.
  - by intros q1 q2 l1 l2 p [-> ->]%H [-> ->]%H.
Qed.

Lemma tailq_op_refines_witness :
  ∃ t', TAILQ_INSERT_BEFORE 2 3 w_tq = Ok ((), t') ∧ tq_rep t' QRun [1; 3; 2] ∧ TAILQ_LAST QRun t' = Ok (Some 2, t').
Proof.
  destruct (tailq_op_refines w_tq {[QRun := [1; 2]]} QRun (OBefore 2 3) [1; 2] [1; 3; 2] (TAILQ_INSERT_BEFORE 2 3))
    as (t' & E & HQ & _ & _ & Hl & _).
  - exact w_tq_ok.
  - reflexivity.
  - reflexivity.
  - vm_compute. reflexivity.
  - intros p [= <-]. split; [eexists; vm_compute; reflexivity|]. intros q2 l2. rewrite lookup_singleton_Some.
    intros [_ <-]. compute_decide.
  - exists t'. split; [exact E|]. split; [|exact Hl]. eapply (qo_rep _ _ HQ). by rewrite lookup_insert_eq.
Defined.
