(* ===== verification/Sched.v ===== *)
(** Processes, the scheduler and semaphores (include/mosnix/proc.h,
    os/sched.c, os/sem.c).

    A process is named by the address of its [struct proc].  The run queue and
    the waiters of each semaphore are tail queues (Tailq); the [qptrs] field
    of a process is kept in the queue state.  The invariant [sched_ok] ties
    the queues to the process states, and each operation is shown to refine
    its effect on the abstract queues. *)
From S2P Require Import Prelude CDefs Tailq.

(** ** struct proc *)

Inductive proc_state :=
  | PROC_UNUSED
  | PROC_RUNNING
  | PROC_NOT_RUNNING
  | PROC_STOPPED_JOB_CONTROL
  | PROC_STOPPED_DEBUGGER
  | PROC_SLEEP
  | PROC_UNINT_SLEEP
  | PROC_ZOMBIE.

#[export] Instance proc_state_eq_dec : EqDecision proc_state.
Proof. solve_decision. Defined.

Record proc_context := ProcContext {
  ctx_S : Z;               (* 6502 stack pointer, 8 bits *)
  ctx_AX : Z;              (* A:X value passed upon a context switch *)
  ctx_stack : list Z;      (* saved return stack *)
  ctx_kstack : Z;
  ctx_kzp : list Z;
}.

Record proc := Proc {
  p_context : proc_context;
  p_pid : Z;
  p_ppid : Z;
  p_state : proc_state;
  p_wait_sem : option Z;
  p_zp : Z;
  p_fd : list (option nat);
  p_cloexec : list Z;
  p_umask : Z;
  p_cwd : list Z;
  p_argv : Z;
}.

Definition set_context c p := Proc c (p_pid p) (p_ppid p) (p_state p) (p_wait_sem p)
  (p_zp p) (p_fd p) (p_cloexec p) (p_umask p) (p_cwd p) (p_argv p).
Definition set_state s p := Proc (p_context p) (p_pid p) (p_ppid p) s (p_wait_sem p)
  (p_zp p) (p_fd p) (p_cloexec p) (p_umask p) (p_cwd p) (p_argv p).
Definition set_wait_sem w p := Proc (p_context p) (p_pid p) (p_ppid p) (p_state p) w
  (p_zp p) (p_fd p) (p_cloexec p) (p_umask p) (p_cwd p) (p_argv p).
Definition set_AX ax p :=
  let c := p_context p in
  set_context (ProcContext (ctx_S c) ax (ctx_stack c) (ctx_kstack c) (ctx_kzp c)) p.

(** The process table's objects, the queues, the current process and the
    values of the semaphores (a [sem_value_t] is an unsigned char). *)
Record sched := Sched {
  procs : gmap Z proc;
  queues : tq;
  current_proc : option Z;
  sem_values : gmap Z Z;
}.

Definition get_proc (p : Z) : M sched proc := λ s,
  match procs s !! p with Some pr => Ok (pr, s) | None => Err FWild end.
Definition set_proc (p : Z) (pr : proc) : M sched () :=
  modify (λ s, Sched (<[p := pr]> (procs s)) (queues s) (current_proc s) (sem_values s)).
Definition upd_proc (p : Z) (f : proc → proc) : M sched () :=
  pr ← get_proc p; set_proc p (f pr).
Definition on_queues {A} (m : M tq A) : M sched A := λ s,
  match m (queues s) with
  | Ok (a, t) => Ok (a, Sched (procs s) t (current_proc s) (sem_values s))
  | Err e => Err e
  end.
Definition sem_value (sem : Z) : M sched Z := λ s,
  match sem_values s !! sem with Some v => Ok (v, s) | None => Err FWild end.
Definition set_sem_value (sem v : Z) : M sched () :=
  modify (λ s, Sched (procs s) (queues s) (current_proc s) (<[sem := v]> (sem_values s))).

(** ** os/sched.c *)

Definition sched_init : M sched () := on_queues (TAILQ_INIT QRun).

Definition sched_set_runnable (p : Z) : M sched () :=
  pr ← get_proc p;
  if decide (p_state pr = PROC_RUNNING) then mret ()
  else
    upd_proc p (set_state PROC_RUNNING);;
    on_queues (TAILQ_INSERT_TAIL QRun p).

Definition sched_remove_runnable (p : Z) : M sched () :=
  pr ← get_proc p;
  if decide (p_state pr = PROC_RUNNING) then
    upd_proc p (set_state PROC_NOT_RUNNING);;
    on_queues (TAILQ_REMOVE QRun p)
  else mret ().

(** The effect of the assembly routine of os/switcher.S on the kernel's data:
    [p] becomes the current process and its A:X value is returned to it. *)
Definition proc_switch_to (p : Z) : M sched Z :=
  pr ← get_proc p;
  modify (λ s, Sched (procs s) (queues s) (Some p) (sem_values s));;
  mret (ctx_AX (p_context pr)).

(** The result is the value that the resumed process sees; the value that
    proc_switch_to() returns is discarded, as in the code. *)
Definition schedule : M sched Z :=
  first ← on_queues (TAILQ_FIRST QRun);
  match first with
  | None => fail FHalt
  | Some p => proc_switch_to p;; mret 0
  end.

Definition sys_sched_yield : M sched Z := mret 0.

(** ** os/sem.c *)

Definition sem_init (sem init_value : Z) : M sched () :=
  set_sem_value sem init_value;;
  on_queues (TAILQ_INIT (QSem sem)).

(** Wakes the process [p], the first waiter, with the wait result [ax]. *)
Definition sem_wake_proc (sem p ax : Z) : M sched () :=
  on_queues (TAILQ_REMOVE (QSem sem) p);;
  upd_proc p (set_AX ax);;
  upd_proc p (set_wait_sem None);;
  sched_set_runnable p.

Definition sem_wakeup (sem : Z) : M sched () :=
  first ← on_queues (TAILQ_FIRST (QSem sem));
  match first with
  | Some p => sem_wake_proc sem p 0
  | None => set_sem_value sem 1
  end.

Definition sem_signal (sem : Z) : M sched () :=
  value ← sem_value sem;
  if value =? 0 then sem_wakeup sem else set_sem_value sem (u8 (value + 1)).

Definition sem_signal_monitor (sem : Z) : M sched () :=
  value ← sem_value sem;
  if value =? 0 then sem_wakeup sem else mret ().

Definition sem_signal_isr (sem : Z) : M sched () := mret ().

Definition sem_wait (sem : Z) : M sched Z :=
  value ← sem_value sem;
  if negb (value =? 0) then set_sem_value sem (u8 (value - 1));; mret 0
  else
    cur ← gets current_proc;
    match cur with
    | None => fail FNull
    | Some p =>
        sched_remove_runnable p;;
        on_queues (TAILQ_INSERT_TAIL (QSem sem) p);;
        upd_proc p (set_wait_sem (Some sem));;
        upd_proc p (set_state PROC_SLEEP);;
        schedule
    end.

Definition sem_wait_timed (sem timeout : Z) : M sched Z := sem_wait sem.

(** The for (;;) loop removes one waiter per iteration, so the number of
    processes bounds it. *)
Fixpoint sem_interrupt_loop (fuel : nat) (sem : Z) : M sched () :=
  match fuel with
  | O => fail FFuel
  | S fuel =>
      first ← on_queues (TAILQ_FIRST (QSem sem));
      match first with
      | Some p => sem_wake_proc sem p (- EINTR);; sem_interrupt_loop fuel sem
      | None => mret ()
      end
  end.

Definition sem_interrupt (sem : Z) : M sched () :=
  n ← gets (λ s, size (procs s));
  sem_interrupt_loop (S n) sem.

(** ** The invariant

    [Q] is the abstract content of the queues.  A process is in the run queue
    if and only if its state is PROC_RUNNING; the waiters of a semaphore sleep
    on it; a semaphore with waiters has the value 0; the current process, if
    there is one, is in the run queue.

    The last point is what the code does, not what it says: the comment on
    [runnable] in os/sched.c has the queue hold the runnable processes except
    for the one that is running, but schedule() switches to the first process
    without removing it, and sem_wait() removes the current process itself. *)

Record sched_ok (s : sched) (Q : gmap qid (list Z)) : Prop := {
  so_queues : queues_ok (queues s) Q;
  so_dom : dom (entries (queues s)) = dom (procs s);
  so_run : is_Some (Q !! QRun);
  so_live q p : p ∈ Q !!! q → is_Some (procs s !! p);
  so_running p pr : procs s !! p = Some pr →
    p_state pr = PROC_RUNNING ↔ p ∈ Q !!! QRun;
  so_waiting sem p pr : p ∈ Q !!! QSem sem → procs s !! p = Some pr →
    p_state pr = PROC_SLEEP ∧ p_wait_sem pr = Some sem;
  so_sems sem : is_Some (Q !! QSem sem) ↔ is_Some (sem_values s !! sem);
  so_value sem v : sem_values s !! sem = Some v → 0 ≤ v < 256;
  so_zero sem v : sem_values s !! sem = Some v → Q !!! QSem sem ≠ [] → v = 0;
  so_current p : current_proc s = Some p → p ∈ Q !!! QRun;
}.

Lemma lookup_total_Some (Q : gmap qid (list Z)) q l : Q !! q = Some l → Q !!! q = l.
Proof. apply lookup_total_correct. Qed.

Lemma so_unique s Q q1 q2 p :
  sched_ok s Q → p ∈ Q !!! q1 → p ∈ Q !!! q2 → q1 = q2.
Proof.
  intros Hs H1 H2. rewrite !lookup_total_alt in *.
  destruct (Q !! q1) as [l1|] eqn:E1; [|set_solver].
  destruct (Q !! q2) as [l2|] eqn:E2; [|set_solver].
  by eapply (qo_disj _ _ (so_queues _ _ Hs)).
Qed.

(** The queues after [p] has moved from the queue [qa] to the end of [qb]. *)
Definition moved (Q : gmap qid (list Z)) qa la qb lb : gmap qid (list Z) :=
  <[qb := lb]> (<[qa := la]> Q).

Section Move.
Context (s : sched) (Q : gmap qid (list Z)) (Hok : sched_ok s Q).
Context (qa qb : qid) (l1 : list Z) (p : Z) (l2 lb : list Z) (pr' : proc).
Context (Hqa : Q !! qa = Some (l1 ++ p :: l2)) (Hqb : Q !! qb = Some lb) (Hab : qa ≠ qb).

Let Q' := moved Q qa (l1 ++ l2) qb (lb ++ [p]).

Lemma move_nodup : p ∉ l1 ++ l2.
Proof.
  pose proof (qo_nodup _ _ (so_queues _ _ Hok) _ _ Hqa) as Hnd.
  apply NoDup_app in Hnd as (_ & Hd & [Hp _]%NoDup_cons).
  intros [H|H]%elem_of_app; [|done]. apply (Hd p H). by left.
Qed.

Lemma move_elem q r :
  r ∈ Q' !!! q ↔ (r ≠ p ∧ r ∈ Q !!! q) ∨ (r = p ∧ q = qb).
Proof.
  pose proof move_nodup as Hnd. unfold Q', moved.
  assert (∀ q', p ∈ Q !!! q' ↔ q' = qa) as Hp.
  { intros q'. split.
    - intros H. eapply so_unique; [done..|]. erewrite lookup_total_Some by done. set_solver.
    - intros ->. erewrite lookup_total_Some by done. set_solver. }
  destruct (decide (q = qb)) as [-> | Hb]; [|destruct (decide (q = qa)) as [-> | Ha]].
  - rewrite lookup_total_insert_eq, (lookup_total_Some _ _ _ Hqb), elem_of_app.
    pose proof (Hp qb). rewrite (lookup_total_Some _ _ _ Hqb) in *. set_solver.
  - rewrite lookup_total_insert_ne, lookup_total_insert_eq by done.
    rewrite (lookup_total_Some _ _ _ Hqa). set_solver.
  - rewrite !lookup_total_insert_ne by done. pose proof (Hp q). naive_solver.
Qed.

(** Re-establishes the invariant once the queues [t'] and the process [pr']
    agree on where [p] is. *)
Lemma sched_move t' cur' :
  queues_ok t' Q' → dom (entries t') = dom (procs s) →
  (p_state pr' = PROC_RUNNING ↔ qb = QRun) →
  (∀ sem, qb = QSem sem → p_state pr' = PROC_SLEEP ∧ p_wait_sem pr' = Some sem ∧
                          sem_values s !! sem = Some 0) →
  (∀ r, cur' = Some r → r ∈ Q' !!! QRun) →
  sched_ok (Sched (<[p := pr']> (procs s)) t' cur' (sem_values s)) Q'.
Proof.
  intros Ht' Hdom Hrun Hsem Hcur. destruct Hok.
  assert (is_Some (procs s !! p)) as Hpr.
  { apply (so_live0 qa). erewrite lookup_total_Some by done. set_solver. }
  split; simpl; try done.
  - rewrite Hdom. symmetry. by apply dom_insert_lookup.
  - unfold Q', moved. rewrite !lookup_insert. repeat case_decide; eauto.
  - intros q r. rewrite move_elem, lookup_insert. case_decide; [eauto|]. naive_solver.
  - intros r pr. rewrite move_elem, lookup_insert. case_decide; [naive_solver|].
    intros Hr. rewrite (so_running0 _ _ Hr). naive_solver.
  - intros sem r pr. rewrite move_elem, lookup_insert. case_decide.
    + intros ? [= <-]. naive_solver.
    + intros [[_ ?]|[? _]] ?; [eauto|congruence].
  - intros sem. rewrite <- so_sems0. unfold Q', moved. rewrite !lookup_insert.
    repeat case_decide; subst; rewrite ?Hqa, ?Hqb; split; eauto.
  - intros sem v Hv Hne. unfold Q', moved in Hne.
    destruct (decide (QSem sem = qb)) as [E | Hb]; [naive_solver|].
    eapply so_zero0; [done|]. intros E. apply Hne.
    rewrite lookup_total_insert_ne by done.
    destruct (decide (QSem sem = qa)) as [<- | Ha]; [|by rewrite lookup_total_insert_ne].
    rewrite (lookup_total_Some _ _ _ Hqa) in E. by destruct l1.
Qed.
End Move.

(** ** Operations refine their effect on the abstract queues *)

Ltac sched_run :=
  unfold upd_proc, get_proc, set_proc, sem_value, set_sem_value, gets, modify;
  unfold mbind, M_bind, mret, M_ret, fail; simpl; simplify_map_eq.

Lemma first_spec s Q q l :
  sched_ok s Q → Q !! q = Some l → on_queues (TAILQ_FIRST q) s = Ok (head l, s).
Proof.
  intros Hs Hq. destruct (qo_rep _ _ (so_queues _ _ Hs) _ _ Hq) as (h & Hh & Hf & _).
  unfold on_queues, TAILQ_FIRST, get_head, mbind, M_bind, mret, M_ret.
  rewrite Hh. rewrite Hf. by destruct s.
Qed.

Lemma on_queues_run {A} (m : M tq A) s a t :
  m (queues s) = Ok (a, t) →
  on_queues m s = Ok (a, Sched (procs s) t (current_proc s) (sem_values s)).
Proof. unfold on_queues. by intros ->. Qed.

(** A process that was removed from its only queue is in no queue. *)
Lemma removed_not_in Q t q l1 p l2 :
  queues_ok t Q → Q !! q = Some (l1 ++ p :: l2) →
  ∀ q2 lq, (<[q := l1 ++ l2]> Q) !! q2 = Some lq → p ∉ lq.
Proof.
  intros HQ Hq q2 lq. rewrite lookup_insert. case_decide as Heq.
  - intros [= <-]. pose proof (qo_nodup _ _ HQ _ _ Hq) as Hnd.
    apply NoDup_app in Hnd as (_ & Hd & [Hp _]%NoDup_cons).
    intros [H|H]%elem_of_app; [|done]. apply (Hd p H). by left.
  - intros Hq2 Hin. apply Heq.
    eapply (qo_disj _ _ HQ _ _ _ _ p Hq Hq2); [set_solver|done].
Qed.

Definition woken (ax : Z) (pr : proc) : proc :=
  set_state PROC_RUNNING (set_wait_sem None (set_AX ax pr)).

Lemma sem_wake_proc_spec s Q sem p ws ax run pr :
  sched_ok s Q → Q !! QSem sem = Some (p :: ws) → Q !! QRun = Some run →
  procs s !! p = Some pr →
  ∃ t', sem_wake_proc sem p ax s
        = Ok ((), Sched (<[p := woken ax pr]> (procs s)) t' (current_proc s) (sem_values s)) ∧
        sched_ok (Sched (<[p := woken ax pr]> (procs s)) t' (current_proc s) (sem_values s))
          (moved Q (QSem sem) ws QRun (run ++ [p])).
Proof.
  intros Hs Hq Hrun Hp.
  destruct (so_waiting _ _ Hs sem p pr) as [Hst _]; [|done|].
  { erewrite lookup_total_Some by done. by left. }
  destruct (TAILQ_REMOVE_spec (queues s) Q (QSem sem) [] p ws) as (t1 & E1 & Hq1 & Hd1);
    [apply Hs | done |].
  destruct (TAILQ_INSERT_TAIL_spec t1 (<[QSem sem := ws]> Q) QRun run p)
    as (t2 & E2 & Hq2 & Hd2); [done | by rewrite lookup_insert_ne | | |].
  { apply elem_of_dom. rewrite Hd1, (so_dom _ _ Hs). by eapply elem_of_dom_2. }
  { by apply (removed_not_in Q (queues s) (QSem sem) [] p ws (so_queues _ _ Hs)). }
  exists t2. split.
  - unfold sem_wake_proc, sched_set_runnable. unfold mbind at 1, M_bind at 1.
    rewrite (on_queues_run _ _ _ _ E1). sched_run.
    rewrite decide_False by (simpl; by rewrite Hst). simplify_map_eq.
    erewrite on_queues_run by done. simpl. by rewrite !insert_insert_eq.
  - eapply (sched_move s Q Hs (QSem sem) QRun [] p ws run); try done.
    + rewrite Hd2, Hd1. apply Hs.
    + intros r Hr. rewrite (move_elem s Q Hs (QSem sem) QRun [] p ws run Hq Hrun) by done.
      destruct (decide (r = p)); [by right|]. left. split; [done|]. by apply (so_current _ _ Hs).
Qed.

Lemma sem_lookup s Q sem v :
  sched_ok s Q → sem_values s !! sem = Some v → Q !! QSem sem = Some (Q !!! QSem sem).
Proof.
  intros Hs Hv. destruct (proj2 (so_sems _ _ Hs sem)) as [l Hl]; [eauto|].
  by rewrite Hl, (lookup_total_Some _ _ _ Hl).
Qed.

Lemma run_lookup s Q : sched_ok s Q → Q !! QRun = Some (Q !!! QRun).
Proof.
  intros Hs. destruct (so_run _ _ Hs) as [l Hl]. by rewrite Hl, (lookup_total_Some _ _ _ Hl).
Qed.

(** Changing the value of a semaphore without waiters. *)
Lemma set_value_ok s Q sem v v' :
  sched_ok s Q → sem_values s !! sem = Some v → 0 ≤ v' < 256 →
  (Q !!! QSem sem = [] ∨ v' = 0) →
  sched_ok (Sched (procs s) (queues s) (current_proc s) (<[sem := v']> (sem_values s))) Q.
Proof.
  intros [] Hv Hb Hw. split; simpl; try done.
  - intros sem'. rewrite so_sems0, lookup_insert. case_decide; subst; split; eauto.
  - intros sem' w. rewrite lookup_insert. case_decide; [naive_solver|eauto].
  - intros sem' w. rewrite lookup_insert. case_decide; [naive_solver|eauto].
Qed.

Lemma u8_bound x : 0 ≤ u8 x < 256.
Proof. apply Z.mod_pos_bound. done. Qed.

(** The abstract effect of a wake-up: the first waiter moves to the end of the
    run queue with the wait result [ax]. *)
Definition wakes (sem ax : Z) (s : sched) (Q : gmap qid (list Z)) (s' : sched)
    (Q' : gmap qid (list Z)) (p : Z) (ws : list Z) : Prop :=
  sched_ok s' Q' ∧ Q' = moved Q (QSem sem) ws QRun (Q !!! QRun ++ [p]) ∧
  sem_values s' = sem_values s ∧ current_proc s' = current_proc s ∧
  ∃ pr, procs s !! p = Some pr ∧ procs s' = <[p := woken ax pr]> (procs s).

Lemma sem_wake_proc_wakes s Q sem p ws ax v :
  sched_ok s Q → sem_values s !! sem = Some v → Q !!! QSem sem = p :: ws →
  ∃ s', sem_wake_proc sem p ax s = Ok ((), s') ∧
        wakes sem ax s Q s' (moved Q (QSem sem) ws QRun (Q !!! QRun ++ [p])) p ws.
Proof.
  intros Hs Hv Hw. pose proof (sem_lookup _ _ _ _ Hs Hv) as Hq. rewrite Hw in Hq.
  destruct (so_live _ _ Hs (QSem sem) p) as [pr Hp]; [rewrite Hw; by left|].
  destruct (sem_wake_proc_spec s Q sem p ws ax _ pr Hs Hq (run_lookup _ _ Hs) Hp)
    as (t' & E & Hok).
  eexists. split; [done|]. split_and!; try done. eauto.
Qed.

Lemma sem_wakeup_spec s Q sem :
  sched_ok s Q → sem_values s !! sem = Some 0 →
  ∃ s', sem_wakeup sem s = Ok ((), s') ∧
    match Q !!! QSem sem with
    | p :: ws => ∃ Q', wakes sem 0 s Q s' Q' p ws
    | [] => s' = Sched (procs s) (queues s) (current_proc s) (<[sem := 1]> (sem_values s))
            ∧ sched_ok s' Q
    end.
Proof.
  intros Hs Hv. unfold sem_wakeup. unfold mbind, M_bind.
  rewrite (first_spec _ _ _ _ Hs (sem_lookup _ _ _ _ Hs Hv)).
  destruct (Q !!! QSem sem) as [|p ws] eqn:Hw; simpl.
  - eexists. split; [done|]. split; [done|]. eapply set_value_ok; eauto. lia.
  - destruct (sem_wake_proc_wakes s Q sem p ws 0 0 Hs Hv Hw) as (s' & -> & Hwk). eauto.
Qed.

Lemma moved_lookup Q qa la qb lb q :
  moved Q qa la qb lb !!! q
  = if decide (qb = q) then lb else if decide (qa = q) then la else Q !!! q.
Proof. unfold moved. rewrite !lookup_total_insert. done. Qed.

Lemma sem_interrupt_loop_spec fuel s Q sem v :
  sched_ok s Q → sem_values s !! sem = Some v → (length (Q !!! QSem sem) < fuel)%nat →
  ∃ s' Q', sem_interrupt_loop fuel sem s = Ok ((), s') ∧ sched_ok s' Q' ∧
    Q' !!! QRun = Q !!! QRun ++ Q !!! QSem sem ∧ Q' !!! QSem sem = [] ∧
    sem_values s' = sem_values s ∧ current_proc s' = current_proc s ∧
    (∀ p, p ∈ Q !!! QSem sem → ∃ pr, procs s !! p = Some pr ∧
                                     procs s' !! p = Some (woken (- EINTR) pr)) ∧
    (∀ p, p ∉ Q !!! QSem sem → procs s' !! p = procs s !! p).
Proof.
  revert s Q. induction fuel as [|fuel IH]; intros s Q Hs Hv Hf; [lia|].
  cbn [sem_interrupt_loop]. unfold mbind, M_bind.
  pose proof (sem_lookup _ _ _ _ Hs Hv) as Hq. rewrite (first_spec _ _ _ _ Hs Hq).
  pose proof (qo_nodup _ _ (so_queues _ _ Hs) _ _ Hq) as Hnd.
  destruct (Q !!! QSem sem) as [|p ws] eqn:Hw; cbn [head].
  { exists s, Q. rewrite app_nil_r. split_and!; try done. set_solver. }
  destruct (sem_wake_proc_wakes s Q sem p ws (- EINTR) v Hs Hv Hw)
    as (s1 & -> & Hs1 & _ & Hv1 & Hc1 & pr & Hpr & Hp1).
  set (Q1 := moved _ _ _ _ _) in *.
  assert (Q1 !!! QSem sem = ws) as Hw1 by (unfold Q1; by rewrite moved_lookup, decide_False, decide_True).
  assert (Q1 !!! QRun = Q !!! QRun ++ [p]) as Hr1 by (unfold Q1; by rewrite moved_lookup).
  destruct (IH s1 Q1) as (s' & Q' & -> & Hs' & Hr' & Hw' & Hv' & Hc' & Hin & Hout);
    [done | by rewrite Hv1 | rewrite Hw1; cbn [length] in Hf; lia |].
  rewrite Hw1, Hr1, Hp1 in *. apply NoDup_cons in Hnd as [Hpws _].
  exists s', Q'. split_and!; try done; try congruence.
  - by rewrite Hr', <- app_assoc.
  - intros r [-> | Hr]%elem_of_cons.
    + exists pr. rewrite Hout, lookup_insert_eq by done. done.
    + destruct (Hin r Hr) as (pr' & H1 & H2). exists pr'.
      rewrite lookup_insert_ne in H1 by (by intros ->). done.
  - intros r Hr. rewrite Hout by set_solver. rewrite lookup_insert_ne; set_solver.
Qed.

Lemma waiters_bound s Q q :
  sched_ok s Q → (length (Q !!! q) ≤ size (procs s))%nat.
Proof.
  intros Hs. destruct (Q !! q) as [l|] eqn:Hq; rewrite lookup_total_alt, Hq; simpl; [|lia].
  pose proof (qo_nodup _ _ (so_queues _ _ Hs) _ _ Hq) as Hnd.
  rewrite <- size_dom, <- (size_list_to_set (C := gset Z)) by done.
  apply subseteq_size. intros p. rewrite elem_of_list_to_set, elem_of_dom.
  intros Hp. apply (so_live _ _ Hs q). by rewrite (lookup_total_Some _ _ _ Hq).
Qed.

(** ** Blocking *)

Definition asleep (sem : Z) (pr : proc) : proc :=
  set_state PROC_SLEEP (set_wait_sem (Some sem) (set_state PROC_NOT_RUNNING pr)).

Lemma schedule_run s Q :
  queues_ok (queues s) Q → is_Some (Q !! QRun) →
  (∀ p, p ∈ Q !!! QRun → is_Some (procs s !! p)) →
  schedule s = match Q !!! QRun with
               | [] => Err FHalt
               | p :: _ => Ok (0, Sched (procs s) (queues s) (Some p) (sem_values s))
               end.
Proof.
  intros HQ [l Hl] Hlive. rewrite (lookup_total_Some _ _ _ Hl) in *.
  destruct (qo_rep _ _ HQ _ _ Hl) as (h & Hh & Hf & _).
  unfold schedule, proc_switch_to, on_queues, TAILQ_FIRST, get_head.
  unfold get_proc, modify, fail, mbind, M_bind, mret, M_ret. rewrite Hh, Hf.
  destruct l as [|p l]; simpl; [done|].
  destruct (Hlive p) as [pr ->]; [by left|]. by destruct s.
Qed.

(** The queues after [p] blocks on [sem]. *)
Lemma sem_block_queues s Q sem l1 p l2 :
  sched_ok s Q → sem_values s !! sem = Some 0 → Q !!! QRun = l1 ++ p :: l2 →
  ∃ t1 t2, TAILQ_REMOVE QRun p (queues s) = Ok ((), t1) ∧
    TAILQ_INSERT_TAIL (QSem sem) p t1 = Ok ((), t2) ∧
    queues_ok t2 (moved Q QRun (l1 ++ l2) (QSem sem) (Q !!! QSem sem ++ [p])) ∧
    dom (entries t2) = dom (procs s).
Proof.
  intros Hs Hv Hr. pose proof (run_lookup _ _ Hs) as Hrun. rewrite Hr in Hrun.
  pose proof (sem_lookup _ _ _ _ Hs Hv) as Hq.
  destruct (TAILQ_REMOVE_spec (queues s) Q QRun l1 p l2) as (t1 & E1 & Hq1 & Hd1);
    [apply Hs | done |].
  destruct (TAILQ_INSERT_TAIL_spec t1 (<[QRun := l1 ++ l2]> Q) (QSem sem) (Q !!! QSem sem) p)
    as (t2 & E2 & Hq2 & Hd2); [done | by rewrite lookup_insert_ne | | |].
  { apply elem_of_dom. rewrite Hd1, (so_dom _ _ Hs). apply elem_of_dom.
    apply (so_live _ _ Hs QRun). rewrite Hr. set_solver. }
  { by apply (removed_not_in Q (queues s) QRun l1 p l2 (so_queues _ _ Hs)). }
  exists t1, t2. split_and!; try done. rewrite Hd2, Hd1. apply Hs.
Qed.

Lemma sem_wait_block s Q sem l1 p l2 pr :
  sched_ok s Q → sem_values s !! sem = Some 0 → current_proc s = Some p →
  Q !!! QRun = l1 ++ p :: l2 → procs s !! p = Some pr →
  let Q' := moved Q QRun (l1 ++ l2) (QSem sem) (Q !!! QSem sem ++ [p]) in
  match l1 ++ l2 with
  | [] => sem_wait sem s = Err FHalt
  | p' :: _ => ∃ t, let s' := Sched (<[p := asleep sem pr]> (procs s)) t (Some p') (sem_values s) in
      sem_wait sem s = Ok (0, s') ∧ sched_ok s' Q'
  end.
Proof.
  intros Hs Hv Hc Hr Hp Q'.
  assert (p_state pr = PROC_RUNNING) as Hst.
  { apply (so_running _ _ Hs p pr Hp). rewrite Hr. set_solver. }
  destruct (sem_block_queues s Q sem l1 p l2 Hs Hv Hr) as (t1 & t2 & E1 & E2 & Hok & Hdom).
  pose proof (run_lookup _ _ Hs) as Hrun. rewrite Hr in Hrun.
  assert (sem_wait sem s = schedule (Sched (<[p := asleep sem pr]> (procs s)) t2
            (current_proc s) (sem_values s))) as ->.
  { unfold sem_wait, sched_remove_runnable. sched_run. rewrite Hc. simplify_map_eq.
    erewrite on_queues_run by exact E1. erewrite on_queues_run by exact E2.
    simplify_map_eq. by rewrite !insert_insert_eq. }
  assert (Q' !!! QRun = l1 ++ l2) as HrQ by (unfold Q'; by rewrite moved_lookup).
  erewrite schedule_run with (Q := Q'); [|done| |]; cycle 1.
  { unfold Q', moved. rewrite lookup_insert_ne, lookup_insert_eq by done. eauto. }
  { intros r. rewrite HrQ. intros Hin. simpl. rewrite lookup_insert. case_decide; [eauto|].
    apply (so_live _ _ Hs QRun). rewrite Hr, elem_of_app, elem_of_cons.
    apply elem_of_app in Hin. tauto. }
  rewrite HrQ. destruct (l1 ++ l2) as [|p' l] eqn:El; [done|].
  exists t2. split; [done|]. unfold Q'. rewrite <- El.
  eapply sched_move; try done.
  - by eapply sem_lookup.
  - by rewrite El.
  - intros sem' [= <-]. done.
  - intros r [= <-]. rewrite moved_lookup, decide_False, decide_True, El by done. by left.
Qed.

Lemma sem_signal_spec s Q sem v :
  sched_ok s Q → sem_values s !! sem = Some v →
  ∃ s', sem_signal sem s = Ok ((), s') ∧
    match Q !!! QSem sem with
    | p :: ws => ∃ Q', wakes sem 0 s Q s' Q' p ws
    | [] => s' = Sched (procs s) (queues s) (current_proc s)
                   (<[sem := u8 (v + 1)]> (sem_values s)) ∧ sched_ok s' Q
    end.
Proof.
  intros Hs Hv. unfold sem_signal. sched_run.
  destruct (Z.eqb_spec v 0) as [-> | Hne]; [by apply sem_wakeup_spec|].
  destruct (Q !!! QSem sem) as [|p ws] eqn:Hw.
  - eexists. split; [done|]. split; [done|].
    eapply set_value_ok; eauto using u8_bound.
  - destruct Hne. eapply so_zero; [done..|]. by rewrite Hw.
Qed.

Lemma sem_wait_spec s Q sem v p :
  sched_ok s Q → sem_values s !! sem = Some v → current_proc s = Some p →
  if decide (v = 0) then
    ∃ l1 l2 pr, Q !!! QRun = l1 ++ p :: l2 ∧ procs s !! p = Some pr ∧
      match l1 ++ l2 with
      | [] => sem_wait sem s = Err FHalt
      | p' :: _ => ∃ s', sem_wait sem s = Ok (0, s') ∧
          sched_ok s' (moved Q QRun (l1 ++ l2) (QSem sem) (Q !!! QSem sem ++ [p])) ∧
          current_proc s' = Some p' ∧ procs s' = <[p := asleep sem pr]> (procs s) ∧
          sem_values s' = sem_values s
      end
  else
    sem_wait sem s = Ok (0, Sched (procs s) (queues s) (current_proc s)
                              (<[sem := v - 1]> (sem_values s))) ∧
    sched_ok (Sched (procs s) (queues s) (current_proc s) (<[sem := v - 1]> (sem_values s))) Q.
Proof.
  intros Hs Hv Hc. case_decide as H0.
  - subst. pose proof (so_current _ _ Hs p Hc) as Hin.
    pose proof Hin as [pr Hp]%(so_live _ _ Hs).
    apply list_elem_of_split in Hin as (l1 & l2 & Hr). exists l1, l2, pr.
    pose proof (sem_wait_block s Q sem l1 p l2 pr Hs Hv Hc Hr Hp) as Hb.
    split_and!; [done..|]. destruct (l1 ++ l2) as [|p' l]; [done|].
    destruct Hb as (t & E & Hok). eexists. split_and!; done.
  - pose proof (so_value _ _ Hs _ _ Hv) as Hb.
    unfold sem_wait. sched_run. rewrite (proj2 (Z.eqb_neq v 0)) by done. simpl.
    unfold u8. rewrite Z.mod_small by lia. split; [done|].
    eapply set_value_ok; [done..|lia|].
    destruct (Q !!! QSem sem) as [|q ws] eqn:Hw; [by left|].
    destruct H0. eapply so_zero; [done..|]. by rewrite Hw.
Qed.

Lemma sem_interrupt_spec s Q sem v :
  sched_ok s Q → sem_values s !! sem = Some v →
  ∃ s' Q', sem_interrupt sem s = Ok ((), s') ∧ sched_ok s' Q' ∧
    Q' !!! QRun = Q !!! QRun ++ Q !!! QSem sem ∧ Q' !!! QSem sem = [] ∧
    sem_values s' = sem_values s ∧ current_proc s' = current_proc s ∧
    (∀ p, p ∈ Q !!! QSem sem → ∃ pr, procs s !! p = Some pr ∧
                                     procs s' !! p = Some (woken (- EINTR) pr)) ∧
    (∀ p, p ∉ Q !!! QSem sem → procs s' !! p = procs s !! p).
Proof.
  intros Hs Hv. unfold sem_interrupt, gets, mbind, M_bind.
  eapply sem_interrupt_loop_spec; [done..|].
  pose proof (waiters_bound _ _ (QSem sem) Hs). lia.
Qed.

(** ** Reachable states *)

(** A zeroed [struct proc] at the fresh address [p], with its fields set. *)
Definition add_proc (p : Z) (pr : proc) (s : sched) : sched :=
  Sched (<[p := pr]> (procs s))
    (Tq (heads (queues s)) (<[p := TqEntry None CNull]> (entries (queues s))))
    (current_proc s) (sem_values s).

Lemma queues_ok_add_entry t Q p e :
  queues_ok t Q → entries t !! p = None →
  queues_ok (Tq (heads t) (<[p := e]> (entries t))) Q.
Proof.
  intros HQ Hp. split; [|apply HQ..].
  intros q l Hq. destruct (qo_rep _ _ HQ _ _ Hq) as (h & Hh & Hf & Hs).
  exists h. split_and!; try done. eapply seg_frame; [|done]. intros r Hr. simpl.
  rewrite lookup_insert_ne; [done|]. intros ->.
  destruct (tq_rep_entry t q l r) as [? E]; [by eexists | done | congruence].
Qed.

Lemma add_proc_ok s Q p pr :
  sched_ok s Q → procs s !! p = None → p_state pr ≠ PROC_RUNNING →
  sched_ok (add_proc p pr s) Q ∧ ∀ q, p ∉ Q !!! q.
Proof.
  intros Hs Hp Hst. assert (∀ q, p ∉ Q !!! q) as Hno.
  { intros q [? Hq]%(so_live _ _ Hs). congruence. }
  split; [|done]. destruct Hs. split; simpl; try done.
  - apply queues_ok_add_entry; [done|]. apply not_elem_of_dom. rewrite so_dom0.
    by apply not_elem_of_dom.
  - rewrite !dom_insert_L. congruence.
  - intros q r Hr. rewrite lookup_insert. case_decide; eauto.
  - intros r pr'. rewrite lookup_insert. case_decide; [|by apply so_running0].
    intros [= <-]. subst. split; [done|]. by intros ?%Hno.
  - intros sem r pr' Hr. rewrite lookup_insert. case_decide; [|by apply so_waiting0].
    subst. by apply Hno in Hr.
Qed.

(** A process outside of all queues is appended to the run queue. *)
Lemma sched_set_runnable_spec s Q p pr :
  sched_ok s Q → procs s !! p = Some pr → p_state pr ≠ PROC_RUNNING →
  (∀ q, p ∉ Q !!! q) →
  ∃ t', let s' := Sched (<[p := set_state PROC_RUNNING pr]> (procs s)) t'
                    (current_proc s) (sem_values s) in
        sched_set_runnable p s = Ok ((), s') ∧
        sched_ok s' (<[QRun := Q !!! QRun ++ [p]]> Q).
Proof.
  intros Hs Hp Hst Hno.
  destruct (TAILQ_INSERT_TAIL_spec (queues s) Q QRun (Q !!! QRun) p)
    as (t' & E & Hq & Hd); [apply Hs | by eapply run_lookup | | |].
  { apply elem_of_dom. rewrite (so_dom _ _ Hs). by eapply elem_of_dom_2. }
  { intros q2 l2 Hq2. specialize (Hno q2). by rewrite (lookup_total_Some _ _ _ Hq2) in Hno. }
  exists t'. split.
  { unfold sched_set_runnable. sched_run. rewrite ?decide_False by done. simplify_map_eq.
    by erewrite on_queues_run by exact E. }
  destruct Hs. split; simpl; try done.
  - rewrite Hd, dom_insert_lookup by eauto. done.
  - rewrite lookup_insert_eq. eauto.
  - intros q r. rewrite lookup_total_insert, lookup_insert. repeat case_decide; subst; eauto.
    intros [? | ->%list_elem_of_singleton]%elem_of_app; [eauto|done].
  - intros r pr'. rewrite lookup_total_insert_eq, lookup_insert, elem_of_app, list_elem_of_singleton.
    case_decide; subst; [intros [= <-]; simpl; tauto|].
    intros Hr. rewrite (so_running0 _ _ Hr). naive_solver.
  - intros sem r pr'. rewrite lookup_total_insert_ne, lookup_insert by done.
    case_decide; subst; [|eauto]. by intros ?%Hno.
  - intros sem. rewrite lookup_insert_ne by done. apply so_sems0.
  - intros sem v. rewrite lookup_total_insert_ne by done. apply so_zero0.
  - intros r Hr. rewrite lookup_total_insert_eq, elem_of_app. eauto.
Qed.

(** A process leaves the run queue; the others keep their order. *)
Lemma sched_remove_runnable_spec s Q p pr :
  sched_ok s Q → procs s !! p = Some pr → p_state pr = PROC_RUNNING →
  ∃ t' l1 l2, let s' := Sched (<[p := set_state PROC_NOT_RUNNING pr]> (procs s)) t'
                          (current_proc s) (sem_values s) in
        Q !!! QRun = l1 ++ p :: l2 ∧ sched_remove_runnable p s = Ok ((), s') ∧
        (current_proc s ≠ Some p → sched_ok s' (<[QRun := l1 ++ l2]> Q)).
Proof.
  intros Hs Hp Hst. pose proof (proj1 (so_running _ _ Hs p pr Hp) Hst) as Hin.
  pose proof (run_lookup _ _ Hs) as Hrun. apply list_elem_of_split in Hin as (l1 & l2 & Hl). rewrite Hl in Hrun.
  destruct (TAILQ_REMOVE_spec (queues s) Q QRun l1 p l2) as (t' & E & Hq & Hd); [apply Hs|done|].
  exists t', l1, l2. split; [done|]. split.
  { unfold sched_remove_runnable. sched_run. rewrite ?decide_True by done. simplify_map_eq.
    by erewrite on_queues_run by exact E. }
  intros Hcur. pose proof (qo_nodup _ _ (so_queues _ _ Hs) _ _ Hrun) as Hnd.
  assert (∀ r, r ∈ l1 ++ l2 ↔ r ∈ Q !!! QRun ∧ r ≠ p) as Hel.
  { intros r. rewrite Hl. apply NoDup_app in Hnd as (_ & Hd1 & [Hp2 _]%NoDup_cons).
    rewrite !elem_of_app, elem_of_cons. split; [|naive_solver]. intros Hr. split; [naive_solver|].
    intros ->. destruct Hr as [Hr|Hr]; [|done]. apply (Hd1 p Hr). by left. }
  assert (∀ sem, p ∉ Q !!! QSem sem) as Hno.
  { intros sem Hin. eapply (so_unique s Q QRun) in Hin; [done..|]. rewrite Hl. set_solver. }
  destruct Hs. split; simpl; try done.
  - rewrite Hd, dom_insert_lookup by eauto. done.
  - rewrite lookup_insert_eq. eauto.
  - intros q r. rewrite lookup_total_insert, lookup_insert. repeat case_decide; subst; eauto.
    intros [? _]%Hel. eauto.
  - intros r pr'. rewrite lookup_total_insert_eq, lookup_insert, Hel.
    case_decide; subst; [intros [= <-]; simpl; naive_solver|].
    intros Hr. rewrite (so_running0 _ _ Hr). naive_solver.
  - intros sem r pr'. rewrite lookup_total_insert_ne, lookup_insert by done.
    case_decide; subst; [|eauto]. by intros ?%Hno.
  - intros sem. rewrite lookup_insert_ne by done. apply so_sems0.
  - intros sem v. rewrite lookup_total_insert_ne by done. apply so_zero0.
  - intros r Hr. rewrite lookup_total_insert_eq, Hel. split; [eauto|]. by intros ->.
Qed.

(** A process that neither runs nor sleeps is in no queue. *)
Lemma idle_not_queued s Q p pr :
  sched_ok s Q → procs s !! p = Some pr → p_state pr ≠ PROC_RUNNING → p_state pr ≠ PROC_SLEEP →
  ∀ q, p ∉ Q !!! q.
Proof.
  intros Hs Hp Hr Hsl [|sem] Hin; [by apply (so_running _ _ Hs p pr Hp) in Hin|].
  by destruct (so_waiting _ _ Hs sem p pr Hin Hp).
Qed.

(** Both run queue operations on a known process. *)
Lemma set_runnable_run s Q p pr :
  sched_ok s Q → procs s !! p = Some pr → p_state pr ≠ PROC_SLEEP →
  ∃ s' Q', sched_set_runnable p s = Ok ((), s') ∧ sched_ok s' Q'.
Proof.
  intros Hs Hp Hsl. destruct (decide (p_state pr = PROC_RUNNING)) as [Hr|Hr].
  - exists s, Q. split; [|done]. unfold sched_set_runnable. sched_run. by rewrite ?decide_True by done.
  - destruct (sched_set_runnable_spec s Q p pr) as (t & E & Hok); [by try eapply idle_not_queued..|]. eauto.
Qed.

Lemma remove_runnable_run s Q p pr :
  sched_ok s Q → procs s !! p = Some pr → current_proc s ≠ Some p →
  ∃ s' Q', sched_remove_runnable p s = Ok ((), s') ∧ sched_ok s' Q'.
Proof.
  intros Hs Hp Hc. destruct (decide (p_state pr = PROC_RUNNING)) as [Hr|Hr].
  - destruct (sched_remove_runnable_spec s Q p pr) as (t & l1 & l2 & _ & E & Hok); [done..|]. eauto.
  - exists s, Q. split; [|done]. unfold sched_remove_runnable. sched_run. by rewrite ?decide_False by done.
Qed.

Lemma sem_init_spec s Q sem v :
  sched_ok s Q → sem_values s !! sem = None → 0 ≤ v < 256 →
  ∃ s', sem_init sem v s = Ok ((), s') ∧ sched_ok s' (<[QSem sem := []]> Q) ∧
        sem_values s' = <[sem := v]> (sem_values s).
Proof.
  intros Hs Hn Hv. unfold sem_init, on_queues, TAILQ_INIT, set_head. sched_run.
  eexists. split; [done|]. split; [|done].
  assert (Q !! QSem sem = None) as HQn.
  { apply eq_None_not_Some. rewrite (so_sems _ _ Hs), Hn. apply is_Some_None. }
  destruct Hs as [HQ]. split; simpl; try done.
  - split.
    + intros q l. rewrite lookup_insert. case_decide as E.
      * intros [= <-]. subst. eexists. simpl. rewrite lookup_insert_eq. done.
      * intros (h & Hh & Hr)%(qo_rep _ _ HQ). exists h. simpl.
        by rewrite lookup_insert_ne by done.
    + intros q l. rewrite lookup_insert. case_decide; [|apply HQ].
      intros [= <-]. constructor.
    + intros q1 q2 l1 l2 r. rewrite !lookup_insert. repeat case_decide; subst; try done;
        [intros [= <-]; set_solver | intros ? [= <-]; set_solver | apply HQ].
  - by rewrite lookup_insert_ne.
  - intros q r. rewrite lookup_total_insert. case_decide; [set_solver|eauto].
  - intros r pr. rewrite lookup_total_insert_ne by done. apply so_running0.
  - intros sem' r pr. rewrite lookup_total_insert. case_decide; [set_solver|eauto].
  - intros sem'. rewrite !lookup_insert. repeat case_decide; simplify_eq; [split; eauto|].
    apply so_sems0.
  - intros sem' w. rewrite lookup_insert. case_decide; [naive_solver|eauto].
  - intros sem' w. rewrite lookup_insert, lookup_total_insert.
    repeat case_decide; simplify_eq; [done|apply so_zero0].
  - intros r Hr. rewrite lookup_total_insert_ne by done. eauto.
Qed.

(** The state of the kernel's variables before sched_init(), and after it. *)
Definition sched_zero : sched := Sched ∅ (Tq ∅ ∅) None ∅.
Definition sched_boot : sched :=
  Sched ∅ (Tq {[QRun := TqHead None (CFirst QRun)]} ∅) None ∅.

Lemma sched_init_boot : sched_init sched_zero = Ok ((), sched_boot).
Proof. done. Qed.

Lemma sched_boot_ok : sched_ok sched_boot {[QRun := []]}.
Proof.
  assert (∀ q, ({[QRun := []]} : gmap qid (list Z)) !!! q = []) as Hnil.
  { intros q. rewrite lookup_total_alt. destruct (decide (q = QRun)) as [-> | ?];
      [by rewrite lookup_singleton_eq | by rewrite lookup_singleton_ne]. }
  split; simpl; try done.
  - split.
    + intros q l [<- <-]%lookup_singleton_Some. exists (TqHead None (CFirst QRun)).
      simpl. by rewrite lookup_singleton_eq.
    + intros q l [<- <-]%lookup_singleton_Some. constructor.
    + intros q1 q2 l1 l2 p [<- <-]%lookup_singleton_Some [<- <-]%lookup_singleton_Some. done.
  - intros q p. rewrite Hnil. set_solver.
  - intros sem. rewrite lookup_singleton_ne by done. by split; intros [? ?].
Qed.

(** One step of the kernel: an operation of os/sem.c on an initialised
    semaphore, the initialisation of a new one, an operation of os/sched.c, or
    the start of a new process, as proc_create_internal() does it.  A process
    that sleeps on a semaphore is made runnable by the operations on the
    semaphore only, and the current process leaves the run queue in sem_wait()
    only, as in the code. *)
Inductive sched_step (s s' : sched) : Prop :=
  | step_schedule r : schedule s = Ok (r, s') → sched_step s s'
  | step_sem_init sem v :
      sem_values s !! sem = None → 0 ≤ v < 256 → sem_init sem v s = Ok ((), s') →
      sched_step s s'
  | step_sem_signal sem :
      is_Some (sem_values s !! sem) → sem_signal sem s = Ok ((), s') → sched_step s s'
  | step_sem_signal_monitor sem :
      is_Some (sem_values s !! sem) → sem_signal_monitor sem s = Ok ((), s') →
      sched_step s s'
  | step_sem_wait sem r :
      is_Some (sem_values s !! sem) → sem_wait sem s = Ok (r, s') → sched_step s s'
  | step_sem_interrupt sem :
      is_Some (sem_values s !! sem) → sem_interrupt sem s = Ok ((), s') → sched_step s s'
  | step_spawn p pr :
      procs s !! p = None → p_state pr = PROC_UNUSED →
      sched_set_runnable p (add_proc p pr s) = Ok ((), s') → sched_step s s'
  | step_set_runnable p pr :
      procs s !! p = Some pr → p_state pr ≠ PROC_SLEEP →
      sched_set_runnable p s = Ok ((), s') → sched_step s s'
  | step_remove_runnable p :
      is_Some (procs s !! p) → current_proc s ≠ Some p →
      sched_remove_runnable p s = Ok ((), s') → sched_step s s'.

Lemma schedule_ok s Q r s' :
  sched_ok s Q → schedule s = Ok (r, s') → sched_ok s' Q.
Proof.
  intros Hs. rewrite (schedule_run s Q); [|apply Hs..].
  destruct (Q !!! QRun) as [|p l] eqn:Hr; [done|]. intros [= <- <-].
  destruct Hs. split; simpl; try done. intros ? [= <-]. rewrite Hr. by left.
Qed.

Lemma sem_signal_monitor_spec s Q sem v :
  sched_ok s Q → sem_values s !! sem = Some v →
  ∃ s' Q', sem_signal_monitor sem s = Ok ((), s') ∧ sched_ok s' Q' ∧
    (v ≠ 0 → s' = s).
Proof.
  intros Hs Hv. unfold sem_signal_monitor. sched_run.
  destruct (Z.eqb_spec v 0) as [-> | Hne]; [|by exists s, Q].
  destruct (sem_wakeup_spec s Q sem Hs Hv) as (s' & -> & Hw). exists s'.
  destruct (Q !!! QSem sem); [exists Q; naive_solver|].
  destruct Hw as (Q' & Hok & _). by exists Q'.
Qed.

Lemma sem_wait_preserves s Q sem v r s' :
  sched_ok s Q → sem_values s !! sem = Some v → sem_wait sem s = Ok (r, s') →
  ∃ Q', sched_ok s' Q'.
Proof.
  intros Hs Hv Hw. destruct (current_proc s) as [p|] eqn:Hc.
  - pose proof (sem_wait_spec s Q sem v p Hs Hv Hc) as H. case_decide.
    + destruct H as (l1 & l2 & pr & _ & _ & H). destruct (l1 ++ l2); [congruence|].
      destruct H as (s2 & E & Hok & _). eexists.
      rewrite E in Hw. injection Hw as <- <-. done.
    + destruct H as [E Hok]. rewrite E in Hw. injection Hw as <- <-. eauto.
  - unfold sem_wait in Hw. revert Hw. sched_run.
    destruct (Z.eqb_spec v 0) as [-> | Hne]; simpl; [by rewrite Hc|]. intros [= <- <-].
    exists Q. eapply set_value_ok; [done..|apply u8_bound|].
    destruct (Q !!! QSem sem) as [|q ws] eqn:Hq; [by left|].
    destruct Hne. eapply so_zero; [done..|]. by rewrite Hq.
Qed.

Lemma sched_step_ok s s' Q :
  sched_ok s Q → sched_step s s' → ∃ Q', sched_ok s' Q'.
Proof.
  intros Hs [r E | sem v Hn Hv E | sem [v Hv] E | sem [v Hv] E | sem r [v Hv] E
            | sem [v Hv] E | p pr Hn Hst E | p pr Hp Hsl E | p [pr Hp] Hc E].
  - exists Q. by eapply schedule_ok.
  - destruct (sem_init_spec s Q sem v) as (s2 & E2 & Hok & _); [done..|].
    rewrite E2 in E. injection E as <-. eauto.
  - destruct (sem_signal_spec s Q sem v) as (s2 & E2 & Hw); [done..|].
    rewrite E2 in E. injection E as <-.
    destruct (Q !!! QSem sem); [by exists Q; destruct Hw | destruct Hw as (Q' & Hok & _); eauto].
  - destruct (sem_signal_monitor_spec s Q sem v) as (s2 & Q2 & E2 & Hok & _); [done..|].
    rewrite E2 in E. injection E as <-. eauto.
  - by eapply sem_wait_preserves.
  - destruct (sem_interrupt_spec s Q sem v) as (s2 & Q2 & E2 & Hok & _); [done..|].
    rewrite E2 in E. injection E as <-. eauto.
  - destruct (add_proc_ok s Q p pr Hs Hn) as [Hok Hno]; [by rewrite Hst|].
    destruct (sched_set_runnable_spec (add_proc p pr s) Q p pr) as (t & E2 & Hok2);
      [done | by apply lookup_insert_eq | by rewrite Hst | done |].
    rewrite E2 in E. injection E as <-. eauto.
  - destruct (set_runnable_run s Q p pr) as (s2 & Q2 & E2 & Hok); [done..|].
    rewrite E2 in E. injection E as <-. eauto.
  - destruct (remove_runnable_run s Q p pr) as (s2 & Q2 & E2 & Hok); [done..|].
    rewrite E2 in E. injection E as <-. eauto.
Qed.

Lemma sched_reachable_ok s :
  rtc sched_step sched_boot s → ∃ Q, sched_ok s Q.
Proof.
  assert (∃ Q, sched_ok sched_boot Q) as Hb by (eexists; apply sched_boot_ok).
  induction 1 as [|s1 s2 s3 Hst _ IH]; [done|].
  apply IH. destruct Hb. by eapply sched_step_ok.
Qed.

(** ** Theorems *)

(** Sem_signal never faults on a well-formed state.  With waiters, the
    longest-waiting process, and only it, moves to the end of the run queue
    with the wait result 0 and the value stays 0 (the signal is handed over,
    not counted); without waiters the value is incremented modulo 256. *)
Theorem sem_signal_refines s Q sem v :
  sched_ok s Q → sem_values s !! sem = Some v →
  ∃ s', sem_signal sem s = Ok ((), s') ∧
    match Q !!! QSem sem with
    | p :: ws => ∃ Q', wakes sem 0 s Q s' Q' p ws
    | [] => s' = Sched (procs s) (queues s) (current_proc s)
                   (<[sem := u8 (v + 1)]> (sem_values s)) ∧ sched_ok s' Q
    end.
Proof. apply sem_signal_spec. Qed.

(** C22: sem_wait acquires a positive semaphore at once; on a zero semaphore the
    current process leaves the run queue, joins the end of the waiters, sleeps,
    and the first runnable process becomes current; the kernel halts only when
    no other process is runnable. *)
Theorem sem_wait_refines s Q sem v p :
  sched_ok s Q → sem_values s !! sem = Some v → current_proc s = Some p →
  if decide (v = 0) then
    ∃ l1 l2 pr, Q !!! QRun = l1 ++ p :: l2 ∧ procs s !! p = Some pr ∧
      match l1 ++ l2 with
      | [] => sem_wait sem s = Err FHalt
      | p' :: _ => ∃ s', sem_wait sem s = Ok (0, s') ∧
          sched_ok s' (moved Q QRun (l1 ++ l2) (QSem sem) (Q !!! QSem sem ++ [p])) ∧
          current_proc s' = Some p' ∧ procs s' = <[p := asleep sem pr]> (procs s) ∧
          sem_values s' = sem_values s
      end
  else
    sem_wait sem s = Ok (0, Sched (procs s) (queues s) (current_proc s)
                              (<[sem := v - 1]> (sem_values s))) ∧
    sched_ok (Sched (procs s) (queues s) (current_proc s) (<[sem := v - 1]> (sem_values s))) Q.
Proof. apply sem_wait_spec. Qed.

(** Sem_interrupt terminates, wakes every waiter in order with the wait
    result -EINTR, leaves the value of the semaphore alone, and touches no
    other process. *)
Theorem sem_interrupt_refines s Q sem v :
  sched_ok s Q → sem_values s !! sem = Some v →
  ∃ s' Q', sem_interrupt sem s = Ok ((), s') ∧ sched_ok s' Q' ∧
    Q' !!! QRun = Q !!! QRun ++ Q !!! QSem sem ∧ Q' !!! QSem sem = [] ∧
    sem_values s' = sem_values s ∧ current_proc s' = current_proc s ∧
    (∀ p, p ∈ Q !!! QSem sem → ∃ pr, procs s !! p = Some pr ∧
                                     procs s' !! p = Some (woken (- EINTR) pr)) ∧
    (∀ p, p ∉ Q !!! QSem sem → procs s' !! p = procs s !! p).
Proof. apply sem_interrupt_spec. Qed.

(** C13: in every state that the scheduler and semaphore operations can reach
    from boot, the queues are well linked and disjoint, a process is in the run
    queue exactly when its state is PROC_RUNNING, the waiters of a semaphore
    sleep on that semaphore, and a semaphore with waiters has the value 0.
    The current process stays in the run queue, against the comment on the
    queue in os/sched.c. *)
Theorem sched_reachable_invariant s :
  rtc sched_step sched_boot s → ∃ Q, sched_ok s Q.
Proof. apply sched_reachable_ok. Qed.

(** [m] returns, in a state that is reachable again. *)
Definition returns {A} (m : M sched A) (s : sched) : Prop :=
  ∃ a s', m s = Ok (a, s') ∧ rtc sched_step sched_boot s'.

(** Some process other than [cur] is PROC_RUNNING. *)
Definition other_runnable (cur : option Z) (s : sched) : Prop :=
  ∃ q pr, cur ≠ Some q ∧ procs s !! q = Some pr ∧ p_state pr = PROC_RUNNING.

Section Reachable.
Context (s : sched) (Hs : rtc sched_step sched_boot s).

Lemma returns_step {A} (m : M sched A) a s' : m s = Ok (a, s') → sched_step s s' → returns m s.
Proof. intros E Hst. exists a, s'. split; [done|]. by eapply rtc_r. Qed.

Lemma schedule_outcome :
  (other_runnable None s → returns schedule s) ∧ (¬ other_runnable None s → schedule s = Err FHalt).
Proof.
  destruct (sched_reachable_ok s Hs) as [Q HQ].
  pose proof (schedule_run s Q ltac:(apply HQ) ltac:(apply HQ) ltac:(intros; by eapply so_live)) as E. split.
  - intros (q & pr & _ & Hq & Hr). apply (so_running _ _ HQ q pr Hq) in Hr.
    destruct (Q !!! QRun); [set_solver|]. eapply returns_step; [exact E|]. by eapply step_schedule.
  - intros Hno. destruct (Q !!! QRun) as [|q l] eqn:Hl; [done|]. destruct Hno.
    assert (q ∈ Q !!! QRun) as Hin by (rewrite Hl; by left).
    destruct (so_live _ _ HQ QRun q Hin) as [pr Hq]. exists q, pr. split_and!; [done..|].
    by apply (so_running _ _ HQ q pr Hq).
Qed.

(** What sem_wait() does with a semaphore of the value [v]. *)
Lemma sem_wait_outcome sem v :
  sem_values s !! sem = Some v →
  if decide (v = 0) then
    match current_proc s with
    | None => sem_wait sem s = Err FNull
    | Some p => (other_runnable (Some p) s → returns (sem_wait sem) s) ∧
                (¬ other_runnable (Some p) s → sem_wait sem s = Err FHalt)
    end
  else returns (sem_wait sem) s.
Proof.
  destruct (sched_reachable_ok s Hs) as [Q HQ]. intros Hv.
  assert (∀ r s', sem_wait sem s = Ok (r, s') → returns (sem_wait sem) s) as Hret.
  { intros r s' E. eapply returns_step; [exact E|]. eapply step_sem_wait; [eauto|exact E]. }
  destruct (current_proc s) as [p|] eqn:Hc.
  - pose proof (sem_wait_spec s Q sem v p HQ Hv Hc) as H. case_decide; [|by eapply Hret, H].
    destruct H as (l1 & l2 & pr & Hl & Hp & H).
    pose proof (qo_nodup _ _ (so_queues _ _ HQ) _ _ (run_lookup _ _ HQ)) as Hnd. rewrite Hl in Hnd.
    apply NoDup_app in Hnd as (_ & Hd1 & [Hp2 _]%NoDup_cons).
    assert (∀ q prq, procs s !! q = Some prq → p_state prq = PROC_RUNNING → Some p ≠ Some q → q ∈ l1 ++ l2) as Hin.
    { intros q prq Hq Hst Hne. apply (so_running _ _ HQ q prq Hq) in Hst. rewrite Hl in Hst.
      apply elem_of_app in Hst as [?|[->|?]%elem_of_cons]; set_solver. }
    destruct (l1 ++ l2) as [|q l] eqn:El; split.
    + intros (q & prq & Hne & Hq & Hst). by apply (Hin q prq) in Hst as ?%elem_of_nil.
    + done.
    + intros _. destruct H as (s' & E & _). by eapply Hret.
    + intros Hno. destruct Hno. assert (q ∈ l1 ++ l2) as Hq12 by (rewrite El; by left).
      assert (q ∈ Q !!! QRun) as Hq by (rewrite Hl; set_solver).
      destruct (so_live _ _ HQ QRun q Hq) as [prq Hprq]. exists q, prq. split_and!; [|done|].
      * intros [= <-]. apply elem_of_app in Hq12 as [?|?]; [|done]. apply (Hd1 p); [done|by left].
      * by apply (so_running _ _ HQ q prq Hprq).
  - case_decide as H0.
    + unfold sem_wait. sched_run. by rewrite ?Hc.
    + eapply (Hret 0). unfold sem_wait. sched_run. by rewrite (proj2 (Z.eqb_neq v 0)).
Qed.

Lemma sem_ops_return sem :
  is_Some (sem_values s !! sem) →
  returns (sem_signal sem) s ∧ returns (sem_signal_monitor sem) s ∧ returns (sem_signal_isr sem) s ∧
  returns (sem_interrupt sem) s.
Proof.
  destruct (sched_reachable_ok s Hs) as [Q HQ]. intros Hi. pose proof Hi as [v Hv]. split_and!.
  - destruct (sem_signal_spec s Q sem v HQ Hv) as (s' & E & _). eapply returns_step; [done|by eapply step_sem_signal].
  - destruct (sem_signal_monitor_spec s Q sem v HQ Hv) as (s' & Q' & E & _).
    eapply returns_step; [done|by eapply step_sem_signal_monitor].
  - by exists (), s.
  - destruct (sem_interrupt_spec s Q sem v HQ Hv) as (s' & Q' & E & _).
    eapply returns_step; [done|by eapply step_sem_interrupt].
Qed.

Lemma run_ops_return p pr :
  procs s !! p = Some pr →
  (p_state pr ≠ PROC_SLEEP → returns (sched_set_runnable p) s) ∧
  (current_proc s ≠ Some p → returns (sched_remove_runnable p) s).
Proof.
  destruct (sched_reachable_ok s Hs) as [Q HQ]. intros Hp. split; intros H.
  - destruct (set_runnable_run s Q p pr HQ Hp H) as (s' & Q' & E & _).
    eapply returns_step; [done|by eapply step_set_runnable].
  - destruct (remove_runnable_run s Q p pr HQ Hp H) as (s' & Q' & E & _).
    eapply returns_step; [done|by eapply step_remove_runnable].
Qed.
End Reachable.

(** C14: the outcome of every operation of os/sched.c and os/sem.c in every
    reachable state.  A new semaphore can be initialised; sem_signal(),
    sem_signal_monitor(), sem_signal_isr() and sem_interrupt() on an
    initialised semaphore return, in a reachable state again; so does
    sched_set_runnable() for a process that does not sleep on a semaphore,
    sched_remove_runnable() for one that is not the current process,
    and sys_sched_yield().  Schedule() returns when some process is runnable
    and otherwise stops the kernel (the exit that the code calls a dead
    system).  Sem_wait() and sem_wait_timed() return when the semaphore is
    positive, or another process than the current one is runnable; without one
    they stop the kernel, and on a zero semaphore with no current process,
    before the first switch, they go through the NULL pointer. *)
Theorem sched_reachable_safe s :
  rtc sched_step sched_boot s →
  (∀ sem v, sem_values s !! sem = None → 0 ≤ v < 256 → returns (sem_init sem v) s) ∧
  (∀ sem, is_Some (sem_values s !! sem) →
     returns (sem_signal sem) s ∧ returns (sem_signal_monitor sem) s ∧ returns (sem_signal_isr sem) s ∧
     returns (sem_interrupt sem) s) ∧
  (∀ sem v wait, sem_values s !! sem = Some v → wait = sem_wait sem ∨ (∃ t, wait = sem_wait_timed sem t) →
     if decide (v = 0) then
       match current_proc s with
       | None => wait s = Err FNull
       | Some p => (other_runnable (Some p) s → returns wait s) ∧
                   (¬ other_runnable (Some p) s → wait s = Err FHalt)
       end
     else returns wait s) ∧
  ((other_runnable None s → returns schedule s) ∧ (¬ other_runnable None s → schedule s = Err FHalt)) ∧
  (∀ p pr, procs s !! p = Some pr →
     (p_state pr ≠ PROC_SLEEP → returns (sched_set_runnable p) s) ∧
     (current_proc s ≠ Some p → returns (sched_remove_runnable p) s)) ∧
  returns sys_sched_yield s.
Proof.
  intros Hs. split; [|split; [by apply sem_ops_return|split; [|split; [by apply schedule_outcome|
    split; [by apply run_ops_return|by exists 0, s]]]]].
  - intros sem v Hn Hv. destruct (sched_reachable_ok s Hs) as [Q HQ].
    destruct (sem_init_spec s Q sem v HQ Hn Hv) as (s' & E & _).
    eapply returns_step; [done..|by eapply step_sem_init].
  - intros sem v wait Hv [->|[t ->]]; by apply sem_wait_outcome.
Qed.

(** the wait result never reaches the waiter: whenever sem_wait returns, it
    returns 0, even to a process that sem_interrupt woke with -EINTR, because
    schedule() discards what proc_switch_to() returns. *)
Theorem sem_wait_returns_zero s sem r s' :
  sem_wait sem s = Ok (r, s') → r = 0.
Proof.
  assert (∀ s1, schedule s1 = Ok (r, s') → r = 0) as Hsch.
  { intros s1. unfold schedule, fail, mbind, M_bind.
    destruct (on_queues (TAILQ_FIRST QRun) s1) as [[[p|] s2]|]; try done.
    destruct (proc_switch_to p s2) as [[? ?]|]; [by intros [= <- <-] | done]. }
  unfold sem_wait, mbind, M_bind. destruct (sem_value sem s) as [[v s1]|]; [|done].
  destruct (negb (v =? 0)); [by intros [= <- <-]|]. simpl.
  destruct (current_proc s1) as [p|]; [|done].
  repeat match goal with
  | |- context [match ?m with Ok _ => _ | Err _ => _ end] =>
      destruct m as [[? ?]|]; [|done]
  end. apply Hsch.
Qed.

(** ** Witnesses: two processes and a semaphore *)

Definition w_zero_proc : proc :=
  Proc (ProcContext 0 0 [] 0 []) 1 0 PROC_UNUSED None 64 (replicate 8 None)
    (replicate 8 0) 18 (chars "/root" ++ replicate 59 0) 0.

Definition exec {A} (m : M sched A) (s : sched) : sched :=
  match m s with Ok (_, s') => s' | Err _ => s end.

Definition w_s1 := exec (sched_set_runnable 100) (add_proc 100 w_zero_proc sched_boot).
Definition w_s2 := exec (sched_set_runnable 200) (add_proc 200 w_zero_proc w_s1).
Definition w_s3 := exec schedule w_s2.
Definition w_s4 := exec (sem_init 7 0) w_s3.
Definition w_s5 := exec (sem_wait 7) w_s4.

(** Processes 100 and 200 are runnable and 100 is current. *)
Lemma w_s4_reachable : rtc sched_step sched_boot w_s4.
Proof.
  eapply rtc_l; [eapply (step_spawn _ w_s1 100 w_zero_proc); by vm_compute|].
  eapply rtc_l; [eapply (step_spawn _ w_s2 200 w_zero_proc); by vm_compute|].
  eapply rtc_l; [eapply (step_schedule _ w_s3 0); by vm_compute|].
  eapply rtc_l; [eapply (step_sem_init _ w_s4 7 0); by vm_compute|].
  apply rtc_refl.
Qed.

(** Process 100 waits on the semaphore and 200 is current. *)
Lemma w_s5_reachable : rtc sched_step sched_boot w_s5.
Proof.
  eapply rtc_r; [apply w_s4_reachable|].
  eapply (step_sem_wait _ w_s5 7 0); [vm_compute; eauto | by vm_compute].
Qed.

Lemma sem_signal_refines_witness : ∃ Q s',
  sched_ok w_s5 Q ∧ sem_signal 7 w_s5 = Ok ((), s') ∧
  match Q !!! QSem 7 with
  | p :: ws => ∃ Q', wakes 7 0 w_s5 Q s' Q' p ws
  | [] => s' = Sched (procs w_s5) (queues w_s5) (current_proc w_s5)
                 (<[7 := u8 (0 + 1)]> (sem_values w_s5)) ∧ sched_ok s' Q
  end.
Proof.
  destruct (sched_reachable_ok w_s5 w_s5_reachable) as [Q HQ].
  destruct (sem_signal_refines w_s5 Q 7 0 HQ) as (s' & H); [by vm_compute|].
  exists Q, s'. exact (conj HQ H).
Defined.

Lemma sem_wait_refines_witness : ∃ Q l1 l2 pr,
  sched_ok w_s4 Q ∧ Q !!! QRun = l1 ++ 100 :: l2 ∧ procs w_s4 !! 100 = Some pr.
Proof.
  destruct (sched_reachable_ok w_s4 w_s4_reachable) as [Q HQ].
  destruct (sem_wait_refines w_s4 Q 7 0 100 HQ) as (l1 & l2 & pr & H1 & H2 & _);
    [by vm_compute..|].
  exists Q, l1, l2, pr. exact (conj HQ (conj H1 H2)).
Defined.

Lemma sem_interrupt_refines_witness : ∃ Q s' Q',
  sched_ok w_s5 Q ∧ sem_interrupt 7 w_s5 = Ok ((), s') ∧ sched_ok s' Q' ∧
  Q' !!! QRun = Q !!! QRun ++ Q !!! QSem 7.
Proof.
  destruct (sched_reachable_ok w_s5 w_s5_reachable) as [Q HQ].
  destruct (sem_interrupt_refines w_s5 Q 7 0 HQ) as (s' & Q' & H1 & H2 & H3 & _);
    [by vm_compute|].
  exists Q, s', Q'. exact (conj HQ (conj H1 (conj H2 H3))).
Defined.

Lemma sched_reachable_invariant_witness : ∃ Q, sched_ok w_s5 Q.
Proof. apply sched_reachable_invariant. apply w_s5_reachable. Defined.

(** Process 200 can wait on nothing any more: 100 sleeps. *)
Lemma sched_reachable_safe_witness :
  returns (sem_interrupt 7) w_s5 ∧ returns schedule w_s5 ∧ sem_wait 7 w_s5 = Err FHalt ∧
  returns (sem_wait 7) w_s4 ∧ sem_wait 7 (exec (sem_init 7 0) sched_boot) = Err FNull.
Proof.
  destruct (sched_reachable_safe w_s5 w_s5_reachable) as (_ & Hsem & Hwait & [Hsch _] & _).
  destruct (sched_reachable_safe w_s4 w_s4_reachable) as (_ & _ & Hwait4 & _).
  destruct (sched_reachable_safe (exec (sem_init 7 0) sched_boot)) as (_ & _ & Hwait0 & _).
  { eapply rtc_l; [eapply (step_sem_init _ _ 7 0); by vm_compute|apply rtc_refl]. }
  split; [|split; [|split; [|split]]].
  - apply (Hsem 7). exists 0. by vm_compute.
  - apply Hsch. exists 200. eexists. split; [done|]. split; by vm_compute.
  - destruct (Hwait 7 0 (sem_wait 7) eq_refl (or_introl eq_refl)) as [_ H]. apply H.
    intros (q & pr & Hne & Hq & Hst).
    destruct (decide (q = 100)) as [->|H100]; [vm_compute in Hq; injection Hq as <-; discriminate Hst|].
    destruct (decide (q = 200)) as [->|H200]; [by apply Hne|].
    change (procs w_s5) with (<[100 := asleep 7 (set_state PROC_RUNNING w_zero_proc)]>
      (<[200 := set_state PROC_RUNNING w_zero_proc]> (∅ : gmap Z proc))) in Hq.
    by rewrite !lookup_insert_ne in Hq by done.
  - destruct (Hwait4 7 0 (sem_wait 7) eq_refl (or_introl eq_refl)) as [H _]. apply H.
    exists 200. eexists. split; [done|]. split; by vm_compute.
  - exact (Hwait0 7 0 (sem_wait 7) eq_refl (or_introl eq_refl)).
Defined.

Lemma sem_wait_returns_zero_witness : sem_wait 7 w_s4 = Ok (0, w_s5) ∧ 0 = 0.
Proof.
  assert (sem_wait 7 w_s4 = Ok (0, w_s5)) as E by by vm_compute.
  split; [exact E | exact (sem_wait_returns_zero w_s4 7 0 w_s5 E)].
Defined.
