(* ===== verification/UserHeap.v ===== *)
(** User-space heap of os/kmalloc.c: the free list of blocks that
    kmalloc_user_alloc() and kmalloc_user_free() keep in user RAM, and the
    argument blocks of kmalloc_copy_argv().

    User RAM is a byte memory.  A block is a four-byte header, the address of
    the next free block and the size of the block's payload, both
    little-endian 16-bit words, followed by the payload.  A load or a store
    outside of user RAM is a fault. *)
From S2P Require Import Prelude CDefs Util.

(** ** Memory *)

(** The linker symbols user_space_ram_start and user_space_ram_end. *)
Class user_ram := UserRam { user_space_ram_start : Z; user_space_ram_end : Z }.

Record uheap := UHeap {
  um_mem : gmap Z Z;           (* bytes of user RAM *)
  free_blocks : Z;             (* first free block, or 0 *)
}.

Definition byte_at (m : gmap Z Z) (a : Z) : Z := m !!! a.
Definition word_at (m : gmap Z Z) (a : Z) : Z := byte_at m a + 256 * byte_at m (a + 1).
Definition put_byte (a v : Z) (m : gmap Z Z) : gmap Z Z := <[a := u8 v]> m.
Definition put_word (a v : Z) (m : gmap Z Z) : gmap Z Z :=
  put_byte (a + 1) (v / 256) (put_byte a v m).

Section Heap.
Context {R : user_ram}.

Definition in_ram (a n : Z) : bool :=
  (user_space_ram_start <=? a) && (a + n <=? user_space_ram_end).

Definition ld16 (a : Z) : M uheap Z := λ h,
  if in_ram a 2 then Ok (word_at (um_mem h) a, h) else Err FBounds.
Definition st16 (a v : Z) : M uheap () := λ h,
  if in_ram a 2 then Ok ((), UHeap (put_word a v (um_mem h)) (free_blocks h))
  else Err FBounds.
Definition st8 (a v : Z) : M uheap () := λ h,
  if in_ram a 1 then Ok ((), UHeap (put_byte a v (um_mem h)) (free_blocks h))
  else Err FBounds.
Definition set_first (p : Z) : M uheap () := modify (λ h, UHeap (um_mem h) p).

(** struct kmalloc_user_block: the link at offset 0, the size at offset 2. *)
Definition sizeof_kmalloc_user_block : Z := 4.
Definition blk_next (b : Z) : M uheap Z := ld16 b.
Definition blk_set_next (b v : Z) : M uheap () := st16 b v.
Definition blk_size (b : Z) : M uheap Z := ld16 (u16 (b + 2)).
Definition blk_set_size (b v : Z) : M uheap () := st16 (u16 (b + 2)) v.

(** SLIST_INSERT_HEAD, SLIST_INSERT_AFTER and SLIST_REMOVE_HEAD of
    include/sys/queue.h on free_blocks. *)
Definition SLIST_INSERT_HEAD (elm : Z) : M uheap () :=
  first ← gets free_blocks;
  _ ← blk_set_next elm first;
  set_first elm.
Definition SLIST_INSERT_AFTER (slistelm elm : Z) : M uheap () :=
  nxt ← blk_next slistelm;
  _ ← blk_set_next elm nxt;
  blk_set_next slistelm elm.
Definition SLIST_REMOVE_HEAD : M uheap () :=
  first ← gets free_blocks;
  nxt ← blk_next first;
  set_first nxt.
Definition SLIST_REMOVE_AFTER (prevelm elm : Z) : M uheap () :=
  if negb (prevelm =? 0) then nxt ← blk_next elm; blk_set_next prevelm nxt
  else SLIST_REMOVE_HEAD.

(** ** The allocator *)

Definition KMALLOC_MIN_BLOCK_SIZE : Z := 32.

(** The part of kmalloc_init() that sets up the user heap. *)
Definition kmalloc_init_user : M uheap () :=
  let block := user_space_ram_start in
  _ ← blk_set_size block
        (u16 (user_space_ram_end - user_space_ram_start - sizeof_kmalloc_user_block));
  _ ← set_first 0;
  SLIST_INSERT_HEAD block.

(** The addition of [size] after the cast scales by the size of a header. *)
Definition user_alloc_split (block bsize size : Z) : M uheap () :=
  let block2 := u16 (u16 (block + 4) + sizeof_kmalloc_user_block * size) in
  _ ← blk_set_size block2 (u16 (bsize - size - sizeof_kmalloc_user_block));
  _ ← SLIST_INSERT_AFTER block block2;
  blk_set_size block size.

Fixpoint user_alloc_loop (fuel : nat) (size prev block : Z) : M uheap Z :=
  match fuel with
  | O => fail FFuel
  | S fuel =>
      if block =? 0 then mret 0
      else
        bsize ← blk_size block;
        if size <=? bsize then
          _ ← (if KMALLOC_MIN_BLOCK_SIZE <=? u16 (size - bsize)
               then user_alloc_split block bsize size else mret ());
          _ ← SLIST_REMOVE_AFTER prev block;
          mret (u16 (block + 4))
        else
          nxt ← blk_next block;
          user_alloc_loop fuel size block nxt
  end.

(** A well-formed free list has at most one block for each four bytes. *)
Definition heap_fuel : nat := Z.to_nat 16385.

Definition round_size (size : Z) : Z := Z.land (u16 (size + 3)) (Z.lxor 65535 3).

Definition kmalloc_user_alloc (size : Z) : M uheap Z :=
  first ← gets free_blocks;
  user_alloc_loop heap_fuel (round_size size) 0 first.

(** Combines [block] with the free block [current] when it ends there. *)
Definition user_free_combine (block prev current : Z) : M uheap () :=
  bsize ← blk_size block;
  if u16 (u16 (block + 4) + bsize) =? current then
    _ ← SLIST_REMOVE_AFTER prev current;
    _ ← blk_set_size block (u16 (bsize + sizeof_kmalloc_user_block));
    bsize ← blk_size block;
    csize ← blk_size current;
    blk_set_size block (u16 (bsize + csize))
  else mret ().

(** The search of kmalloc_user_free(): the last free block below [block],
    after [block] has been combined with the free block that follows it. *)
Fixpoint user_free_loop (fuel : nat) (block prev current : Z) : M uheap Z :=
  match fuel with
  | O => fail FFuel
  | S fuel =>
      if current =? 0 then mret prev
      else if block <? current then
        _ ← user_free_combine block prev current;
        mret prev
      else
        nxt ← blk_next current;
        user_free_loop fuel block current nxt
  end.

(** Combines [block] with the free block [prev], or links it after it. *)
Definition user_free_insert (prev block : Z) : M uheap () :=
  if negb (prev =? 0) then
    psize ← blk_size prev;
    if u16 (u16 (prev + 4) + psize) =? block then
      _ ← blk_set_size prev (u16 (psize + sizeof_kmalloc_user_block));
      psize ← blk_size prev;
      bsize ← blk_size block;
      blk_set_size prev (u16 (psize + bsize))
    else SLIST_INSERT_AFTER prev block
  else SLIST_INSERT_HEAD block.

Definition kmalloc_user_free (ptr : Z) : M uheap () :=
  if ptr =? 0 then mret ()
  else
    let block := u16 (ptr - sizeof_kmalloc_user_block) in
    first ← gets free_blocks;
    prev ← user_free_loop heap_fuel block 0 first;
    user_free_insert prev block.

(** ** Argument blocks *)

(** memcpy into user RAM *)
Fixpoint copy_out (a : Z) (bs : list Z) : M uheap () :=
  match bs with
  | [] => mret ()
  | c :: bs => _ ← st8 a c; copy_out (u16 (a + 1)) bs
  end.

Fixpoint argv_size (argv : list (option (list Z))) (size : Z) : res Z :=
  match argv with
  | [] => Ok size
  | arg :: argv =>
      len ← (match arg with
             | Some _ => strlen_constrained arg CONFIG_ARG_MAX
             | None => Ok 0
             end);
      argv_size argv (u16 (u16 (size + len) + 1))
  end.

Fixpoint argv_format (argv : list (option (list Z))) (buf : Z) : M uheap () :=
  match argv with
  | [] => mret ()
  | Some arg :: argv =>
      size ← lift (strlen_constrained (Some arg) CONFIG_ARG_MAX);
      _ ← copy_out buf (take (Z.to_nat size) arg);
      let buf := u16 (buf + size) in
      _ ← st8 buf NUL;
      argv_format argv (u16 (buf + 1))
  | None :: argv =>
      _ ← st8 buf NUL;
      argv_format argv (u16 (buf + 1))
  end.

(** The strings of argv: argv[i] is NULL or the memory from the string to
    the end of its object. *)
Definition kmalloc_copy_argv (argc : Z) (argv : list (option (list Z)))
    : M uheap Z :=
  let argc := if CONFIG_ARGC_MAX <? argc then CONFIG_ARGC_MAX else argc in
  let args := take (Z.to_nat argc) argv in
  if (zlen args <? argc) then fail FBounds
  else
    size ← lift (argv_size args (u16 ((argc + 1) * 2)));
    argv_copy ← kmalloc_user_alloc size;
    if argv_copy =? 0 then mret 0
    else
      _ ← argv_format args (u16 (argv_copy + (argc + 1) * 2));
      _ ← st16 (u16 (argv_copy + argc * 2)) 0;
      mret argv_copy.
End Heap.

Arguments ld16 : simpl never.
Arguments st16 : simpl never.
Arguments st8 : simpl never.
Arguments word_at : simpl never.
Arguments put_word : simpl never.

(** ** Words in memory *)

Lemma byte_at_put_eq a v m : byte_at (put_byte a v m) a = u8 v.
Proof. unfold byte_at, put_byte. by rewrite lookup_total_insert_eq. Qed.

Lemma byte_at_put_ne a a' v m : a ≠ a' → byte_at (put_byte a v m) a' = byte_at m a'.
Proof. intros. unfold byte_at, put_byte. by rewrite lookup_total_insert_ne. Qed.

Lemma byte_at_put_word_ne a a' v m :
  a' < a ∨ a + 1 < a' → byte_at (put_word a v m) a' = byte_at m a'.
Proof. intros. unfold put_word. by rewrite !byte_at_put_ne by lia. Qed.

Lemma word_at_put_eq a v m : 0 ≤ v < 65536 → word_at (put_word a v m) a = v.
Proof.
  intros. unfold word_at, put_word. rewrite byte_at_put_eq.
  rewrite byte_at_put_ne, byte_at_put_eq by lia. unfold u8.
  rewrite (Z.mod_small (v / 256)); [|split; [apply Z.div_pos|apply Z.div_lt_upper_bound]; lia].
  pose proof (Z.div_mod v 256). lia.
Qed.

Lemma word_at_put_ne a a' v m :
  a' + 2 ≤ a ∨ a + 2 ≤ a' → word_at (put_word a v m) a' = word_at m a'.
Proof. intros. unfold word_at. by rewrite !byte_at_put_word_ne by lia. Qed.

(** ** The free list as an abstract list

    A list of blocks (address of the header, size of the payload); [cseg]
    is a segment of the linked list, and [free_ok] says that the blocks are in
    user RAM, in address order, disjoint, and never adjacent. *)

Abbreviation blocks := (list (Z * Z)).

Fixpoint cseg (m : gmap Z Z) (p : Z) (l : blocks) (q : Z) : Prop :=
  match l with
  | [] => p = q
  | (a, s) :: l' => p = a ∧ word_at m (a + 2) = s ∧ cseg m (word_at m a) l' q
  end.

(** The lowest address at which a block may follow the blocks [l]. *)
Definition above (lo : Z) (l : blocks) : Z := foldl (λ _ b, b.1 + 5 + b.2) lo l.

Definition covers (l : blocks) (x : Z) : Prop :=
  Exists (λ b, b.1 ≤ x < b.1 + 4 + b.2) l.

(** The block [b, b + n) of payload and header is clear of a free block. *)
Definition apart (b n : Z) (c : Z * Z) : Prop := c.1 + 4 + c.2 ≤ b ∨ b + 4 + n ≤ c.1.

Definition last_addr (prev : Z) (l : blocks) : Z := foldl (λ _ b, b.1) prev l.
Definition first_addr (l : blocks) : Z := match l with [] => 0 | b :: _ => b.1 end.

Lemma cseg_app m p l1 l2 q :
  cseg m p (l1 ++ l2) q ↔ ∃ r, cseg m p l1 r ∧ cseg m r l2 q.
Proof.
  revert p. induction l1 as [|[a s] l1 IH]; intros p; simpl.
  - split; [by eauto|]. by intros (? & -> & ?).
  - rewrite IH. naive_solver.
Qed.

Lemma cseg_first m p l : cseg m p l 0 → p = first_addr l.
Proof. destruct l as [|[??]?]; simpl; naive_solver. Qed.

(** A store away from the headers of a segment keeps it. *)
Lemma cseg_put x v m p l q :
  Forall (λ b, b.1 + 4 ≤ x ∨ x + 2 ≤ b.1) l → cseg m p l q → cseg (put_word x v m) p l q.
Proof.
  intros Hl. revert p. induction Hl as [|[a s] l Ha Hl IH]; intros p; simpl in *; [done|].
  intros (-> & Hs & Hc). rewrite !word_at_put_ne by lia. split_and!; auto.
Qed.

Lemma above_app lo l1 l2 : above lo (l1 ++ l2) = above (above lo l1) l2.
Proof. apply foldl_app. Qed.

Lemma last_addr_snoc prev l b : last_addr prev (l ++ [b]) = b.1.
Proof. unfold last_addr. by rewrite foldl_app. Qed.

Lemma above_snoc lo l b : above lo (l ++ [b]) = b.1 + 5 + b.2.
Proof. by rewrite above_app. Qed.

Lemma covers_app l1 l2 x : covers (l1 ++ l2) x ↔ covers l1 x ∨ covers l2 x.
Proof. apply Exists_app. Qed.

Section Laws.
Context {R : user_ram}.

Class user_ram_ok : Prop := {
  ram_pos : 0 < user_space_ram_start;
  ram_room : user_space_ram_start + 4 ≤ user_space_ram_end;
  ram_top : user_space_ram_end < 65536;
  ram_size : user_space_ram_end - user_space_ram_start ≤ 65504;
}.

Fixpoint free_ok (lo : Z) (l : blocks) : Prop :=
  match l with
  | [] => True
  | (a, s) :: l' =>
      lo ≤ a ∧ 0 ≤ s ∧ a + 4 + s ≤ user_space_ram_end ∧ free_ok (a + 5 + s) l'
  end.

(** The heap holds the free list [l]. *)
Definition heap_rep (h : uheap) (l : blocks) : Prop :=
  cseg (um_mem h) (free_blocks h) l 0 ∧ free_ok user_space_ram_start l.

Lemma free_ok_app lo l1 l2 :
  free_ok lo (l1 ++ l2) ↔ free_ok lo l1 ∧ free_ok (above lo l1) l2.
Proof.
  revert lo. induction l1 as [|[a s] l1 IH]; intros lo; simpl; [naive_solver|].
  rewrite IH. naive_solver.
Qed.

Lemma free_ok_mono lo lo' l : lo' ≤ lo → free_ok lo l → free_ok lo' l.
Proof. destruct l as [|[a s] l]; simpl; [done|]. intros. naive_solver lia. Qed.

Lemma free_ok_bounds lo l :
  free_ok lo l →
  Forall (λ b, lo ≤ b.1 ∧ 0 ≤ b.2 ∧ b.1 + 4 + b.2 ≤ user_space_ram_end ∧
               b.1 + 4 + b.2 < above lo l) l ∧ lo ≤ above lo l.
Proof.
  revert lo. induction l as [|[a s] l IH]; intros lo; simpl; [split; [done|lia]|].
  intros (? & ? & ? & [H1 H2]%IH). split; [|lia].
  constructor; [simpl; lia|]. eapply Forall_impl; [apply H1|]. simpl. lia.
Qed.

Lemma free_ok_length lo l :
  free_ok lo l → lo + 4 * zlen l ≤ user_space_ram_end ∨ l = [].
Proof.
  revert lo. induction l as [|[a s] l IH]; intros lo; simpl; [by right|].
  intros (? & ? & ? & [?| ->]%IH); left; rewrite ?zlen_cons; [lia|]. unfold zlen. simpl. lia.
Qed.
End Laws.

(** ** kmalloc_user_free *)

Section Free.
Context {R : user_ram} {RO : user_ram_ok}.

(** A header in user RAM. *)
Definition hdr (b : Z) : Prop := user_space_ram_start ≤ b ∧ b + 4 ≤ user_space_ram_end.

Ltac ram := pose proof ram_pos; pose proof ram_room; pose proof ram_top; unfold hdr in *.

Lemma in_ram_true a n :
  user_space_ram_start ≤ a → a + n ≤ user_space_ram_end → in_ram a n = true.
Proof. intros. unfold in_ram. apply andb_true_iff. split; apply Z.leb_le; lia. Qed.

Lemma blk_next_ok b h : hdr b → blk_next b h = Ok (word_at (um_mem h) b, h).
Proof. intros. ram. unfold blk_next, ld16. by rewrite in_ram_true by lia. Qed.

Lemma blk_size_ok b h : hdr b → blk_size b h = Ok (word_at (um_mem h) (b + 2), h).
Proof.
  intros. ram. unfold blk_size, ld16. rewrite u16_small by lia. by rewrite in_ram_true by lia.
Qed.

Lemma blk_set_next_ok b v h :
  hdr b → blk_set_next b v h = Ok ((), UHeap (put_word b v (um_mem h)) (free_blocks h)).
Proof. intros. ram. unfold blk_set_next, st16. by rewrite in_ram_true by lia. Qed.

Lemma blk_set_size_ok b v h :
  hdr b →
  blk_set_size b v h = Ok ((), UHeap (put_word (b + 2) v (um_mem h)) (free_blocks h)).
Proof.
  intros. ram. unfold blk_set_size, st16. rewrite u16_small by lia.
  by rewrite in_ram_true by lia.
Qed.

(** Links a segment to another successor: the header of its last block, or
    the head of the list, receives [q]. *)
Definition relink (h : uheap) (l : blocks) (q : Z) : uheap :=
  match last l with
  | Some (a, _) => UHeap (put_word a q (um_mem h)) (free_blocks h)
  | None => UHeap (um_mem h) q
  end.

Lemma relink_rep h lo l r q :
  0 ≤ q < 65536 → free_ok lo l → cseg (um_mem h) (free_blocks h) l r →
  cseg (um_mem (relink h l q)) (free_blocks (relink h l q)) l q.
Proof.
  intros Hq. unfold relink. destruct (exists_last_or_nil l) as [->|(l' & [a s] & ->)];
    [by simpl|]. rewrite last_snoc. simpl. intros [Hl' Ha]%free_ok_app.
  simpl in Ha. rewrite !cseg_app. intros (x & Hc & -> & Hs & _).
  exists a. split.
  - apply cseg_put; [|done]. apply free_ok_bounds in Hl' as [Hb _].
    eapply Forall_impl; [apply Hb|]. simpl. lia.
  - simpl. rewrite word_at_put_ne by lia. by rewrite word_at_put_eq.
Qed.

Lemma relink_mem h l q :
  um_mem (relink h l q) = um_mem h ∨
  ∃ b, b ∈ l ∧ last l = Some b ∧ um_mem (relink h l q) = put_word b.1 q (um_mem h).
Proof.
  unfold relink. destruct (exists_last_or_nil l) as [->|(l' & [a s] & ->)]; [by left|].
  right. exists (a, s). rewrite last_snoc. split_and!; [set_solver|done..].
Qed.

Lemma relink_byte h lo l q x :
  free_ok lo l → ¬ covers l x → byte_at (um_mem (relink h l q)) x = byte_at (um_mem h) x.
Proof.
  intros [Hl _]%free_ok_bounds Hx. destruct (relink_mem h l q) as [->|(b & Hb & _ & ->)]; [done|].
  rewrite Forall_forall in Hl. apply Hl in Hb as ?.
  assert (¬ (b.1 ≤ x < b.1 + 4 + b.2)) by (intros ?; apply Hx, Exists_exists; eauto).
  apply byte_at_put_word_ne. lia.
Qed.

Lemma relink_word h lo l q x :
  free_ok lo l → above lo l ≤ x + 1 → word_at (um_mem (relink h l q)) x = word_at (um_mem h) x.
Proof.
  intros [Hl _]%free_ok_bounds Hx. destruct (relink_mem h l q) as [->|(b & Hb & _ & ->)]; [done|].
  rewrite Forall_forall in Hl. apply Hl in Hb as ?. apply word_at_put_ne. lia.
Qed.

Lemma relink_cseg h lo l q p l2 r :
  free_ok lo l → Forall (λ b, above lo l ≤ b.1) l2 →
  cseg (um_mem h) p l2 r → cseg (um_mem (relink h l q)) p l2 r.
Proof.
  intros [Hl _]%free_ok_bounds Hl2 Hc.
  destruct (relink_mem h l q) as [->|(b & Hb & _ & ->)]; [done|].
  apply cseg_put; [|done]. rewrite Forall_forall in Hl. apply Hl in Hb as ?.
  eapply Forall_impl; [apply Hl2|]. simpl. lia.
Qed.

Lemma free_ok_ge lo lo' l : free_ok lo l → lo' ≤ lo → Forall (λ b, lo' ≤ b.1) l.
Proof.
  intros [Hl _]%free_ok_bounds ?. eapply Forall_impl; [exact Hl|]. simpl. lia.
Qed.

Lemma free_ok_hdr lo l b :
  user_space_ram_start ≤ lo → free_ok lo l → b ∈ l → hdr b.1.
Proof.
  intros ? [Hl _]%free_ok_bounds Hb. rewrite Forall_forall in Hl. apply Hl in Hb. ram. lia.
Qed.

Lemma last_addr_cases l :
  free_ok user_space_ram_start l →
  (l = [] ∧ last_addr 0 l = 0) ∨
  ∃ l' a s, l = l' ++ [(a, s)] ∧ last_addr 0 l = a ∧ a ≠ 0 ∧ hdr a.
Proof.
  intros Hl. destruct (exists_last_or_nil l) as [->|(l' & [a s] & ->)]; [by left|].
  right. exists l', a, s. rewrite last_addr_snoc. simpl.
  assert (hdr a) by (apply (free_ok_hdr _ _ (a, s)) in Hl; [done|lia|set_solver]).
  assert (a ≠ 0) by (ram; lia). done.
Qed.

Lemma SLIST_REMOVE_AFTER_spec h l c :
  free_ok user_space_ram_start l → cseg (um_mem h) (free_blocks h) l c → hdr c →
  SLIST_REMOVE_AFTER (last_addr 0 l) c h = Ok ((), relink h l (word_at (um_mem h) c)).
Proof.
  intros Hl Hc Hh. unfold SLIST_REMOVE_AFTER, SLIST_REMOVE_HEAD, relink.
  destruct (last_addr_cases l Hl) as [[-> ->]|(l' & a & s & -> & -> & Ha & Hah)].
  - simpl in *. mstep by done. rewrite Hc. mstep by by apply blk_next_ok. done.
  - rewrite last_snoc. apply Z.eqb_neq in Ha as ->. simpl.
    mstep by by apply blk_next_ok. by apply blk_set_next_ok.
Qed.

(** The search finds the place of [b] in the address order. *)
Lemma user_free_loop_spec h b l fuel prev lo :
  free_ok lo l → user_space_ram_start ≤ lo → cseg (um_mem h) (first_addr l) l 0 →
  (length l < fuel)%nat →
  ∃ l1 l2, l = l1 ++ l2 ∧ Forall (λ c, c.1 ≤ b) l1 ∧
    match l2 with
    | [] => user_free_loop fuel b prev (first_addr l) h = Ok (last_addr prev l1, h)
    | c :: _ =>
        b < c.1 ∧
        user_free_loop fuel b prev (first_addr l) h
        = (_ ← user_free_combine b (last_addr prev l1) c.1; mret (last_addr prev l1)) h
    end.
Proof.
  revert prev lo fuel. induction l as [|[a s] l IH]; intros prev lo fuel Hl Hlo Hc Hf;
    (destruct fuel as [|fuel]; [simpl in Hf; lia|]).
  { exists [], []. done. }
  pose proof (free_ok_hdr _ _ (a, s) Hlo Hl ltac:(set_solver)) as Hh. simpl in *.
  destruct Hl as (? & ? & ? & Hl), Hc as (_ & Hs & Hc).
  rewrite (proj2 (Z.eqb_neq a 0)) by (ram; lia).
  destruct (Z.ltb_spec b a) as [Hb|Hb].
  { exists [], ((a, s) :: l). done. }
  pose proof (cseg_first _ _ _ Hc) as Hn. rewrite Hn in Hc.
  destruct (IH a (a + 5 + s) fuel Hl) as (l1 & l2 & -> & Hl1 & Hl2); [lia|done|lia|].
  exists ((a, s) :: l1), l2. split; [done|]. split; [by constructor|].
  destruct l2 as [|c l2]; mstep by (by apply blk_next_ok); by rewrite Hn.
Qed.

(** The state between the search and the insertion: a free list [l1 ++ l2]
    with room for the block [b], of payload size [n], after [l1]. *)
Definition detached (h : uheap) (l1 : blocks) (b n : Z) (l2 : blocks) : Prop :=
  cseg (um_mem h) (free_blocks h) (l1 ++ l2) 0 ∧
  free_ok user_space_ram_start l1 ∧
  above user_space_ram_start l1 ≤ b + 1 ∧ user_space_ram_start ≤ b ∧ 0 ≤ n ∧
  b + 4 + n ≤ user_space_ram_end ∧ free_ok (b + 5 + n) l2 ∧
  word_at (um_mem h) (b + 2) = n.

Lemma user_free_combine_spec h l1 b n c s l2 :
  cseg (um_mem h) (free_blocks h) (l1 ++ (c, s) :: l2) 0 →
  free_ok user_space_ram_start l1 → above user_space_ram_start l1 ≤ b + 1 →
  user_space_ram_start ≤ b → 0 ≤ n → word_at (um_mem h) (b + 2) = n →
  free_ok (b + 4 + n) ((c, s) :: l2) →
  ∃ h' n' l2', user_free_combine b (last_addr 0 l1) c h = Ok ((), h') ∧
    detached h' l1 b n' l2' ∧
    (∀ x, covers [(b, n')] x ∨ covers l2' x ↔
          covers [(b, n)] x ∨ covers ((c, s) :: l2) x) ∧
    (∀ x, ¬ covers l1 x → ¬ covers [(b, n)] x →
          byte_at (um_mem h') x = byte_at (um_mem h) x).
Proof.
  intros Hc Hl1 Hab Hsb Hn Hw Hl2. pose proof Hl2 as (Hbc & Hs & Hce & Hl2').
  assert (hdr b) by (ram; lia). assert (hdr c) by (ram; lia).
  unfold user_free_combine. mstep by by apply blk_size_ok. rewrite Hw.
  rewrite (u16_small (b + 4)), u16_small by (ram; lia).
  destruct (Z.eqb_spec (b + 4 + n) c) as [Hadj|Hgap]; last first.
  { exists h, n, ((c, s) :: l2). split_and!; [done| |done..].
    unfold detached. simpl. split_and!; try done; ram; lia. }
  apply cseg_app in Hc as (x & Hc1 & -> & Hcs & Hc2).
  mstep by by apply SLIST_REMOVE_AFTER_spec.
  set (h1 := relink _ _ _).
  assert (0 ≤ word_at (um_mem h) c < 65536) as Hnx.
  { rewrite (cseg_first _ _ _ Hc2). destruct l2 as [|[a s'] ?]; simpl in *; ram; lia. }
  pose proof (relink_rep h _ l1 c _ Hnx Hl1 Hc1) as Hc1'. fold h1 in Hc1'.
  assert (cseg (um_mem h1) (word_at (um_mem h) c) l2 0) as Hc2'.
  { eapply relink_cseg; [done| |done]. eapply free_ok_ge; [exact Hl2'|lia]. }
  assert (word_at (um_mem h1) (c + 2) = s) as Hs1.
  { unfold h1. erewrite relink_word; [done..|lia]. }
  mstep by by apply blk_set_size_ok. mstep by by apply blk_size_ok.
  mstep by by apply blk_size_ok. cbn [um_mem free_blocks].
  unfold sizeof_kmalloc_user_block.
  rewrite (u16_small (n + 4)) by (ram; lia). rewrite word_at_put_eq by (ram; lia).
  rewrite (word_at_put_ne _ (c + 2)), Hs1 by lia. rewrite u16_small by (ram; lia).
  eexists _, (n + 4 + s), l2. split; [by apply blk_set_size_ok|].
  pose proof (free_ok_bounds _ _ Hl1) as [Hb1 _].
  pose proof (free_ok_bounds _ _ Hl2') as [Hb2 _].
  split_and!.
  - unfold detached. cbn [um_mem free_blocks].
    split_and!; try done; try (ram; lia).
    + apply cseg_put; [|apply cseg_put; [|apply cseg_app; eauto]];
        (apply Forall_app; split; [eapply Forall_impl; [apply Hb1|] | eapply Forall_impl; [apply Hb2|]]);
        simpl; intros [??]; simpl; lia.
    + eapply free_ok_mono, Hl2'. lia.
    + rewrite word_at_put_eq; [done|ram; lia].
  - intros y. unfold covers. rewrite !Exists_cons, !Exists_nil. simpl.
    assert (b ≤ y < b + 4 + (n + 4 + s) ↔ b ≤ y < b + 4 + n ∨ c ≤ y < c + 4 + s) by lia.
    tauto.
  - intros y Hy1 Hy2. unfold covers in Hy2. rewrite Exists_cons, Exists_nil in Hy2. simpl in Hy2.
    cbn [um_mem free_blocks]. rewrite !byte_at_put_word_ne by lia.
    by eapply relink_byte.
Qed.

Lemma put_byte_frame h a s x v :
  ¬ covers [(a, s)] x → 0 ≤ s → byte_at (put_word a v (um_mem h)) x = byte_at (um_mem h) x ∧
  byte_at (put_word (a + 2) v (um_mem h)) x = byte_at (um_mem h) x.
Proof.
  unfold covers. rewrite Exists_cons, Exists_nil. simpl. intros.
  split; apply byte_at_put_word_ne; lia.
Qed.

(** Linking the block without combining it with the one before it. *)
Lemma user_free_link_spec h l1 b n l2 :
  detached h l1 b n l2 → above user_space_ram_start l1 ≤ b →
  let h1 := UHeap (put_word b (first_addr l2) (um_mem h)) (free_blocks h) in
  heap_rep (relink h1 l1 b) (l1 ++ (b, n) :: l2) ∧
  (∀ x, ¬ covers l1 x → ¬ covers [(b, n)] x →
        byte_at (um_mem (relink h1 l1 b)) x = byte_at (um_mem h) x).
Proof.
  intros (Hc & Hl1 & Hab & Hsb & Hn & Hbe & Hl2 & Hw) Hb h1.
  pose proof (free_ok_bounds _ _ Hl1) as [Hb1 _].
  pose proof (free_ok_bounds _ _ Hl2) as [Hb2 _].
  apply cseg_app in Hc as (r & Hc1 & Hc2). pose proof (cseg_first _ _ _ Hc2) as ->.
  assert (0 ≤ first_addr l2 < 65536) by (destruct l2 as [|[]]; simpl in *; ram; lia).
  assert (cseg (um_mem h1) (free_blocks h1) l1 (first_addr l2)) as Hc1'.
  { apply cseg_put; [|done]. eapply Forall_impl; [apply Hb1|]. simpl. lia. }
  assert (free_ok (above user_space_ram_start l1) ((b, n) :: l2)) as Hok by done.
  split; [split|].
  - apply cseg_app. exists b. split; [apply (relink_rep h1 user_space_ram_start l1 (first_addr l2)); [ram; lia|done..]|].
    eapply (relink_cseg h1 _ l1 b b ((b, n) :: l2) 0 Hl1); [by eapply free_ok_ge|]. simpl.
    rewrite word_at_put_eq by done. rewrite word_at_put_ne by lia. split_and!; [done..|].
    apply cseg_put; [|done]. eapply Forall_impl; [apply Hb2|]. simpl. lia.
  - by apply free_ok_app.
  - intros x Hx1 Hx2. erewrite relink_byte by done. by apply (put_byte_frame _ _ n).
Qed.

(** Combining the block with the free block (a, s) that ends where it starts. *)
Lemma user_free_merge_spec h l a s b n l2 :
  detached h (l ++ [(a, s)]) b n l2 → a + 4 + s = b →
  let h' := UHeap (put_word (a + 2) (s + 4 + n) (put_word (a + 2) (s + 4) (um_mem h))) (free_blocks h) in
  heap_rep h' (l ++ (a, s + 4 + n) :: l2) ∧
  (∀ x, covers (l ++ (a, s + 4 + n) :: l2) x ↔
        covers (l ++ [(a, s)]) x ∨ covers [(b, n)] x ∨ covers l2 x) ∧
  (∀ x, ¬ covers (l ++ [(a, s)]) x → byte_at (um_mem h') x = byte_at (um_mem h) x).
Proof.
  intros (Hc & Hl1 & Hab & Hsb & Hn & Hbe & Hl2 & Hw) Hadj h'.
  rewrite <- app_assoc in Hc. apply cseg_app in Hc as (x & Hc1 & -> & Has & Hc2). simpl in Hc2.
  apply free_ok_app in Hl1 as [Hl1 (Hla & Hs & Hae & _)].
  pose proof (free_ok_bounds _ _ Hl1) as [Hb1 Hab1].
  pose proof (free_ok_bounds _ _ Hl2) as [Hb2 _].
  split_and!.
  - split; cbn [um_mem free_blocks].
    + apply cseg_app. exists a. split.
      * repeat apply cseg_put; [eapply Forall_impl; [apply Hb1|]; simpl; lia..|done].
      * simpl. rewrite word_at_put_eq by (ram; lia). rewrite !word_at_put_ne by lia.
        split_and!; [done..|].
        repeat apply cseg_put; [eapply Forall_impl; [apply Hb2|]; simpl; lia..|done].
    + apply free_ok_app. split; [done|]. simpl. split_and!; try lia.
      eapply free_ok_mono, Hl2. lia.
  - intros y. unfold covers. rewrite !Exists_app, !Exists_cons, !Exists_nil. simpl.
    assert (a ≤ y < a + 4 + (s + 4 + n) ↔ a ≤ y < a + 4 + s ∨ b ≤ y < b + 4 + n) by lia. tauto.
  - intros y Hy. unfold h'. cbn [um_mem free_blocks].
    assert (¬ (a ≤ y < a + 4 + s)).
    { intros ?. apply Hy, covers_app. right. by constructor. }
    by rewrite !byte_at_put_word_ne by lia.
Qed.

Lemma user_free_insert_spec h l1 b n l2 :
  detached h l1 b n l2 →
  ∃ h' l', user_free_insert (last_addr 0 l1) b h = Ok ((), h') ∧ heap_rep h' l' ∧
    (∀ x, covers l' x ↔ covers l1 x ∨ covers [(b, n)] x ∨ covers l2 x) ∧
    (∀ x, ¬ covers l1 x → ¬ covers [(b, n)] x →
          byte_at (um_mem h') x = byte_at (um_mem h) x).
Proof.
  intros Hd. pose proof (user_free_link_spec _ _ _ _ _ Hd) as Hlink.
  pose proof Hd as (Hc & Hl1 & Hab & Hsb & Hn & Hbe & Hl2 & Hw).
  assert (hdr b) as Hhb by (ram; lia).
  assert (∀ x, covers (l1 ++ (b, n) :: l2) x ↔ covers l1 x ∨ covers [(b, n)] x ∨ covers l2 x) as Hcov.
  { intros x. unfold covers. rewrite Exists_app, !Exists_cons, Exists_nil. tauto. }
  unfold user_free_insert.
  destruct (last_addr_cases l1 Hl1) as [[-> ->]|(l & a & s & -> & -> & Ha & Hha)].
  { simpl in *. destruct Hlink as [Hr Hf]; [ram; lia|].
    exists (relink (UHeap (put_word b (first_addr l2) (um_mem h)) (free_blocks h)) [] b), ((b, n) :: l2).
    split; [|done]. unfold SLIST_INSERT_HEAD. rewrite <- (cseg_first _ _ _ Hc).
    mstep by done. by mstep by by apply blk_set_next_ok. }
  apply Z.eqb_neq in Ha as ->. cbn [negb]. rewrite above_snoc in Hab, Hlink. simpl in Hab, Hlink.
  rewrite <- app_assoc in Hc. apply cseg_app in Hc as (x & Hc1 & -> & Has & Hc2). simpl in Hc2.
  apply free_ok_app in Hl1 as [Hl1 (Hla & Hs & Hae & _)].
  pose proof (free_ok_bounds _ _ Hl1) as [_ Hab1].
  mstep by by apply blk_size_ok. rewrite Has.
  rewrite (u16_small (a + 4)), u16_small by (ram; lia).
  destruct (Z.eqb_spec (a + 4 + s) b) as [Hadj|Hgap]; last first.
  { destruct Hlink as [Hr Hf]; [lia|]. unfold relink in Hr, Hf. rewrite last_snoc in Hr, Hf.
    eexists _, _. split; [|split; [exact Hr|split; [done|exact Hf]]].
    unfold SLIST_INSERT_AFTER. mstep by by apply blk_next_ok. rewrite (cseg_first _ _ _ Hc2).
    mstep by by apply blk_set_next_ok. by apply blk_set_next_ok. }
  destruct (user_free_merge_spec _ _ _ _ _ _ _ Hd Hadj) as (Hr & Hcv & Hf).
  eexists _, _. split; [|split; [exact Hr|split; [exact Hcv|eauto]]].
  mstep by by apply blk_set_size_ok. mstep by by apply blk_size_ok.
  mstep by by apply blk_size_ok. cbn [um_mem free_blocks]. unfold sizeof_kmalloc_user_block.
  rewrite (u16_small (s + 4)), word_at_put_eq by (ram; lia).
  rewrite word_at_put_ne, Hw, u16_small by (ram; lia). by rewrite blk_set_size_ok.
Qed.

(** The blocks on both sides of the place that the search found. *)
Lemma place_bounds l1 l2 b n :
  free_ok user_space_ram_start (l1 ++ l2) → user_space_ram_start ≤ b → 0 ≤ n →
  Forall (apart b n) (l1 ++ l2) → Forall (λ c, c.1 ≤ b) l1 →
  match l2 with [] => True | c :: _ => b < c.1 end →
  free_ok user_space_ram_start l1 ∧ above user_space_ram_start l1 ≤ b + 1 ∧
  free_ok (b + 4 + n) l2.
Proof.
  intros [Hl1 Hl2]%free_ok_app Hb Hn [Ha1 Ha2]%Forall_app Hle Hgt. split_and!; [done| |].
  - destruct (exists_last_or_nil l1) as [->|(l & [a s] & ->)]; [simpl; lia|].
    rewrite above_snoc. rewrite Forall_app, Forall_singleton in Ha1, Hle.
    destruct Ha1 as [_ [?|?]], Hle as [_ ?]; simpl in *; lia.
  - destruct l2 as [|[c s] l2]; [done|]. apply Forall_cons in Ha2 as [[?|?] _];
      destruct Hl2 as (? & ? & ? & ?); simpl in *; naive_solver lia.
Qed.

Lemma heap_fuel_enough l :
  free_ok user_space_ram_start l → (length l < heap_fuel)%nat.
Proof.
  intros [?| ->]%free_ok_length; unfold heap_fuel, zlen in *; [ram; lia|simpl; lia].
Qed.

(** Freeing returns the block, header included, to the free list and touches
    nothing outside of the free blocks and of itself. *)
Lemma kmalloc_user_free_spec h l b n :
  heap_rep h l → user_space_ram_start ≤ b → 0 ≤ n → b + 4 + n ≤ user_space_ram_end →
  word_at (um_mem h) (b + 2) = n → Forall (apart b n) l →
  ∃ h' l', kmalloc_user_free (b + 4) h = Ok ((), h') ∧ heap_rep h' l' ∧
    (∀ x, covers l' x ↔ covers l x ∨ covers [(b, n)] x) ∧
    (∀ x, ¬ covers l x → ¬ covers [(b, n)] x →
          byte_at (um_mem h') x = byte_at (um_mem h) x).
Proof.
  intros [Hc Hl] Hsb Hn Hbe Hw Hap. unfold kmalloc_user_free, sizeof_kmalloc_user_block.
  rewrite (proj2 (Z.eqb_neq (b + 4) 0)) by (ram; lia).
  rewrite (u16_small (b + 4 - 4)) by (ram; lia). replace (b + 4 - 4) with b by lia.
  mstep by done. pose proof (cseg_first _ _ _ Hc) as Hf. rewrite Hf.
  destruct (user_free_loop_spec h b l heap_fuel 0 user_space_ram_start Hl)
    as (l1 & l2 & -> & Hle & Hrun); [lia|by rewrite <- Hf|by apply heap_fuel_enough|].
  destruct (place_bounds l1 l2 b n) as (Hl1 & Hab & Hl2); try done.
  { destruct l2; naive_solver. }
  assert (∃ h1 n1 l3, user_free_loop heap_fuel b 0 (first_addr (l1 ++ l2)) h
            = Ok (last_addr 0 l1, h1) ∧ detached h1 l1 b n1 l3 ∧
          (∀ x, covers [(b, n1)] x ∨ covers l3 x ↔ covers [(b, n)] x ∨ covers l2 x) ∧
          (∀ x, ¬ covers l1 x → ¬ covers [(b, n)] x →
            byte_at (um_mem h1) x = byte_at (um_mem h) x)) as (h1 & n1 & l3 & E & Hd & Hcv & Hfr).
  { destruct l2 as [|[c s] l2].
    - exists h, n, []. done.
    - destruct Hrun as [_ ->].
      destruct (user_free_combine_spec h l1 b n c s l2) as (h1 & n1 & l3 & E & H1); try done.
      exists h1, n1, l3. split; [|done]. by mstep by exact E. }
  mstep by exact E. destruct (user_free_insert_spec _ _ _ _ _ Hd) as (h' & l' & -> & Hr & Hc' & Hfr').
  exists h', l'. split_and!; [done..| |].
  - intros x. rewrite Hc', Hcv, covers_app. tauto.
  - intros x Hx1 Hx2. rewrite covers_app in Hx1. assert (¬ covers l1 x) by tauto.
    assert (¬ covers [(b, n1)] x) by (pose proof (Hcv x); tauto).
    rewrite Hfr', Hfr; done.
Qed.
End Free.

(** ** kmalloc_user_alloc *)

Lemma land_ldiff_r x a b : Z.land x (Z.ldiff a b) = Z.ldiff (Z.land x a) b.
Proof.
  apply Z.bits_inj'. intros n Hn. rewrite Z.land_spec, !Z.ldiff_spec, Z.land_spec.
  by rewrite andb_assoc.
Qed.

Lemma round_size_spec size :
  0 ≤ size ≤ 65532 → round_size size = 4 * ((size + 3) / 4).
Proof.
  intros. unfold round_size. rewrite u16_small by lia.
  change (Z.lxor 65535 3) with (Z.ldiff (Z.ones 16) (Z.ones 2)).
  rewrite land_ldiff_r, Z.land_ones, Z.mod_small by (simpl; lia).
  rewrite Z.ldiff_ones_r, Z.shiftl_mul_pow2, Z.shiftr_div_pow2 by lia.
  change (2 ^ 2) with 4. lia.
Qed.

(** The first block that can hold [n] bytes, with the blocks around it. *)
Fixpoint first_fit (n : Z) (l : blocks) : option (blocks * (Z * Z) * blocks) :=
  match l with
  | [] => None
  | b :: l' =>
      if n <=? b.2 then Some ([], b, l')
      else match first_fit n l' with
           | Some (l1, c, l2) => Some (b :: l1, c, l2)
           | None => None
           end
  end.

Lemma first_fit_Some n l l1 c l2 :
  first_fit n l = Some (l1, c, l2) →
  l = l1 ++ c :: l2 ∧ n ≤ c.2 ∧ Forall (λ b, b.2 < n) l1.
Proof.
  revert l1. induction l as [|b l IH]; intros l1; simpl; [done|].
  destruct (Z.leb_spec n b.2); [by intros [= <- <- <-]|].
  destruct (first_fit n l) as [[[l1' c'] l2']|]; [|done].
  intros [= <- <- <-]. destruct (IH l1') as (-> & ? & ?); [done|].
  split_and!; [done..|]. by constructor.
Qed.

Lemma first_fit_None n l : first_fit n l = None ↔ Forall (λ b, b.2 < n) l.
Proof.
  induction l as [|b l IH]; simpl; [done|]. rewrite Forall_cons.
  destruct (Z.leb_spec n b.2); [split; [done|lia]|].
  destruct (first_fit n l) as [[[??]?]|]; naive_solver.
Qed.

Section Alloc.
Context {R : user_ram} {RO : user_ram_ok}.

Ltac ram := pose proof ram_pos; pose proof ram_room; pose proof ram_top; unfold hdr in *.

(** What the search does with the block that it has found. *)
Definition alloc_take (n prev : Z) (b : Z * Z) : M uheap Z :=
  _ ← (if KMALLOC_MIN_BLOCK_SIZE <=? u16 (n - b.2)
       then user_alloc_split b.1 b.2 n else mret ());
  _ ← SLIST_REMOVE_AFTER prev b.1;
  mret (u16 (b.1 + 4)).

Lemma user_alloc_loop_spec h n l fuel prev lo :
  free_ok lo l → user_space_ram_start ≤ lo → cseg (um_mem h) (first_addr l) l 0 →
  (length l < fuel)%nat →
  user_alloc_loop fuel n prev (first_addr l) h =
  match first_fit n l with
  | None => Ok (0, h)
  | Some (l1, c, _) => alloc_take n (last_addr prev l1) c h
  end.
Proof.
  revert prev lo fuel. induction l as [|[a s] l IH]; intros prev lo fuel Hl Hlo Hc Hf;
    (destruct fuel as [|fuel]; [simpl in Hf; lia|]); [done|].
  pose proof (free_ok_hdr _ _ (a, s) Hlo Hl ltac:(set_solver)) as Hh. simpl in *.
  destruct Hl as (? & ? & ? & Hl), Hc as (_ & Hs & Hc).
  rewrite (proj2 (Z.eqb_neq a 0)) by (ram; lia).
  mstep by by apply blk_size_ok. rewrite Hs.
  destruct (Z.leb_spec n s) as [Hb|Hb]; [done|].
  mstep by by apply blk_next_ok.
  pose proof (cseg_first _ _ _ Hc) as Hn. rewrite Hn in Hc |- *.
  rewrite (IH a (a + 5 + s) fuel Hl); [|lia|done|lia].
  by destruct (first_fit n l) as [[[??]?]|].
Qed.

Lemma kmalloc_user_alloc_run h l size :
  heap_rep h l →
  kmalloc_user_alloc size h =
  match first_fit (round_size size) l with
  | None => Ok (0, h)
  | Some (l1, c, _) => alloc_take (round_size size) (last_addr 0 l1) c h
  end.
Proof.
  intros [Hc Hl]. unfold kmalloc_user_alloc. mstep by done.
  pose proof (cseg_first _ _ _ Hc) as Hf. rewrite Hf in Hc |- *.
  eapply user_alloc_loop_spec; [done|lia|done|by apply heap_fuel_enough].
Qed.

Lemma relink_remove h l1 a s l2 :
  heap_rep h (l1 ++ (a, s) :: l2) →
  heap_rep (relink h l1 (word_at (um_mem h) a)) (l1 ++ l2).
Proof.
  intros [Hc [Hl1 (Ha & Hs & He & Hl2)]%free_ok_app].
  apply cseg_app in Hc as (x & Hc1 & -> & Hcs & Hc2).
  pose proof (free_ok_bounds _ _ Hl1) as [_ ?].
  assert (free_ok (above user_space_ram_start l1) l2) by (eapply free_ok_mono, Hl2; lia).
  split; [|by apply free_ok_app].
  apply cseg_app. exists (word_at (um_mem h) a). split; [|eapply relink_cseg; [done|by eapply free_ok_ge|done]].
  eapply relink_rep; [|done..].
  rewrite (cseg_first _ _ _ Hc2). destruct l2 as [|[]]; simpl in *; ram; lia.
Qed.

Lemma alloc_take_exact h l1 a n l2 :
  heap_rep h (l1 ++ (a, n) :: l2) →
  alloc_take n (last_addr 0 l1) (a, n) h
  = Ok (a + 4, relink h l1 (word_at (um_mem h) a)).
Proof.
  intros [Hc Hl]. unfold alloc_take. simpl. rewrite Z.sub_diag. simpl.
  assert (hdr a) by (apply (free_ok_hdr _ _ (a, n)) in Hl; [done|lia|set_solver]).
  apply free_ok_app in Hl as [Hl1 _]. apply cseg_app in Hc as (x & Hc1 & -> & _).
  mstep by done. mstep by by apply SLIST_REMOVE_AFTER_spec.
  rewrite u16_small; [done|ram; lia].
Qed.

(** The memory after a split of the block (a, s) for [n] bytes: the new
    header is 4 * n bytes after the payload, not n. *)
Definition split_mem (a s n : Z) (m : gmap Z Z) : gmap Z Z :=
  let b2 := a + 4 + 4 * n in
  put_word (a + 2) n (put_word a b2 (put_word b2 (word_at m a) (put_word (b2 + 2) (s - n - 4) m))).

Lemma split_test n s :
  n < s → 0 ≤ n → s ≤ 65504 → (KMALLOC_MIN_BLOCK_SIZE <=? u16 (n - s)) = true.
Proof.
  intros. unfold KMALLOC_MIN_BLOCK_SIZE, u16. apply Z.leb_le.
  rewrite <- (Z.mod_add _ 1), Z.mod_small by lia. lia.
Qed.

Lemma user_alloc_split_spec h a s n :
  hdr a → a + 4 + s ≤ user_space_ram_end → 0 ≤ n → 4 * n + 4 ≤ s →
  user_alloc_split a s n h = Ok ((), UHeap (split_mem a s n (um_mem h)) (free_blocks h)).
Proof.
  intros Ha Hs Hn Hn4. unfold user_alloc_split, SLIST_INSERT_AFTER, sizeof_kmalloc_user_block.
  rewrite (u16_small (a + 4)), (u16_small (a + 4 + _)), u16_small by (ram; lia).
  assert (hdr (a + 4 + 4 * n)) by (ram; lia).
  mstep by by apply blk_set_size_ok.
  mstep by (mstep by (by apply blk_next_ok); mstep by (by apply blk_set_next_ok);
            rewrite blk_set_next_ok by done; reflexivity).
  cbn [um_mem free_blocks]. rewrite blk_set_size_ok by done. cbn [um_mem free_blocks].
  by rewrite (word_at_put_ne _ a) by lia.
Qed.

Lemma split_mem_frame a s n m x :
  0 ≤ n → x < a ∨ a + 4 ≤ x → x < a + 4 + 4 * n ∨ a + 8 + 4 * n ≤ x →
  byte_at (split_mem a s n m) x = byte_at m x.
Proof. intros. unfold split_mem. by rewrite !byte_at_put_word_ne by lia. Qed.

(** A request smaller than the first block that fits. *)
Lemma alloc_take_split h l1 a s n l2 :
  heap_rep h (l1 ++ (a, s) :: l2) → 0 ≤ n → 4 * n + 4 ≤ s →
  ∃ h', alloc_take n (last_addr 0 l1) (a, s) h = Ok (a + 4, h') ∧
    cseg (um_mem h') (free_blocks h') (l1 ++ (a + 4 + 4 * n, s - n - 4) :: l2) 0 ∧
    word_at (um_mem h') (a + 2) = n ∧
    (∀ x, ¬ covers (l1 ++ [(a, s)]) x → byte_at (um_mem h') x = byte_at (um_mem h) x).
Proof.
  intros [Hc Hl] Hn Hn4. unfold alloc_take. cbn [fst snd]. pose proof ram_size.
  assert (hdr a) by (apply (free_ok_hdr _ _ (a, s)) in Hl; [done|lia|set_solver]).
  apply free_ok_app in Hl as [Hl1 (Ha & Hs & He & Hl2)].
  pose proof (free_ok_bounds _ _ Hl1) as [Hb1 Hab]. pose proof (free_ok_bounds _ _ Hl2) as [Hb2 _].
  rewrite split_test by (ram; lia). apply cseg_app in Hc as (y & Hc1 & -> & Hcs & Hc2).
  assert (0 ≤ word_at (um_mem h) a < 65536).
  { rewrite (cseg_first _ _ _ Hc2). destruct l2 as [|[]]; simpl in *; ram; lia. }
  mstep by by apply user_alloc_split_spec.
  set (h1 := UHeap (split_mem a s n (um_mem h)) (free_blocks h)).
  assert (∀ p l q, Forall (λ b, b.1 + 4 ≤ a ∨ a + 4 + s ≤ b.1) l →
            cseg (um_mem h) p l q → cseg (um_mem h1) p l q) as Hkeep.
  { intros p l q Hl Hq. unfold h1, split_mem. cbn [um_mem].
    repeat apply cseg_put; [eapply Forall_impl; [exact Hl|]; simpl; lia..|done]. }
  assert (cseg (um_mem h1) (free_blocks h1) l1 a) as Hc1'.
  { apply Hkeep; [|done]. eapply Forall_impl; [apply Hb1|]. simpl. lia. }
  assert (word_at (um_mem h1) a = a + 4 + 4 * n) as Hw.
  { simpl. unfold split_mem. rewrite word_at_put_ne, word_at_put_eq by (ram; lia). done. }
  mstep by by apply SLIST_REMOVE_AFTER_spec. rewrite Hw, u16_small by (ram; lia).
  eexists. split; [done|]. split_and!.
  - apply cseg_app. eexists. split; [eapply relink_rep; [ram; lia|done..]|].
    eapply relink_cseg; [done|constructor; [simpl; lia|eapply free_ok_ge; [exact Hl2|lia]]|].
    simpl. unfold split_mem.
    rewrite !(word_at_put_ne _ (a + 4 + 4 * n + 2)), word_at_put_eq by (ram; lia).
    rewrite !(word_at_put_ne _ (a + 4 + 4 * n)), word_at_put_eq by (ram; lia).
    split_and!; [done..|]. apply Hkeep; [|done]. eapply Forall_impl; [apply Hb2|]. simpl. lia.
  - erewrite relink_word; [|done|lia]. simpl. unfold split_mem. apply word_at_put_eq. ram; lia.
  - intros x Hx. rewrite covers_app in Hx. unfold covers in Hx at 2.
    rewrite Exists_cons, Exists_nil in Hx. simpl in Hx.
    erewrite relink_byte; [|done|tauto]. apply split_mem_frame; lia.
Qed.
End Alloc.

(** ** The user heap, as a component *)

Section Theorems.
Context {R : user_ram} {RO : user_ram_ok}.

Ltac ram := pose proof ram_pos; pose proof ram_room; pose proof ram_top; unfold hdr in *.

(** The heap that kmalloc_init() sets up has one free block. *)
Lemma kmalloc_init_user_spec h :
  ∃ h', kmalloc_init_user h = Ok ((), h') ∧
    heap_rep h' [(user_space_ram_start, user_space_ram_end - user_space_ram_start - 4)].
Proof.
  unfold kmalloc_init_user, SLIST_INSERT_HEAD, sizeof_kmalloc_user_block.
  assert (hdr user_space_ram_start) by (ram; lia).
  rewrite u16_small by (ram; lia). mstep by by apply blk_set_size_ok. mstep by done.
  mstep by done. mstep by by apply blk_set_next_ok. eexists. split; [done|].
  split; simpl; [|ram; lia]. rewrite word_at_put_eq by lia.
  rewrite word_at_put_ne, word_at_put_eq by (ram; lia). done.
Qed.

Lemma apart_others l1 a n l2 :
  free_ok user_space_ram_start (l1 ++ (a, n) :: l2) → Forall (apart a n) (l1 ++ l2).
Proof.
  intros [Hl1 (? & ? & ? & Hl2)]%free_ok_app.
  apply free_ok_bounds in Hl1 as [Hl1 _], Hl2 as [Hl2 _]. apply Forall_app.
  split; (eapply Forall_impl; [eassumption|]); unfold apart; simpl; lia.
Qed.

(** C25: freeing a block returns exactly its bytes, header included, to the
    free list: on a free list that is in address order, disjoint and
    coalesced, kmalloc_user_free() terminates without a fault, leaves such a
    list that covers the old free bytes and those of the block, combined with
    its neighbours, and writes to no other byte of user RAM. *)
Theorem kmalloc_user_free_refines h l b n :
  heap_rep h l → user_space_ram_start ≤ b → 0 ≤ n → b + 4 + n ≤ user_space_ram_end →
  word_at (um_mem h) (b + 2) = n → Forall (apart b n) l →
  ∃ h' l', kmalloc_user_free (b + 4) h = Ok ((), h') ∧ heap_rep h' l' ∧
    (∀ x, covers l' x ↔ covers l x ∨ covers [(b, n)] x) ∧
    (∀ x, ¬ covers l x → ¬ covers [(b, n)] x →
          byte_at (um_mem h') x = byte_at (um_mem h) x).
Proof. apply kmalloc_user_free_spec. Qed.

(** Allocation is first-fit.  It returns NULL, and changes nothing,
    exactly when no free block is large enough; a block of exactly the rounded
    size is unlinked; a larger block with room for it is split, and the header
    of the rest is written 4 * n bytes after the payload with the size that it
    would have n bytes after it; when that place is past the end of user RAM
    the store is out of bounds. *)
Theorem kmalloc_user_alloc_refines h l size :
  heap_rep h l → 0 ≤ size ≤ 65532 →
  let n := 4 * ((size + 3) / 4) in
  match first_fit n l with
  | None => kmalloc_user_alloc size h = Ok (0, h)
  | Some (l1, (a, s), l2) =>
      (s = n → ∃ h', kmalloc_user_alloc size h = Ok (a + 4, h') ∧
         heap_rep h' (l1 ++ l2) ∧ word_at (um_mem h') (a + 2) = n ∧
         ∀ x, ¬ covers l1 x → byte_at (um_mem h') x = byte_at (um_mem h) x) ∧
      (4 * n + 4 ≤ s → ∃ h', kmalloc_user_alloc size h = Ok (a + 4, h') ∧
         cseg (um_mem h') (free_blocks h') (l1 ++ (a + 4 + 4 * n, s - n - 4) :: l2) 0 ∧
         word_at (um_mem h') (a + 2) = n ∧
         ∀ x, ¬ covers (l1 ++ [(a, s)]) x → byte_at (um_mem h') x = byte_at (um_mem h) x) ∧
      (n < s → user_space_ram_end < a + 8 + 4 * n ≤ 65536 →
         kmalloc_user_alloc size h = Err FBounds)
  end.
Proof.
  intros Hr Hsz n. assert (0 ≤ n) by (unfold n; pose proof (Z.div_pos (size + 3) 4); lia).
  rewrite (kmalloc_user_alloc_run h l), round_size_spec by done. fold n.
  destruct (first_fit n l) as [[[l1 [a s]] l2]|] eqn:Hff; [|done].
  apply first_fit_Some in Hff as (-> & Hs & _). simpl in Hs.
  pose proof Hr as [_ [Hl1 (? & _)]%free_ok_app].
  split_and!.
  - intros ->. rewrite (alloc_take_exact h l1 a n l2) by done. eexists. split; [done|].
    split_and!; [by eapply relink_remove| |].
    + erewrite relink_word; [|done|lia]. destruct Hr as [Hc _].
      apply cseg_app in Hc as (? & _ & _ & ? & _). done.
    + intros x Hx. by erewrite relink_byte.
  - intros. by apply alloc_take_split.
  - intros Hlt Hb. apply free_ok_bounds in Hl1 as [_ ?]. destruct Hr as [Hc [_ (_ & _ & ? & _)]%free_ok_app].
    pose proof ram_size. unfold alloc_take. cbn [fst snd]. rewrite split_test by (ram; lia).
    apply bind_err. unfold user_alloc_split, sizeof_kmalloc_user_block. apply bind_err.
    unfold blk_set_size, st16, in_ram.
    rewrite (u16_small (a + 4)), (u16_small (a + 4 + _)), u16_small by (ram; lia).
    by rewrite (proj2 (Z.leb_gt _ user_space_ram_end)), andb_false_r by lia.
Qed.

(** freeing what an exact-fit allocation returned gives the free bytes
    back: the free list covers the same addresses as before. *)
Theorem kmalloc_user_alloc_free h l size l1 a l2 :
  heap_rep h l → 0 ≤ size ≤ 65532 →
  first_fit (4 * ((size + 3) / 4)) l = Some (l1, (a, 4 * ((size + 3) / 4)), l2) →
  ∃ h' l', (p ← kmalloc_user_alloc size; kmalloc_user_free p) h = Ok ((), h') ∧
    heap_rep h' l' ∧ ∀ x, covers l' x ↔ covers l x.
Proof.
  intros Hr Hsz Hff. set (n := 4 * _) in *.
  assert (0 ≤ n) by (unfold n; pose proof (Z.div_pos (size + 3) 4); lia).
  pose proof (first_fit_Some _ _ _ _ _ Hff) as (-> & _ & _).
  mstep by (erewrite kmalloc_user_alloc_run, round_size_spec by done; fold n; rewrite Hff;
            by eapply alloc_take_exact).
  pose proof Hr as [Hc Hl]. pose proof Hl as [Hl1 (? & ? & ? & _)]%free_ok_app.
  pose proof (free_ok_bounds _ _ Hl1) as [_ ?].
  destruct (kmalloc_user_free_spec (relink h l1 (word_at (um_mem h) a)) (l1 ++ l2) a n)
    as (h' & l' & E & Hr' & Hcv & _); [by eapply relink_remove|lia|done|done| |by apply apart_others|].
  { erewrite relink_word; [|done|lia]. by apply cseg_app in Hc as (? & _ & _ & ? & _). }
  exists h', l'. split_and!; [done..|]. intros x. rewrite Hcv. unfold covers.
  rewrite !Exists_app, !Exists_cons, Exists_nil. tauto.
Qed.

(** the first split corrupts the heap: from the initial state, a request
    of n > 0 bytes (a multiple of four, at most a quarter of user RAM) leaves
    a free block that ends 3 * n bytes past the end of user RAM. *)
Theorem kmalloc_user_alloc_overruns h n :
  let total := user_space_ram_end - user_space_ram_start - 4 in
  0 < n → n mod 4 = 0 → 4 * n + 4 ≤ total →
  ∃ h', (_ ← kmalloc_init_user; kmalloc_user_alloc n) h = Ok (user_space_ram_start + 4, h') ∧
    ∃ b s, cseg (um_mem h') (free_blocks h') [(b, s)] 0 ∧
      b + 4 + s = user_space_ram_end + 3 * n.
Proof.
  intros total Hn Hmod Hle. destruct (kmalloc_init_user_spec h) as (h0 & E0 & Hr).
  mstep by exact E0. rewrite (kmalloc_user_alloc_run _ _ _ Hr), round_size_spec by (ram; lia).
  replace (4 * ((n + 3) / 4)) with n by (Z.div_mod_to_equations; lia).
  simpl. rewrite (proj2 (Z.leb_le n _)) by lia.
  destruct (alloc_take_split h0 [] user_space_ram_start total n [] Hr) as (h' & E & Hc & _); [lia..|].
  exists h'. split; [done|]. eexists _, _. split; [exact Hc|]. lia.
Qed.
End Theorems.

(** ** kmalloc_copy_argv *)

Fixpoint put_bytes (a : Z) (bs : list Z) (m : gmap Z Z) : gmap Z Z :=
  match bs with [] => m | c :: bs => put_bytes (a + 1) bs (put_byte a c m) end.

Lemma put_bytes_out a bs m x :
  x < a ∨ a + zlen bs ≤ x → byte_at (put_bytes a bs m) x = byte_at m x.
Proof.
  revert a m. induction bs as [|c bs IH]; intros a m; simpl; [done|].
  rewrite zlen_cons. intros ?. pose proof (zlen_nonneg bs).
  rewrite IH, byte_at_put_ne by lia. done.
Qed.

Lemma put_bytes_in a bs m i c :
  bs !! i = Some c → byte_at (put_bytes a bs m) (a + Z.of_nat i) = u8 c.
Proof.
  revert a m i. induction bs as [|d bs IH]; intros a m [|i]; simpl; try done.
  - intros [= ->]. rewrite put_bytes_out by lia. rewrite Z.add_0_r. apply byte_at_put_eq.
  - intros H. rewrite <- (IH (a + 1) (put_byte a d m) i H). f_equal. lia.
Qed.

Lemma put_bytes_app a bs1 bs2 m :
  put_bytes a (bs1 ++ bs2) m = put_bytes (a + zlen bs1) bs2 (put_bytes a bs1 m).
Proof.
  revert a m. induction bs1 as [|c bs1 IH]; intros a m; simpl.
  - by rewrite Z.add_0_r.
  - rewrite IH, zlen_cons. f_equal. lia.
Qed.

(** The memory of each argument holds a string; a NULL argument counts as the
    empty one. *)
Definition arg_string (arg : option (list Z)) (t : list Z) : Prop :=
  match arg with Some s => cstring s t | None => t = [] end.

(** The strings of the argument block, cut to CONFIG_ARG_MAX characters. *)
Definition packed (ts : list (list Z)) : list Z :=
  concat ((λ t, take (Z.to_nat CONFIG_ARG_MAX) t ++ [NUL]) <$> ts).

Section Argv.
Context {R : user_ram} {RO : user_ram_ok}.

Ltac ram := pose proof ram_pos; pose proof ram_room; pose proof ram_top; unfold hdr in *.

Lemma st8_ok a v h :
  user_space_ram_start ≤ a → a + 1 ≤ user_space_ram_end →
  st8 a v h = Ok ((), UHeap (put_byte a v (um_mem h)) (free_blocks h)).
Proof. intros. unfold st8. by rewrite in_ram_true. Qed.

Lemma copy_out_spec a bs h :
  user_space_ram_start ≤ a → a + zlen bs ≤ user_space_ram_end →
  copy_out a bs h = Ok ((), UHeap (put_bytes a bs (um_mem h)) (free_blocks h)).
Proof.
  revert a h. induction bs as [|c bs IH]; intros a h Ha He; simpl; [by destruct h|].
  rewrite zlen_cons in He. pose proof (zlen_nonneg bs).
  mstep by (apply st8_ok; lia). rewrite u16_small by (ram; lia).
  by rewrite IH by lia.
Qed.

Lemma take_cstring s t n : cstring s t → take (Z.to_nat (Z.min (zlen t) (Z.of_nat n))) s = take n t.
Proof.
  intros [_ [junk ->]]. unfold zlen. replace (Z.to_nat _) with (n `min` length t)%nat by lia.
  rewrite take_app_le by lia. destruct (decide (n ≤ length t)%nat).
  - by rewrite Nat.min_l by lia.
  - rewrite Nat.min_r by lia. by rewrite !take_ge by lia.
Qed.

Lemma packed_cons t ts :
  packed (t :: ts) = (take (Z.to_nat CONFIG_ARG_MAX) t ++ [NUL]) ++ packed ts.
Proof. done. Qed.

Lemma arg_len (t : list Z) :
  zlen (take (Z.to_nat CONFIG_ARG_MAX) t) = Z.min (zlen t) (Z.of_nat (Z.to_nat CONFIG_ARG_MAX)).
Proof. unfold zlen. rewrite length_take. lia. Qed.

Lemma argv_size_spec args ts size :
  Forall2 arg_string args ts → 0 ≤ size → size + zlen (packed ts) < 65536 →
  argv_size args size = Ok (size + zlen (packed ts)).
Proof.
  intros Hf. revert size. induction Hf as [|arg t args ts Hat Hf IH]; intros size Hs Hlt; simpl.
  { f_equal. unfold packed, zlen. simpl. lia. }
  rewrite packed_cons, !zlen_app in *. pose proof (zlen_nonneg (packed ts)).
  pose proof (zlen_nonneg (take (Z.to_nat CONFIG_ARG_MAX) t)).
  assert (match arg with
          | Some _ => strlen_constrained arg CONFIG_ARG_MAX
          | None => Ok 0
          end = Ok (zlen (take (Z.to_nat CONFIG_ARG_MAX) t))) as ->.
  { rewrite arg_len. destruct arg as [s|]; simpl in Hat.
    - by rewrite (strlen_constrained_spec _ _ t).
    - by rewrite Hat. }
  change (zlen [NUL]) with 1 in *. unfold mbind, res_bind.
  rewrite (u16_small (size + _)), u16_small by lia. rewrite IH by lia.
  f_equal. lia.
Qed.

Lemma argv_format_spec args ts buf h :
  Forall2 arg_string args ts → user_space_ram_start ≤ buf →
  buf + zlen (packed ts) ≤ user_space_ram_end →
  argv_format args buf h
  = Ok ((), UHeap (put_bytes buf (packed ts) (um_mem h)) (free_blocks h)).
Proof.
  intros Hf. revert buf h.
  induction Hf as [|arg t args ts Hat Hf IH]; intros buf h Hb He; [by destruct h|].
  rewrite packed_cons in *. rewrite !put_bytes_app, !zlen_app in *.
  change (zlen [NUL]) with 1 in *. pose proof (zlen_nonneg (packed ts)).
  destruct arg as [s|]; simpl in Hat; simpl argv_format; last first.
  { subst t. rewrite take_nil in *. change (zlen (@nil Z)) with 0 in *.
    mstep by (apply st8_ok; lia). rewrite u16_small by (ram; lia). rewrite IH by lia.
    simpl. do 3 f_equal. by rewrite Z.add_0_r. }
  mstep by (unfold lift; by rewrite (strlen_constrained_spec _ _ t)).
  change CONFIG_ARG_MAX with (Z.of_nat (Z.to_nat CONFIG_ARG_MAX)) at 1 2 3 4.
  rewrite (take_cstring s t) by done. rewrite <- arg_len.
  set (bs := take _ t) in *. pose proof (zlen_nonneg bs).
  mstep by (apply copy_out_spec; lia). cbn [um_mem free_blocks].
  rewrite (u16_small (buf + _)) by (ram; lia). mstep by (apply st8_ok; lia).
  rewrite u16_small by (ram; lia). rewrite IH by lia. cbn [um_mem free_blocks put_bytes].
  by rewrite Z.add_assoc.
Qed.

(** kmalloc_copy_argv() builds the argument block that its callers pass
    to a program, except for the pointers: the strings, cut to
    CONFIG_ARG_MAX characters, are packed after the pointer array, and the
    array ends in NULL, but its first argc entries keep whatever the memory
    held; nothing outside of the block is written. *)
Theorem kmalloc_copy_argv_layout argc args ts h p h1 :
  Forall2 arg_string args ts → argc = zlen args → argc ≤ CONFIG_ARGC_MAX →
  let off := (argc + 1) * 2 in
  let size := off + zlen (packed ts) in
  kmalloc_user_alloc size h = Ok (p, h1) →
  user_space_ram_start ≤ p → p + size ≤ user_space_ram_end →
  ∃ h', kmalloc_copy_argv argc args h = Ok (p, h') ∧
    (∀ i c, packed ts !! i = Some c → byte_at (um_mem h') (p + off + Z.of_nat i) = u8 c) ∧
    word_at (um_mem h') (p + 2 * argc) = 0 ∧
    (∀ i, 0 ≤ i < argc → word_at (um_mem h') (p + 2 * i) = word_at (um_mem h1) (p + 2 * i)) ∧
    (∀ x, x < p ∨ p + size ≤ x → byte_at (um_mem h') x = byte_at (um_mem h1) x) ∧
    free_blocks h' = free_blocks h1.
Proof.
  intros Hf Hargc Hmax off size Ha Hp He. unfold kmalloc_copy_argv.
  pose proof (zlen_nonneg args). pose proof (zlen_nonneg (packed ts)).
  rewrite (proj2 (Z.ltb_ge CONFIG_ARGC_MAX argc)) by done.
  rewrite take_ge by (unfold zlen in *; lia).
  rewrite (proj2 (Z.ltb_ge (zlen args) argc)) by lia. unfold CONFIG_ARGC_MAX in *.
  rewrite (u16_small ((argc + 1) * 2)) by lia. fold off.
  mstep by (unfold lift; rewrite (argv_size_spec args ts); [done|done|lia|ram; lia]).
  fold size. mstep by exact Ha. rewrite (proj2 (Z.eqb_neq p 0)) by (ram; lia).
  rewrite !u16_small by (ram; lia).
  mstep by (apply argv_format_spec; [done|lia|lia]).
  mstep by (unfold st16; rewrite in_ram_true by lia; done). cbn [um_mem free_blocks].
  eexists. split; [done|]. cbn [um_mem free_blocks]. split_and!; [..|done].
  - intros i c Hi. rewrite byte_at_put_word_ne by lia. by apply put_bytes_in.
  - replace (2 * argc) with (argc * 2) by lia. by apply word_at_put_eq.
  - intros i Hi. rewrite word_at_put_ne by lia. unfold word_at.
    by rewrite !put_bytes_out by lia.
  - intros x Hx. rewrite byte_at_put_word_ne, put_bytes_out by lia. done.
Qed.
End Argv.

(** ** The two targets *)

(** target/eater/link.ld and target/sim/link.ld *)
Definition eater_ram : user_ram := UserRam 0x1000 0x3800.
Definition sim_ram : user_ram := UserRam 0x1000 0x7800.

Lemma eater_ram_ok : @user_ram_ok eater_ram.
Proof. split; simpl; lia. Qed.
Lemma sim_ram_ok : @user_ram_ok sim_ram.
Proof. split; simpl; lia. Qed.

(** ** Witnesses *)

(** On the eater target, a heap whose free list is a block of 8 bytes at
    0x1000 and a block of 100 bytes at 0x2000, with an allocated block of 16
    bytes at 0x100C in between. *)
Definition w_heap : uheap :=
  UHeap (put_word 0x1000 0x2000 (put_word 0x1002 8
          (put_word 0x100E 16 (put_word 0x2002 100 (put_word 0x2000 0 ∅))))) 0x1000.
Definition w_free : blocks := [(0x1000, 8); (0x2000, 100)].

Lemma w_heap_rep : @heap_rep eater_ram w_heap w_free.
Proof. split; simpl; [by vm_compute | lia]. Qed.

Lemma kmalloc_user_free_refines_witness :
  ∃ h' l', @kmalloc_user_free eater_ram 0x1010 w_heap = Ok ((), h') ∧
    @heap_rep eater_ram h' l'.
Proof.
  destruct (@kmalloc_user_free_refines eater_ram eater_ram_ok w_heap w_free 0x100C 16 w_heap_rep)
    as (h' & l' & H1 & H2 & _); [simpl; lia..|by vm_compute| |].
  - repeat constructor; unfold apart; simpl; lia.
  - exists h', l'. exact (conj H1 H2).
Defined.

Lemma kmalloc_user_alloc_refines_witness :
  ∃ h', @kmalloc_user_alloc eater_ram 98 w_heap = Ok (0x2004, h') ∧
    @heap_rep eater_ram h' [(0x1000, 8)].
Proof.
  pose proof (@kmalloc_user_alloc_refines eater_ram eater_ram_ok w_heap w_free 98 w_heap_rep) as H.
  destruct (H ltac:(lia)) as [H1 _]. destruct (H1 eq_refl) as (h' & E & Hr & _).
  exists h'. exact (conj E Hr).
Defined.

Lemma kmalloc_user_alloc_free_witness :
  ∃ h' l', (p ← @kmalloc_user_alloc eater_ram 98; @kmalloc_user_free eater_ram p) w_heap
           = Ok ((), h') ∧ @heap_rep eater_ram h' l'.
Proof.
  destruct (@kmalloc_user_alloc_free eater_ram eater_ram_ok w_heap w_free 98 [(0x1000, 8)] 0x2000 []
              w_heap_rep ltac:(lia) eq_refl) as (h' & l' & E & Hr & _).
  exists h', l'. exact (conj E Hr).
Defined.

(** A request of 100 bytes on the freshly booted eater target. *)
Lemma kmalloc_user_alloc_overruns_witness :
  ∃ h' b s,
    (_ ← @kmalloc_init_user eater_ram; @kmalloc_user_alloc eater_ram 100) (UHeap ∅ 0)
    = Ok (0x1004, h') ∧ cseg (um_mem h') (free_blocks h') [(b, s)] 0 ∧ b + 4 + s = 0x3800 + 300.
Proof.
  destruct (@kmalloc_user_alloc_overruns eater_ram eater_ram_ok (UHeap ∅ 0) 100)
    as (h' & E & b & s & Hc & Hb); [lia|done|simpl; lia|].
  exists h', b, s. exact (conj E (conj Hc Hb)).
Defined.

(** The arguments of "ls -l". *)
Definition w_argv : list (option (list Z)) :=
  [Some (chars "ls" ++ [NUL]); Some (chars "-l" ++ [NUL])].
Definition w_booted : uheap :=
  match @kmalloc_init_user eater_ram (UHeap ∅ 0) with Ok (_, h) => h | Err _ => UHeap ∅ 0 end.
Definition w_allocated : uheap :=
  match @kmalloc_user_alloc eater_ram 12 w_booted with Ok (_, h) => h | Err _ => w_booted end.

Lemma kmalloc_copy_argv_layout_witness :
  ∃ h', @kmalloc_copy_argv eater_ram 2 w_argv w_booted = Ok (0x1004, h').
Proof.
  assert (Forall2 arg_string w_argv [chars "ls"; chars "-l"]) as Hf.
  { repeat constructor; try (exists []; reflexivity); try compute_decide. }
  destruct (@kmalloc_copy_argv_layout eater_ram eater_ram_ok 2 w_argv [chars "ls"; chars "-l"]
              w_booted 0x1004 w_allocated Hf) as (h' & E & _);
    [reflexivity|vm_compute; discriminate|by vm_compute|simpl; lia|vm_compute; discriminate|].
  exists h'. exact E.
Defined.
