(* ===== verification/ProcTable.v ===== *)
(** The process table of os/proc.c: creation of processes over the user heap,
    the frame that a new process starts from, and its removal.

    A [struct proc] lies in a block of the user heap, and is named by its
    address.  Its fields are the record [proc] of Sched; its bytes in the heap
    are only cleared, and never read.  The zero page is a memory of its own. *)
From S2P Require Import Prelude CDefs Tailq Sched UserHeap.

(** The addresses of code, from the linker. *)
Class code_addrs := { addr_proc_stop : Z; addr_shell_start : Z }.

Definition PROC_ZP_SIZE : Z := 32.
Definition PROC_KERNEL_ZP_SIZE : Z := 12.
(** context 81, pid, ppid and state 3, qptrs 4, wait_sem 2, zp 2, fd 16,
    cloexec 8, umask 2, cwd 64, argv 2 *)
Definition sizeof_proc : Z := 184.

Record ptable := PTable {
  pt_sched : sched;
  pt_heap : uheap;
  process_table : list Z;     (* addresses, 0 for an unused entry *)
  pt_zp : list Z;             (* the zero page, 256 bytes *)
}.

Definition on_sched {A} (m : M sched A) : M ptable A := λ s,
  match m (pt_sched s) with
  | Ok (a, t) => Ok (a, PTable t (pt_heap s) (process_table s) (pt_zp s))
  | Err e => Err e
  end.
Definition on_heap {A} (m : M uheap A) : M ptable A := λ s,
  match m (pt_heap s) with
  | Ok (a, h) => Ok (a, PTable (pt_sched s) h (process_table s) (pt_zp s))
  | Err e => Err e
  end.
Definition set_table (i v : Z) : M ptable () := λ s,
  match wr (process_table s) i v with
  | Ok t => Ok ((), PTable (pt_sched s) (pt_heap s) t (pt_zp s))
  | Err e => Err e
  end.
Definition put_zp (a : Z) (bs : list Z) : M ptable () := λ s,
  match memcpy (pt_zp s) a bs (zlen bs) with
  | Ok z => Ok ((), PTable (pt_sched s) (pt_heap s) (process_table s) z)
  | Err e => Err e
  end.

Section Code.
Context {R : user_ram} {CA : code_addrs}.

Definition proc_init : M ptable () :=
  on_sched (modify (λ s, Sched (procs s) (queues s) None (sem_values s))).

(** The search for the next unused process: its index, or CONFIG_PROC_MAX. *)
Fixpoint find_unused (table : list Z) (pid : Z) : Z :=
  match table with
  | [] => pid
  | p :: table => if p =? 0 then pid else find_unused table (u8 (pid + 1))
  end.

(** A process structure after memset(), which also clears its queue pointers
    (add_proc), and the assignments to its pid, ppid, argv and zp. *)
Definition blank_proc (pid ppid argv zp : Z) : proc :=
  Proc (ProcContext 0 0 (replicate (Z.to_nat CONFIG_RETURN_STACK_SIZE) 0) 0
          (replicate (Z.to_nat PROC_KERNEL_ZP_SIZE) 0))
    pid ppid PROC_UNUSED None zp (replicate (Z.to_nat CONFIG_PROC_FD_MAX) None)
    (replicate (Z.to_nat CONFIG_PROC_FD_MAX) 0) 0
    (replicate (Z.to_nat CONFIG_PATH_MAX) 0) argv.

Definition set_place (cwd : list Z) (umask : Z) (p : proc) : proc :=
  Proc (p_context p) (p_pid p) (p_ppid p) (p_state p) (p_wait_sem p)
    (p_zp p) (p_fd p) (p_cloexec p) umask cwd (p_argv p).

(** The working directory and the umask, from the parent or the defaults. *)
Definition proc_inherit (ppid p : Z) : M ptable () :=
  if negb (ppid =? 0) then
    parent ← (λ s, lift (rd (process_table s) (ppid - 1)) s);
    pr ← (if parent =? 0 then fail FNull else on_sched (get_proc parent));
    on_sched (upd_proc p (set_place (p_cwd pr) (p_umask pr)))
  else
    pr ← on_sched (get_proc p);
    cwd ← lift (memcpy (p_cwd pr) 0 (chars "/root" ++ [NUL]) 6);
    on_sched (upd_proc p (set_place cwd (Z.lor S_IWGRP S_IWOTH))).

(** The result is an error, or the new process. *)
Definition proc_create (ppid argc : Z) (argv : option (list (option (list Z)))) : M ptable (Z + Z) :=
  match argv with
  | None => mret (inl (- EFAULT))
  | Some argv =>
      if argc <? 1 then mret (inl (- EINVAL))
      else if CONFIG_ARGC_MAX <? argc then mret (inl (- E2BIG))
      else
        argv_copy ← on_heap (kmalloc_copy_argv argc argv);
        if argv_copy =? 0 then mret (inl (- ENOMEM))
        else
          pid ← gets (λ s, find_unused (process_table s) 0);
          if CONFIG_PROC_MAX <=? pid then
            _ ← on_heap (kmalloc_user_free argv_copy); mret (inl (- ENOMEM))
          else
            p ← on_heap (kmalloc_user_alloc sizeof_proc);
            if p =? 0 then _ ← on_heap (kmalloc_user_free argv_copy); mret (inl (- ENOMEM))
            else
              _ ← set_table pid p;
              _ ← on_heap (copy_out p (replicate (Z.to_nat sizeof_proc) 0));
              let zp := (pid + 2) * PROC_ZP_SIZE in
              _ ← on_sched (modify (add_proc p (blank_proc (u8 (pid + 1)) (u8 ppid) argv_copy zp)));
              _ ← put_zp zp (replicate (Z.to_nat PROC_ZP_SIZE) 0);
              _ ← proc_inherit ppid p;
              mret (inr p)
  end.

Definition proc_free (p : Z) : M ptable () :=
  pr ← on_sched (get_proc p);
  _ ← set_table (p_pid pr - 1) 0;
  _ ← on_heap (kmalloc_user_free (p_argv pr));
  _ ← on_sched (upd_proc p (set_state PROC_UNUSED));
  on_heap (kmalloc_user_free p).

(** ** The frame of a new process *)

Definition set_stack (S : Z) (stack : list Z) (p : proc) : proc :=
  let c := p_context p in set_context (ProcContext S (ctx_AX c) stack (ctx_kstack c) (ctx_kzp c)) p.

Definition push_return (value : Z) (p : proc) : res proc :=
  let c := p_context p in
  let S := u8 (ctx_S c - 2) in
  let value := u16 (value - 1) in
  stack ← wr (ctx_stack c) (S + 1) (u8 value);
  stack ← wr stack (S + 2) (u8 (Z.shiftr value 8));
  Ok (set_stack S stack p).
Definition push_byte (value : Z) (p : proc) : res proc :=
  let c := p_context p in
  let S := ctx_S c in
  stack ← wr (ctx_stack c) S (u8 value);
  Ok (set_stack (u8 (S - 1)) stack p).

Definition upd_proc_res (p : Z) (f : proc → res proc) : M ptable () :=
  pr ← on_sched (get_proc p); pr ← lift (f pr); on_sched (set_proc p pr).

Definition proc_push_return_stack (p value : Z) : M ptable () := upd_proc_res p (push_return value).
Definition proc_push_byte (p value : Z) : M ptable () := upd_proc_res p (push_byte value).
Definition proc_set_arg2 (p value : Z) : M ptable () :=
  pr ← on_sched (get_proc p);
  put_zp (p_zp pr + 2) [u8 value; u8 (Z.shiftr value 8)].

(** The result is an error or the pid, and the process. *)
Definition proc_create_internal (ppid func argc : Z) (argv : option (list (option (list Z))))
    : M ptable (Z * option Z) :=
  created ← proc_create ppid argc argv;
  match created with
  | inl err => mret (err, None)
  | inr p =>
      _ ← on_sched (upd_proc p (λ pr, set_stack (CONFIG_RETURN_STACK_SIZE - 1) (ctx_stack (p_context pr)) pr));
      _ ← proc_push_return_stack p addr_proc_stop;
      _ ← proc_push_return_stack p (u16 (func + 1));
      _ ← proc_push_byte p 0;
      _ ← on_sched (upd_proc p (set_AX argc));
      pr ← on_sched (get_proc p);
      _ ← proc_set_arg2 p (p_argv pr);
      _ ← on_sched (sched_set_runnable p);
      mret (p_pid pr, Some p)
  end.

Definition shell_argv : list (option (list Z)) := [Some (chars "/bin/sh" ++ [NUL]); None].

(** The creation of the shell; proc_start_shell() goes on with the console. *)
Definition proc_create_shell : M ptable (Z * option Z) :=
  proc_create_internal 0 addr_shell_start 1 (Some shell_argv).

Definition sys_getpid : M ptable Z := λ s,
  match current_proc (pt_sched s) with
  | None => Err FNull
  | Some p => on_sched (pr ← get_proc p; mret (p_pid pr)) s
  end.
Definition sys_getppid : M ptable Z := λ s,
  match current_proc (pt_sched s) with
  | None => Err FNull
  | Some p => on_sched (pr ← get_proc p; mret (p_ppid pr)) s
  end.
Definition proc_stop (status : Z) : M ptable () := fail FHalt.
Definition sys_exit (status : Z) : M ptable () := proc_stop status.
End Code.

(** ** Running on the parts of the state *)

Lemma on_sched_ok {A} (m : M sched A) s a t :
  m (pt_sched s) = Ok (a, t) → on_sched m s = Ok (a, PTable t (pt_heap s) (process_table s) (pt_zp s)).
Proof. unfold on_sched. by intros ->. Qed.
Lemma on_heap_ok {A} (m : M uheap A) s a h :
  m (pt_heap s) = Ok (a, h) → on_heap m s = Ok (a, PTable (pt_sched s) h (process_table s) (pt_zp s)).
Proof. unfold on_heap. by intros ->. Qed.

(** ** The table *)

(** Each entry in use is the process whose pid is its place, with the page of
    the zero page that belongs to the place. *)
Record table_ok (s : ptable) : Prop := {
  to_length : zlen (process_table s) = CONFIG_PROC_MAX;
  to_zp : zlen (pt_zp s) = 256;
  to_proc i p : process_table s !! i = Some p → p ≠ 0 →
    ∃ pr, procs (pt_sched s) !! p = Some pr ∧ p_pid pr = Z.of_nat i + 1 ∧
      p_zp pr = (Z.of_nat i + 2) * PROC_ZP_SIZE ∧ zlen (p_cwd pr) = CONFIG_PATH_MAX;
}.

Lemma find_unused_spec table k : 0 ≤ k → k + zlen table < 256 →
  find_unused table k = match list_find (λ p, p = 0) table with
                        | Some (i, _) => k + Z.of_nat i
                        | None => k + zlen table
                        end.
Proof.
  revert k. induction table as [|p table IH]; intros k Hk Hl; simpl; [unfold zlen; simpl; lia|].
  rewrite zlen_cons in *. destruct (Z.eqb_spec p 0) as [->|Hp].
  - rewrite decide_True by done. lia.
  - rewrite decide_False by done. pose proof (zlen_nonneg table).
    rewrite u8_small, IH by lia. destruct (list_find _ table) as [[i x]|]; simpl; lia.
Qed.

(** The working directory and umask for a child of [ppid]. *)
Definition root_cwd : list Z := chars "/root" ++ replicate 59 0.
Definition inherits (s : ptable) (ppid : Z) (cwd : list Z) (umask : Z) : Prop :=
  (ppid = 0 ∧ cwd = root_cwd ∧ umask = Z.lor S_IWGRP S_IWOTH) ∨
  (∃ parent pr, 1 ≤ ppid ∧ process_table s !! Z.to_nat (ppid - 1) = Some parent ∧ parent ≠ 0 ∧
     procs (pt_sched s) !! parent = Some pr ∧ cwd = p_cwd pr ∧ umask = p_umask pr).

(** A change of a process that the queues do not see. *)
Lemma sched_ok_quiet s Q p pr pr' :
  sched_ok s Q → procs s !! p = Some pr → p_state pr' = p_state pr → p_wait_sem pr' = p_wait_sem pr →
  sched_ok (Sched (<[p := pr']> (procs s)) (queues s) (current_proc s) (sem_values s)) Q.
Proof.
  intros Hs Hp Hst Hw. split; simpl; try apply Hs.
  - rewrite dom_insert_lookup by eauto. apply Hs.
  - intros q r Hr. rewrite lookup_insert. case_decide; [eauto|]. by eapply (so_live _ _ Hs).
  - intros r pr0. rewrite lookup_insert. case_decide; [|by eapply (so_running _ _ Hs)].
    intros [= <-]. subst. rewrite Hst. by eapply (so_running _ _ Hs).
  - intros sem r pr0 Hr. rewrite lookup_insert. case_decide; [|by eapply (so_waiting _ _ Hs)].
    intros [= <-]. subst. rewrite Hst, Hw. by eapply (so_waiting _ _ Hs).
Qed.

Lemma upd_proc_ok s p pr f : procs s !! p = Some pr →
  upd_proc p f s = Ok ((), Sched (<[p := f pr]> (procs s)) (queues s) (current_proc s) (sem_values s)).
Proof. intros Hp. unfold upd_proc. by rewrite (bind_ok _ _ s pr s) by (unfold get_proc; by rewrite Hp). Qed.

Lemma get_proc_ok s p pr : procs s !! p = Some pr → get_proc p s = Ok (pr, s).
Proof. unfold get_proc. by intros ->. Qed.

Section Create.
Context {R : user_ram} {RO : user_ram_ok}.
Implicit Types (s : ptable).

Lemma set_table_ok s i v : 0 ≤ i < zlen (process_table s) →
  set_table i v s = Ok ((), PTable (pt_sched s) (pt_heap s) (<[Z.to_nat i := v]> (process_table s)) (pt_zp s)).
Proof. intros Hi. unfold set_table. by rewrite wr_ok. Qed.

(** The page of the new process in the zero page. *)
Definition clear_page (zp : Z) (l : list Z) : list Z :=
  take (Z.to_nat zp) l ++ replicate 32 0 ++ drop (Z.to_nat (zp + 32)) l.

Lemma put_zp_clear s zp : 0 ≤ zp → zp + 32 ≤ zlen (pt_zp s) →
  put_zp zp (replicate (Z.to_nat PROC_ZP_SIZE) 0) s =
  Ok ((), PTable (pt_sched s) (pt_heap s) (process_table s) (clear_page zp (pt_zp s))).
Proof.
  intros H0 H1. unfold put_zp, memcpy. change (zlen (replicate (Z.to_nat PROC_ZP_SIZE) 0)) with 32.
  rewrite (proj2 (Z.leb_le _ _) H0), (proj2 (Z.leb_le _ _) H1). done.
Qed.

Lemma proc_inherit_ok s ppid p pr cwd umask :
  inherits s ppid cwd umask → procs (pt_sched s) !! p = Some pr →
  p_cwd pr = replicate 64 0 →
  proc_inherit ppid p s = Ok ((), PTable
    (Sched (<[p := set_place cwd umask pr]> (procs (pt_sched s))) (queues (pt_sched s))
       (current_proc (pt_sched s)) (sem_values (pt_sched s)))
    (pt_heap s) (process_table s) (pt_zp s)).
Proof.
  intros Hin Hp Hcwd. destruct s as [sc hp tb zp]. simpl in *. unfold proc_inherit.
  destruct Hin as [(-> & -> & ->)|(parent & ppr & H1 & Ht & Hnz & Hpp & -> & ->)].
  - cbn [Z.eqb negb].
    rewrite (bind_ok _ _ _ _ _ (on_sched_ok _ (PTable sc hp tb zp) _ _ (get_proc_ok sc _ _ Hp))), Hcwd.
    rewrite (bind_ok _ _ _ root_cwd _ eq_refl).
    by rewrite (on_sched_ok _ (PTable sc hp tb zp) _ _ (upd_proc_ok sc _ _ _ Hp)).
  - rewrite (proj2 (Z.eqb_neq ppid 0)) by lia. cbn [negb].
    rewrite (bind_ok _ _ _ parent (PTable sc hp tb zp)) by (by rewrite (proj2 (rd_lookup _ _ parent)) by (split; [lia|done])).
    rewrite (proj2 (Z.eqb_neq parent 0)) by done.
    rewrite (bind_ok _ _ _ _ _ (on_sched_ok _ (PTable sc hp tb zp) _ _ (get_proc_ok sc _ _ Hpp))).
    by rewrite (on_sched_ok _ (PTable sc hp tb zp) _ _ (upd_proc_ok sc _ _ _ Hp)).
Qed.

(** The new process. *)
Definition child (i ppid argv : Z) (cwd : list Z) (umask : Z) : proc :=
  set_place cwd umask (blank_proc (i + 1) ppid argv ((i + 2) * PROC_ZP_SIZE)).

Lemma find_unused_table (tb : list Z) : zlen tb = CONFIG_PROC_MAX →
  find_unused tb 0 = match list_find (λ p, p = 0) tb with Some (i, _) => Z.of_nat i | None => CONFIG_PROC_MAX end.
Proof.
  intros Ht. rewrite find_unused_spec by (unfold CONFIG_PROC_MAX in *; lia).
  destruct (list_find _ tb) as [[i x]|]; lia.
Qed.

(** The checks, the copy of the arguments and the search for an entry. *)
Ltac create_prefix Eq Hq :=
  unfold proc_create; rewrite (proj2 (Z.ltb_ge _ _)), (proj2 (Z.ltb_ge _ _)) by lia;
  rewrite (bind_ok _ _ _ _ _ (on_heap_ok _ _ _ _ Eq)), (proj2 (Z.eqb_neq _ 0) Hq).

Lemma proc_create_refused s ppid argc argv :
  let failed e := Ok (inl (- e), PTable (pt_sched s) (pt_heap s) (process_table s) (pt_zp s)) in
  proc_create ppid argc None s = failed EFAULT ∧
  (argc < 1 → proc_create ppid argc (Some argv) s = failed EINVAL) ∧
  (CONFIG_ARGC_MAX < argc → proc_create ppid argc (Some argv) s = failed E2BIG).
Proof.
  destruct s as [sc hp tb zp]. split; [done|]. unfold proc_create. split; intros H.
  - by rewrite (proj2 (Z.ltb_lt _ _) H).
  - rewrite (proj2 (Z.ltb_ge argc 1)) by (unfold CONFIG_ARGC_MAX in H; lia). by rewrite (proj2 (Z.ltb_lt _ _) H).
Qed.

Lemma proc_create_full s ppid argc argv q h1 hf :
  zlen (process_table s) = CONFIG_PROC_MAX → 1 ≤ argc ≤ CONFIG_ARGC_MAX →
  kmalloc_copy_argv argc argv (pt_heap s) = Ok (q, h1) → q ≠ 0 →
  list_find (λ p, p = 0) (process_table s) = None → kmalloc_user_free q h1 = Ok ((), hf) →
  proc_create ppid argc (Some argv) s =
    Ok (inl (- ENOMEM), PTable (pt_sched s) hf (process_table s) (pt_zp s)).
Proof.
  intros Ht Harg Eq Hq Hfind Ef. create_prefix Eq Hq. destruct s as [sc hp tb zp].
  cbn [pt_sched pt_heap process_table pt_zp] in *.
  assert (find_unused tb 0 = CONFIG_PROC_MAX) as Hfu by (by rewrite find_unused_table, Hfind).
  rewrite (bind_ok (gets _) _ (PTable sc h1 tb zp) CONFIG_PROC_MAX (PTable sc h1 tb zp))
    by (unfold gets; cbn [process_table]; by rewrite Hfu).
  rewrite Z.leb_refl. by rewrite (bind_ok _ _ _ _ _ (on_heap_ok _ (PTable sc h1 tb zp) _ _ Ef)).
Qed.

Lemma proc_create_no_block s ppid argc argv q h1 i h2 hf :
  zlen (process_table s) = CONFIG_PROC_MAX → 1 ≤ argc ≤ CONFIG_ARGC_MAX →
  kmalloc_copy_argv argc argv (pt_heap s) = Ok (q, h1) → q ≠ 0 →
  list_find (λ p, p = 0) (process_table s) = Some (i, 0) →
  kmalloc_user_alloc sizeof_proc h1 = Ok (0, h2) → kmalloc_user_free q h2 = Ok ((), hf) →
  proc_create ppid argc (Some argv) s =
    Ok (inl (- ENOMEM), PTable (pt_sched s) hf (process_table s) (pt_zp s)).
Proof.
  intros Ht Harg Eq Hq Hfind Ep Ef. create_prefix Eq Hq.
  pose proof (proj1 (list_find_Some _ _ _ _) Hfind) as (Hi%lookup_lt_Some & _ & _).
  destruct s as [sc hp tb zp]. cbn [pt_sched pt_heap process_table pt_zp] in *.
  assert (find_unused tb 0 = Z.of_nat i) as Hfu by (by rewrite find_unused_table, Hfind).
  rewrite (bind_ok (gets _) _ (PTable sc h1 tb zp) (Z.of_nat i) (PTable sc h1 tb zp))
    by (unfold gets; cbn [process_table]; by rewrite Hfu).
  rewrite (proj2 (Z.leb_gt _ _)) by (unfold zlen in *; lia).
  rewrite (bind_ok _ _ _ _ _ (on_heap_ok _ (PTable sc h1 tb zp) _ _ Ep)). cbn [Z.eqb].
  by rewrite (bind_ok _ _ _ _ _ (on_heap_ok _ (PTable sc h2 tb zp) _ _ Ef)).
Qed.

Lemma proc_create_run s ppid argc argv q h1 p h2 i cwd umask :
  zlen (process_table s) = CONFIG_PROC_MAX → zlen (pt_zp s) = 256 →
  1 ≤ argc ≤ CONFIG_ARGC_MAX → inherits s ppid cwd umask →
  kmalloc_copy_argv argc argv (pt_heap s) = Ok (q, h1) → q ≠ 0 →
  list_find (λ p, p = 0) (process_table s) = Some (i, 0) →
  kmalloc_user_alloc sizeof_proc h1 = Ok (p, h2) → p ≠ 0 →
  user_space_ram_start ≤ p → p + sizeof_proc ≤ user_space_ram_end →
  procs (pt_sched s) !! p = None →
  let pr := child (Z.of_nat i) ppid q cwd umask in
  proc_create ppid argc (Some argv) s = Ok (inr p, PTable
    (add_proc p pr (pt_sched s))
    (UHeap (put_bytes p (replicate (Z.to_nat sizeof_proc) 0) (um_mem h2)) (free_blocks h2))
    (<[i := p]> (process_table s))
    (clear_page ((Z.of_nat i + 2) * PROC_ZP_SIZE) (pt_zp s))).
Proof.
  intros Ht Hz Harg Hin Eq Hq Hfind Ep Hp Hlo Hhi Hfresh pr. create_prefix Eq Hq.
  pose proof (proj1 (list_find_Some _ _ _ _) Hfind) as (Hi & _ & _).
  assert (Z.of_nat i < CONFIG_PROC_MAX) as Hlt.
  { apply lookup_lt_Some in Hi. unfold zlen in Ht. lia. }
  destruct s as [sc hp tb zp]. cbn [pt_sched pt_heap process_table pt_zp] in *.
  assert (find_unused tb 0 = Z.of_nat i) as Hfu by (by rewrite find_unused_table, Hfind).
  rewrite (bind_ok _ _ _ (Z.of_nat i) (PTable sc h1 tb zp)) by (unfold gets; cbn [pt_sched pt_heap process_table pt_zp]; by rewrite Hfu).
  rewrite (proj2 (Z.leb_gt _ _)) by lia.
  rewrite (bind_ok _ _ _ _ _ (on_heap_ok _ (PTable sc h1 tb zp) _ _ Ep)), (proj2 (Z.eqb_neq p 0)) by done.
  rewrite (bind_ok _ _ _ _ _ (set_table_ok (PTable sc h2 tb zp) (Z.of_nat i) p ltac:(cbn [pt_sched pt_heap process_table pt_zp]; lia))), Nat2Z.id.
  cbn [pt_sched pt_heap process_table pt_zp]. set (tb' := <[i := p]> tb).
  rewrite (bind_ok _ _ _ _ _ (on_heap_ok _ (PTable sc h2 tb' zp) _ _ (copy_out_spec p (replicate (Z.to_nat sizeof_proc) 0) h2 Hlo Hhi))). cbn [pt_sched pt_heap process_table pt_zp].
  assert (ppid < 7) as Hppid.
  { destruct Hin as [[-> _]|(? & ? & ? & Hl%lookup_lt_Some & _)]; [lia|]. cbn [pt_sched pt_heap process_table pt_zp] in Hl.
    unfold zlen, CONFIG_PROC_MAX in *. lia. }
  assert (0 ≤ ppid) as Hppid0 by (destruct Hin as [[-> _]|(? & ? & ? & _)]; lia).
  unfold CONFIG_PROC_MAX in Hlt. rewrite !u8_small by lia.
  set (pr0 := blank_proc _ _ _ _).
  set (h3 := UHeap _ _). set (s2 := PTable (add_proc p pr0 sc) h3 tb' zp).
  rewrite (bind_ok (on_sched (modify (add_proc p pr0))) _ (PTable sc h3 tb' zp) () s2 eq_refl).
  rewrite (bind_ok _ _ _ _ _ (put_zp_clear s2 ((Z.of_nat i + 2) * PROC_ZP_SIZE) ltac:(unfold PROC_ZP_SIZE; lia)
    ltac:(unfold s2, PROC_ZP_SIZE; cbn [pt_zp]; lia))).
  set (s3 := PTable _ _ _ _).
  assert (inherits s3 ppid cwd umask) as Hin3.
  { destruct Hin as [?|(parent & ppr & ? & Hl & Hnz & Hpp & ? & ?)]; [by left|]. right.
    exists parent, ppr. unfold s3, s2, add_proc. cbn [pt_sched process_table procs] in *. split_and!; try done.
    - unfold tb'. rewrite list_lookup_insert_ne; [done|]. intros ->. congruence.
    - rewrite lookup_insert_ne; [done|]. intros ->. congruence. }
  rewrite (bind_ok _ _ _ _ _ (proc_inherit_ok s3 ppid p pr0 cwd umask Hin3 (lookup_insert_eq _ _ _) eq_refl)).
  unfold mret, M_ret. do 3 f_equal. unfold s3, s2. cbn [pt_sched pt_heap process_table pt_zp]. unfold add_proc. f_equal.
  cbn [procs]. by rewrite insert_insert_eq.
Qed.

Lemma clear_page_lookup zp l a :
  0 ≤ zp → zp + 32 ≤ zlen l →
  clear_page zp l !! a = if decide (zp ≤ Z.of_nat a < zp + 32) then Some 0 else l !! a.
Proof.
  intros H0 H1. unfold clear_page, zlen in *. case_decide as Ha.
  - rewrite lookup_app_r, length_take by (rewrite length_take; lia).
    rewrite lookup_app_l by (rewrite length_replicate; lia). apply lookup_replicate. split; [done|lia].
  - destruct (decide (Z.of_nat a < zp)).
    + rewrite lookup_app_l by (rewrite length_take; lia). by rewrite lookup_take_lt by lia.
    + rewrite lookup_app_r, length_take by (rewrite length_take; lia).
      rewrite lookup_app_r, length_replicate by (rewrite length_replicate; lia).
      rewrite lookup_drop. f_equal. lia.
Qed.

Lemma clear_page_length zp l : 0 ≤ zp → zp + 32 ≤ zlen l → zlen (clear_page zp l) = zlen l.
Proof. intros H0 H1. unfold clear_page. len_lia. Qed.

Lemma inherits_cwd s ppid cwd umask : table_ok s → inherits s ppid cwd umask → zlen cwd = CONFIG_PATH_MAX.
Proof.
  intros Hs [(_ & -> & _)|(parent & pr & _ & Hl & Hnz & Hp & -> & _)]; [done|].
  destruct (to_proc s Hs _ _ Hl Hnz) as (pr' & Hp' & _ & _ & Hc). congruence.
Qed.

(** The state with the new process is well-formed. *)
Lemma table_ok_child s ppid q p i cwd umask h :
  table_ok s → zlen cwd = CONFIG_PATH_MAX → process_table s !! i = Some 0 → p ≠ 0 →
  procs (pt_sched s) !! p = None →
  table_ok (PTable (add_proc p (child (Z.of_nat i) ppid q cwd umask) (pt_sched s)) h
    (<[i := p]> (process_table s)) (clear_page ((Z.of_nat i + 2) * PROC_ZP_SIZE) (pt_zp s))).
Proof.
  intros Hs Hcwd Hi Hp Hfresh. pose proof (lookup_lt_Some _ _ _ Hi) as Hlt.
  pose proof (to_length s Hs) as Hlen. pose proof (to_zp s Hs) as Hz. split.
  - cbn [process_table]. unfold zlen in *. by rewrite length_insert.
  - cbn [pt_zp]. rewrite clear_page_length; [done|..]; unfold zlen, CONFIG_PROC_MAX, PROC_ZP_SIZE in *; lia.
  - intros j r. cbn [process_table pt_sched]. unfold add_proc. cbn [procs].
    destruct (decide (i = j)) as [<-|Hij].
    + rewrite list_lookup_insert_eq by done. intros [= <-] _. rewrite lookup_insert_eq.
      eexists. by split_and!.
    + rewrite list_lookup_insert_ne by done. intros Hr Hnz.
      destruct (to_proc s Hs _ _ Hr Hnz) as (pr & Hpr & H). exists pr. split; [|done].
      rewrite lookup_insert_ne; [done|]. intros ->. congruence.
Qed.

(** C35: proc_create() on every branch.  Without arguments, with no argument or
    with too many it fails with -EFAULT, -EINVAL or -E2BIG, in that order, and
    changes nothing.  Otherwise, given what the allocator does: without memory
    for the arguments or the structure, or without an unused entry, it fails
    with -ENOMEM and has freed the arguments; and for the kernel or a live
    process as the parent the new process is in the first unused entry, with the
    next pid, the place of the entry in the zero page cleared, and the working
    directory and umask of its parent, no other process and no other byte is
    touched, and the table and the queues stay well-formed. *)
Theorem proc_create_refines s Q ppid argc argv :
  table_ok s → sched_ok (pt_sched s) Q →
  let failed e h := Ok (inl (- e), PTable (pt_sched s) h (process_table s) (pt_zp s)) in
  proc_create ppid argc None s = failed EFAULT (pt_heap s) ∧
  (argc < 1 → proc_create ppid argc (Some argv) s = failed EINVAL (pt_heap s)) ∧
  (CONFIG_ARGC_MAX < argc → proc_create ppid argc (Some argv) s = failed E2BIG (pt_heap s)) ∧
  (1 ≤ argc ≤ CONFIG_ARGC_MAX → ∀ q h1, kmalloc_copy_argv argc argv (pt_heap s) = Ok (q, h1) →
   (q = 0 → proc_create ppid argc (Some argv) s = failed ENOMEM h1) ∧
   (q ≠ 0 → list_find (λ p, p = 0) (process_table s) = None →
      ∀ hf, kmalloc_user_free q h1 = Ok ((), hf) → proc_create ppid argc (Some argv) s = failed ENOMEM hf) ∧
   (q ≠ 0 → ∀ i p h2, list_find (λ p, p = 0) (process_table s) = Some (i, 0) →
      kmalloc_user_alloc sizeof_proc h1 = Ok (p, h2) →
      (p = 0 → ∀ hf, kmalloc_user_free q h2 = Ok ((), hf) → proc_create ppid argc (Some argv) s = failed ENOMEM hf) ∧
      (p ≠ 0 → user_space_ram_start ≤ p → p + sizeof_proc ≤ user_space_ram_end →
       procs (pt_sched s) !! p = None → ∀ cwd umask, inherits s ppid cwd umask →
       ∃ s', proc_create ppid argc (Some argv) s = Ok (inr p, s') ∧
         table_ok s' ∧ sched_ok (pt_sched s') Q ∧
         process_table s' = <[i := p]> (process_table s) ∧
         procs (pt_sched s') = <[p := child (Z.of_nat i) ppid q cwd umask]> (procs (pt_sched s)) ∧
         (∀ a, pt_zp s' !! a = if decide ((Z.of_nat i + 2) * 32 ≤ Z.of_nat a < (Z.of_nat i + 3) * 32)
                               then Some 0 else pt_zp s !! a) ∧
         free_blocks (pt_heap s') = free_blocks h2 ∧
         (∀ x, x < p ∨ p + sizeof_proc ≤ x →
               byte_at (um_mem (pt_heap s')) x = byte_at (um_mem h2) x)))).
Proof.
  intros Hs HQ failed. destruct (proc_create_refused s ppid argc argv) as (E1 & E2 & E3).
  split; [done|]. split; [done|]. split; [done|]. intros Harg q h1 Eq.
  pose proof (to_length s Hs) as Hlen. pose proof (to_zp s Hs) as Hz. split_and!.
  - intros ->. unfold proc_create. rewrite (proj2 (Z.ltb_ge _ _)), (proj2 (Z.ltb_ge _ _)) by lia.
    by rewrite (bind_ok _ _ _ _ _ (on_heap_ok _ _ _ _ Eq)).
  - intros Hq Hfind hf Ef. by apply (proc_create_full s ppid argc argv q h1).
  - intros Hq i p h2 Hfind Ep. split; [intros -> hf Ef; by eapply proc_create_no_block|].
    intros Hp Hlo Hhi Hfresh cwd umask Hin. pose proof (proj1 (list_find_Some _ _ _ _) Hfind) as (Hi & _ & _).
    pose proof (lookup_lt_Some _ _ _ Hi) as Hlt. unfold zlen, CONFIG_PROC_MAX in Hlen.
    eexists. split_and!; [by eapply proc_create_run|..].
    + apply table_ok_child; [done|by eapply inherits_cwd|done..].
    + by apply add_proc_ok.
    + done.
    + done.
    + intros a. cbn [pt_zp]. rewrite clear_page_lookup by (unfold PROC_ZP_SIZE; lia).
      unfold PROC_ZP_SIZE. repeat case_decide; (done || lia).
    + done.
    + intros x Hx. apply put_bytes_out. exact Hx.
Qed.
End Create.

(** ** The frame of a new process

    What the processor does with a stack of a process: rti pulls the flags and
    the program counter, rts pulls the program counter minus one. *)

Definition cpu_rti (S : Z) (stack : list Z) : res (Z * Z * Z) :=
  P ← rd stack (S + 1); lo ← rd stack (S + 2); hi ← rd stack (S + 3);
  Ok (P, lo + 256 * hi, u8 (S + 3)).
Definition cpu_rts (S : Z) (stack : list Z) : res (Z * Z) :=
  lo ← rd stack (S + 1); hi ← rd stack (S + 2); Ok (u16 (lo + 256 * hi + 1), u8 (S + 2)).

Section Frame.
Context {R : user_ram} {CA : code_addrs}.

Lemma word_bytes v : 0 ≤ v < 65536 → u8 v + 256 * u8 (Z.shiftr v 8) = v.
Proof.
  intros Hv. unfold u8. rewrite Z.shiftr_div_pow2 by lia. change (2 ^ 8) with 256.
  Z.div_mod_to_equations. lia.
Qed.

Definition frame (func stop : Z) : list Z :=
  let word v := [u8 v; u8 (Z.shiftr v 8)] in
  replicate 59 0 ++ [u8 0] ++ word (u16 (u16 (func + 1) - 1)) ++ word (u16 (stop - 1)).

Lemma frame_rti func stop : 0 ≤ func < 65536 → cpu_rti 58 (frame func stop) = Ok (0, func, 61).
Proof.
  intros Hf. assert (u16 (u16 (func + 1) - 1) = func) as E by (unfold u16; Z.div_mod_to_equations; lia).
  unfold frame. rewrite E. rewrite <- (word_bytes func Hf) at 3. reflexivity.
Qed.

Lemma frame_rts func stop : 0 ≤ stop < 65536 → cpu_rts 61 (frame func stop) = Ok (stop, 63).
Proof.
  intros Hs. change (cpu_rts 61 (frame func stop)) with
    (Ok (u16 (u8 (u16 (stop - 1)) + 256 * u8 (Z.shiftr (u16 (stop - 1)) 8) + 1), 63)).
  rewrite word_bytes by (unfold u16; Z.div_mod_to_equations; lia).
  do 2 f_equal. unfold u16. Z.div_mod_to_equations. lia.
Qed.

Definition entered (func argc : Z) (pr : proc) : proc :=
  set_AX argc (set_stack 58 (frame func addr_proc_stop) pr).

(** The state with [pr] as the process [p]. *)
Definition with_proc (s : ptable) (p : Z) (pr : proc) : ptable :=
  PTable (Sched (<[p := pr]> (procs (pt_sched s))) (queues (pt_sched s)) (current_proc (pt_sched s))
            (sem_values (pt_sched s))) (pt_heap s) (process_table s) (pt_zp s).

Lemma with_proc_id s p pr : procs (pt_sched s) !! p = Some pr → with_proc s p pr = s.
Proof. intros Hp. destruct s as [[ps qs cur sems] hp tb zp]. unfold with_proc. simpl in *. by rewrite insert_id. Qed.

Lemma with_proc_get s p pr : on_sched (get_proc p) (with_proc s p pr) = Ok (pr, with_proc s p pr).
Proof. apply (on_sched_ok _ (with_proc s p pr)), get_proc_ok, lookup_insert_eq. Qed.

Lemma with_proc_upd s p pr f : on_sched (upd_proc p f) (with_proc s p pr) = Ok ((), with_proc s p (f pr)).
Proof.
  rewrite (on_sched_ok _ (with_proc s p pr) _ _ (upd_proc_ok _ _ pr f (lookup_insert_eq _ _ _))).
  unfold with_proc. cbn [pt_sched procs queues current_proc sem_values pt_heap process_table pt_zp].
  by rewrite insert_insert_eq.
Qed.

Lemma with_proc_res s p pr pr' f : f pr = Ok pr' →
  upd_proc_res p f (with_proc s p pr) = Ok ((), with_proc s p pr').
Proof.
  intros Hf. unfold upd_proc_res. rewrite (bind_ok _ _ _ _ _ (with_proc_get s p pr)), Hf.
  transitivity (Ok ((), with_proc (with_proc s p pr) p pr')); [reflexivity|].
  unfold with_proc. cbn [pt_sched procs queues current_proc sem_values pt_heap process_table pt_zp].
  by rewrite insert_insert_eq.
Qed.

Lemma with_proc_arg2 s p pr v :
  0 ≤ p_zp pr → p_zp pr + 4 ≤ zlen (pt_zp s) →
  ∃ zp, proc_set_arg2 p v (with_proc s p pr) =
    Ok ((), PTable (pt_sched (with_proc s p pr)) (pt_heap s) (process_table s) zp) ∧
    memcpy (pt_zp s) (p_zp pr + 2) [u8 v; u8 (Z.shiftr v 8)] 2 = Ok zp.
Proof.
  intros H0 H1. unfold proc_set_arg2. rewrite (bind_ok _ _ _ _ _ (with_proc_get s p pr)).
  unfold put_zp. cbn [with_proc pt_zp]. change (zlen [_; _]) with 2.
  destruct (memcpy (pt_zp s) _ _ 2) as [zp|] eqn:E; [by eexists|].
  exfalso. unfold memcpy in E. change (zlen [_; _]) with 2 in E.
  destruct (_ && _) eqn:Hb in E; [done|]. lia.
Qed.

(** A process of proc_create_internal() is at the end of the run queue with
    a stack from which the context switch (rti) enters the function with cleared
    flags, argc in A:X and argv in the second argument register; when the
    function returns (rts), it enters proc_stop() with an empty stack. *)
Theorem proc_create_internal_frame s s1 Q ppid func argc argv p i cwd umask q :
  proc_create ppid argc (Some argv) s = Ok (inr p, s1) →
  sched_ok (pt_sched s1) Q → zlen (pt_zp s1) = 256 → 0 ≤ i < CONFIG_PROC_MAX →
  procs (pt_sched s1) !! p = Some (child i ppid q cwd umask) →
  0 ≤ func < 65536 → 0 ≤ addr_proc_stop < 65536 →
  ∃ s' pr, proc_create_internal ppid func argc (Some argv) s = Ok ((i + 1, Some p), s') ∧
    sched_ok (pt_sched s') (<[QRun := Q !!! QRun ++ [p]]> Q) ∧
    procs (pt_sched s') !! p = Some pr ∧ p_argv pr = q ∧
    p_context pr = p_context (entered func argc (child i ppid q cwd umask)) ∧
    cpu_rti (ctx_S (p_context pr)) (ctx_stack (p_context pr)) = Ok (0, func, 61) ∧
    cpu_rts 61 (ctx_stack (p_context pr)) = Ok (addr_proc_stop, CONFIG_RETURN_STACK_SIZE - 1) ∧
    memcpy (pt_zp s1) (p_zp pr + 2) [u8 q; u8 (Z.shiftr q 8)] 2 = Ok (pt_zp s') ∧
    (∀ p', p' ≠ p → procs (pt_sched s') !! p' = procs (pt_sched s1) !! p').
Proof.
  intros E HQ Hz Hi Hp Hf Hstop. unfold proc_create_internal. erewrite (bind_ok _ _ _ _ _ E).
  set (pr0 := child i ppid q cwd umask) in *. pose proof (with_proc_upd s1 p pr0
    (λ pr, set_stack (CONFIG_RETURN_STACK_SIZE - 1) (ctx_stack (p_context pr)) pr)) as E1.
  rewrite (with_proc_id s1 p pr0 Hp) in E1. rewrite (bind_ok _ _ _ _ _ E1). set (pr1 := set_stack _ _ pr0).
  set (pr4 := set_stack 58 (frame func addr_proc_stop) pr0).
  assert (∃ pr2 pr3, push_return addr_proc_stop pr1 = Ok pr2 ∧ push_return (u16 (func + 1)) pr2 = Ok pr3 ∧
    push_byte 0 pr3 = Ok pr4) as (pr2 & pr3 & E2 & E3 & E4) by (do 2 eexists; split_and!; reflexivity).
  unfold proc_push_return_stack, proc_push_byte.
  rewrite (bind_ok _ _ _ _ _ (with_proc_res s1 p _ _ _ E2)), (bind_ok _ _ _ _ _ (with_proc_res s1 p _ _ _ E3)),
    (bind_ok _ _ _ _ _ (with_proc_res s1 p _ _ _ E4)), (bind_ok _ _ _ _ _ (with_proc_upd s1 p pr4 _)).
  set (pr5 := set_AX argc pr4). rewrite (bind_ok _ _ _ _ _ (with_proc_get s1 p pr5)).
  assert (p_zp pr5 = (i + 2) * 32) as Ez by done.
  destruct (with_proc_arg2 s1 p pr5 (p_argv pr5)) as (zp & E6 & Hzp); [rewrite Ez; unfold CONFIG_PROC_MAX in *; lia..|].
  rewrite (bind_ok _ _ _ _ _ E6).
  assert (sched_ok (pt_sched (with_proc s1 p pr5)) Q) as HQ5 by by eapply sched_ok_quiet.
  assert (∀ k, p ∉ Q !!! k) as Hno.
  { intros [|sem] Hin.
    - by apply (so_running _ _ HQ5 p pr5 (lookup_insert_eq _ _ _)) in Hin.
    - by destruct (so_waiting _ _ HQ5 sem p pr5 Hin (lookup_insert_eq _ _ _)). }
  destruct (sched_set_runnable_spec _ Q p pr5 HQ5 (lookup_insert_eq _ _ _)) as (t' & E7 & HQ7); [done|done|].
  set (s6 := PTable (pt_sched (with_proc s1 p pr5)) (pt_heap s1) (process_table s1) zp).
  rewrite (bind_ok _ _ _ _ _ (on_sched_ok _ s6 _ _ E7)).
  eexists _, (set_state PROC_RUNNING pr5). split_and!; [reflexivity|exact HQ7|..].
  - apply lookup_insert_eq.
  - done.
  - done.
  - by apply frame_rti.
  - by apply frame_rts.
  - exact Hzp.
  - intros p' Hne. cbn. by rewrite !lookup_insert_ne.
Qed.
End Frame.

(** ** Witnesses: the creation of the shell on the eater target *)

#[local] Existing Instance eater_ram.
#[local] Existing Instance eater_ram_ok.
#[local] Instance w_code : code_addrs := {| addr_proc_stop := 0xC123; addr_shell_start := 0xD000 |}.

Definition w_table : ptable := PTable sched_boot w_booted (replicate 6 0) (replicate 256 0xEA).

Lemma w_table_ok : table_ok w_table.
Proof. split; [done|done|]. by intros i p [-> _]%lookup_replicate. Qed.

Definition w_args : uheap :=
  match kmalloc_copy_argv 1 shell_argv w_booted with Ok (_, h) => h | Err _ => w_booted end.
Definition w_block : uheap :=
  match kmalloc_user_alloc sizeof_proc w_args with Ok (_, h) => h | Err _ => w_args end.

Lemma w_args_eq : kmalloc_copy_argv 1 shell_argv w_booted = Ok (0x1004, w_args).
Proof. apply (run_result _ 0xFFFF); [vm_compute; reflexivity|discriminate]. Qed.
Lemma w_block_eq : kmalloc_user_alloc sizeof_proc w_args = Ok (0x1038, w_block).
Proof. apply (run_result _ 0xFFFF); [vm_compute; reflexivity|discriminate]. Qed.

Lemma proc_create_refines_witness :
  (∃ s', proc_create 0 1 (Some shell_argv) w_table = Ok (inr 0x1038, s') ∧
     table_ok s' ∧ sched_ok (pt_sched s') {[QRun := []]} ∧ process_table s' = [0x1038; 0; 0; 0; 0; 0]) ∧
  proc_create 0 100 (Some shell_argv) w_table = Ok (inl (- E2BIG), w_table).
Proof.
  pose proof (proc_create_refines w_table {[QRun := []]} 0) as H. split.
  - destruct (H 1 shell_argv w_table_ok sched_boot_ok) as (_ & _ & _ & H1).
    destruct (H1 ltac:(done) 0x1004 w_args w_args_eq) as (_ & _ & H2).
    destruct (H2 ltac:(done) 0%nat 0x1038 w_block eq_refl w_block_eq) as [_ H3].
    destruct (H3 ltac:(done) ltac:(done) ltac:(done) eq_refl root_cwd 0x12 (or_introl (conj eq_refl (conj eq_refl eq_refl))))
      as (s' & E & Hs & HQ & Ht & _).
    exists s'. exact (conj E (conj Hs (conj HQ Ht))).
  - destruct (H 100 shell_argv w_table_ok sched_boot_ok) as (_ & _ & H1 & _). apply H1. reflexivity.
Defined.
