(* ===== verification/Kern.v ===== *)
(** The state that the file system layers of the kernel share: the buffer
    cache of os/kmalloc.c with the structures that live in it (struct inode,
    struct ramfs_dirent, struct ramfs_data, struct fatfs_inode_info), the
    global file table of os/file.c, the current process, the clocks of
    os/time.c and the console; and the buffer cache operations.

    Buffers are named by their position in buffers[], from 1; 0 is NULL.  A
    buffer knows what it holds, so that the use of a free buffer, or of one
    that holds another structure, is a fault.  A buffer that has been
    allocated and not written reads as zeroes of any type. *)
From S2P Require Import Prelude CDefs Sched.

(** ** Structures of the buffer cache *)

(** The inode operation tables: ramfs_operations and fatfs_operations. *)
Inductive iop := IopNull | IopRam | IopFat.

#[export] Instance iop_eq_dec : EqDecision iop.
Proof. solve_decision. Defined.

(** struct inode.  The members of its union share two words: [i_u0] is
    fatfs_info, ramfs_file.data, ramfs_dir or device, and [i_u1] is
    ramfs_file.size or ramfs_mount. *)
Record inode := Inode {
  i_op : iop;
  i_count : Z;
  i_mode : Z;
  i_mtime : Z;
  i_u0 : Z;
  i_u1 : Z;
}.

Record ramfs_dirent := RamfsDirent {
  d_namelen : Z;
  d_name : list Z;
  d_inode : Z;
  d_next : Z;
}.

Record ramfs_data := RamfsData { r_data : list Z; r_next : Z }.

Record fatfs_inode_info := FatfsInfo {
  fi_first_cluster : Z;
  fi_size : Z;
  fi_cluster : Z;
  fi_block : Z;
  fi_offset : Z;         (* 9 bits *)
  fi_blocks_left : Z;    (* 7 bits *)
}.

Inductive buffer :=
  | BFree (next : Z)
  | BZero
  | BInode (i : inode)
  | BDirent (d : ramfs_dirent)
  | BData (d : ramfs_data)
  | BFatInfo (i : fatfs_inode_info).

Definition inode_zero : inode := Inode IopNull 0 0 0 0 0.
Definition dirent_zero : ramfs_dirent := RamfsDirent 0 (replicate 13 0) 0 0.
Definition data_zero : ramfs_data := RamfsData (replicate 16 0) 0.
Definition fatfs_info_zero : fatfs_inode_info := FatfsInfo 0 0 0 0 0 0.

Definition with_op v i := Inode v (i_count i) (i_mode i) (i_mtime i) (i_u0 i) (i_u1 i).
Definition with_count v i := Inode (i_op i) v (i_mode i) (i_mtime i) (i_u0 i) (i_u1 i).
Definition with_mode v i := Inode (i_op i) (i_count i) v (i_mtime i) (i_u0 i) (i_u1 i).
Definition with_mtime v i := Inode (i_op i) (i_count i) (i_mode i) v (i_u0 i) (i_u1 i).
Definition with_u0 v i := Inode (i_op i) (i_count i) (i_mode i) (i_mtime i) v (i_u1 i).
Definition with_u1 v i := Inode (i_op i) (i_count i) (i_mode i) (i_mtime i) (i_u0 i) v.
Definition with_next v d := RamfsDirent (d_namelen d) (d_name d) (d_inode d) v.

(** ** Open files *)

(** The file operation tables of the kernel. *)
Inductive fop :=
  | FopNull
  | FopRamDir          (* ramfs_dir_operations *)
  | FopFatDir          (* fatfs_dir_operations *)
  | FopFatFile         (* fatfs_file_operations *)
  | FopDevNull         (* dev_null_operations *)
  | FopDevZero         (* dev_zero_operations *)
  | FopDevFull         (* dev_full_operations *)
  | FopBasicTty        (* basic_tty_operations *)
  | FopRawTty.         (* raw_tty_operations *)

#[export] Instance fop_eq_dec : EqDecision fop.
Proof. solve_decision. Defined.

Record file := File {
  f_count : Z;           (* a signed char: 6 * (8 + 2) < 127 *)
  f_flags : Z;
  f_mode : Z;
  f_op : fop;
  f_inode : Z;
  f_fatfs_info : Z;
  f_posn : Z;
}.

Definition fset_count v f :=
  File v (f_flags f) (f_mode f) (f_op f) (f_inode f) (f_fatfs_info f) (f_posn f).
Definition fset_flags v f :=
  File (f_count f) v (f_mode f) (f_op f) (f_inode f) (f_fatfs_info f) (f_posn f).
Definition fset_mode v f :=
  File (f_count f) (f_flags f) v (f_op f) (f_inode f) (f_fatfs_info f) (f_posn f).
Definition fset_op v f :=
  File (f_count f) (f_flags f) (f_mode f) v (f_inode f) (f_fatfs_info f) (f_posn f).
Definition fset_inode v f :=
  File (f_count f) (f_flags f) (f_mode f) (f_op f) v (f_fatfs_info f) (f_posn f).
Definition fset_info v f :=
  File (f_count f) (f_flags f) (f_mode f) (f_op f) (f_inode f) v (f_posn f).
Definition fset_posn v f :=
  File (f_count f) (f_flags f) (f_mode f) (f_op f) (f_inode f) (f_fatfs_info f) v.

(** ** The block device

    What the FAT file system uses of os/drivers/sdcard: the state of the
    driver, its operations, and the fields of sd_info. *)
Class sdcard := {
  sd_state : Type;
  sd_init : M sd_state ();
  sd_detect : M sd_state Z;
  sd_cache_read : Z → M sd_state Z;
  sd_cluster_to_block : Z → sd_state → Z;
  sd_block : sd_state → list Z;
  sd_fat1 : sd_state → Z;
  sd_root : sd_state → Z;
  sd_cluster_size : sd_state → Z;
  sd_cluster_count : sd_state → Z;
  have_sd : bool;        (* CONFIG_SD and CONFIG_SPI are defined *)
}.

(** ** The state *)

Record kern {SD : sdcard} := Kern {
  k_bufs : gmap Z buffer;       (* buffers[] *)
  k_free : Z;                   (* free_buffers *)
  k_files : list file;          (* global_fd[] *)
  k_root : Z;                   (* root inode of the RAM filesystem *)
  k_temp : list Z;              (* temp_path[] *)
  k_proc : proc;                (* *current_proc *)
  k_mono : Z;                   (* monotonic clock, in 1/256 seconds *)
  k_real : Z;                   (* realtime *)
  k_in : list Z;                (* characters that __chrin() will return *)
  k_out : list Z;               (* characters given to __chrout() *)
  k_sd : sd_state;
}.
Arguments kern : clear implicits.
Arguments kern {SD}.

Section State.
Context {SD : sdcard}.
Implicit Types (k : kern) (p : Z).

Definition set_bufs v k := Kern SD v (k_free k) (k_files k) (k_root k) (k_temp k)
  (k_proc k) (k_mono k) (k_real k) (k_in k) (k_out k) (k_sd k).
Definition set_free v k := Kern SD (k_bufs k) v (k_files k) (k_root k) (k_temp k)
  (k_proc k) (k_mono k) (k_real k) (k_in k) (k_out k) (k_sd k).
Definition set_files v k := Kern SD (k_bufs k) (k_free k) v (k_root k) (k_temp k)
  (k_proc k) (k_mono k) (k_real k) (k_in k) (k_out k) (k_sd k).
Definition set_root v k := Kern SD (k_bufs k) (k_free k) (k_files k) v (k_temp k)
  (k_proc k) (k_mono k) (k_real k) (k_in k) (k_out k) (k_sd k).
Definition set_temp v k := Kern SD (k_bufs k) (k_free k) (k_files k) (k_root k) v
  (k_proc k) (k_mono k) (k_real k) (k_in k) (k_out k) (k_sd k).
Definition set_cur v k := Kern SD (k_bufs k) (k_free k) (k_files k) (k_root k) (k_temp k)
  v (k_mono k) (k_real k) (k_in k) (k_out k) (k_sd k).
Definition set_real v k := Kern SD (k_bufs k) (k_free k) (k_files k) (k_root k) (k_temp k)
  (k_proc k) (k_mono k) v (k_in k) (k_out k) (k_sd k).
Definition set_in v k := Kern SD (k_bufs k) (k_free k) (k_files k) (k_root k) (k_temp k)
  (k_proc k) (k_mono k) (k_real k) v (k_out k) (k_sd k).
Definition set_out v k := Kern SD (k_bufs k) (k_free k) (k_files k) (k_root k) (k_temp k)
  (k_proc k) (k_mono k) (k_real k) (k_in k) v (k_sd k).
Definition set_sd v k := Kern SD (k_bufs k) (k_free k) (k_files k) (k_root k) (k_temp k)
  (k_proc k) (k_mono k) (k_real k) (k_in k) (k_out k) v.

(** Buffers, through a pointer. *)
Definition get_buf p : M kern buffer := λ k,
  if p =? 0 then Err FNull
  else match k_bufs k !! p with Some b => Ok (b, k) | None => Err FWild end.
Definition set_buf p (b : buffer) : M kern () :=
  modify (λ k, set_bufs (<[p := b]> (k_bufs k)) k).

Definition get_inode p : M kern inode :=
  b ← get_buf p;
  match b with
  | BInode i => mret i
  | BZero => mret inode_zero
  | _ => fail FWild
  end.
Definition upd_inode p (f : inode → inode) : M kern () :=
  i ← get_inode p; set_buf p (BInode (f i)).

Definition get_dirent p : M kern ramfs_dirent :=
  b ← get_buf p;
  match b with
  | BDirent d => mret d
  | BZero => mret dirent_zero
  | _ => fail FWild
  end.
Definition upd_dirent p (f : ramfs_dirent → ramfs_dirent) : M kern () :=
  d ← get_dirent p; set_buf p (BDirent (f d)).

Definition get_data p : M kern ramfs_data :=
  b ← get_buf p;
  match b with
  | BData d => mret d
  | BZero => mret data_zero
  | _ => fail FWild
  end.

Definition get_info p : M kern fatfs_inode_info :=
  b ← get_buf p;
  match b with
  | BFatInfo i => mret i
  | BZero => mret fatfs_info_zero
  | _ => fail FWild
  end.
Definition set_info p (i : fatfs_inode_info) : M kern () :=
  _ ← get_info p; set_buf p (BFatInfo i).

(** Open files, through a pointer into global_fd[]. *)
Definition get_file (f : nat) : M kern file := λ k,
  match k_files k !! f with Some x => Ok (x, k) | None => Err FWild end.
Definition upd_file (f : nat) (g : file → file) : M kern () :=
  x ← get_file f; modify (λ k, set_files (<[f := g x]> (k_files k)) k).

Definition on_sd {A} (m : M sd_state A) : M kern A := λ k,
  match m (k_sd k) with
  | Ok (a, s) => Ok (a, set_sd s k)
  | Err e => Err e
  end.

(** ** The buffer cache of os/kmalloc.c *)

(** SLIST_INSERT_HEAD and SLIST_REMOVE_HEAD on free_buffers.  Linking a buffer
    into the free list overwrites what it held. *)
Definition free_insert_head p : M kern () :=
  _ ← get_buf p;
  first ← gets k_free;
  _ ← set_buf p (BFree first);
  modify (set_free p).
Definition free_remove_head : M kern () :=
  first ← gets k_free;
  b ← get_buf first;
  match b with
  | BFree nxt => modify (set_free nxt)
  | _ => fail FWild
  end.

Fixpoint kmalloc_init_loop (n : nat) (index : Z) : M kern () :=
  match n with
  | O => mret ()
  | S n => _ ← free_insert_head (index + 1); kmalloc_init_loop n (index + 1)
  end.

(** The part of kmalloc_init() that sets up the buffer cache. *)
Definition kmalloc_init_bufs : M kern () :=
  _ ← modify (set_free 0);
  kmalloc_init_loop (Z.to_nat CONFIG_NUM_BUFFERS) 0.

Definition kmalloc_buf_alloc : M kern Z :=
  buf ← gets k_free;
  if negb (buf =? 0) then
    _ ← free_remove_head;
    _ ← set_buf buf BZero;
    mret buf
  else mret 0.

Definition kmalloc_buf_free p : M kern () :=
  if negb (p =? 0) then free_insert_head p else mret ().

(** ** Clocks (os/time.c) *)

Definition inode_get_mtime : M kern Z :=
  t ← gets k_mono;
  real ← gets k_real;
  mret (s32 (Z.shiftr (s64 (t + real)) 8)).
End State.
