(* ===== verification/BufCache.v ===== *)
(** The buffer cache: its invariant, and what allocation and release promise
    to the file system layers. *)
From S2P Require Import Prelude CDefs Sched Kern.

(** The free list from [p] holds the buffers [F]. *)
Fixpoint free_chain (B : gmap Z buffer) (p : Z) (F : list Z) : Prop :=
  match F with
  | [] => p = 0
  | q :: F => p = q ∧ q ≠ 0 ∧ ∃ n, B !! q = Some (BFree n) ∧ free_chain B n F
  end.

Lemma free_chain_hd B p F : free_chain B p F → p = hd 0 F.
Proof. destruct F; simpl; naive_solver. Qed.

(** A change to a buffer that is not on the list keeps it. *)
Lemma free_chain_insert B p F q b :
  q ∉ F → free_chain B p F → free_chain (<[q := b]> B) p F.
Proof.
  revert p. induction F as [|x F IH]; intros p Hq; simpl; [done|].
  intros (-> & Hx & n & Hn & Hc). apply not_elem_of_cons in Hq as [Hqx Hq].
  split_and!; [done..|]. exists n. rewrite lookup_insert_ne by done. auto.
Qed.

Lemma free_chain_free B p F q : free_chain B p F → q ∈ F → ∃ n, B !! q = Some (BFree n).
Proof.
  revert p. induction F as [|x F IH]; intros p; simpl; [by intros _ ?%elem_of_nil|].
  intros (-> & _ & n & Hn & Hc) [-> | Hq]%elem_of_cons; [eauto|by eapply IH].
Qed.

Lemma free_chain_not_free B p F q b :
  free_chain B p F → B !! q = Some b → (∀ n, b ≠ BFree n) → q ∉ F.
Proof. intros Hc Hb Hn Hq. destruct (free_chain_free _ _ _ _ Hc Hq) as [n ?]. naive_solver. Qed.

Section Spec.
Context {SD : sdcard}.
Implicit Types (k : kern) (F : list Z).

(** Every free buffer is on the free list, once, and nothing else is. *)
Record bufs_ok k F : Prop := {
  bo_chain : free_chain (k_bufs k) (k_free k) F;
  bo_nodup : NoDup F;
  bo_all : ∀ p n, k_bufs k !! p = Some (BFree n) → p ∈ F;
  bo_dom : ∀ p, is_Some (k_bufs k !! p) ↔ 1 ≤ p ≤ CONFIG_NUM_BUFFERS;
}.

(** The states after the allocation and after the release of [p]. *)
Definition alloc_state p F k := set_free (hd 0 F) (set_bufs (<[p := BZero]> (k_bufs k)) k).
Definition free_state p k := set_free p (set_bufs (<[p := BFree (k_free k)]> (k_bufs k)) k).

Lemma set_bufs_set_bufs v w k : set_bufs v (set_bufs w k) = set_bufs v k.
Proof. by destruct k. Qed.
Lemma set_bufs_id k : set_bufs (k_bufs k) k = k.
Proof. by destruct k. Qed.
Lemma set_free_id k : set_free (k_free k) k = k.
Proof. by destruct k. Qed.

Lemma get_buf_ok p b k : p ≠ 0 → k_bufs k !! p = Some b → get_buf p k = Ok (b, k).
Proof. intros Hp Hb. unfold get_buf. by rewrite (proj2 (Z.eqb_neq p 0) Hp), Hb. Qed.

Lemma bufs_ok_ne0 k F p b : bufs_ok k F → k_bufs k !! p = Some b → p ≠ 0.
Proof. intros Hk Hb. pose proof (proj1 (bo_dom _ _ Hk p) ltac:(eauto)). lia. Qed.

Lemma bufs_ok_frame k k' F :
  k_bufs k' = k_bufs k → k_free k' = k_free k → bufs_ok k F → bufs_ok k' F.
Proof. intros E1 E2 []. split; by rewrite ?E1, ?E2. Qed.

(** Writing to a buffer in use. *)
Lemma bufs_ok_write k F p b b' :
  bufs_ok k F → k_bufs k !! p = Some b → (∀ n, b ≠ BFree n) → (∀ n, b' ≠ BFree n) →
  bufs_ok (set_bufs (<[p := b']> (k_bufs k)) k) F.
Proof.
  intros [Hc Hn Ha Hd] Hb Hnf Hnf'. pose proof (free_chain_not_free _ _ _ _ _ Hc Hb Hnf).
  split; simpl; [by apply free_chain_insert|done| |].
  - intros q n. rewrite lookup_insert_Some. naive_solver.
  - intros q. rewrite <- Hd, !lookup_insert_is_Some'. naive_solver.
Qed.

Lemma kmalloc_buf_alloc_nil k : bufs_ok k [] → kmalloc_buf_alloc k = Ok (0, k).
Proof. intros [Hc _ _ _]. simpl in Hc. unfold kmalloc_buf_alloc. mstep by done. by rewrite Hc. Qed.

Lemma kmalloc_buf_alloc_cons k p F :
  bufs_ok k (p :: F) →
  kmalloc_buf_alloc k = Ok (p, alloc_state p F k) ∧ bufs_ok (alloc_state p F k) F.
Proof.
  intros [(Hp & Hp0 & n & Hn & Hc) Hnd Hall Hd]. apply NoDup_cons in Hnd as [Hni Hnd].
  pose proof (free_chain_hd _ _ _ Hc) as ->. split.
  - unfold kmalloc_buf_alloc, free_remove_head. mstep by done. rewrite Hp.
    rewrite (proj2 (Z.eqb_neq p 0) Hp0). cbn [negb].
    mstep by (mstep by done; rewrite Hp; mstep by (by apply get_buf_ok); done).
    mstep by done. by destruct k.
  - split; simpl; [by apply free_chain_insert|done| |].
    + intros q m. rewrite lookup_insert_Some. intros [[_ ?]|[? Hq]]; [done|].
      apply Hall in Hq. by apply elem_of_cons in Hq as [->|].
    + intros q. rewrite <- Hd, lookup_insert_is_Some'. naive_solver.
Qed.

Lemma kmalloc_buf_free_spec k F p b :
  bufs_ok k F → k_bufs k !! p = Some b → (∀ n, b ≠ BFree n) →
  kmalloc_buf_free p k = Ok ((), free_state p k) ∧ bufs_ok (free_state p k) (p :: F).
Proof.
  intros Hk Hb Hnf. pose proof (bufs_ok_ne0 _ _ _ _ Hk Hb) as Hp0.
  destruct Hk as [Hc Hnd Hall Hd].
  pose proof (free_chain_not_free _ _ _ _ _ Hc Hb Hnf) as Hp. split.
  - unfold kmalloc_buf_free, free_insert_head. rewrite (proj2 (Z.eqb_neq p 0) Hp0). cbn [negb].
    mstep by (by apply get_buf_ok). by destruct k.
  - split; simpl.
    + split_and!; [done..|]. eexists. rewrite lookup_insert_eq. split; [done|].
      by apply free_chain_insert.
    + by constructor.
    + intros q m. rewrite lookup_insert_Some. intros [[-> _]|[_ Hq]]; [by left|right; eauto].
    + intros q. rewrite <- Hd, lookup_insert_is_Some'. naive_solver.
Qed.

Lemma kmalloc_buf_free_null k : kmalloc_buf_free 0 k = Ok ((), k).
Proof. done. Qed.

(** Freeing the buffer that was just allocated restores the state. *)
Lemma free_alloc_state k p F :
  bufs_ok k (p :: F) → free_state p (alloc_state p F k) = k.
Proof.
  intros [(Hp & Hp0 & n & Hn & Hc) _ _ _]. pose proof (free_chain_hd _ _ _ Hc) as ->.
  unfold free_state, alloc_state. destruct k; simpl in *. rewrite insert_insert_eq, insert_id by done. by subst.
Qed.

(** ** Initialisation *)

Lemma kmalloc_init_loop_spec n i k F :
  0 ≤ i → (i + Z.of_nat n = CONFIG_NUM_BUFFERS) →
  free_chain (k_bufs k) (k_free k) F → NoDup F → (∀ p, p ∈ F → 1 ≤ p ≤ i) →
  (∀ p n, k_bufs k !! p = Some (BFree n) → i < p ∨ p ∈ F) →
  (∀ p, is_Some (k_bufs k !! p) ↔ 1 ≤ p ≤ CONFIG_NUM_BUFFERS) →
  ∃ k', kmalloc_init_loop n i k = Ok ((), k') ∧
    bufs_ok k' (rev (seqZ (i + 1) (Z.of_nat n)) ++ F) ∧
    k' = set_free (k_free k') (set_bufs (k_bufs k') k).
Proof.
  revert i k F. induction n as [|n IH]; intros i k F Hi Hin Hc Hnd HF Hall Hd.
  { exists k. split; [done|]. split; [|by destruct k]. split; simpl; [done..| |done].
    intros p m Hp. destruct (Hall p m Hp); [|done].
    pose proof (proj1 (Hd p) ltac:(eauto)). lia. }
  assert (is_Some (k_bufs k !! (i + 1))) as [b Hb] by (apply Hd; lia).
  assert (i + 1 ∉ F) as HiF by (intros ?%HF; lia).
  destruct (IH (i + 1) (free_state (i + 1) k) ((i + 1) :: F)) as (k' & E & Hk' & Hsame); simpl.
  - lia.
  - lia.
  - split_and!; [done|lia|]. eexists. rewrite lookup_insert_eq. split; [done|].
    by apply free_chain_insert.
  - by constructor.
  - intros p [->|?%HF]%elem_of_cons; lia.
  - intros p m. rewrite lookup_insert_Some. intros [[<- _]|[? Hp]]; [right; by left|].
    destruct (Hall _ _ Hp); [left; lia|right; by right].
  - intros p. rewrite <- Hd, lookup_insert_is_Some'. naive_solver.
  - exists k'. split.
    + cbn [kmalloc_init_loop]. unfold free_insert_head.
      mstep by (mstep by (apply get_buf_ok; [lia|done]); by destruct k). exact E.
    + split; [|rewrite Hsame; by destruct k]. replace (Z.of_nat (S n)) with (Z.succ (Z.of_nat n)) by lia.
      rewrite seqZ_cons by lia. simpl. rewrite <- app_assoc.
      replace (Z.pred (Z.succ (Z.of_nat n))) with (Z.of_nat n) by lia.
      by replace (Z.succ (i + 1)) with (i + 1 + 1) by lia.
Qed.

Lemma kmalloc_init_bufs_spec k :
  (∀ p, is_Some (k_bufs k !! p) ↔ 1 ≤ p ≤ CONFIG_NUM_BUFFERS) →
  ∃ k', kmalloc_init_bufs k = Ok ((), k') ∧
    bufs_ok k' (rev (seqZ 1 CONFIG_NUM_BUFFERS)) ∧
    k' = set_free (k_free k') (set_bufs (k_bufs k') k).
Proof.
  intros Hd. unfold kmalloc_init_bufs. mstep by done.
  destruct (kmalloc_init_loop_spec (Z.to_nat CONFIG_NUM_BUFFERS) 0 (set_free 0 k) [])
    as (k' & E & Hk' & Hsame); simpl; try done; [constructor|by intros ? ?%elem_of_nil| |].
  - intros p n Hp. left. pose proof (proj1 (Hd p) ltac:(eauto)). lia.
  - exists k'. split; [exact E|]. rewrite app_nil_r in Hk'. split; [done|].
    rewrite Hsame. by destruct k.
Qed.

(** A buffer is allocated exactly when one is free; it was not in use, is
    cleared, and no other buffer changes; otherwise the result is NULL. *)
Theorem kmalloc_buf_alloc_refines k F :
  bufs_ok k F →
  match F with
  | [] => kmalloc_buf_alloc k = Ok (0, k)
  | p :: F => kmalloc_buf_alloc k = Ok (p, alloc_state p F k) ∧ bufs_ok (alloc_state p F k) F
  end.
Proof. destruct F; [apply kmalloc_buf_alloc_nil|apply kmalloc_buf_alloc_cons]. Qed.

(** freeing a buffer in use makes it available again and keeps the free
    list without duplicates; freeing NULL does nothing; allocating and freeing
    restores the state. *)
Theorem kmalloc_buf_free_refines k F p b :
  bufs_ok k F → k_bufs k !! p = Some b → (∀ n, b ≠ BFree n) →
  kmalloc_buf_free p k = Ok ((), free_state p k) ∧ bufs_ok (free_state p k) (p :: F) ∧
  kmalloc_buf_free 0 k = Ok ((), k) ∧
  (∀ q F', F = q :: F' → kmalloc_buf_free q (alloc_state q F' k) = Ok ((), k)).
Proof.
  intros Hk Hb Hnf. destruct (kmalloc_buf_free_spec _ _ _ _ Hk Hb Hnf) as [E1 H1].
  split_and!; [done..|]. intros q F' ->. destruct (kmalloc_buf_alloc_cons _ _ _ Hk) as [_ Hk1].
  destruct (kmalloc_buf_free_spec _ _ q BZero Hk1) as [E2 _]; [simpl; by rewrite lookup_insert_eq|done|].
  rewrite E2. by rewrite (free_alloc_state _ _ _ Hk).
Qed.
End Spec.
