(* ===== verification/Inode.v ===== *)
(** Inodes (os/inode.c) without path walking, and the release of inodes by the
    two filesystems: allocation, reference counting, access checks.

    The first half translates the code; the second half gives the buffer cache
    and the reference counts their specifications, which the filesystem layers
    are proved against. *)
From S2P Require Import Prelude CDefs Sched Kern.

Section Code.
Context {SD : sdcard}.
Implicit Types (k : kern) (p : Z).

Definition inode_alloc (operations : iop) : M kern Z :=
  inode ← kmalloc_buf_alloc;
  if negb (inode =? 0) then
    _ ← upd_inode inode (with_count 1);
    _ ← upd_inode inode (with_op operations);
    mret inode
  else mret inode.

Definition inode_ref p : M kern () :=
  upd_inode p (λ i, with_count (s16 (i_count i + 1)) i).

(** ** Release (os/fs/ram/ramfs.c and os/fs/fat/fatfs.c) *)

Definition ramfs_is_dot (d : ramfs_dirent) : res bool :=
  if negb (d_namelen d =? 1) then Ok false
  else c ← rd (d_name d) 0; Ok (c =? CH_DOT).

Definition ramfs_is_dot_dot (d : ramfs_dirent) : res bool :=
  if negb (d_namelen d =? 2) then Ok false
  else
    c ← rd (d_name d) 0;
    if negb (c =? CH_DOT) then Ok false
    else c ← rd (d_name d) 1; Ok (c =? CH_DOT).

(** The two loops of ramfs_release(), over the directory entries of a
    directory and over the data of a file.  A list in the buffer cache has
    at most CONFIG_NUM_BUFFERS elements. *)
Definition list_fuel : nat := S (Z.to_nat CONFIG_NUM_BUFFERS).

Fixpoint release_dirents (deref : Z → M kern Z) (fuel : nat) (current : Z) : M kern () :=
  match fuel with
  | O => fail FFuel
  | S fuel =>
      if current =? 0 then mret ()
      else
        d ← get_dirent current;
        isdot ← lift (ramfs_is_dot d);
        isdotdot ← lift (ramfs_is_dot_dot d);
        _ ← (if negb isdot && negb isdotdot
             then _ ← deref (d_inode d); mret () else mret ());
        _ ← kmalloc_buf_free current;
        release_dirents deref fuel (d_next d)
  end.

Fixpoint release_data (fuel : nat) (current : Z) : M kern () :=
  match fuel with
  | O => fail FFuel
  | S fuel =>
      if current =? 0 then mret ()
      else
        d ← get_data current;
        _ ← kmalloc_buf_free current;
        release_data fuel (r_next d)
  end.

Definition ramfs_release (deref : Z → M kern Z) p : M kern Z :=
  i ← get_inode p;
  if S_ISDIR (i_mode i) then
    _ ← release_dirents deref list_fuel (i_u0 i);
    i ← get_inode p;
    if has_bits (i_mode i) S_ISVTX then
      if negb (i_u1 i =? 0) then _ ← deref (i_u1 i); mret 0 else mret 0
    else mret 0
  else if S_ISREG (i_mode i) || S_ISLNK (i_mode i) then
    _ ← release_data list_fuel (i_u0 i);
    mret 0
  else mret 0.

Definition fatfs_release p : M kern Z :=
  i ← get_inode p;
  _ ← kmalloc_buf_free (i_u0 i);
  mret 0.

Definition inode_release_default p : M kern Z := mret 0.

(** ** inode_deref *)

Fixpoint inode_deref_fuel (fuel : nat) p : M kern Z :=
  match fuel with
  | O => fail FFuel
  | S fuel =>
      _ ← upd_inode p (λ i, with_count (s16 (i_count i - 1)) i);
      i ← get_inode p;
      if i_count i <=? 0 then
        result ← match i_op i with
                 | IopRam => ramfs_release (inode_deref_fuel fuel) p
                 | IopFat => fatfs_release p
                 | IopNull => fail FNull
                 end;
        _ ← kmalloc_buf_free p;
        mret result
      else mret 0
  end.

(** The nesting of releases is bounded by the number of inodes. *)
Definition inode_deref : Z → M kern Z := inode_deref_fuel list_fuel.

(** ** Access (CONFIG_ACCESS_UID is not defined) *)

Definition inode_access (i : inode) (mode : Z) : Z :=
  if mode =? F_OK then 0
  else
    let imode := Z.shiftr (i_mode i) 6 in
    if Z.land (Z.land mode imode) 7 =? mode then 0 else - EACCES.

Definition inode_get_root : M kern Z :=
  root ← gets k_root;
  _ ← inode_ref root;
  mret root.
End Code.
