(* ===== verification/SdAsm.v ===== *)
(** The arithmetic helpers of the SD card driver, which os/drivers/sdcard/sdasm.S
    implements on bytes with a carry flag, and their equivalence with the C code
    that they replace (kept in comments and an #else branch of sdcard.c). *)
From S2P Require Import Prelude.

(** ** 6502 arithmetic: results and carry flag *)

Definition adc (a m c : Z) : Z * Z := (u8 (a + m + c), (a + m + c) / 256).
Definition sbc (a m c : Z) : Z * Z :=
  (u8 (a - m - (1 - c)), if 0 <=? a - m - (1 - c) then 1 else 0).
Definition rol (a c : Z) : Z * Z := (u8 (2 * a + c), a / 128).
Definition asl (a : Z) : Z * Z := rol a 0.

Definition is_byte (b : Z) : Prop := 0 ≤ b < 256.
Definition is_u32 (v : Z) : Prop := 0 ≤ v < 4294967296.

(** A 32-bit value as the four bytes that the routines work on. *)
Record bytes4 := Bytes4 { y0 : Z; y1 : Z; y2 : Z; y3 : Z }.
Definition of_u32 (v : Z) : bytes4 :=
  Bytes4 (u8 v) (u8 (Z.shiftr v 8)) (u8 (Z.shiftr v 16)) (u8 (Z.shiftr v 24)).
Definition value (b : bytes4) : Z := y0 b + 256 * y1 b + 65536 * y2 b + 16777216 * y3 b.
Definition bytes_ok (b : bytes4) : Prop :=
  is_byte (y0 b) ∧ is_byte (y1 b) ∧ is_byte (y2 b) ∧ is_byte (y3 b).

(** ** sd_cluster_to_block *)

(** The comparison from the most significant byte down: bcc on a smaller byte,
    bne on a larger one. *)
Definition less4 (a b : bytes4) : bool :=
  if y3 a <? y3 b then true else if negb (y3 a =? y3 b) then false
  else if y2 a <? y2 b then true else if negb (y2 a =? y2 b) then false
  else if y1 a <? y1 b then true else if negb (y1 a =? y1 b) then false
  else y0 a <? y0 b.

Definition shift4 (b : bytes4) : bytes4 :=
  let '(b0, c) := asl (y0 b) in
  let '(b1, c) := rol (y1 b) c in
  let '(b2, c) := rol (y2 b) c in
  let '(b3, _) := rol (y3 b) c in
  Bytes4 b0 b1 b2 b3.

Fixpoint shift_loop (n : nat) (b : bytes4) : bytes4 :=
  match n with O => b | S n => shift_loop n (shift4 b) end.

Definition add4 (a b : bytes4) : bytes4 :=
  let '(r0, c) := adc (y0 a) (y0 b) 0 in
  let '(r1, c) := adc (y1 a) (y1 b) c in
  let '(r2, c) := adc (y2 a) (y2 b) c in
  let '(r3, _) := adc (y3 a) (y3 b) c in
  Bytes4 r0 r1 r2 r3.

(** The difference and the final carry, clear when there was a borrow. *)
Definition sub2 (a : bytes4) : bytes4 * Z :=
  let '(r0, c) := sbc (y0 a) 2 1 in
  let '(r1, c) := sbc (y1 a) 0 c in
  let '(r2, c) := sbc (y2 a) 0 c in
  let '(r3, c) := sbc (y3 a) 0 c in
  (Bytes4 r0 r1 r2 r3, c).

Definition cluster_to_block_asm (count shift offset cluster : Z) : Z :=
  let '(c, carry) := sub2 (of_u32 cluster) in
  if carry =? 0 then 0
  else if negb (less4 c (of_u32 count)) then 0
  else value (add4 (shift_loop (Z.to_nat shift) c) (of_u32 offset)).

(** The C code that it replaces. *)
Definition cluster_to_block_c (count shift offset cluster : Z) : Z :=
  if cluster <? 2 then 0
  else
    let cluster := cluster - 2 in
    if cluster >=? count then 0 else u32 (offset + u32 (Z.shiftl cluster shift)).

(** ** sd_get_size *)

(** The size in blocks from the card specific data, as the routine computes it
    from bytes 0, 5 and 6 to 10. *)
Definition get_size_asm (b0 b5 b6 b7 b8 b9 b10 : Z) : Z :=
  let version := Z.land b0 0xC0 in
  if version =? 0 then
    let '(b8, c) := asl b8 in
    let '(b7, c) := rol b7 c in
    let '(b6, _) := rol b6 c in
    let '(_, c) := asl b8 in
    let '(r4, c) := rol b7 c in
    let '(a, _) := rol b6 c in
    let '(r4, c) := adc r4 1 0 in
    let '(r5, _) := adc (Z.land a 0x0F) 0 c in
    let '(_, c) := asl b10 in
    let '(a, _) := rol b9 c in
    let '(a, _) := adc (Z.land b5 0x0F) (Z.land a 0x07) 0 in
    let '(a, _) := sbc a 7 1 in
    value (shift_loop (Z.to_nat a) (Bytes4 r4 r5 0 0))
  else if version =? 0x40 then
    let '(r4, c) := adc b9 1 0 in
    let '(r2, c) := adc b8 0 c in
    let '(r3, _) := adc b7 0 c in
    let '(r4, c) := asl r4 in
    let '(r2, c) := rol r2 c in
    let '(r3, _) := rol r3 c in
    let '(r4, c) := asl r4 in
    let '(r2, c) := rol r2 c in
    let '(r3, _) := rol r3 c in
    value (Bytes4 0 r4 r2 r3)
  else 0.

(** The bytes 6, 7, 8 and 10 that the version 1 computation leaves behind. *)
Definition get_size_clobbers (b0 b6 b7 b8 b10 : Z) : Z * Z * Z * Z :=
  if Z.land b0 0xC0 =? 0 then
    let '(b8, c) := asl b8 in
    let '(b7, c) := rol b7 c in
    let '(b6, _) := rol b6 c in
    let '(b8, _) := asl b8 in
    (b6, b7, b8, (asl b10).1)
  else (b6, b7, b8, b10).

(** The C code of the #else branch; 0 stands for its "goto fail". *)
Definition get_size_c (b0 b5 b6 b7 b8 b9 b10 : Z) : Z :=
  let status := Z.land b0 0xC0 in
  if status =? 0 then
    let read_bl_len := Z.land b5 0x0F in
    let c_size_mult := Z.shiftl (Z.land b9 0x03) 1 in
    let c_size_mult := if Z.land b10 0x80 =? 0 then c_size_mult else c_size_mult + 1 in
    let size := Z.lor (Z.lor (Z.shiftl (Z.land b6 0x03) 10) (Z.shiftl b7 2)) (Z.shiftr b8 6) in
    u32 (Z.shiftl (size + 1) (c_size_mult + read_bl_len - 7))
  else if status =? 0x40 then
    let size := Z.lor (Z.lor (Z.shiftl b9 8) (Z.shiftl b8 16)) (Z.shiftl b7 24) in
    u32 (Z.shiftl (u32 (size + 0x100)) 2)
  else 0.

(** ** Carry chains *)

Lemma adc_spec a m c r c' :
  is_byte a → is_byte m → 0 ≤ c ≤ 1 → adc a m c = (r, c') → r + 256 * c' = a + m + c ∧ is_byte r ∧ 0 ≤ c' ≤ 1.
Proof. unfold adc, is_byte, u8. intros ??? [= <- <-]. Z.div_mod_to_equations. lia. Qed.

Lemma sbc_spec a m c r c' :
  is_byte a → is_byte m → 0 ≤ c ≤ 1 → sbc a m c = (r, c') →
  r - 256 * (1 - c') = a - m - (1 - c) ∧ is_byte r ∧ 0 ≤ c' ≤ 1.
Proof.
  unfold sbc, is_byte, u8. intros ??? [= <- <-].
  destruct (Z.leb_spec 0 (a - m - (1 - c))); Z.div_mod_to_equations; lia.
Qed.

Lemma rol_spec a c r c' :
  is_byte a → 0 ≤ c ≤ 1 → rol a c = (r, c') → r + 256 * c' = 2 * a + c ∧ is_byte r ∧ 0 ≤ c' ≤ 1.
Proof. unfold rol, is_byte, u8. intros ?? [= <- <-]. Z.div_mod_to_equations. lia. Qed.

Lemma asl_spec a r c' : is_byte a → asl a = (r, c') → r + 256 * c' = 2 * a ∧ is_byte r ∧ 0 ≤ c' ≤ 1.
Proof. intros Ha E. apply rol_spec in E; [|done|lia]. by rewrite Z.add_0_r in E. Qed.

Lemma byte_land b m : is_byte b → is_byte m → is_byte (Z.land b m).
Proof.
  unfold is_byte. intros Hb Hm. split; [apply Z.land_nonneg; lia|].
  destruct (Z.eq_dec (Z.land b m) 0) as [->|]; [lia|]. apply (Z.log2_lt_pow2 _ 8).
  - assert (0 ≤ Z.land b m) by (apply Z.land_nonneg; lia). lia.
  - eapply Z.le_lt_trans; [apply Z.log2_land; lia|].
    destruct (Z.eq_dec b 0) as [->|]; [rewrite Z.min_l; [done|]; apply Z.log2_nonneg|].
    apply Z.min_lt_iff. left. apply Z.log2_lt_pow2; lia.
Qed.

(** Runs one step of a chain and records what it computed. *)
Ltac byte_side := first [assumption | apply byte_land; [assumption|unfold is_byte; lia] | unfold is_byte in *; lia].
Ltac chain_step :=
  let run t spec :=
    let r := fresh "r" in let k := fresh "k" in let E := fresh "E" in
    destruct t as [r k] eqn:E; apply spec in E; [destruct E as (? & ? & ?)|byte_side..] in
  match goal with
  | |- context [adc ?a ?m ?c] => run (adc a m c) adc_spec
  | |- context [sbc ?a ?m ?c] => run (sbc a m c) sbc_spec
  | |- context [asl ?a] => run (asl a) asl_spec
  | |- context [rol ?a ?c] => run (rol a c) rol_spec
  end.

Lemma u32_unique v w q : is_u32 v → v + 4294967296 * q = w → v = u32 w.
Proof. unfold is_u32, u32. intros Hv <-. rewrite Z.mul_comm, Z.mod_add by lia. symmetry. by apply Z.mod_small. Qed.

Lemma value_u32 b : bytes_ok b → is_u32 (value b).
Proof. unfold bytes_ok, is_byte, is_u32, value. lia. Qed.

Lemma of_u32_ok v : bytes_ok (of_u32 v).
Proof. split_and!; apply Z.mod_pos_bound; lia. Qed.

Lemma of_u32_value v : is_u32 v → value (of_u32 v) = v.
Proof.
  intros Hv. unfold value, of_u32, u8. simpl. rewrite !Z.shiftr_div_pow2 by lia.
  change (2 ^ 8) with 256. change (2 ^ 16) with 65536. change (2 ^ 24) with 16777216.
  unfold is_u32 in Hv. Z.div_mod_to_equations. lia.
Qed.

Lemma shift4_spec b : bytes_ok b → bytes_ok (shift4 b) ∧ value (shift4 b) = u32 (2 * value b).
Proof.
  intros (H0 & H1 & H2 & H3). unfold shift4. repeat chain_step.
  assert (bytes_ok (Bytes4 r r0 r1 r2)) as Hok by done. split; [done|].
  apply (u32_unique _ _ k2); [by apply value_u32|]. unfold value. simpl. lia.
Qed.

Lemma u32_double n v : 0 ≤ n → u32 (2 ^ n * u32 (2 * v)) = u32 (2 ^ (n + 1) * v).
Proof.
  intros Hn. unfold u32. rewrite Z.mul_mod_idemp_r by lia. f_equal. rewrite Z.pow_add_r by lia. lia.
Qed.

Lemma shift_loop_spec n b :
  bytes_ok b → bytes_ok (shift_loop n b) ∧ value (shift_loop n b) = u32 (2 ^ Z.of_nat n * value b).
Proof.
  revert b. induction n as [|n IH]; intros b Hb.
  { split; [done|]. simpl. rewrite Z.mul_1_l. unfold u32. symmetry. apply Z.mod_small. by apply value_u32. }
  destruct (shift4_spec b Hb) as [Hb1 Hv]. destruct (IH _ Hb1) as [Hb2 Hv2].
  split; [done|]. cbn [shift_loop]. rewrite Hv2, Hv, u32_double by lia. do 3 f_equal. lia.
Qed.

Lemma add4_spec a b : bytes_ok a → bytes_ok b → value (add4 a b) = u32 (value a + value b).
Proof.
  intros (A0 & A1 & A2 & A3) (B0 & B1 & B2 & B3). unfold add4. repeat chain_step.
  apply (u32_unique _ _ k2); [apply value_u32; done|]. unfold value. simpl. lia.
Qed.

Lemma less4_spec a b : bytes_ok a → bytes_ok b → less4 a b = (value a <? value b).
Proof.
  unfold bytes_ok, is_byte, value. intros Ha Hb. unfold less4.
  repeat (match goal with |- context [if ?x <? ?y then _ else _] => destruct (Z.ltb_spec x y); [lia|]
          | |- context [negb (?x =? ?y)] => destruct (Z.eqb_spec x y); simpl; [|lia] end). lia.
Qed.

(** C34: the assembly routine sd_cluster_to_block(), which works on bytes with
    carries, computes for every cluster number and every geometry what the C
    function that it replaces computes: 0 outside of the data clusters, and
    otherwise the block number modulo 2^32. *)
Theorem cluster_to_block_equiv count shift offset cluster :
  is_u32 count → is_u32 offset → is_u32 cluster → 0 ≤ shift →
  cluster_to_block_asm count shift offset cluster = cluster_to_block_c count shift offset cluster.
Proof.
  intros Hn Ho Hc Hs. unfold cluster_to_block_asm, cluster_to_block_c.
  pose proof (of_u32_ok cluster) as (H0 & H1 & H2 & H3). pose proof (of_u32_value _ Hc) as Hv.
  set (b := of_u32 cluster) in *. unfold value in Hv. unfold sub2. repeat chain_step.
  unfold is_u32, is_byte in *. destruct (Z.eqb_spec k2 0), (Z.ltb_spec cluster 2); try lia.
  assert (bytes_ok (Bytes4 r r0 r1 r2)) as Hok by done.
  assert (value (Bytes4 r r0 r1 r2) = cluster - 2) as Hval by (unfold value; simpl; lia).
  rewrite less4_spec, Hval, of_u32_value by (try done; apply of_u32_ok).
  rewrite Z.geb_leb, Z.leb_antisym. destruct (cluster - 2 <? count); simpl; [|done].
  destruct (shift_loop_spec (Z.to_nat shift) _ Hok) as [Hok' Hsh].
  rewrite add4_spec, Hsh, of_u32_value, Hval by (try done; apply of_u32_ok).
  rewrite Z2Nat.id, Z.shiftl_mul_pow2, Z.add_comm by done. by rewrite (Z.mul_comm (2 ^ shift)).
Qed.

(** ** The size of the card *)

(** A decidable fact about bytes is checked on all of them. *)
Lemma byte_cases (P : Z → bool) : forallb P (seqZ 0 256) = true → ∀ b, is_byte b → P b = true.
Proof.
  intros H b Hb. rewrite forallb_forall in H. apply H. apply list_elem_of_In, elem_of_seqZ.
  unfold is_byte in Hb. lia.
Qed.

Lemma byte_masks b : is_byte b →
  Z.land b 0x0F = b mod 16 ∧ Z.land b 0x03 = b mod 4 ∧ Z.land b 0x07 = b mod 8 ∧
  (Z.land b 0x80 =? 0) = (b <? 128).
Proof.
  intros Hb.
  pose proof (byte_cases (λ b, (Z.land b 0x0F =? b mod 16) && (Z.land b 0x03 =? b mod 4) &&
    (Z.land b 0x07 =? b mod 8) && Bool.eqb (Z.land b 0x80 =? 0) (b <? 128)) eq_refl b Hb) as H.
  cbv beta in H. apply andb_true_iff in H as [H H4%eqb_prop].
  apply andb_true_iff in H as [H H3%Z.eqb_eq]. apply andb_true_iff in H as [H1%Z.eqb_eq H2%Z.eqb_eq]. done.
Qed.

(** Masks of bytes in hypotheses, as remainders. *)
Ltac unmask :=
  repeat match goal with
  | H : context [Z.land ?b 15] |- _ => rewrite (proj1 (byte_masks b ltac:(assumption))) in H
  | H : context [Z.land ?b 7] |- _ => rewrite (proj1 (proj2 (proj2 (byte_masks b ltac:(assumption))))) in H
  end.

Lemma shiftl_value b k : 0 ≤ k → Z.shiftl b k = b * 2 ^ k.
Proof. apply Z.shiftl_mul_pow2. Qed.

(** Fields put together by shifts and or. *)
Lemma csize_v1 b6 b7 b8 : is_byte b6 → is_byte b7 → is_byte b8 →
  Z.lor (Z.lor (Z.shiftl (Z.land b6 0x03) 10) (Z.shiftl b7 2)) (Z.shiftr b8 6)
  = (b6 mod 4) * 1024 + b7 * 4 + b8 / 64.
Proof.
  intros H6 H7 H8. destruct (byte_masks b6 H6) as (_ & -> & _). unfold is_byte in *.
  rewrite Z.shiftr_div_pow2 by lia. change (2 ^ 6) with 64.
  rewrite <- Z.lor_assoc, Z.lor_comm, (Z.lor_comm (Z.shiftl b7 2)).
  rewrite (lor_add b7 _ 2) by (Z.div_mod_to_equations; lia).
  rewrite lor_add by (Z.div_mod_to_equations; lia). lia.
Qed.

Lemma csize_v2 b7 b8 b9 : is_byte b7 → is_byte b8 → is_byte b9 →
  Z.lor (Z.lor (Z.shiftl b9 8) (Z.shiftl b8 16)) (Z.shiftl b7 24)
  = b9 * 256 + b8 * 65536 + b7 * 16777216.
Proof.
  unfold is_byte. intros H7 H8 H9. rewrite (shiftl_value b9) by lia. change (2 ^ 8) with 256.
  rewrite (lor_add b8) by lia. change (2 ^ 16) with 65536. rewrite lor_add by lia. lia.
Qed.

(** the assembly routine sd_get_size() computes the size of the card in
    blocks from both versions of the card specific data as the C code that it
    replaces does, for every contents of the register with a shift count that C
    defines (READ_BL_LEN + C_SIZE_MULT at least 7, which holds of every card). *)
Theorem get_size_equiv b0 b5 b6 b7 b8 b9 b10 :
  Forall is_byte [b0; b5; b6; b7; b8; b9; b10] →
  7 ≤ b5 mod 16 + (b9 mod 4) * 2 + b10 / 128 →
  get_size_asm b0 b5 b6 b7 b8 b9 b10 = get_size_c b0 b5 b6 b7 b8 b9 b10.
Proof.
  rewrite !Forall_cons. intros (H0 & H5 & H6 & H7 & H8 & H9 & H10 & _) Hs.
  unfold get_size_asm, get_size_c. destruct (_ =? 0).
  - repeat chain_step. unmask. rewrite csize_v1 by done.
    rewrite (proj1 (byte_masks b5 H5)), (proj1 (proj2 (byte_masks b9 H9))), (proj2 (proj2 (proj2 (byte_masks b10 H10)))).
    destruct (shift_loop_spec (Z.to_nat r10) (Bytes4 r5 r7 0 0)) as [_ ->]; [done|].
    unfold is_byte in *. rewrite shiftl_value with (k := 1) by lia. change (2 ^ 1) with 2.
    assert (r8 mod 8 = (b9 mod 4) * 2 + k1) as E8 by (Z.div_mod_to_equations; lia).
    assert (k1 = b10 / 128) as E10 by (Z.div_mod_to_equations; lia).
    assert ((if b10 <? 128 then b9 mod 4 * 2 else b9 mod 4 * 2 + 1) + b5 mod 16 - 7 = r10) as ->.
    { destruct (Z.ltb_spec b10 128); Z.div_mod_to_equations; lia. }
    rewrite shiftl_value, Z2Nat.id, Z.mul_comm by lia. do 2 f_equal. unfold value. simpl.
    Z.div_mod_to_equations. lia.
  - destruct (_ =? 64); [|done]. repeat chain_step. rewrite csize_v2, shiftl_value by (done || lia).
    unfold is_byte in *. unfold value, u32. simpl. Z.div_mod_to_equations. lia.
Qed.

(** Both computations stay in their types. *)
Lemma get_size_typed b0 b5 b6 b7 b8 b9 b10 :
  Forall is_byte [b0; b5; b6; b7; b8; b9; b10] → is_u32 (get_size_asm b0 b5 b6 b7 b8 b9 b10).
Proof.
  rewrite !Forall_cons. intros (H0 & H5 & H6 & H7 & H8 & H9 & H10 & _).
  unfold get_size_asm. destruct (_ =? 0).
  - repeat chain_step. apply value_u32, shift_loop_spec. done.
  - destruct (_ =? 64); [|by unfold is_u32]. repeat chain_step. by apply value_u32.
Qed.

Lemma get_size_clobbers_typed b0 b6 b7 b8 b10 c6 c7 c8 c10 :
  Forall is_byte [b0; b6; b7; b8; b10] → get_size_clobbers b0 b6 b7 b8 b10 = (c6, c7, c8, c10) →
  Forall is_byte [c6; c7; c8; c10].
Proof.
  rewrite !Forall_cons. intros (H0 & H6 & H7 & H8 & H10 & _). unfold get_size_clobbers.
  destruct (_ =? 0); [|intros [= <- <- <- <-]; by repeat apply Forall_cons_2].
  repeat chain_step. intros [= <- <- <- <-]. by repeat apply Forall_cons_2.
Qed.

(** The concrete inputs: cluster 5 of a volume with 8-block clusters, and a
    version 2 card of 4 GB. *)
Lemma cluster_to_block_equiv_witness :
  cluster_to_block_asm 100 3 0x4000 5 = cluster_to_block_c 100 3 0x4000 5 ∧
  cluster_to_block_asm 100 3 0x4000 5 = 0x4018.
Proof. split; [apply cluster_to_block_equiv; unfold is_u32; lia|reflexivity]. Defined.

Lemma get_size_equiv_witness :
  get_size_asm 0x00 0x59 0x03 0xFF 0xC0 0x03 0x80 = get_size_c 0x00 0x59 0x03 0xFF 0xC0 0x03 0x80 ∧
  get_size_asm 0x40 0x59 0 0 0x1D 0x59 0x7F = 7694336.
Proof.
  split; [|reflexivity]. apply get_size_equiv; [repeat constructor; unfold is_byte; lia|].
  vm_compute. discriminate.
Defined.
