(* ===== verification/Fat.v ===== *)
(** The FAT filesystem: name conversion and FAT access (os/fs/fat/fatutils.c)
    and the filesystem operations (os/fs/fat/fatfs.c), on top of the block
    device interface of Kern. *)
From S2P Require Import Prelude CDefs Sched Kern Inode.

(** ** Bytes of structures *)

Definition bytes16 (v : Z) : list Z := [u8 v; u8 (Z.shiftr v 8)].
Definition bytes32 (v : Z) : list Z :=
  bytes16 v ++ bytes16 (Z.shiftr v 16).

(** struct dirent of include/dirent.h, 27 bytes without padding. *)
Record dirent := Dirent {
  de_ino : Z;
  de_mtime : Z;
  de_mode : Z;
  de_type : Z;
  de_name : list Z;
}.

Definition sizeof_dirent : Z := 27.
Definition DIRENT_NAME_MAX : Z := 16.
Definition DT_DIR : Z := 4.
Definition DT_REG : Z := 8.

Definition dirent_bytes (d : dirent) : list Z :=
  bytes32 (de_ino d) ++ bytes32 (de_mtime d) ++ bytes16 (de_mode d)
  ++ [u8 (de_type d)] ++ de_name d.

(** ** os/fs/fat/fatdefs.h *)

Definition FAT_DIR_END : Z := 0x00.
Definition FAT_DIR_DELETED : Z := 0xE5.
Definition FAT_ATTR_READ_ONLY : Z := 0x01.
Definition FAT_ATTR_HIDDEN : Z := 0x02.
Definition FAT_ATTR_SYSTEM : Z := 0x04.
Definition FAT_ATTR_VOLUME : Z := 0x08.
Definition FAT_ATTR_DIRECTORY : Z := 0x10.
Definition FAT_ATTR_DEVICE : Z := 0x40.
Definition FAT_ATTR_RESERVED : Z := 0x80.
Definition FAT_ATTR_BLOCKED : Z :=
  Z.lor (Z.lor (Z.lor (Z.lor FAT_ATTR_HIDDEN FAT_ATTR_SYSTEM) FAT_ATTR_VOLUME)
    FAT_ATTR_DEVICE) FAT_ATTR_RESERVED.
Definition FAT_NAME_LEN : Z := 11.
Definition FAT_END_CLUSTER : Z := 0x0FFFFFF8.
Definition SD_BLKSIZE : Z := 512.
Definition sizeof_fat_dir_entry : Z := 32.

(** The members of struct fat_dir_entry that the code reads. *)
Record fat_dir_entry := FatDirEntry {
  fe_name : list Z;
  fe_attrs : Z;
  fe_cluster_high : Z;
  fe_cluster_low : Z;
  fe_size : Z;
}.

(** The entry at [data], an offset into the cached block. *)
Definition fat_entry_at (block : list Z) (data : Z) : res fat_dir_entry :=
  if (data <? 0) || (zlen block <? data + sizeof_fat_dir_entry) then Err FBounds
  else
    attrs ← rd block (data + 11);
    high ← le16 block (data + 20);
    low ← le16 block (data + 26);
    size ← le32 block (data + 28);
    Ok (FatDirEntry (take 11 (drop (Z.to_nat data) block)) attrs high low size).

(** ** os/fs/fat/fatutils.c *)

Definition invalid_chars : list Z :=
  34 :: chars "*+,/:;<=>?[\]^|".

Fixpoint format_name_loop (out name : list Z) (namelen : nat) (posn : Z) (dot : bool)
    : res (Z * list Z) :=
  match namelen with
  | O => Ok (1, out)
  | S namelen =>
      match name with
      | [] => Err FBounds
      | ch :: name =>
          if (ch <? 0x21) || (0x7E <? ch) then Ok (0, out)
          else if (ch =? CH_DOT) && dot then Ok (0, out)
          else if negb (ch =? CH_DOT) && bool_decide (ch ∈ invalid_chars) then Ok (0, out)
          else
            let posn := if ch =? CH_DOT then 8 else posn in
            let dot := (ch =? CH_DOT) || dot in
            let ch := if (97 <=? ch) && (ch <=? 122) then Z.lxor ch 0x20 else ch in
            if (if dot then 11 <=? posn else 8 <=? posn) then Ok (0, out)
            else
              out ← wr out posn ch;
              format_name_loop out name namelen (u8 (posn + 1)) dot
      end
  end.

Definition fat_format_name (out : list Z) (name : list Z) (namelen : Z)
    : res (Z * list Z) :=
  if namelen =? 0 then Ok (0, out)
  else
    out ← memcpy out 0 (replicate 11 CH_SPACE) FAT_NAME_LEN;
    c0 ← rd name 0;
    if c0 =? CH_DOT then
      if namelen =? 1 then out ← wr out 0 CH_DOT; Ok (1, out)
      else
        c1 ← (if namelen =? 2 then rd name 1 else Ok 0);
        if (namelen =? 2) && (c1 =? CH_DOT) then
          out ← wr out 0 CH_DOT;
          out ← wr out 1 CH_DOT;
          Ok (1, out)
        else Ok (0, out)
    else format_name_loop out name (Z.to_nat namelen) 0 false.

Fixpoint fat_convert_name (outname : list Z) (posn : Z) (inname : list Z) (len : nat)
    : res (Z * list Z) :=
  match len with
  | O => Ok (posn, outname)
  | S len =>
      match inname with
      | [] => Err FBounds
      | ch :: inname =>
          if ch =? CH_SPACE then Ok (posn, outname)
          else
            outname ← wr outname posn
              (if (65 <=? ch) && (ch <=? 90) then Z.lxor ch 0x20 else ch);
            fat_convert_name outname (u8 (posn + 1)) inname len
      end
  end.

Definition fat_convert_time_to_unix (entry : fat_dir_entry) : Z := 0.

(** The d_name member that fat_convert_dirent() writes. *)
Definition convert_dirent_name (out : list Z) (name : list Z) : res (list Z) :=
  ch ← rd name 0;
  if negb (ch =? CH_DOT) then
    '(posn, out) ← fat_convert_name out 0 name 8;
    c8 ← rd name 8;
    if negb (c8 =? CH_SPACE) then
      out ← wr out posn CH_DOT;
      '(posn, out) ← fat_convert_name out (u8 (posn + 1)) (drop 8 name) 3;
      wr out posn NUL
    else wr out posn NUL
  else
    out ← wr out 0 CH_DOT;
    c1 ← rd name 1;
    if c1 =? CH_DOT then
      out ← wr out 1 CH_DOT;
      wr out 2 NUL
    else wr out 1 NUL.

Definition fat_convert_dirent (out : dirent) (entry : fat_dir_entry)
    : res (Z * dirent) :=
  ch ← rd (fe_name entry) 0;
  if (ch =? FAT_DIR_END) || (ch =? FAT_DIR_DELETED) then Ok (0, out)
  else if has_bits (fe_attrs entry) FAT_ATTR_BLOCKED then Ok (0, out)
  else
    name ← convert_dirent_name (de_name out) (fe_name entry);
    let perm := if has_bits (fe_attrs entry) FAT_ATTR_READ_ONLY
                then MODE_0555 else MODE_0755 in
    let isdir := has_bits (fe_attrs entry) FAT_ATTR_DIRECTORY in
    Ok (1, Dirent (fe_size entry) (fat_convert_time_to_unix entry)
             (Z.lor perm (if isdir then S_IFDIR else S_IFREG))
             (if isdir then DT_DIR else DT_REG) name).

Section Fat.
Context {SD : sdcard}.

(** The value of the FAT entry, or [None] when fat_get() returns 0. *)
Definition fat_get (cluster : Z) : M sd_state (option Z) :=
  count ← gets sd_cluster_count;
  if u32 (count + 1) <? cluster then mret None
  else
    fat1 ← gets sd_fat1;
    status ← sd_cache_read (u32 (fat1 + Z.shiftr cluster 7));
    if negb (status =? 0) then mret None
    else
      block ← gets sd_block;
      let offset := Z.land cluster 0x7F in
      v ← lift (le32 block (4 * offset));
      mret (Some (Z.land v 0x0FFFFFFF)).

Definition fat_get_next_cluster (cluster : Z) : M sd_state Z :=
  next ← fat_get cluster;
  match next with
  | Some next => if next <? FAT_END_CLUSTER then mret next else mret 0
  | None => mret 0
  end.

(** ** os/fs/fat/fatfs.c *)

Definition fatfs_info_new (info : fatfs_inode_info) (cluster size : Z)
    : M sd_state (Z * fatfs_inode_info) :=
  block ← gets (sd_cluster_to_block cluster);
  if block =? 0 then
    mret (0, FatfsInfo cluster size cluster block (fi_offset info) (fi_blocks_left info))
  else
    csize ← gets sd_cluster_size;
    mret (1, FatfsInfo cluster size cluster block 0 (csize mod 128)).

(** The advance to the next block or cluster, when the offset is past the end
    of the block: [inl] is an early return. *)
Definition info_advance (info : fatfs_inode_info) (block : Z)
    : M sd_state (Z * fatfs_inode_info + Z * fatfs_inode_info) :=
  let blocks_left := u8 (fi_blocks_left info - 1) in
  if blocks_left =? 0 then
    cluster ← fat_get_next_cluster (fi_cluster info);
    let info := FatfsInfo (fi_first_cluster info) (fi_size info) cluster (fi_block info)
                  (fi_offset info) (fi_blocks_left info) in
    if cluster =? 0 then
      mret (inl (0, FatfsInfo (fi_first_cluster info) (fi_size info) cluster 0
                      (fi_offset info) (fi_blocks_left info)))
    else
      block ← gets (sd_cluster_to_block cluster);
      if block =? 0 then mret (inl (- EIO, info))
      else
        csize ← gets sd_cluster_size;
        mret (inr (block, FatfsInfo (fi_first_cluster info) (fi_size info) cluster block
                            0 (csize mod 128)))
  else
    let block := u32 (block + 1) in
    mret (inr (block, FatfsInfo (fi_first_cluster info) (fi_size info) (fi_cluster info) block
                        0 (blocks_left mod 128))).

(** The result, the offset of the data in the cached block, and the updated
    information structure. *)
Definition fatfs_info_read_prepare (info : fatfs_inode_info)
    : M sd_state (Z * Z * fatfs_inode_info) :=
  let block := fi_block info in
  if block =? 0 then mret (0, 0, info)
  else
    adv ← (if SD_BLKSIZE <=? fi_offset info then info_advance info block
           else mret (inr (block, info)));
    match adv with
    | inl (r, info) => mret (r, 0, info)
    | inr (block, info) =>
        status ← sd_cache_read block;
        if negb (status =? 0) then mret (- EIO, 0, info)
        else mret (SD_BLKSIZE - fi_offset info, fi_offset info, info)
    end.

Definition fatfs_info_read_dirent (info : fatfs_inode_info)
    : M sd_state (Z * Z * fatfs_inode_info) :=
  '(size, data, info) ← fatfs_info_read_prepare info;
  if size <=? 0 then mret (size, data, info)
  else if size <=? sizeof_fat_dir_entry then mret (- EINVAL, data, info)
  else
    mret (1, data, FatfsInfo (fi_first_cluster info) (fi_size info) (fi_cluster info)
                     (fi_block info) ((fi_offset info + sizeof_fat_dir_entry) mod 512)
                     (fi_blocks_left info)).

(** [out] is the offset of the next struct dirent in [data]. *)
Fixpoint fatfs_dir_read_loop (fuel : nat) (f : nat) (data : list Z) (out size result : Z)
    : M kern (Z * list Z) :=
  match fuel with
  | O => fail FFuel
  | S fuel =>
      if size <? sizeof_dirent then mret (result, data)
      else
        file ← get_file f;
        info ← get_info (f_fatfs_info file);
        '(error, pos, info) ← on_sd (fatfs_info_read_dirent info);
        _ ← set_info (f_fatfs_info file) info;
        if error <? 0 then mret (error, data)
        else if error =? 0 then mret (result, data)
        else
          block ← gets (λ k, sd_block (k_sd k));
          entry ← lift (fat_entry_at block pos);
          c0 ← lift (rd (fe_name entry) 0);
          if c0 =? FAT_DIR_END then mret (result, data)
          else
            let old := Dirent 0 0 0 0 (take 16 (drop (Z.to_nat (out + 11)) data)) in
            '(ok, d) ← lift (fat_convert_dirent old entry);
            let adv := upd_file f (λ x, fset_posn (s32 (f_posn x + sizeof_dirent)) x) in
            if negb (ok =? 0) then
              data ← lift (memcpy data out (dirent_bytes d) sizeof_dirent);
              _ ← adv;
              fatfs_dir_read_loop fuel f data (out + sizeof_dirent)
                (u16 (size - sizeof_dirent)) (s16 (result + sizeof_dirent))
            else
              _ ← adv;
              fatfs_dir_read_loop fuel f data out size result
  end.

(** Each round advances the offset by 32 in a block of 512 bytes, and the last
    entry of the block ends the loop. *)
Definition fatfs_dir_read (f : nat) (data : list Z) (size : Z) : M kern (Z * list Z) :=
  fatfs_dir_read_loop 17 f data 0 size 0.

Fixpoint fatfs_file_read_loop (fuel : nat) (f : nat) (data : list Z) (d size result : Z)
    : M kern (Z * list Z) :=
  match fuel with
  | O => fail FFuel
  | S fuel =>
      if size =? 0 then mret (result, data)
      else
        file ← get_file f;
        info ← get_info (f_fatfs_info file);
        let remaining := u32 (fi_size info - f_posn file) in
        let size := if remaining <? size then u16 remaining else size in
        if size =? 0 then mret (result, data)
        else
          '(read_size, pos, info) ← on_sd (fatfs_info_read_prepare info);
          _ ← set_info (f_fatfs_info file) info;
          if read_size <? 0 then mret (read_size, data)
          else if read_size =? 0 then mret (result, data)
          else
            block ← gets (λ k, sd_block (k_sd k));
            data ← lift (memcpy data d (drop (Z.to_nat pos) block) read_size);
            fatfs_file_read_loop fuel f data (d + read_size)
              (u16 (size - read_size)) (s16 (result + read_size))
  end.

(** Every round copies at least one byte into the buffer. *)
Definition fatfs_file_read (f : nat) (data : list Z) (size : Z) : M kern (Z * list Z) :=
  fatfs_file_read_loop (S (S (length data))) f data 0 size 0.

Definition fatfs_create_inode (entry : fat_dir_entry) (parent : Z) : M kern Z :=
  inode ← inode_alloc IopFat;
  if inode =? 0 then mret 0
  else
    info ← kmalloc_buf_alloc;
    if info =? 0 then _ ← inode_deref inode; mret 0
    else
      _ ← upd_inode inode (with_u0 info);
      _ ← upd_inode inode (with_mtime (fat_convert_time_to_unix entry));
      let first := Z.lor (u32 (Z.shiftl (fe_cluster_high entry) 16)) (fe_cluster_low entry) in
      _ ← set_info info (FatfsInfo first (fe_size entry) 0 0 0 0);
      let perm := if has_bits (fe_attrs entry) FAT_ATTR_READ_ONLY
                  then MODE_0555 else MODE_0755 in
      let type := if has_bits (fe_attrs entry) FAT_ATTR_DIRECTORY
                  then S_IFDIR else S_IFREG in
      _ ← upd_inode inode (with_mode (Z.lor perm type));
      mret inode.

(** The search of fatfs_lookup(): the result and the new inode. *)
Fixpoint fatfs_lookup_loop (max_entries : nat) (reader : fatfs_inode_info) (dir : Z)
    (name83 : list Z) : M kern (Z * Z) :=
  match max_entries with
  | O => mret (- ENOENT, 0)
  | S max_entries =>
      '(result, pos, reader) ← on_sd (fatfs_info_read_dirent reader);
      if result <? 0 then mret (result, 0)
      else if result =? 0 then mret (- ENOENT, 0)
      else
        block ← gets (λ k, sd_block (k_sd k));
        entry ← lift (fat_entry_at block pos);
        c0 ← lift (rd (fe_name entry) 0);
        if c0 =? FAT_DIR_END then mret (- ENOENT, 0)
        else if (c0 =? FAT_DIR_DELETED) || has_bits (fe_attrs entry) FAT_ATTR_BLOCKED
                || negb (bool_decide (fe_name entry = name83))
        then fatfs_lookup_loop max_entries reader dir name83
        else
          new_inode ← fatfs_create_inode entry dir;
          if negb (new_inode =? 0) then mret (0, new_inode) else mret (- ENOMEM, 0)
  end.

Definition fatfs_lookup (dir : Z) (name : list Z) (namelen : Z) : M kern (Z * Z) :=
  i ← get_inode dir;
  if negb (S_ISDIR (i_mode i)) then mret (- ENOTDIR, 0)
  else
    '(ok, name83) ← lift (fat_format_name (replicate 11 0) name namelen);
    if ok =? 0 then mret (- EINVAL, 0)
    else
      info ← get_info (i_u0 i);
      let cluster := fi_first_cluster info in
      none ← (if cluster =? FAT_END_CLUSTER
              then r ← on_sd sd_detect; mret (r =? 0) else mret false);
      if (none : bool) then mret (- ENOENT, 0)
      else
        root ← gets (λ k, sd_root (k_sd k));
        let cluster := if cluster =? FAT_END_CLUSTER then root else cluster in
        '(ok, reader) ← on_sd (fatfs_info_new fatfs_info_zero cluster 0);
        if ok =? 0 then mret (- EIO, 0)
        else fatfs_lookup_loop (Z.to_nat 65535) reader dir name83.

(** Attaches a new information block for [cluster] to the open file; [size] is
    the size argument of fatfs_info_new(), which for a regular file is read
    from the new block itself. *)
Definition fatfs_open_at (f : nat) (cluster : Z) (size : fatfs_inode_info → Z)
    (ops : fop) : M kern Z :=
  info ← kmalloc_buf_alloc;
  if info =? 0 then mret (- ENOMEM)
  else
    _ ← upd_file f (fset_info info);
    old ← get_info info;
    '(ok, new) ← on_sd (fatfs_info_new old cluster (size old));
    _ ← set_info info new;
    if ok =? 0 then
      _ ← kmalloc_buf_free info;
      mret (- EIO)
    else
      _ ← upd_file f (fset_op ops);
      mret 0.

Definition fatfs_open (f : nat) : M kern Z :=
  file ← get_file f;
  i ← get_inode (f_inode file);
  if S_ISDIR (f_mode file) then
    info ← get_info (i_u0 i);
    let cluster := fi_first_cluster info in
    none ← (if cluster =? FAT_END_CLUSTER
            then r ← on_sd sd_detect; mret (r =? 0) else mret false);
    if (none : bool) then mret (- EIO)
    else
      root ← gets (λ k, sd_root (k_sd k));
      fatfs_open_at f (if cluster =? FAT_END_CLUSTER then root else cluster) (λ _, 0) FopFatDir
  else if S_ISREG (f_mode file) then
    info ← get_info (i_u0 i);
    fatfs_open_at f (fi_first_cluster info) fi_size FopFatFile
  else mret (- EPERM).

Definition fatfs_init : M kern () := if have_sd then on_sd sd_init else mret ().

Definition fatfs_have_sd : bool := have_sd.

Definition fatfs_mount_sd (dir : Z) : M kern Z :=
  if have_sd then
    root ← inode_alloc IopFat;
    if root =? 0 then mret (- ENOMEM)
    else
      info ← kmalloc_buf_alloc;
      if info =? 0 then _ ← inode_deref root; mret (- ENOMEM)
      else
        _ ← set_info info (FatfsInfo FAT_END_CLUSTER 0 0 0 0 0);
        _ ← upd_inode root (with_mode (Z.lor S_IFDIR MODE_0755));
        mtime ← inode_get_mtime;
        _ ← upd_inode root (with_mtime mtime);
        _ ← upd_inode root (with_u0 info);
        result ← on_sd sd_detect;
        _ ← upd_inode dir (λ i, with_mode (Z.lor (i_mode i) S_ISVTX) i);
        _ ← upd_inode dir (with_u1 root);
        mret (if result =? 0 then 1 else 0)
  else mret (- ENODEV).
End Fat.
