(* ===== verification/SdCard.v ===== *)
(** The SD card driver (os/drivers/sdcard/sdcard.c): commands, detection of a
    card with a FAT32 volume, block reads and the one-block cache.

    The SPI bus with the card behind it, and the clock of the target, are the
    class [spi_bus]: the routines of target/eater/spi.S drive pins, and what
    comes back is up to the card.  [patience] bounds the two loops of the
    detection that wait until the clock has run for two seconds. *)
From S2P Require Import Prelude CDefs SdAsm Sched Kern Fat.

Class spi_bus := {
  bus : Type;
  bus_init : bus → bus;
  bus_send_byte : Z → bus → bus;
  bus_receive_byte : bus → Z * bus;
  bus_lower_cs : bus → bus;
  bus_raise_cs : bus → bus;
  bus_clock : bus → Z * bus;       (* sys_clock(): 16 bits of 1/256 s *)
}.

(** ** State *)

Record sd_info_t := SdInfo {
  si_detect : Z;
  si_sdhc : Z;
  si_cluster_size : Z;
  si_cluster_shift : Z;
  si_part_offset : Z;
  si_part_size : Z;
  si_fat1 : Z;
  si_fat2 : Z;
  si_fat_size : Z;
  si_root : Z;
  si_cluster_offset : Z;
  si_cluster_count : Z;
  si_cache_block : Z;
  si_cache_block2 : Z;
  si_cache_mode : Z;
  si_block : list Z;
}.

Definition si_set_detect v i := SdInfo v (si_sdhc i) (si_cluster_size i) (si_cluster_shift i)
  (si_part_offset i) (si_part_size i) (si_fat1 i) (si_fat2 i) (si_fat_size i) (si_root i)
  (si_cluster_offset i) (si_cluster_count i) (si_cache_block i) (si_cache_block2 i)
  (si_cache_mode i) (si_block i).
Definition si_set_sdhc v i := SdInfo (si_detect i) v (si_cluster_size i) (si_cluster_shift i)
  (si_part_offset i) (si_part_size i) (si_fat1 i) (si_fat2 i) (si_fat_size i) (si_root i)
  (si_cluster_offset i) (si_cluster_count i) (si_cache_block i) (si_cache_block2 i)
  (si_cache_mode i) (si_block i).
Definition si_set_cluster_size v i := SdInfo (si_detect i) (si_sdhc i) v (si_cluster_shift i)
  (si_part_offset i) (si_part_size i) (si_fat1 i) (si_fat2 i) (si_fat_size i) (si_root i)
  (si_cluster_offset i) (si_cluster_count i) (si_cache_block i) (si_cache_block2 i)
  (si_cache_mode i) (si_block i).
Definition si_set_cluster_shift v i := SdInfo (si_detect i) (si_sdhc i) (si_cluster_size i) v
  (si_part_offset i) (si_part_size i) (si_fat1 i) (si_fat2 i) (si_fat_size i) (si_root i)
  (si_cluster_offset i) (si_cluster_count i) (si_cache_block i) (si_cache_block2 i)
  (si_cache_mode i) (si_block i).
Definition si_set_part_offset v i := SdInfo (si_detect i) (si_sdhc i) (si_cluster_size i)
  (si_cluster_shift i) v (si_part_size i) (si_fat1 i) (si_fat2 i) (si_fat_size i) (si_root i)
  (si_cluster_offset i) (si_cluster_count i) (si_cache_block i) (si_cache_block2 i)
  (si_cache_mode i) (si_block i).
Definition si_set_part_size v i := SdInfo (si_detect i) (si_sdhc i) (si_cluster_size i)
  (si_cluster_shift i) (si_part_offset i) v (si_fat1 i) (si_fat2 i) (si_fat_size i) (si_root i)
  (si_cluster_offset i) (si_cluster_count i) (si_cache_block i) (si_cache_block2 i)
  (si_cache_mode i) (si_block i).
Definition si_set_fat1 v i := SdInfo (si_detect i) (si_sdhc i) (si_cluster_size i)
  (si_cluster_shift i) (si_part_offset i) (si_part_size i) v (si_fat2 i) (si_fat_size i)
  (si_root i) (si_cluster_offset i) (si_cluster_count i) (si_cache_block i) (si_cache_block2 i)
  (si_cache_mode i) (si_block i).
Definition si_set_fat2 v i := SdInfo (si_detect i) (si_sdhc i) (si_cluster_size i)
  (si_cluster_shift i) (si_part_offset i) (si_part_size i) (si_fat1 i) v (si_fat_size i)
  (si_root i) (si_cluster_offset i) (si_cluster_count i) (si_cache_block i) (si_cache_block2 i)
  (si_cache_mode i) (si_block i).
Definition si_set_fat_size v i := SdInfo (si_detect i) (si_sdhc i) (si_cluster_size i)
  (si_cluster_shift i) (si_part_offset i) (si_part_size i) (si_fat1 i) (si_fat2 i) v (si_root i)
  (si_cluster_offset i) (si_cluster_count i) (si_cache_block i) (si_cache_block2 i)
  (si_cache_mode i) (si_block i).
Definition si_set_root v i := SdInfo (si_detect i) (si_sdhc i) (si_cluster_size i)
  (si_cluster_shift i) (si_part_offset i) (si_part_size i) (si_fat1 i) (si_fat2 i) (si_fat_size
  i) v (si_cluster_offset i) (si_cluster_count i) (si_cache_block i) (si_cache_block2 i)
  (si_cache_mode i) (si_block i).
Definition si_set_cluster_offset v i := SdInfo (si_detect i) (si_sdhc i) (si_cluster_size i)
  (si_cluster_shift i) (si_part_offset i) (si_part_size i) (si_fat1 i) (si_fat2 i) (si_fat_size
  i) (si_root i) v (si_cluster_count i) (si_cache_block i) (si_cache_block2 i) (si_cache_mode i)
  (si_block i).
Definition si_set_cluster_count v i := SdInfo (si_detect i) (si_sdhc i) (si_cluster_size i)
  (si_cluster_shift i) (si_part_offset i) (si_part_size i) (si_fat1 i) (si_fat2 i) (si_fat_size
  i) (si_root i) (si_cluster_offset i) v (si_cache_block i) (si_cache_block2 i) (si_cache_mode
  i) (si_block i).
Definition si_set_cache_block v i := SdInfo (si_detect i) (si_sdhc i) (si_cluster_size i)
  (si_cluster_shift i) (si_part_offset i) (si_part_size i) (si_fat1 i) (si_fat2 i) (si_fat_size
  i) (si_root i) (si_cluster_offset i) (si_cluster_count i) v (si_cache_block2 i) (si_cache_mode
  i) (si_block i).
Definition si_set_cache_block2 v i := SdInfo (si_detect i) (si_sdhc i) (si_cluster_size i)
  (si_cluster_shift i) (si_part_offset i) (si_part_size i) (si_fat1 i) (si_fat2 i) (si_fat_size
  i) (si_root i) (si_cluster_offset i) (si_cluster_count i) (si_cache_block i) v (si_cache_mode
  i) (si_block i).
Definition si_set_cache_mode v i := SdInfo (si_detect i) (si_sdhc i) (si_cluster_size i)
  (si_cluster_shift i) (si_part_offset i) (si_part_size i) (si_fat1 i) (si_fat2 i) (si_fat_size
  i) (si_root i) (si_cluster_offset i) (si_cluster_count i) (si_cache_block i) (si_cache_block2
  i) v (si_block i).
Definition si_set_block v i := SdInfo (si_detect i) (si_sdhc i) (si_cluster_size i)
  (si_cluster_shift i) (si_part_offset i) (si_part_size i) (si_fat1 i) (si_fat2 i) (si_fat_size
  i) (si_root i) (si_cluster_offset i) (si_cluster_count i) (si_cache_block i) (si_cache_block2
  i) (si_cache_mode i) v.

Record sd_drv {B : spi_bus} := SdDrv { d_info : sd_info_t; d_bus : bus }.
Arguments sd_drv {B}.
Arguments SdDrv {B}.

Definition SD_DETECT_NONE : Z := 0.
Definition SD_DETECT_NEW : Z := 1.
Definition SD_DETECT_EXISTING : Z := 2.

Definition SD_CMD0 : Z := 0.
Definition SD_CMD8 : Z := 8.
Definition SD_CMD9 : Z := 9.
Definition SD_CMD10 : Z := 10.
Definition SD_CMD17 : Z := 17.
Definition SD_CMD55 : Z := 55.
Definition SD_CMD58 : Z := 58.
Definition SD_ACMD41 : Z := 41.

Definition SD_R1_READY : Z := 0x00.
Definition SD_R1_IDLE : Z := 0x01.
Definition SD_R1_ILL : Z := 0x04.

Definition SD_C_EMPTY : Z := 0.
Definition SD_C_READ : Z := 1.

Definition SD_INIT_TIMEOUT : Z := 2 * 256.

(** struct sd_card_command *)
Record sd_card_command := SdCmd { sc_cmd : Z; sc_arg : list Z; sc_crc : Z }.
Definition cmd_bytes (c : sd_card_command) : list Z := sc_cmd c :: sc_arg c ++ [sc_crc c].

(** A 32-bit argument, most significant byte first. *)
Definition arg_of (v : Z) : list Z :=
  [u8 (Z.shiftr v 24); u8 (Z.shiftr v 16); u8 (Z.shiftr v 8); u8 v].

Section Driver.
Context {B : spi_bus} (patience : nat).

Definition info {A} (f : sd_info_t → A) : M sd_drv A := gets (λ d, f (d_info d)).
Definition upd (f : sd_info_t → sd_info_t) : M sd_drv () := modify (λ d, SdDrv (f (d_info d)) (d_bus d)).
Definition on_bus (f : bus → bus) : M sd_drv () := modify (λ d, SdDrv (d_info d) (f (d_bus d))).

(** ** The bus *)

Definition spi_init := on_bus bus_init.
Definition spi_sdcard_lower_cs := on_bus bus_lower_cs.
Definition spi_sdcard_raise_cs := on_bus bus_raise_cs.
Definition spi_receive_byte : M sd_drv Z := λ d,
  let '(v, b) := bus_receive_byte (d_bus d) in Ok (v, SdDrv (d_info d) b).
Definition sys_clock : M sd_drv Z := λ d,
  let '(v, b) := bus_clock (d_bus d) in Ok (v, SdDrv (d_info d) b).

Fixpoint spi_send (data : list Z) : M sd_drv () :=
  match data with
  | [] => mret ()
  | c :: data => _ ← on_bus (bus_send_byte c); spi_send data
  end.
Fixpoint spi_receive (n : nat) : M sd_drv (list Z) :=
  match n with
  | O => mret []
  | S n => c ← spi_receive_byte; l ← spi_receive n; mret (c :: l)
  end.
Definition spi_blank (n : nat) : M sd_drv () := _ ← spi_receive n; mret ().

(** ** Commands *)

Definition sd_wakeup : M sd_drv () :=
  _ ← spi_sdcard_raise_cs; spi_blank 10.

(** Receives until a byte satisfies [p]: at most [n] bytes. *)
Fixpoint poll (n : nat) (p : Z → bool) : M sd_drv (option Z) :=
  match n with
  | O => mret None
  | S n =>
      response ← spi_receive_byte;
      if p response then mret (Some response) else poll n p
  end.

Definition sd_command (cmd : sd_card_command) : M sd_drv Z :=
  idle ← poll 255 (λ b, b =? 0xFF);
  match idle with
  | None => mret 0xFF
  | Some _ =>
      _ ← spi_send (cmd_bytes cmd);
      response ← poll 255 (λ b, Z.land b 0x80 =? 0);
      mret (default 0xFF response)
  end.

Definition sd_simple_command (cmd : Z) : M sd_drv Z := sd_command (SdCmd cmd [0; 0; 0; 0] 0).

Definition sd_wait_for_start : M sd_drv Z :=
  response ← poll 255 (λ b, negb (b =? 0xFF));
  mret (default 0xFF response).

Definition sd_init : M sd_drv () :=
  _ ← spi_init; _ ← upd (si_set_detect 0); upd (si_set_sdhc 0).

(** ** Reading blocks *)

Definition sd_adjust_block_number (blknum : Z) : M sd_drv Z :=
  sdhc ← info si_sdhc;
  mret (if sdhc =? 0 then u32 (Z.shiftl blknum 9) else blknum).

(** [n] bytes received into the start of the block buffer. *)
Definition receive_block (n : nat) : M sd_drv () :=
  data ← spi_receive n;
  upd (λ i, si_set_block (data ++ drop n (si_block i)) i).

Definition sd_read (blknum : Z) : M sd_drv Z :=
  blknum ← sd_adjust_block_number blknum;
  _ ← spi_sdcard_lower_cs;
  response ← sd_command (SdCmd (Z.lor SD_CMD17 0x40) (arg_of blknum) 0);
  if negb (response =? SD_R1_READY) then _ ← spi_sdcard_raise_cs; mret response
  else
    start ← sd_wait_for_start;
    if start =? 0 then _ ← spi_sdcard_raise_cs; mret 0xFF
    else
      _ ← receive_block 512;
      _ ← spi_receive_byte;
      _ ← spi_receive_byte;
      _ ← spi_sdcard_raise_cs;
      mret SD_R1_READY.

Definition sd_write (blknum : Z) : M sd_drv Z := mret 0xFF.

(** ** The cache *)

Definition sd_cache_flush : M sd_drv Z := mret SD_R1_READY.

Definition sd_cache_empty : M sd_drv () :=
  upd (λ i, si_set_cache_mode SD_C_EMPTY (si_set_cache_block2 0 (si_set_cache_block 0 i))).

Definition sd_cache_read (blknum : Z) : M sd_drv Z :=
  cached ← info si_cache_block;
  mode ← info si_cache_mode;
  if (blknum =? cached) && negb (mode =? SD_C_EMPTY) then mret SD_R1_READY
  else
    status ← (if negb (mode =? SD_C_EMPTY) then
                status ← sd_cache_flush;
                if negb (status =? SD_R1_READY) then mret status
                else _ ← sd_cache_empty; mret SD_R1_READY
              else mret SD_R1_READY);
    if negb (status =? SD_R1_READY) then mret status
    else
      status ← sd_read blknum;
      if negb (status =? SD_R1_READY) then mret status
      else
        _ ← upd (λ i, si_set_cache_mode SD_C_READ (si_set_cache_block2 0 (si_set_cache_block blknum i)));
        mret SD_R1_READY.

Definition sd_cache_write_prepare (blknum : Z) : M sd_drv Z := mret 0xFF.
Definition sd_cache_write_prepare_fat (blknum : Z) : M sd_drv Z := mret 0xFF.
Definition sd_cache_write_prepare_zero (blknum : Z) : M sd_drv Z := mret 0xFF.

(** ** Detection

    The phases of sd_detect() in order; a phase that ends in "goto fail" returns
    [false], or [None]. *)

(** The CID query that confirms the card of the last detection. *)
Definition sd_still_there : M sd_drv bool :=
  _ ← spi_sdcard_lower_cs;
  status ← sd_simple_command (SD_CMD10 + 0x40);
  present ← (if status =? SD_R1_READY
             then start ← sd_wait_for_start; mret (negb (start =? 0)) else mret false);
  if (present : bool) then _ ← spi_blank 18; _ ← spi_sdcard_raise_cs; mret true
  else _ ← spi_sdcard_raise_cs; mret false.

Definition sd_clear : M sd_drv () :=
  upd (λ i, si_set_part_size 0 (si_set_part_offset 0 (si_set_sdhc 0 (si_set_detect 0 i)))).

(** A loop that repeats [attempt] until it succeeds or two seconds have passed. *)
Fixpoint sd_retry (n : nat) (attempt : M sd_drv bool) (timeout_base : Z) : M sd_drv bool :=
  match n with
  | O => fail FFuel
  | S n =>
      done ← attempt;
      if (done : bool) then mret true
      else
        now ← sys_clock;
        if SD_INIT_TIMEOUT <=? u16 (now - timeout_base) then mret false
        else sd_retry n attempt timeout_base
  end.

Definition sd_retry_2s (attempt : M sd_drv bool) : M sd_drv bool :=
  timeout_base ← sys_clock; sd_retry patience attempt timeout_base.

Definition sd_reset : M sd_drv bool :=
  _ ← spi_sdcard_lower_cs;
  sd_retry_2s (r ← sd_command (SdCmd (SD_CMD0 + 0x40) [0; 0; 0; 0] 0x95); mret (r =? SD_R1_IDLE)).

Definition sd_version : M sd_drv (option Z) :=
  r ← sd_command (SdCmd (SD_CMD8 + 0x40) [0; 0; 0x01; 0xAA] 0x87);
  if Z.land r SD_R1_ILL =? 0 then
    arg ← spi_receive 4;
    echo ← lift (rd arg 3);
    mret (if echo =? 0xAA then Some 2 else None)
  else mret (Some 1).

Definition sd_activate (version : Z) : M sd_drv bool :=
  sd_retry_2s (
    _ ← sd_simple_command (SD_CMD55 + 0x40);
    r ← sd_command (SdCmd (SD_ACMD41 + 0x40) [if version =? 2 then 0x40 else 0; 0; 0; 0] 0);
    mret (r =? SD_R1_READY)).

Definition sd_ocr (version : Z) : M sd_drv bool :=
  if version =? 2 then
    r ← sd_simple_command (SD_CMD58 + 0x40);
    if negb (r =? SD_R1_READY) then mret false
    else
      arg ← spi_receive 4;
      a0 ← lift (rd arg 0);
      _ ← (if Z.land a0 0xC0 =? 0xC0 then upd (si_set_sdhc 1) else mret ());
      mret true
  else mret true.

Definition sd_byte (i : Z) : M sd_drv Z := b ← info si_block; lift (rd b i).
Definition sd_word16 (i : Z) : M sd_drv Z := b ← info si_block; lift (le16 b i).
Definition sd_word32 (i : Z) : M sd_drv Z := b ← info si_block; lift (le32 b i).

(** The assembly routine, on the block buffer. *)
Definition sd_get_size : M sd_drv Z :=
  b0 ← sd_byte 0; b5 ← sd_byte 5; b6 ← sd_byte 6; b7 ← sd_byte 7;
  b8 ← sd_byte 8; b9 ← sd_byte 9; b10 ← sd_byte 10;
  let '(c6, c7, c8, c10) := get_size_clobbers b0 b6 b7 b8 b10 in
  _ ← upd (λ i, si_set_block (<[6%nat := c6]> (<[7%nat := c7]> (<[8%nat := c8]>
              (<[10%nat := c10]> (si_block i))))) i);
  mret (get_size_asm b0 b5 b6 b7 b8 b9 b10).

Definition sd_csd : M sd_drv bool :=
  r ← sd_simple_command (SD_CMD9 + 0x40);
  if negb (r =? SD_R1_READY) then mret false
  else
    start ← sd_wait_for_start;
    if start =? 0 then mret false
    else
      _ ← receive_block 18;
      size ← sd_get_size;
      _ ← upd (si_set_part_size size);
      mret (negb (size =? 0)).

(** A block read that ends in the signature 0x55, 0xAA. *)
Definition sd_read_signed (blknum : Z) : M sd_drv bool :=
  r ← sd_read blknum;
  if negb (r =? SD_R1_READY) then mret false
  else
    b ← sd_byte 510;
    if negb (b =? 0x55) then mret false
    else b ← sd_byte 511; mret (b =? 0xAA).

Definition sd_partition : M sd_drv bool :=
  ok ← sd_read_signed 0;
  if negb ok then mret false
  else
    status ← sd_byte 450;
    if status =? 0x0C then
      offset ← sd_word32 454;
      _ ← upd (si_set_part_offset offset);
      size ← sd_word32 458;
      _ ← upd (si_set_part_size size);
      sd_read_signed offset
    else mret (negb (status =? 0x0E)).

(** The fields of the header that must have fixed values, in order. *)
Fixpoint sd_expect (l : list (Z * Z)) : M sd_drv bool :=
  match l with
  | [] => mret true
  | (i, v) :: l => b ← sd_byte i; if b =? v then sd_expect l else mret false
  end.

Definition cluster_sizes : list Z := [1; 2; 4; 8; 16; 32; 64; 128].

Definition sd_header : M sd_drv bool :=
  sector ← sd_expect [(11, 0); (12, 2)];
  if negb sector then mret false
  else
    size ← sd_byte 13;
    _ ← upd (si_set_cluster_size size);
    if negb (bool_decide (size ∈ cluster_sizes)) then mret false
    else
      fixed ← sd_expect [(16, 2); (17, 0); (18, 0); (19, 0); (20, 0)];
      if negb fixed then mret false
      else
        status ← sd_byte 21;
        mret ((status =? 0xF0) || (0xF8 <=? status)).

(** The loop that turns the cluster size into a shift count. *)
Fixpoint sd_shift_loop (n : nat) (status size shift : Z) : res Z :=
  match n with
  | O => Err FFuel
  | S n => if status <? size then sd_shift_loop n (u8 (Z.shiftl status 1)) size (u8 (shift + 1)) else Ok shift
  end.

Definition sd_layout : M sd_drv () :=
  csize ← info si_cluster_size;
  shift ← lift (sd_shift_loop 9 1 csize 0);
  _ ← upd (si_set_cluster_shift shift);
  fat_size ← sd_word32 36;
  fat1 ← sd_word16 14;
  let fat2 := u32 (fat1 + fat_size) in
  root ← sd_word32 44;
  let offset := u32 (fat2 + fat_size) in
  part_size ← info si_part_size;
  part_offset ← info si_part_offset;
  let count := Z.shiftr (u32 (part_size - offset)) shift in
  _ ← upd (λ i, si_set_fat_size fat_size (si_set_root root (si_set_cluster_count count i)));
  _ ← upd (si_set_fat1 (u32 (fat1 + part_offset)));
  _ ← upd (si_set_fat2 (u32 (fat2 + part_offset)));
  _ ← upd (si_set_cluster_offset (u32 (offset + part_offset)));
  sd_cache_empty.

Definition sd_fail : M sd_drv Z := _ ← spi_sdcard_raise_cs; mret SD_DETECT_NONE.

(** Everything from the wakeup on. *)
Definition sd_detect_new : M sd_drv Z :=
  _ ← sd_clear;
  _ ← sd_wakeup;
  ok ← sd_reset;
  if negb ok then sd_fail else
  version ← sd_version;
  match version with
  | None => sd_fail
  | Some version =>
      ok ← sd_activate version;
      if negb ok then sd_fail else
      ok ← sd_ocr version;
      if negb ok then sd_fail else
      ok ← sd_csd;
      if negb ok then sd_fail else
      ok ← sd_partition;
      if negb ok then sd_fail else
      ok ← sd_header;
      if negb ok then sd_fail else
      _ ← sd_layout;
      _ ← spi_sdcard_raise_cs;
      _ ← upd (si_set_detect version);
      mret SD_DETECT_NEW
  end.

Definition sd_detect : M sd_drv Z :=
  detect ← info si_detect;
  present ← (if negb (detect =? 0) then sd_still_there else mret false);
  if (present : bool) then mret SD_DETECT_EXISTING else sd_detect_new.

Definition sd_redetect : M sd_drv Z := _ ← upd (si_set_detect 0); sd_detect.

Definition sd_cluster_to_block (cluster : Z) (d : sd_drv) : Z :=
  let i := d_info d in
  cluster_to_block_asm (si_cluster_count i) (si_cluster_shift i) (si_cluster_offset i) cluster.
End Driver.

(** The driver is the block device of the FAT file system. *)
Definition sd_device {B : spi_bus} (patience : nat) : sdcard := {|
  sd_state := sd_drv;
  Kern.sd_init := sd_init;
  Kern.sd_detect := sd_detect patience;
  Kern.sd_cache_read := sd_cache_read;
  Kern.sd_cluster_to_block := sd_cluster_to_block;
  sd_block := λ d, si_block (d_info d);
  sd_fat1 := λ d, si_fat1 (d_info d);
  sd_root := λ d, si_root (d_info d);
  sd_cluster_size := λ d, si_cluster_size (d_info d);
  sd_cluster_count := λ d, si_cluster_count (d_info d);
  have_sd := true;
|}.
