(* ===== verification/Spi.v ===== *)
(** The SPI bus on the pins of the breadboard target (target/eater/spi.S), and that
    its routines are the bus of the SD card driver.

    The pins are those of port A of the VIA: SCLK on PA0, MOSI on PA1, the chip
    select of the card on PA5 and MISO on PA6.  The card is behind them: it sees
    the levels of its pins after each store, and drives MISO.  The registers of a
    routine are local names; a call keeps X, which the routines save.  Receiving a
    byte masks interrupts while its bits come in, and unmasks them behind it. *)
From S2P Require Import Prelude CDefs SdAsm Sched Kern Fat SdCard.

(** What is at the other end of the wires, the level of the pins that are not
    connected, and the clock of the target. *)
Class spi_slave := {
  dev : Type;
  dev_pins : bool → bool → bool → dev → dev;   (* SCLK, MOSI and the chip select *)
  dev_miso : dev → bool;
  dev_clock : dev → Z * dev;
  floating : Z;
  floating_range : 0 ≤ floating < 256;
}.

Record pins {W : spi_slave} := Pins {
  port : Z;                      (* SPI_PORT, the output register *)
  ddr : Z;                       (* SPI_DDR, 1 for an output *)
  device : dev;
  mem : list Z;                  (* the memory that buffers are in *)
  masked : bool;                 (* the interrupt flag of the processor *)
}.
Arguments pins : clear implicits.
Arguments pins {W}.

Section Code.
Context {W : spi_slave}.

(** ** The port *)

Definition inputs (d : dev) : Z := Z.lor (Z.ldiff floating 0x40) (if dev_miso d then 0x40 else 0).
Definition levels (o dd : Z) (d : dev) : Z := Z.lor (Z.land o dd) (Z.ldiff (inputs d) dd).
(** The device sees the levels of its pins. *)
Definition drive (o dd : Z) (d : dev) : dev :=
  let l := levels o dd d in dev_pins (Z.testbit l 0) (Z.testbit l 1) (Z.testbit l 5) d.

Definition read_port : M pins Z := gets (λ p, levels (port p) (ddr p) (device p)).
Definition write_port (v : Z) : M pins () :=
  modify (λ p, Pins W v (ddr p) (drive v (ddr p) (device p)) (mem p) (masked p)).
Definition read_ddr : M pins Z := gets ddr.
Definition write_ddr (v : Z) : M pins () :=
  modify (λ p, Pins W (port p) v (drive (port p) v (device p)) (mem p) (masked p)).
Definition tsb_port (a : Z) : M pins () := v ← read_port; write_port (Z.lor v a).
Definition trb_port (a : Z) : M pins () := v ← read_port; write_port (Z.ldiff v a).
Definition inc_port : M pins () := v ← read_port; write_port (u8 (v + 1)).
Definition dec_port : M pins () := v ← read_port; write_port (u8 (v - 1)).

Definition mask (b : bool) : M pins () := modify (λ p, Pins W (port p) (ddr p) (device p) (mem p) b).
Definition sei : M pins () := mask true.
Definition cli : M pins () := mask false.

(** ** The routines *)

Definition spi_init : M pins () :=
  v ← read_port;
  _ ← write_port (Z.lor (Z.land v 0xFC) 0x20);
  v ← read_ddr;
  write_ddr (Z.land (Z.lor v 0x23) 0xBF).

(** [x] counts down from 8. *)
Fixpoint send_bits (x : nat) (rc5 : Z) : M pins () :=
  match x with
  | O => mret ()
  | S x =>
      _ ← (if Z.testbit rc5 7 then tsb_port 2 else trb_port 2);
      _ ← inc_port;
      _ ← dec_port;
      send_bits x (u8 (2 * rc5))
  end.
Definition spi_send_byte (value : Z) : M pins () := send_bits 8 value.

Fixpoint receive_bits (x : nat) (rc5 : Z) : M pins Z :=
  match x with
  | O => mret rc5
  | S x =>
      _ ← inc_port;
      v ← read_port;
      _ ← dec_port;
      receive_bits x (if Z.testbit v 6 then u8 (u8 (2 * rc5) + 1) else u8 (2 * rc5))
  end.
Definition spi_receive_byte : M pins Z :=
  _ ← tsb_port 2;
  _ ← sei;
  v ← receive_bits 8 0;
  _ ← cli;
  mret v.

(** Memory through (__rc2),y *)
Definition load (rc2 rc3 y : Z) : M pins Z := m ← gets mem; lift (rd m (u16 (rc2 + 256 * rc3 + y))).
Definition store (rc2 rc3 y v : Z) : M pins () :=
  m ← gets mem; m ← lift (wr m (u16 (rc2 + 256 * rc3 + y)) v); modify (λ p, Pins W (port p) (ddr p) (device p) m (masked p)).

Definition send_at (rc2 rc3 y : Z) : M pins () := v ← load rc2 rc3 y; spi_send_byte v.
Definition receive_at (rc2 rc3 y : Z) : M pins () := v ← spi_receive_byte; store rc2 rc3 y v.
Definition blank_at (rc2 rc3 y : Z) : M pins () := _ ← spi_receive_byte; mret ().

(** The two loops of spi_send, spi_receive and spi_blank around a byte: [y] goes
    up until it wraps, or [x] times. *)
Fixpoint page_loop (fuel : nat) (byte : Z → M pins ()) (y : Z) : M pins () :=
  match fuel with
  | O => fail FFuel
  | S fuel =>
      _ ← byte y;
      let y := u8 (y + 1) in
      if negb (y =? 0) then page_loop fuel byte y else mret ()
  end.
Fixpoint rest_loop (fuel : nat) (byte : Z → M pins ()) (y x : Z) : M pins () :=
  match fuel with
  | O => fail FFuel
  | S fuel =>
      _ ← byte y;
      let y := u8 (y + 1) in
      let x := u8 (x - 1) in
      if negb (x =? 0) then rest_loop fuel byte y x else mret ()
  end.
(** The pages, and the value of __rc3 after them. *)
Fixpoint pages_loop (fuel : nat) (byte : Z → Z → M pins ()) (rc3 x : Z) : M pins Z :=
  match fuel with
  | O => fail FFuel
  | S fuel =>
      _ ← page_loop 256 (byte rc3) 0;
      let rc3 := u8 (rc3 + 1) in
      let x := u8 (x - 1) in
      if negb (x =? 0) then pages_loop fuel byte rc3 x else mret rc3
  end.
Definition bytes_loop (byte : Z → Z → M pins ()) (rc3 a x : Z) : M pins () :=
  rc3 ← (if x =? 0 then mret rc3 else pages_loop 256 byte rc3 x);
  if a =? 0 then mret () else rest_loop 256 (byte rc3) 0 a.

(** The pointer is in __rc2 and __rc3, the number of bytes in A and X. *)
Definition spi_send (rc2 rc3 a x : Z) : M pins () := bytes_loop (send_at rc2) rc3 a x.
Definition spi_receive (rc2 rc3 a x : Z) : M pins () := bytes_loop (receive_at rc2) rc3 a x.
Definition spi_blank (a x : Z) : M pins () := bytes_loop (blank_at 0) 0 a x.

Definition spi_sdcard_lower_cs : M pins () := trb_port 0x20.
Definition spi_sdcard_raise_cs : M pins () := tsb_port 0x20.

(** ** The waveform: clock polarity 0, clock phase 0

    A bit is on MOSI before the clock goes up and stays until it is down again, and
    MISO is sampled while the clock is up. *)
Definition send_bit (cs b : bool) (d : dev) : dev := dev_pins false b cs (dev_pins true b cs (dev_pins false b cs d)).
Definition wave_send (cs : bool) (value : Z) (d : dev) : dev :=
  foldl (λ d i, send_bit cs (Z.testbit value i) d) d [7; 6; 5; 4; 3; 2; 1; 0].
Definition receive_bit (cs : bool) (vd : Z * dev) : Z * dev :=
  let d := dev_pins true true cs vd.2 in (2 * vd.1 + (if dev_miso d then 1 else 0), dev_pins false true cs d).
Definition wave_receive (cs : bool) (d : dev) : Z * dev := Nat.iter 8 (receive_bit cs) (0, dev_pins false true cs d).

(** The bus of the driver: the levels of the chip select and of MOSI between two
    bytes, and the device. *)
Definition pin_bus : spi_bus := {|
  bus := bool * bool * dev;
  bus_init := λ '(_, _, d), (true, false, dev_pins false false true (dev_pins false false true d));
  bus_send_byte := λ c '(cs, _, d), (cs, Z.testbit c 0, wave_send cs c d);
  bus_receive_byte := λ '(cs, _, d), let r := wave_receive cs d in (r.1, (cs, true, r.2));
  bus_lower_cs := λ '(_, m, d), (false, m, dev_pins false m false d);
  bus_raise_cs := λ '(_, m, d), (true, m, dev_pins false m true d);
  bus_clock := λ '(cs, m, d), let r := dev_clock d in (r.1, (cs, m, r.2));
|}.
End Code.

(** ** The levels of the pins *)

Section Pins.
Context {W : spi_slave}.
Implicit Types (p : pins) (d : dev).

(** SCLK, MOSI and the chip select are outputs at the given levels, and MISO is an
    input. *)
Record at_pins p (sclk mosi cs : bool) d : Prop := {
  ap_port : 0 ≤ port p < 256;
  ap_ddr : 0 ≤ ddr p < 256;
  ap_outputs : Z.testbit (ddr p) 0 = true ∧ Z.testbit (ddr p) 1 = true ∧ Z.testbit (ddr p) 5 = true;
  ap_input : Z.testbit (ddr p) 6 = false;
  ap_levels : Z.testbit (port p) 0 = sclk ∧ Z.testbit (port p) 1 = mosi ∧ Z.testbit (port p) 5 = cs;
  ap_device : device p = d;
}.

(** A byte, by its bits. *)
Lemma byte_bits v : 0 ≤ v < 256 ↔ 0 ≤ v ∧ ∀ i, 8 ≤ i → Z.testbit v i = false.
Proof.
  split.
  - intros Hv. split; [lia|]. intros i Hi. rewrite <- (Z.mod_small v (2 ^ 8)) by lia. apply Z.mod_pow2_bits_high. lia.
  - intros [H0 Hb]. split; [done|]. destruct (Z.eq_dec v 0) as [->|Hv]; [lia|].
    apply Z.log2_lt_pow2 with (b := 8); [lia|]. destruct (Z.lt_ge_cases (Z.log2 v) 8) as [|Hge]; [done|].
    pose proof (Z.bit_log2 v ltac:(lia)) as E. rewrite Hb in E by lia. done.
Qed.

Lemma byte_lor a b : 0 ≤ a < 256 → 0 ≤ b < 256 → 0 ≤ Z.lor a b < 256.
Proof.
  rewrite !byte_bits. intros [Ha Ha'] [Hb Hb']. split; [by apply Z.lor_nonneg|].
  intros i Hi. by rewrite Z.lor_spec, Ha', Hb'.
Qed.
Lemma byte_and a b : 0 ≤ a < 256 → 0 ≤ Z.land a b < 256.
Proof.
  rewrite !byte_bits. intros [Ha Ha']. split; [apply Z.land_nonneg; by left|].
  intros i Hi. by rewrite Z.land_spec, Ha'.
Qed.
Lemma byte_ldiff a b : 0 ≤ a < 256 → 0 ≤ Z.ldiff a b < 256.
Proof.
  rewrite !byte_bits. intros [Ha Ha']. split; [apply Z.ldiff_nonneg; by left|].
  intros i Hi. by rewrite Z.ldiff_spec, Ha'.
Qed.

Lemma inputs_byte d : 0 ≤ inputs d < 256.
Proof. apply byte_lor; [apply byte_ldiff, floating_range|destruct (dev_miso d); lia]. Qed.

Lemma levels_byte o dd d : 0 ≤ o < 256 → 0 ≤ levels o dd d < 256.
Proof. intros Ho. apply byte_lor; [by apply byte_and|apply byte_ldiff, inputs_byte]. Qed.

Lemma levels_output o dd d i : 0 ≤ i → Z.testbit dd i = true → Z.testbit (levels o dd d) i = Z.testbit o i.
Proof. intros Hi Hd. unfold levels. rewrite Z.lor_spec, Z.land_spec, Z.ldiff_spec, Hd. cbn [negb]. by rewrite andb_true_r, andb_false_r, orb_false_r. Qed.

Lemma levels_miso o dd d : Z.testbit dd 6 = false → Z.testbit (levels o dd d) 6 = dev_miso d.
Proof.
  intros Hd. unfold levels, inputs. rewrite Z.lor_spec, Z.land_spec, Z.ldiff_spec, Hd, Z.lor_spec, Z.ldiff_spec.
  rewrite andb_false_r. simpl. rewrite andb_false_r, andb_true_r. by destruct (dev_miso d).
Qed.

(** Storing to the port, and what reading it gives. *)
Lemma write_port_ok p sclk mosi cs d v :
  at_pins p sclk mosi cs d → 0 ≤ v < 256 →
  ∃ p', write_port v p = Ok ((), p') ∧ mem p' = mem p ∧
    at_pins p' (Z.testbit v 0) (Z.testbit v 1) (Z.testbit v 5)
      (dev_pins (Z.testbit v 0) (Z.testbit v 1) (Z.testbit v 5) d).
Proof.
  intros [Hp Hd (H0 & H1 & H5) H6 _ <-] Hv. eexists. split; [reflexivity|]. split; [done|]. split; simpl; try done.
  unfold drive. by rewrite !levels_output.
Qed.

Lemma read_port_ok p sclk mosi cs d :
  at_pins p sclk mosi cs d →
  ∃ r, read_port p = Ok (r, p) ∧ 0 ≤ r < 256 ∧
    Z.testbit r 0 = sclk ∧ Z.testbit r 1 = mosi ∧ Z.testbit r 5 = cs ∧ Z.testbit r 6 = dev_miso d.
Proof.
  intros [Hp Hd (H0 & H1 & H5) H6 (<- & <- & <-) <-]. eexists. split; [reflexivity|].
  split; [by apply levels_byte|]. rewrite !levels_output, levels_miso by done. done.
Qed.

(** The four instructions on the port. *)
Definition becomes (m : M pins ()) p sclk mosi cs d : Prop :=
  ∃ p', m p = Ok ((), p') ∧ mem p' = mem p ∧ at_pins p' sclk mosi cs d.

Lemma tsb_mosi p mosi cs d : at_pins p false mosi cs d → becomes (tsb_port 2) p false true cs (dev_pins false true cs d).
Proof.
  intros H. destruct (read_port_ok _ _ _ _ _ H) as (r & E & Hr & H0 & H1 & H5 & _).
  destruct (write_port_ok p _ _ _ _ (Z.lor r 2) H) as (p' & E' & Hm & H'); [by apply byte_lor|].
  rewrite !Z.lor_spec, H0, H1, H5 in H'. rewrite !orb_false_r, orb_true_r in H'.
  exists p'. split; [|done]. unfold tsb_port. by mstep by exact E.
Qed.
Lemma trb_mosi p mosi cs d : at_pins p false mosi cs d → becomes (trb_port 2) p false false cs (dev_pins false false cs d).
Proof.
  intros H. destruct (read_port_ok _ _ _ _ _ H) as (r & E & Hr & H0 & H1 & H5 & _).
  destruct (write_port_ok p _ _ _ _ (Z.ldiff r 2) H) as (p' & E' & Hm & H'); [by apply byte_ldiff|].
  rewrite !Z.ldiff_spec, H0, H1, H5 in H'. rewrite andb_false_r, !andb_true_r in H'.
  exists p'. split; [|done]. unfold trb_port. by mstep by exact E.
Qed.
Lemma select_low p mosi cs d : at_pins p false mosi cs d → becomes spi_sdcard_lower_cs p false mosi false (dev_pins false mosi false d).
Proof.
  intros H. destruct (read_port_ok _ _ _ _ _ H) as (r & E & Hr & H0 & H1 & H5 & _).
  destruct (write_port_ok p _ _ _ _ (Z.ldiff r 0x20) H) as (p' & E' & Hm & H'); [by apply byte_ldiff|].
  rewrite !Z.ldiff_spec, H0, H1, H5 in H'. rewrite andb_false_r, !andb_true_r in H'.
  exists p'. split; [|done]. unfold spi_sdcard_lower_cs, trb_port. by mstep by exact E.
Qed.
Lemma select_high p mosi cs d : at_pins p false mosi cs d → becomes spi_sdcard_raise_cs p false mosi true (dev_pins false mosi true d).
Proof.
  intros H. destruct (read_port_ok _ _ _ _ _ H) as (r & E & Hr & H0 & H1 & H5 & _).
  destruct (write_port_ok p _ _ _ _ (Z.lor r 0x20) H) as (p' & E' & Hm & H'); [by apply byte_lor|].
  rewrite !Z.lor_spec, H0, H1, H5 in H'. rewrite !orb_false_r, orb_true_r in H'.
  exists p'. split; [|done]. unfold spi_sdcard_raise_cs, tsb_port. by mstep by exact E.
Qed.

(** Adding one to an even byte, or taking one from an odd byte, is setting and
    clearing its last bit. *)
Lemma inc_even r : 0 ≤ r < 256 → Z.testbit r 0 = false →
  0 ≤ u8 (r + 1) < 256 ∧ Z.testbit (u8 (r + 1)) 0 = true ∧ ∀ i, 0 < i → Z.testbit (u8 (r + 1)) i = Z.testbit r i.
Proof.
  intros Hr H0. rewrite Z.bit0_odd in H0. assert (r = 2 * Z.div2 r) as E by (rewrite (Z.div2_odd r) at 1; rewrite H0; simpl; lia).
  set (k := Z.div2 r) in *. rewrite u8_small by lia. split; [lia|]. rewrite E. split; [apply Z.testbit_odd_0|].
  intros i Hi. replace i with (Z.succ (Z.pred i)) by lia. by rewrite Z.testbit_odd_succ, Z.testbit_even_succ by lia.
Qed.
Lemma dec_odd r : 0 ≤ r < 256 → Z.testbit r 0 = true →
  0 ≤ u8 (r - 1) < 256 ∧ Z.testbit (u8 (r - 1)) 0 = false ∧ ∀ i, 0 < i → Z.testbit (u8 (r - 1)) i = Z.testbit r i.
Proof.
  intros Hr H0. rewrite Z.bit0_odd in H0. assert (r = 2 * Z.div2 r + 1) as E by (rewrite (Z.div2_odd r) at 1; by rewrite H0).
  set (k := Z.div2 r) in *. rewrite u8_small by lia. split; [lia|]. rewrite E.
  replace (2 * k + 1 - 1) with (2 * k) by lia. split; [apply Z.testbit_even_0|].
  intros i Hi. replace i with (Z.succ (Z.pred i)) by lia. by rewrite Z.testbit_odd_succ, Z.testbit_even_succ by lia.
Qed.

Lemma clock_up p mosi cs d : at_pins p false mosi cs d → becomes inc_port p true mosi cs (dev_pins true mosi cs d).
Proof.
  intros H. destruct (read_port_ok _ _ _ _ _ H) as (r & E & Hr & H0 & H1 & H5 & _).
  destruct (inc_even r Hr H0) as (Hv & Hv0 & Hvi).
  destruct (write_port_ok p _ _ _ _ (u8 (r + 1)) H Hv) as (p' & E' & Hm & H').
  rewrite Hv0, !Hvi, H1, H5 in H' by lia. exists p'. split; [|done]. unfold inc_port. by mstep by exact E.
Qed.
Lemma clock_down p mosi cs d : at_pins p true mosi cs d → becomes dec_port p false mosi cs (dev_pins false mosi cs d).
Proof.
  intros H. destruct (read_port_ok _ _ _ _ _ H) as (r & E & Hr & H0 & H1 & H5 & _).
  destruct (dec_odd r Hr H0) as (Hv & Hv0 & Hvi).
  destruct (write_port_ok p _ _ _ _ (u8 (r - 1)) H Hv) as (p' & E' & Hm & H').
  rewrite Hv0, !Hvi, H1, H5 in H' by lia. exists p'. split; [|done]. unfold dec_port. by mstep by exact E.
Qed.

(** ** Bytes *)

Lemma foldl_ext_in {A B} (f g : A → B → A) (l : list B) (a : A) :
  (∀ a x, x ∈ l → f a x = g a x) → foldl f a l = foldl g a l.
Proof.
  revert a. induction l as [|x l IH]; intros a H; [done|]. simpl. rewrite H by (by left).
  apply IH. intros a' y Hy. apply H. by right.
Qed.

Lemma send_bit_ok p mosi cs d (b : bool) (m : M pins ()) sclk' mosi' cs' d' :
  at_pins p false mosi cs d →
  (∀ p', mem p' = mem p → at_pins p' false b cs (send_bit cs b d) → becomes m p' sclk' mosi' cs' d') →
  becomes (_ ← (if b then tsb_port 2 else trb_port 2); _ ← inc_port; _ ← dec_port; m) p sclk' mosi' cs' d'.
Proof.
  intros H Hm.
  assert (becomes (if b then tsb_port 2 else trb_port 2) p false b cs (dev_pins false b cs d)) as (p1 & E1 & Hm1 & H1).
  { destruct b; [by eapply tsb_mosi|by eapply trb_mosi]. }
  destruct (clock_up _ _ _ _ H1) as (p2 & E2 & Hm2 & H2). destruct (clock_down _ _ _ _ H2) as (p3 & E3 & Hm3 & H3).
  destruct (Hm p3) as (p4 & E4 & Hm4 & H4); [congruence|exact H3|]. exists p4. split; [|split; [congruence|done]].
  mstep by exact E1. mstep by exact E2. by mstep by exact E3.
Qed.

(** The bits are sent from the last one down. *)
Lemma send_bits_ok x v p mosi cs d :
  at_pins p false mosi cs d → (x ≤ 8)%nat →
  becomes (send_bits x v) p false (if decide (x = 0%nat) then mosi else Z.testbit v (8 - Z.of_nat x)) cs
    (foldl (λ d j, send_bit cs (Z.testbit v (7 - j)) d) d (seqZ 0 (Z.of_nat x))).
Proof.
  revert v p mosi d. induction x as [|x IH]; intros v p mosi d H Hx; [by exists p|]. cbn [send_bits].
  eapply send_bit_ok; [exact H|]. intros p' _ H'. specialize (IH (u8 (2 * v)) p' _ _ H' ltac:(lia)).
  assert (∀ i, 1 ≤ i ≤ 7 → Z.testbit (u8 (2 * v)) i = Z.testbit v (i - 1)) as Hs.
  { intros i Hi. unfold u8. change 256 with (2 ^ 8). rewrite Z.mod_pow2_bits_low by lia.
    replace i with (Z.succ (i - 1)) at 1 by lia. by rewrite Z.testbit_even_succ by lia. }
  replace (Z.of_nat (S x)) with (Z.succ (Z.of_nat x)) by lia. rewrite seqZ_cons by lia. cbn [foldl].
  rewrite Z.pred_succ. replace (7 - 0) with 7 by lia.
  change (Z.succ 0) with (1 + 0). rewrite <- fmap_add_seqZ, foldl_fmap, (decide_False (P := S x = 0%nat)) by done.
  destruct (decide (x = 0%nat)) as [->|Hx0]; [exact IH|].
  rewrite Hs in IH by lia. replace (8 - Z.of_nat x - 1) with (8 - Z.succ (Z.of_nat x)) in IH by lia.
  erewrite foldl_ext_in; [exact IH|]. intros d' j Hj. apply elem_of_seqZ in Hj. cbn beta. rewrite Hs by lia.
  do 2 f_equal. lia.
Qed.

Lemma spi_send_byte_ok v p mosi cs d :
  at_pins p false mosi cs d → becomes (spi_send_byte v) p false (Z.testbit v 0) cs (wave_send cs v d).
Proof. intros H. exact (send_bits_ok 8 v p mosi cs d H ltac:(lia)). Qed.

Lemma receive_bits_ok x v p cs d :
  at_pins p false true cs d → 0 ≤ v → (v + 1) * 2 ^ Z.of_nat x ≤ 256 →
  ∃ p', receive_bits x v p = Ok ((Nat.iter x (receive_bit cs) (v, d)).1, p') ∧ mem p' = mem p ∧
    at_pins p' false true cs (Nat.iter x (receive_bit cs) (v, d)).2.
Proof.
  revert v p d. induction x as [|x IH]; intros v p d H Hv Hx; [by exists p|].
  replace (Z.of_nat (S x)) with (Z.succ (Z.of_nat x)) in Hx by lia. rewrite Z.pow_succ_r in Hx by lia.
  assert (0 < 2 ^ Z.of_nat x) as Hpow by (apply Z.pow_pos_nonneg; lia).
  assert (v + 1 ≤ 128) as Hv1 by nia.
  destruct (clock_up _ _ _ _ H) as (p1 & E1 & Hm1 & H1).
  destruct (read_port_ok _ _ _ _ _ H1) as (r & Er & _ & _ & _ & _ & Hr).
  destruct (clock_down _ _ _ _ H1) as (p2 & E2 & Hm2 & H2).
  rewrite Nat.iter_succ_r. cbn [receive_bits].
  set (v' := 2 * v + if dev_miso (dev_pins true true cs d) then 1 else 0).
  change (receive_bit cs (v, d)) with (v', dev_pins false true cs (dev_pins true true cs d)).
  assert ((if Z.testbit r 6 then u8 (u8 (2 * v) + 1) else u8 (2 * v)) = v') as Ev.
  { rewrite Hr. unfold v'. rewrite (u8_small (2 * v)) by lia. destruct (dev_miso _); [apply u8_small; lia|lia]. }
  assert (0 ≤ v') as Hv' by (unfold v'; destruct (dev_miso _); lia).
  assert ((v' + 1) * 2 ^ Z.of_nat x ≤ 256) as Hx' by (unfold v'; destruct (dev_miso _); nia).
  destruct (IH v' p2 _ H2 Hv' Hx') as (p' & E & Hm & H').
  exists p'. split; [|split; [congruence|exact H']]. mstep by exact E1. mstep by exact Er. mstep by exact E2. by rewrite Ev.
Qed.

Lemma mask_ok b p sclk mosi cs d : at_pins p sclk mosi cs d → becomes (mask b) p sclk mosi cs d.
Proof. intros [? ? ? ? ? ?]. eexists. split; [reflexivity|]. by split. Qed.

Lemma spi_receive_byte_ok p mosi cs d :
  at_pins p false mosi cs d →
  ∃ p', spi_receive_byte p = Ok ((wave_receive cs d).1, p') ∧ mem p' = mem p ∧ at_pins p' false true cs (wave_receive cs d).2.
Proof.
  intros H. destruct (tsb_mosi _ _ _ _ H) as (p1 & E1 & Hm1 & H1).
  destruct (mask_ok true _ _ _ _ _ H1) as (p2 & E2 & Hm2 & H2).
  destruct (receive_bits_ok 8 0 p2 cs _ H2) as (p3 & E3 & Hm3 & H3); [lia|done|].
  destruct (mask_ok false _ _ _ _ _ H3) as (p' & E & Hm & H').
  exists p'. split; [|split; [congruence|exact H']]. unfold spi_receive_byte.
  mstep by exact E1. mstep by exact E2. mstep by exact E3. by mstep by exact E.
Qed.
End Pins.

(** ** Buffers

    The loops give every offset of the buffer once, in order: [P i] holds before
    the byte at the offset [i]. *)
Section Loops.
Context {W : spi_slave} (byte : Z → Z → M pins ()) (rc3 n : Z) (P : Z → pins → Prop).
Context (Hbyte : ∀ i p, 0 ≤ i < n → P i p → ∃ p', byte (u8 (rc3 + i / 256)) (i mod 256) p = Ok ((), p') ∧ P (i + 1) p').

Lemma page_loop_ok fuel k y p :
  0 ≤ k → 0 ≤ y < 256 → 256 * k + 256 ≤ n → 256 - y ≤ Z.of_nat fuel → P (256 * k + y) p →
  ∃ p', page_loop fuel (byte (u8 (rc3 + k))) y p = Ok ((), p') ∧ P (256 * (k + 1)) p'.
Proof using Hbyte.
  revert y p. induction fuel as [|fuel IH]; intros y p Hk Hy Hn Hf Hp; [lia|]. cbn [page_loop].
  destruct (Hbyte (256 * k + y) p) as (p1 & E1 & Hp1); [lia|done|].
  assert ((256 * k + y) / 256 = k) as Ek by (Z.div_mod_to_equations; lia).
  assert ((256 * k + y) mod 256 = y) as Ey by (Z.div_mod_to_equations; lia). rewrite Ek, Ey in E1.
  mstep by exact E1. cbv zeta. destruct (Z.eq_dec y 255) as [->|Hne].
  - exists p1. split; [done|]. by replace (256 * (k + 1)) with (256 * k + 255 + 1) by lia.
  - rewrite u8_small by lia. rewrite (proj2 (Z.eqb_neq (y + 1) 0)) by lia.
    apply IH; try lia. by replace (256 * k + (y + 1)) with (256 * k + y + 1) by lia.
Qed.

Lemma pages_loop_ok fuel k x p :
  0 ≤ k → 0 < x < 256 → 256 * (k + x) ≤ n → x ≤ Z.of_nat fuel → P (256 * k) p →
  ∃ p', pages_loop fuel byte (u8 (rc3 + k)) x p = Ok (u8 (rc3 + (k + x)), p') ∧ P (256 * (k + x)) p'.
Proof using Hbyte.
  revert k x p. induction fuel as [|fuel IH]; intros k x p Hk Hx Hn Hf Hp; [lia|]. cbn [pages_loop].
  destruct (page_loop_ok 256 k 0 p) as (p1 & E1 & Hp1); [lia..|by rewrite Z.add_0_r|].
  mstep by exact E1. cbv zeta. rewrite (u8_small (x - 1)) by lia.
  assert (u8 (u8 (rc3 + k) + 1) = u8 (rc3 + (k + 1))) as -> by (unfold u8; rewrite Zplus_mod_idemp_l; f_equal; lia).
  destruct (Z.eqb_spec (x - 1) 0) as [Hx1|Hx1]; cbn [negb].
  - exists p1. assert (x = 1) as -> by lia. done.
  - destruct (IH (k + 1) (x - 1) p1) as (p' & E & Hp'); [lia..|done|].
    replace (k + 1 + (x - 1)) with (k + x) in E, Hp' by lia. by exists p'.
Qed.

Lemma rest_loop_ok fuel k y x p :
  0 ≤ k → 0 ≤ y → 0 < x → y + x ≤ 256 → 256 * k + y + x ≤ n → x ≤ Z.of_nat fuel → P (256 * k + y) p →
  ∃ p', rest_loop fuel (byte (u8 (rc3 + k))) y x p = Ok ((), p') ∧ P (256 * k + y + x) p'.
Proof using Hbyte.
  revert y x p. induction fuel as [|fuel IH]; intros y x p Hk Hy Hx Hyx Hn Hf Hp; [lia|]. cbn [rest_loop].
  destruct (Hbyte (256 * k + y) p) as (p1 & E1 & Hp1); [lia|done|].
  assert ((256 * k + y) / 256 = k) as Ek by (Z.div_mod_to_equations; lia).
  assert ((256 * k + y) mod 256 = y) as Ey by (Z.div_mod_to_equations; lia). rewrite Ek, Ey in E1.
  mstep by exact E1. cbv zeta. destruct (Z.eq_dec x 1) as [->|Hx1].
  - by exists p1.
  - rewrite (u8_small (y + 1)), (u8_small (x - 1)), (proj2 (Z.eqb_neq (x - 1) 0)) by lia. cbn [negb].
    destruct (IH (y + 1) (x - 1) p1) as (p' & E & Hp'); [lia..|by rewrite Z.add_assoc|].
    exists p'. split; [exact E|]. by replace (256 * k + y + x) with (256 * k + (y + 1) + (x - 1)) by lia.
Qed.

Lemma bytes_loop_ok a x p :
  0 ≤ rc3 < 256 → 0 ≤ a < 256 → 0 ≤ x < 256 → n = a + 256 * x → P 0 p →
  ∃ p', bytes_loop byte rc3 a x p = Ok ((), p') ∧ P n p'.
Proof using Hbyte.
  intros Hrc Ha Hx Hn Hp. unfold bytes_loop.
  assert (∃ p1, (if x =? 0 then mret rc3 else pages_loop 256 byte rc3 x) p = Ok (u8 (rc3 + x), p1) ∧ P (256 * x) p1)
    as (p1 & E1 & Hp1).
  { destruct (Z.eqb_spec x 0) as [->|Hx0]; [exists p; rewrite Z.add_0_r, u8_small by lia; done|].
    destruct (pages_loop_ok 256 0 x p) as (p1 & E1 & Hp1); [lia..|done|].
    rewrite Z.add_0_r, u8_small in E1 by lia. by exists p1. }
  mstep by exact E1. destruct (Z.eqb_spec a 0) as [->|Ha0].
  - exists p1. split; [done|]. by replace n with (256 * x) by lia.
  - destruct (rest_loop_ok 256 x 0 a p1) as (p' & E & Hp'); [lia..|by rewrite Z.add_0_r|].
    exists p'. split; [done|]. by replace n with (256 * x + 0 + a) by lia.
Qed.
End Loops.

(** ** The routines are the bus of the driver *)

(** A call of a routine, with the registers it is given, and the memory after the
    same call of the driver's bus, where that memory is a list of bytes. *)
Inductive spi_op :=
  | OpInit | OpLowerCs | OpRaiseCs | OpReceiveByte | OpSendByte (c : Z)
  | OpSend (rc2 rc3 a x : Z) | OpReceive (rc2 rc3 a x : Z) | OpBlank (a x : Z).

Definition byte_range (v : Z) : Prop := 0 ≤ v < 256.

(** The buffer does not run past the end of the memory. *)
Definition op_ok (o : spi_op) : Prop :=
  match o with
  | OpSend rc2 rc3 a x | OpReceive rc2 rc3 a x =>
      byte_range rc2 ∧ byte_range rc3 ∧ byte_range a ∧ byte_range x ∧ rc2 + 256 * rc3 + (a + 256 * x) ≤ 65536
  | OpBlank a x => byte_range a ∧ byte_range x
  | _ => True
  end.

Section Refine.
Context {W : spi_slave}.

Definition pins_op (o : spi_op) : M pins Z :=
  match o with
  | OpReceiveByte => spi_receive_byte
  | OpInit => _ ← spi_init; mret 0
  | OpLowerCs => _ ← spi_sdcard_lower_cs; mret 0
  | OpRaiseCs => _ ← spi_sdcard_raise_cs; mret 0
  | OpSendByte c => _ ← spi_send_byte c; mret 0
  | OpSend rc2 rc3 a x => _ ← spi_send rc2 rc3 a x; mret 0
  | OpReceive rc2 rc3 a x => _ ← spi_receive rc2 rc3 a x; mret 0
  | OpBlank a x => _ ← spi_blank a x; mret 0
  end.

Definition buffer (m : list Z) (rc2 rc3 a x : Z) : list Z :=
  take (Z.to_nat (a + 256 * x)) (drop (Z.to_nat (rc2 + 256 * rc3)) m).
Definition fill (m : list Z) (rc2 rc3 : Z) (l : list Z) : list Z :=
  take (Z.to_nat (rc2 + 256 * rc3)) m ++ l ++ drop (Z.to_nat (rc2 + 256 * rc3) + length l) m.

Definition drv_op (o : spi_op) (m : list Z) : M (@sd_drv pin_bus) (Z * list Z) :=
  match o with
  | OpReceiveByte => v ← SdCard.spi_receive_byte; mret (v, m)
  | OpInit => _ ← SdCard.spi_init; mret (0, m)
  | OpLowerCs => _ ← SdCard.spi_sdcard_lower_cs; mret (0, m)
  | OpRaiseCs => _ ← SdCard.spi_sdcard_raise_cs; mret (0, m)
  | OpSendByte c => _ ← SdCard.spi_send [c]; mret (0, m)
  | OpSend rc2 rc3 a x => _ ← SdCard.spi_send (buffer m rc2 rc3 a x); mret (0, m)
  | OpReceive rc2 rc3 a x => l ← SdCard.spi_receive (Z.to_nat (a + 256 * x)); mret (0, fill m rc2 rc3 l)
  | OpBlank a x => _ ← SdCard.spi_blank (Z.to_nat (a + 256 * x)); mret (0, m)
  end.

(** Calls in sequence, with their results. *)
Fixpoint pins_ops (os : list spi_op) : M pins (list Z) :=
  match os with
  | [] => mret []
  | o :: os => v ← pins_op o; vs ← pins_ops os; mret (v :: vs)
  end.
Fixpoint drv_ops (os : list spi_op) (m : list Z) : M (@sd_drv pin_bus) (list Z * list Z) :=
  match os with
  | [] => mret ([], m)
  | o :: os => r ← drv_op o m; rs ← drv_ops os r.2; mret (r.1 :: rs.1, rs.2)
  end.

(** The state of the bus is that of the pins. *)
Definition wired (p : pins) (b : @bus pin_bus) : Prop :=
  zlen (mem p) = 65536 ∧ at_pins p false b.1.2 b.1.1 b.2.

(** spi_init from any state of the port: the levels, first on the pins that were
    outputs, then on all. *)
Lemma spi_init_any p :
  byte_range (port p) → byte_range (ddr p) →
  ∃ o p', spi_init p = Ok ((), p') ∧ mem p' = mem p ∧
    Z.testbit o 0 = false ∧ Z.testbit o 1 = false ∧ Z.testbit o 5 = true ∧
    at_pins p' false false true (dev_pins false false true (drive o (ddr p) (device p))).
Proof.
  intros Hp Hd. unfold spi_init. mstep by reflexivity. mstep by reflexivity. mstep by reflexivity.
  unfold write_ddr, modify. cbn [port ddr device mem].
  set (o := Z.lor (Z.land (levels (port p) (ddr p) (device p)) 0xFC) 0x20).
  set (dd := Z.land (Z.lor (ddr p) 0x23) 0xBF).
  assert (byte_range o) as Ho by (apply byte_lor; [by apply byte_and, levels_byte|unfold byte_range; lia]).
  assert (byte_range dd) as Hdd by (apply byte_and, byte_lor; [done|lia]).
  assert (Z.testbit o 0 = false ∧ Z.testbit o 1 = false ∧ Z.testbit o 5 = true) as (O0 & O1 & O5).
  { unfold o. rewrite !Z.lor_spec, !Z.land_spec. cbn. by rewrite !andb_false_r, orb_true_r. }
  assert (Z.testbit dd 0 = true ∧ Z.testbit dd 1 = true ∧ Z.testbit dd 5 = true ∧ Z.testbit dd 6 = false) as (D0 & D1 & D5 & D6).
  { unfold dd. rewrite !Z.land_spec, !Z.lor_spec. cbn. by rewrite !orb_true_r, andb_false_r. }
  exists o. eexists. split; [reflexivity|]. do 4 (split; [done|]). split; cbn [port ddr device]; try done.
  unfold drive at 1. by rewrite !levels_output, O0, O1, O5 by done.
Qed.

Lemma spi_init_ok p mosi cs d :
  at_pins p false mosi cs d → becomes spi_init p false false true (dev_pins false false true (dev_pins false false true d)).
Proof.
  intros [Hp Hd (H0 & H1 & H5) _ _ <-]. destruct (spi_init_any p Hp Hd) as (o & p' & E & Hm & O0 & O1 & O5 & H).
  exists p'. split; [done|]. split; [done|]. unfold drive in H. by rewrite !levels_output, O0, O1, O5 in H by done.
Qed.

(** What the driver's bus does, byte by byte. *)
Lemma drv_send_snoc l c (i : sd_info_t) (b b' : @bus pin_bus) :
  SdCard.spi_send l (SdDrv i b) = Ok ((), SdDrv i b') →
  SdCard.spi_send (l ++ [c]) (SdDrv i b) = Ok ((), SdDrv i (bus_send_byte c b')).
Proof.
  revert b. induction l as [|c0 l IH]; intros b E; [by injection E as <-|].
  exact (IH (bus_send_byte c0 b) E).
Qed.
Lemma drv_receive_snoc n i l (b b' : @bus pin_bus) :
  SdCard.spi_receive n (SdDrv i b) = Ok (l, SdDrv i b') →
  SdCard.spi_receive (S n) (SdDrv i b) = Ok (l ++ [(bus_receive_byte b').1], SdDrv i (bus_receive_byte b').2).
Proof.
  assert (∀ b0 : @bus pin_bus, SdCard.spi_receive_byte (SdDrv i b0) = Ok ((bus_receive_byte b0).1, SdDrv i (bus_receive_byte b0).2)) as Hb.
  { intros b0. unfold SdCard.spi_receive_byte. cbn [d_bus d_info]. by destruct (bus_receive_byte b0). }
  revert b l. induction n as [|n IH]; intros b l E.
  - injection E as <- <-. cbn [SdCard.spi_receive]. by mstep by apply Hb.
  - remember (S n) as n'. cbn [SdCard.spi_receive]. subst n'. mstep by apply Hb.
    apply bind_inv in E as (c & d1 & E1 & E). rewrite Hb in E1. injection E1 as <- <-.
    apply bind_inv in E as (l' & d2 & E2 & E). injection E as <- ->.
    by mstep by exact (IH _ _ E2).
Qed.

(** The address of the byte at an offset. *)
Lemma address_at rc2 rc3 i :
  byte_range rc2 → byte_range rc3 → 0 ≤ i → rc2 + 256 * rc3 + i < 65536 →
  u16 (rc2 + 256 * u8 (rc3 + i / 256) + i mod 256) = rc2 + 256 * rc3 + i.
Proof.
  unfold byte_range. intros H2 H3 Hi Hn. rewrite (u8_small (rc3 + i / 256)) by (Z.div_mod_to_equations; lia).
  rewrite u16_small by (Z.div_mod_to_equations; lia). Z.div_mod_to_equations; lia.
Qed.
Lemma page_load_ok rc2 rc3 i p v :
  byte_range rc2 → byte_range rc3 → 0 ≤ i → rc2 + 256 * rc3 + i < 65536 → rd (mem p) (rc2 + 256 * rc3 + i) = Ok v →
  load rc2 (u8 (rc3 + i / 256)) (i mod 256) p = Ok (v, p).
Proof. intros H2 H3 Hi Hn E. unfold load. mstep by reflexivity. rewrite address_at by done. unfold lift. by rewrite E. Qed.
Lemma page_store_ok rc2 rc3 i p v m :
  byte_range rc2 → byte_range rc3 → 0 ≤ i → rc2 + 256 * rc3 + i < 65536 → wr (mem p) (rc2 + 256 * rc3 + i) v = Ok m →
  store rc2 (u8 (rc3 + i / 256)) (i mod 256) v p = Ok ((), Pins W (port p) (ddr p) (device p) m (masked p)).
Proof.
  intros H2 H3 Hi Hn E. unfold store. mstep by reflexivity. rewrite address_at by done.
  by mstep by (unfold lift; by rewrite E).
Qed.

Lemma byte_order rc2 rc3 a x :
  byte_range rc2 → byte_range rc3 → byte_range a → byte_range x → 0 ≤ rc2 + 256 * rc3 ∧ 0 ≤ a + 256 * x.
Proof. unfold byte_range. lia. Qed.

Lemma spi_send_sends p b i rc2 rc3 a x :
  op_ok (OpSend rc2 rc3 a x) → wired p b →
  ∃ p' b', spi_send rc2 rc3 a x p = Ok ((), p') ∧ mem p' = mem p ∧ wired p' b' ∧
    SdCard.spi_send (buffer (mem p) rc2 rc3 a x) (SdDrv i b) = Ok ((), SdDrv i b').
Proof.
  intros (H2 & H3 & Ha & Hx & Hn) Hw. destruct (byte_order rc2 rc3 a x) as [Hptr Hn0]; [done..|].
  set (ptr := rc2 + 256 * rc3) in *. set (m := mem p). assert (zlen m = 65536) as Hm by apply Hw.
  destruct (bytes_loop_ok (send_at rc2) rc3 (a + 256 * x)
    (λ j p', mem p' = m ∧ ∃ b', wired p' b' ∧
       SdCard.spi_send (take (Z.to_nat j) (drop (Z.to_nat ptr) m)) (SdDrv i b) = Ok ((), SdDrv i b')))
    with (a := a) (x := x) (p := p) as (p' & E & Hm' & b' & Hw' & Eb); try done; [| |by exists p', b'].
  - intros j q Hj (Hq & b1 & Hw1 & E1).
    destruct (rd_ok m (ptr + j)) as (c & Ec & Hc); [lia|].
    destruct (spi_send_byte_ok c q _ _ _ (proj2 Hw1)) as (q' & E' & Hm' & H').
    exists q'. split; [|split; [congruence|]].
    { unfold send_at. mstep by (apply page_load_ok with (v := c); rewrite ?Hq; [exact H2|exact H3|lia|fold ptr; lia|exact Ec]). exact E'. }
    exists (bus_send_byte c b1). destruct b1 as [[cs mosi] d]. split; [split; [rewrite Hm'; apply Hw1|exact H']|].
    replace (Z.to_nat (j + 1)) with (S (Z.to_nat j)) by lia.
    rewrite (take_S_r _ _ c); [by apply drv_send_snoc|]. by rewrite lookup_drop, <- Z2Nat.inj_add by lia.
  - split; [done|]. by exists b.
Qed.

Lemma pin_bus_receive (b : @bus pin_bus) :
  bus_receive_byte b = ((wave_receive b.1.1 b.2).1, (b.1.1, true, (wave_receive b.1.1 b.2).2)).
Proof. by destruct b as [[cs mosi] d]. Qed.

Lemma spi_receive_fills p b i rc2 rc3 a x :
  op_ok (OpReceive rc2 rc3 a x) → wired p b →
  ∃ p' b' l, spi_receive rc2 rc3 a x p = Ok ((), p') ∧ mem p' = fill (mem p) rc2 rc3 l ∧ wired p' b' ∧
    SdCard.spi_receive (Z.to_nat (a + 256 * x)) (SdDrv i b) = Ok (l, SdDrv i b').
Proof.
  intros (H2 & H3 & Ha & Hx & Hn) Hw. destruct (byte_order rc2 rc3 a x) as [Hptr Hn0]; [done..|].
  unfold fill. set (ptr := rc2 + 256 * rc3) in *. set (m := mem p). assert (zlen m = 65536) as Hm by apply Hw.
  destruct (bytes_loop_ok (receive_at rc2) rc3 (a + 256 * x)
    (λ j p', ∃ b' l, length l = Z.to_nat j ∧
       mem p' = take (Z.to_nat ptr) m ++ l ++ drop (Z.to_nat ptr + length l) m ∧ wired p' b' ∧
       SdCard.spi_receive (Z.to_nat j) (SdDrv i b) = Ok (l, SdDrv i b')))
    with (a := a) (x := x) (p := p) as (p' & E & b' & l & _ & Hm' & Hw' & Eb); try done; [| |by exists p', b', l].
  - intros j q Hj (b1 & l & Hl & Hq & Hw1 & E1).
    destruct (spi_receive_byte_ok q _ _ _ (proj2 Hw1)) as (q' & E' & Hm' & H').
    revert E' H'. generalize (pin_bus_receive b1), (drv_receive_snoc _ _ _ _ _ E1).
    destruct (wave_receive b1.1.1 b1.2) as [v d']. cbn [fst snd]. intros -> E2 E' H'. cbn [fst snd] in E2.
    assert (wr (mem q) (ptr + j) v = Ok (take (Z.to_nat ptr) m ++ (l ++ [v]) ++ drop (Z.to_nat ptr + length (l ++ [v])) m)) as Ew.
    { destruct (lookup_lt_is_Some_2 m (Z.to_nat ptr + length l)) as [c Hc]; [unfold zlen in Hm; lia|].
      rewrite Hq, (drop_S _ _ _ Hc), app_assoc. replace (ptr + j) with (zlen (take (Z.to_nat ptr) m ++ l)).
      - rewrite wr_app_at, <- !app_assoc, length_app. cbn. do 4 f_equal. f_equal. lia.
      - unfold zlen in *. rewrite length_app, length_take. lia. }
    exists (Pins W (port q') (ddr q') (device q') (take (Z.to_nat ptr) m ++ (l ++ [v]) ++ drop (Z.to_nat ptr + length (l ++ [v])) m) (masked q')).
    split.
    { unfold receive_at. mstep by exact E'. apply page_store_ok; rewrite ?Hm'; [exact H2|exact H3|lia|fold ptr; lia|exact Ew]. }
    exists (b1.1.1, true, d'), (l ++ [v]).
    split; [rewrite length_app; cbn; lia|]. split; [done|]. split; [split|].
    + cbn [mem]. apply wr_length in Ew. pose proof (proj1 Hw1). unfold zlen in *. lia.
    + destruct H' as [? ? ? ? ? ?]. by split.
    + replace (Z.to_nat (j + 1)) with (S (Z.to_nat j)) by lia. exact E2.
  - exists b, []. cbn. rewrite Nat.add_0_r, take_drop. done.
Qed.

Lemma spi_blank_ok p b i a x :
  op_ok (OpBlank a x) → wired p b →
  ∃ p' b', spi_blank a x p = Ok ((), p') ∧ mem p' = mem p ∧ wired p' b' ∧
    SdCard.spi_blank (Z.to_nat (a + 256 * x)) (SdDrv i b) = Ok ((), SdDrv i b').
Proof.
  intros (Ha & Hx) Hw. assert (0 ≤ a + 256 * x) as Hn0 by (unfold byte_range in *; lia).
  destruct (bytes_loop_ok (blank_at 0) 0 (a + 256 * x)
    (λ j p', mem p' = mem p ∧ ∃ b' l, wired p' b' ∧ SdCard.spi_receive (Z.to_nat j) (SdDrv i b) = Ok (l, SdDrv i b')))
    with (a := a) (x := x) (p := p) as (p' & E & Hm' & b' & l & Hw' & Eb); try done.
  - intros j q Hj (Hq & b1 & l & Hw1 & E1).
    destruct (spi_receive_byte_ok q _ _ _ (proj2 Hw1)) as (q' & E' & Hm' & H').
    exists q'. split; [unfold blank_at; by mstep by exact E'|]. split; [congruence|].
    exists (bus_receive_byte b1).2, (l ++ [(bus_receive_byte b1).1]). split.
    + destruct b1 as [[cs mosi] d]. split; [rewrite Hm'; apply Hw1|exact H'].
    + replace (Z.to_nat (j + 1)) with (S (Z.to_nat j)) by lia. by apply drv_receive_snoc.
  - split; [done|]. by exists b, [].
  - exists p', b'. split; [done|]. split; [done|]. split; [done|]. unfold SdCard.spi_blank. by mstep by exact Eb.
Qed.

(** One call. *)
Lemma spi_op_ok o p b i :
  op_ok o → wired p b →
  ∃ v p' b', pins_op o p = Ok (v, p') ∧ drv_op o (mem p) (SdDrv i b) = Ok ((v, mem p'), SdDrv i b') ∧ wired p' b'.
Proof.
  assert (∀ (m : M pins ()) p' d' (cs mosi : bool), wired p b → m p = Ok ((), p') ∧ mem p' = mem p ∧ at_pins p' false mosi cs d' →
    (_ ← m; mret 0) p = Ok (0, p') ∧ mem p' = mem p ∧ wired p' (cs, mosi, d')) as Hcall.
  { intros m p' d' cs mosi Hw (E & Hm & H). split; [by mstep by exact E|]. split; [done|]. split; [rewrite Hm; apply Hw|done]. }
  intros Ho Hw. destruct b as [[cs mosi] d] eqn:Eb. pose proof (proj2 Hw) as Hp. cbn [fst snd] in Hp.
  destruct o; cbn [pins_op drv_op].
  - destruct (spi_init_ok _ _ _ _ Hp) as (p' & H'). apply Hcall in H' as (E & Hm & H'); [|done].
    exists 0, p', (@bus_init pin_bus (cs, mosi, d)). by rewrite Hm.
  - destruct (select_low _ _ _ _ Hp) as (p' & H'). apply Hcall in H' as (E & Hm & H'); [|done].
    exists 0, p', (@bus_lower_cs pin_bus (cs, mosi, d)). by rewrite Hm.
  - destruct (select_high _ _ _ _ Hp) as (p' & H'). apply Hcall in H' as (E & Hm & H'); [|done].
    exists 0, p', (@bus_raise_cs pin_bus (cs, mosi, d)). by rewrite Hm.
  - destruct (spi_receive_byte_ok _ _ _ _ Hp) as (p' & E & Hm & H').
    exists (wave_receive cs d).1, p', (@bus_receive_byte pin_bus (cs, mosi, d)).2. split; [done|]. rewrite Hm.
    split; [done|]. split; [rewrite Hm; apply Hw|done].
  - destruct (spi_send_byte_ok c _ _ _ _ Hp) as (p' & H'). apply Hcall in H' as (E & Hm & H'); [|done].
    exists 0, p', (@bus_send_byte pin_bus c (cs, mosi, d)). by rewrite Hm.
  - destruct (spi_send_sends p _ i _ _ _ _ Ho Hw) as (p' & b' & E & Hm & Hw' & E').
    exists 0, p', b'. split; [by mstep by exact E|]. split; [|done]. mstep by exact E'. by rewrite Hm.
  - destruct (spi_receive_fills p _ i _ _ _ _ Ho Hw) as (p' & b' & l & E & Hm & Hw' & E').
    exists 0, p', b'. split; [by mstep by exact E|]. split; [|done]. mstep by exact E'. by rewrite Hm.
  - destruct (spi_blank_ok p _ i _ _ Ho Hw) as (p' & b' & E & Hm & Hw' & E').
    exists 0, p', b'. split; [by mstep by exact E|]. split; [|done]. mstep by exact E'. by rewrite Hm.
Qed.

(** C32: any sequence of calls of the SPI routines of the breadboard target, on the
    pins of the port, sends and receives what the same calls of the bus that the SD
    card driver is written against do, and leaves the same memory: each byte goes out
    as eight bits, the highest first, in the waveform of clock polarity 0 and clock
    phase 0, MISO is sampled while the clock is up; a buffer of up to 65535 bytes
    is sent or filled once, in order, across its pages. *)
Theorem spi_routines_refine os p b i :
  Forall op_ok os → wired p b →
  ∃ vs p' b', pins_ops os p = Ok (vs, p') ∧
    drv_ops os (mem p) (SdDrv i b) = Ok ((vs, mem p'), SdDrv i b') ∧ wired p' b'.
Proof.
  intros Hos. revert p b. induction Hos as [|o os Ho _ IH]; intros p b Hw; [by exists [], p, b|].
  destruct (spi_op_ok o p b i Ho Hw) as (v & p1 & b1 & E1 & Eb1 & Hw1).
  destruct (IH p1 b1 Hw1) as (vs & p' & b' & E & Eb & Hw'). exists (v :: vs), p', b'. cbn [pins_ops drv_ops].
  split; [mstep by exact E1; by mstep by exact E|]. split; [|done]. mstep by exact Eb1. cbn [fst snd]. by mstep by exact Eb.
Qed.
End Refine.

(** ** A device *)

Lemma byte_ff : 0 ≤ 0xFF < 256.
Proof. lia. Qed.

(** A shift register of eight bits that gives each bit it gets eight clocks later. *)
Definition shift_register : spi_slave := {|
  dev := bool * bool * list bool;     (* SCLK, MISO and the bits in between *)
  dev_pins := λ sclk mosi cs '(was, out, r),
    if sclk && negb was then
      match r with
      | [] => (sclk, mosi, [])
      | b :: r => (sclk, b, r ++ [mosi])
      end
    else (sclk, out, r);
  dev_miso := λ '(_, out, _), out;
  dev_clock := λ d, (0, d);
  floating := 0xFF;
  floating_range := byte_ff;
|}.

Definition w_pins : @pins shift_register :=
  Pins shift_register 0x20 0x23 (false, false, replicate 8 false)
    (replicate (Z.to_nat 0x300) 0 ++ [0x12; 0xA5] ++ replicate (Z.to_nat (65536 - 0x302)) 0) false.
Definition w_bus : @bus (@pin_bus shift_register) := (true, false, (false, false, replicate 8 false)).
Definition w_calls : list spi_op :=
  [OpInit; OpLowerCs; OpSend 0x00 0x03 2 0; OpReceiveByte; OpReceive 0xFE 0x02 4 0; OpBlank 0 1; OpRaiseCs].

(** The byte that comes back is the last one sent. *)
Example w_calls_values :
  match pins_ops w_calls w_pins with
  | Ok (vs, p') => (vs, take 5 (drop (Z.to_nat 0x2FD) (mem p')))
  | Err _ => ([], [])
  end = ([0; 0; 0; 0xA5; 0; 0; 0], [0; 0xFF; 0xFF; 0xFF; 0xFF]).
Proof. vm_compute. reflexivity. Qed.

Theorem spi_routines_refine_witness :
  let i := SdInfo 0 0 0 0 0 0 0 0 0 0 0 0 0 0 0 [] in
  Forall op_ok w_calls ∧ wired w_pins w_bus ∧
  ∃ vs p' b', pins_ops w_calls w_pins = Ok (vs, p') ∧
    drv_ops w_calls (mem w_pins) (SdDrv i w_bus) = Ok ((vs, mem p'), SdDrv i b') ∧ wired p' b'.
Proof.
  intros i. assert (Forall op_ok w_calls) as Hos by (repeat constructor; unfold op_ok, byte_range; repeat split; lia).
  assert (wired w_pins w_bus) as Hw.
  { split; [vm_compute; reflexivity|]. split; cbn; repeat split; lia. }
  split; [exact Hos|]. split; [exact Hw|]. exact (spi_routines_refine w_calls w_pins w_bus i Hos Hw).
Defined.
