(* ===== verification/SdSpec.v ===== *)
(** The SD card driver: the types of sd_info, the laws of the bus, and the rules
    for the time and the effects of the driver's operations. *)
From S2P Require Import Prelude CDefs SdAsm Sched Kern Fat SdCard.

(** ** The type of sd_info *)

Record info_ok (i : sd_info_t) : Prop := {
  ok_detect : is_byte (si_detect i);
  ok_sdhc : is_byte (si_sdhc i);
  ok_cluster_size : is_byte (si_cluster_size i);
  ok_cluster_shift : is_byte (si_cluster_shift i);
  ok_part_offset : is_u32 (si_part_offset i);
  ok_part_size : is_u32 (si_part_size i);
  ok_fat1 : is_u32 (si_fat1 i);
  ok_fat2 : is_u32 (si_fat2 i);
  ok_fat_size : is_u32 (si_fat_size i);
  ok_root : is_u32 (si_root i);
  ok_cluster_offset : is_u32 (si_cluster_offset i);
  ok_cluster_count : is_u32 (si_cluster_count i);
  ok_cache_block : is_u32 (si_cache_block i);
  ok_cache_block2 : is_u32 (si_cache_block2 i);
  ok_cache_mode : is_byte (si_cache_mode i);
  ok_length : zlen (si_block i) = SD_BLKSIZE;
  ok_block : Forall is_byte (si_block i);
}.

Lemma u32_ok v : is_u32 (u32 v).
Proof. apply Z.mod_pos_bound. lia. Qed.
Lemma byte_u32 v : is_byte v → is_u32 v.
Proof. unfold is_byte, is_u32. lia. Qed.
Lemma byte_const v : (0 <=? v) && (v <? 256) = true → is_byte v.
Proof. unfold is_byte. lia. Qed.

(** ** The laws of the bus

    Received bytes are bytes.  [time] is real time in units of which [C] make a
    tick of the clock; an operation of the bus takes at most [K], and receiving
    a byte takes at least 1. *)
Record bus_laws {B : spi_bus} (time : bus → Z) (C K : Z) : Prop := {
  bl_byte : ∀ b, is_byte (bus_receive_byte b).1;
  bl_receive : ∀ b, time b + 1 ≤ time (bus_receive_byte b).2 ≤ time b + K;
  bl_send : ∀ c b, time b ≤ time (bus_send_byte c b) ≤ time b + K;
  bl_lower : ∀ b, time b ≤ time (bus_lower_cs b) ≤ time b + K;
  bl_raise : ∀ b, time b ≤ time (bus_raise_cs b) ≤ time b + K;
  bl_clock : ∀ b, (bus_clock b).1 = u16 (time b / C);
  bl_clock_time : ∀ b, time b ≤ time (bus_clock b).2 ≤ time b + K;
  bl_time : ∀ b, 0 ≤ time b;
  bl_rate : 0 < C ∧ 0 < K ∧ 1100 * K ≤ 60000 * C;
}.

Section Spec.
Context {B : spi_bus} (time : bus → Z) (C K : Z) (laws : bus_laws time C K).
Implicit Types (d : sd_drv).

Notation now d := (time (d_bus d)).

(** ** Operations of the bus

    [bus_op lo hi m Q]: [m] changes the bus only, takes at least [lo] units and
    at most the time of [hi] operations, and its result satisfies [Q]. *)
Definition bus_op {X} (lo hi : Z) (m : M sd_drv X) (Q : X → Prop) : Prop :=
  ∀ d, wp m (λ x d', d_info d' = d_info d ∧ now d + lo ≤ now d' ≤ now d + hi * K ∧ Q x) d.

Lemma bus_ret {X} (x : X) (Q : X → Prop) : Q x → bus_op 0 0 (mret x) Q.
Proof. intros HQ d. apply wp_ret. split_and!; [done|lia..|done]. Qed.

Lemma bus_bind {X Y} lo1 hi1 lo2 hi2 (m : M sd_drv X) (f : X → M sd_drv Y) P Q :
  bus_op lo1 hi1 m P → (∀ x, P x → bus_op lo2 hi2 (f x) Q) → bus_op (lo1 + lo2) (hi1 + hi2) (m ≫= f) Q.
Proof.
  intros Hm Hf d. eapply wp_seq; [apply Hm|]. intros x d1 (E1 & T1 & Hx). cbv beta.
  eapply wp_mono; [by apply Hf|]. intros y d2 (E2 & T2 & Hy). cbv beta.
  split_and!; [congruence|lia..|done].
Qed.

Lemma bus_weaken {X} lo hi lo' hi' (m : M sd_drv X) (P Q : X → Prop) :
  bus_op lo hi m P → lo' ≤ lo → hi ≤ hi' → (∀ x, P x → Q x) → bus_op lo' hi' m Q.
Proof.
  intros Hm Hlo Hhi HPQ d. eapply wp_mono; [apply Hm|]. intros x d' (E & T & Hx). cbv beta.
  destruct (bl_rate _ _ _ laws) as (_ & HK & _).
  split_and!; [done|lia| |auto]. nia.
Qed.

Lemma bus_prim f :
  (∀ b, time b ≤ time (f b) ≤ time b + K) → bus_op 0 1 (on_bus f) (λ _, True).
Proof. intros Hf d. apply wp_modify. simpl. pose proof (Hf (d_bus d)). split_and!; [done|lia..|done]. Qed.

Lemma lower_op : bus_op 0 1 spi_sdcard_lower_cs (λ _, True).
Proof. apply bus_prim, (bl_lower _ _ _ laws). Qed.
Lemma raise_op : bus_op 0 1 spi_sdcard_raise_cs (λ _, True).
Proof. apply bus_prim, (bl_raise _ _ _ laws). Qed.

Lemma receive_op : bus_op 1 1 spi_receive_byte is_byte.
Proof.
  intros d. unfold wp, spi_receive_byte. pose proof (bl_byte _ _ _ laws (d_bus d)) as Hb.
  pose proof (bl_receive _ _ _ laws (d_bus d)) as Ht. destruct (bus_receive_byte (d_bus d)) as [v b].
  eexists _, _. split; [done|]. simpl in *. split_and!; [done|lia..|done].
Qed.

Lemma send_op l : bus_op 0 (zlen l) (spi_send l) (λ _, True).
Proof.
  induction l as [|c l IH]; [by apply bus_ret|]. cbn [spi_send]. rewrite zlen_cons.
  eapply bus_weaken; [eapply bus_bind; [apply bus_prim, (bl_send _ _ _ laws c)|intros _ _; apply IH]|lia..|done].
Qed.

Lemma receive_many_op n : bus_op 0 (Z.of_nat n) (spi_receive n) (λ l, length l = n ∧ Forall is_byte l).
Proof.
  induction n as [|n IH]; [by apply bus_ret|]. cbn [spi_receive].
  eapply bus_weaken; [eapply bus_bind; [apply receive_op|intros c Hc; eapply bus_bind; [apply IH|intros l [Hl Hb]]]|..].
  - apply (bus_ret (c :: l) (λ l, length l = S n ∧ Forall is_byte l)). split; [simpl; lia|by constructor].
  - lia.
  - lia.
  - done.
Qed.

Lemma found_op c (p : Z → bool) hi : is_byte c → p c = true → 0 ≤ hi →
  bus_op 0 hi (mret (Some c)) (λ o, ∀ x, o = Some x → is_byte x ∧ p x = true).
Proof.
  intros Hc Hp Hhi. apply (bus_weaken 0 0 _ _ _ (λ o, o = Some c)); [by apply bus_ret|lia..|].
  by intros o -> x [= <-].
Qed.

Lemma poll_op n p : bus_op 0 (Z.of_nat n) (poll n p) (λ o, ∀ x, o = Some x → is_byte x ∧ p x = true).
Proof.
  induction n as [|n IH]; [by apply bus_ret|]. cbn [poll].
  eapply (bus_weaken (1 + 0) (1 + Z.of_nat n));
    [eapply (bus_bind 1 1 0 (Z.of_nat n)); [apply receive_op|intros c Hc]|lia..|intros o Ho; exact Ho].
  destruct (p c) eqn:Hp; [apply found_op; [done|done|lia]|apply IH].
Qed.

(** A poll receives at least one byte. *)
Lemma poll_op_1 n p : (0 < n)%nat →
  bus_op 1 (Z.of_nat n) (poll n p) (λ o, ∀ x, o = Some x → is_byte x ∧ p x = true).
Proof.
  destruct n as [|n]; [lia|intros _]. cbn [poll].
  eapply (bus_weaken (1 + 0) (1 + Z.of_nat n));
    [eapply (bus_bind 1 1 0 (Z.of_nat n)); [apply receive_op|intros c Hc]|lia..|intros o Ho; exact Ho].
  destruct (p c) eqn:Hp; [apply found_op; [done|done|lia]|apply poll_op].
Qed.

Lemma poll_default_op n p : bus_op 0 (Z.of_nat n) (r ← poll n p; mret (default 0xFF r)) is_byte.
Proof.
  eapply bus_weaken; [eapply bus_bind; [apply poll_op|intros o Ho; apply (bus_ret _ is_byte)]|lia..|done].
  destruct o as [x|]; [by apply Ho|by apply byte_const].
Qed.

(** A command takes at least one byte, and at most 255 + 6 + 255. *)
Lemma sd_command_op cmd : zlen (cmd_bytes cmd) = 6 → bus_op 1 516 (sd_command cmd) is_byte.
Proof.
  intros Hl. unfold sd_command.
  eapply (bus_weaken (1 + 0) (255 + 261));
    [eapply (bus_bind 1 255 0 261); [by apply (poll_op_1 255); lia|intros o _]|lia..|done].
  destruct o as [x|].
  - eapply (bus_weaken (0 + 0) (6 + 255)); [|lia..|done].
    eapply bus_bind; [rewrite <- Hl; apply send_op|intros _ _; apply (poll_default_op 255)].
  - eapply bus_weaken; [apply (bus_ret 0xFF is_byte); by apply byte_const|lia..|done].
Qed.

Lemma sd_simple_command_op cmd : bus_op 1 516 (sd_simple_command cmd) is_byte.
Proof. by apply sd_command_op. Qed.

Lemma sd_wait_for_start_op : bus_op 0 255 sd_wait_for_start is_byte.
Proof. apply poll_default_op. Qed.

(** ** The loops that wait for the clock *)

(** The difference of two 16-bit clock values is the time between them, as long
    as that is below 256 s. *)
Lemma clock_difference a b : 0 ≤ b - a < 65536 → u16 (u16 b - u16 a) = b - a.
Proof.
  intros H. unfold u16. rewrite <- Zminus_mod. by apply Z.mod_small.
Qed.

Lemma div_close a b c k : 0 < c → a ≤ b ≤ a + k * c → 0 ≤ b / c - a / c ≤ k.
Proof.
  intros Hc [H1 H2]. pose proof (Z.div_le_mono a b c Hc H1).
  pose proof (Z.div_le_mono b (a + k * c) c Hc H2). rewrite Z.div_add in H0 by lia. lia.
Qed.

Lemma div_far a b c k : 0 < c → 0 ≤ k → b / c - a / c < k → b - a < k * c.
Proof.
  intros Hc Hk H. destruct (Z.le_gt_cases (a + k * c) b) as [Hle|]; [|lia].
  apply (Z.div_le_mono _ _ c) in Hle; [|lia]. rewrite Z.div_add in Hle by lia. lia.
Qed.

Lemma clock_step d (Q : Z → sd_drv → Prop) :
  (∀ d', d_info d' = d_info d → now d ≤ now d' ≤ now d + K → Q (u16 (now d / C)) d') → wp sys_clock Q d.
Proof.
  intros H. unfold wp, sys_clock. pose proof (bl_clock _ _ _ laws (d_bus d)) as Hv.
  pose proof (bl_clock_time _ _ _ laws (d_bus d)) as Ht. destruct (bus_clock (d_bus d)) as [v b].
  simpl in *. subst v. eexists _, _. split; [done|]. by apply H.
Qed.

(** [tc] is the time of the last look at the clock, [t0] of the first one: each
    round takes time, so that [n] rounds are enough. *)
Lemma sd_retry_ends attempt : bus_op 1 1032 attempt (λ _, True) →
  ∀ n t0 tc d, t0 ≤ tc → tc ≤ now d ≤ tc + K → tc / C - t0 / C < 512 →
  512 * C ≤ Z.of_nat n + (tc - t0) →
  wp (sd_retry n attempt (u16 (t0 / C)))
     (λ _ d', d_info d' = d_info d ∧ now d ≤ now d' ≤ t0 + 512 * C + 1034 * K) d.
Proof.
  intros Ha. destruct (bl_rate _ _ _ laws) as (HC & HK & Hrate).
  induction n as [|n IH]; intros t0 tc d H0 Htc Hdiv Hn.
  all: pose proof (div_far t0 tc C 512 HC ltac:(lia) Hdiv) as Hfar.
  { lia. }
  cbn [sd_retry]. eapply wp_seq; [apply Ha|]. intros b d1 (E1 & T1 & _). cbv beta. destruct b.
  { apply wp_ret. split; [done|lia]. }
  apply wp_bind, clock_step. intros d2 E2 T2. unfold SD_INIT_TIMEOUT.
  pose proof (div_close t0 (now d1) C 60512 HC ltac:(lia)) as Hclose.
  rewrite clock_difference by lia. destruct (Z.leb_spec (2 * 256) (now d1 / C - t0 / C)) as [|Hlt].
  { apply wp_ret. split; [congruence|lia]. }
  eapply wp_mono; [apply (IH t0 (now d1)); lia|]. intros x d3 (E3 & T3). cbv beta.
  split; [congruence|lia].
Qed.

(** ** Phases

    [phase T P m Q]: from an [sd_info] with correct types where [P] holds, [m]
    ends after at most [T], and leaves correct types and [Q]. *)
Definition phase {X} (T : Z) (P : sd_info_t → Prop) (m : M sd_drv X) (Q : X → sd_info_t → Prop) : Prop :=
  ∀ d, info_ok (d_info d) → P (d_info d) →
    wp m (λ x d', info_ok (d_info d') ∧ now d ≤ now d' ≤ now d + T ∧ Q x (d_info d')) d.

Lemma ph_ret {X} T (P : sd_info_t → Prop) (x : X) (Q : X → sd_info_t → Prop) :
  0 ≤ T → (∀ i, info_ok i → P i → Q x i) → phase T P (mret x) Q.
Proof. intros HT HQ d Hd HP. apply wp_ret. split_and!; [done|lia..|auto]. Qed.

Lemma ph_seq {X Y} T T1 P (m : M sd_drv X) (R : X → sd_info_t → Prop) (f : X → M sd_drv Y) Q :
  phase T1 P m R → T1 ≤ T → (∀ x, phase (T - T1) (R x) (f x) Q) → phase T P (m ≫= f) Q.
Proof.
  intros Hm HT Hf d Hd HP. eapply wp_seq; [by apply Hm|]. intros x d1 (Hd1 & Ht1 & HR). cbv beta.
  eapply wp_mono; [by apply Hf|]. intros y d2 (Hd2 & Ht2 & HQ). cbv beta. split_and!; [done|lia..|done].
Qed.

Lemma ph_conseq {X} T T' (P P' : sd_info_t → Prop) (m : M sd_drv X) (Q Q' : X → sd_info_t → Prop) :
  phase T' P' m Q' → T' ≤ T → (∀ i, info_ok i → P i → P' i) → (∀ x i, info_ok i → Q' x i → Q x i) →
  phase T P m Q.
Proof.
  intros Hm HT HP HQ d Hd HPd. eapply wp_mono; [by apply Hm; auto|].
  intros x d' (Hd' & Ht & HQ'). cbv beta. split_and!; [done|lia..|auto].
Qed.

Lemma ph_pure {X} T P φ (m : M sd_drv X) Q : (φ → phase T P m Q) → phase T (λ i, P i ∧ φ) m Q.
Proof. intros Hm d Hd [HP H]. by apply Hm. Qed.

(** The rule for most steps: [m] keeps [P], and gives a fact [φ] of its result. *)
Lemma ph_step {X Y} T T1 P (m : M sd_drv X) (φ : X → Prop) (f : X → M sd_drv Y) Q :
  phase T1 P m (λ x i, P i ∧ φ x) → T1 ≤ T → (∀ x, φ x → phase (T - T1) P (f x) Q) →
  phase T P (m ≫= f) Q.
Proof. intros Hm HT Hf. eapply ph_seq; [exact Hm|done|]. intros x. apply ph_pure, Hf. Qed.

Lemma ph_bus {X} P lo hi (m : M sd_drv X) φ :
  bus_op lo hi m φ → 0 ≤ lo → phase (hi * K) P m (λ x i, P i ∧ φ x).
Proof.
  intros Hm Hlo d Hd HP. eapply wp_mono; [apply Hm|]. intros x d' (E & Ht & Hx). cbv beta.
  rewrite E. split_and!; [done|lia..|done|done].
Qed.

Lemma ph_info {X} P (f : sd_info_t → X) (φ : X → Prop) :
  (∀ i, info_ok i → P i → φ (f i)) → phase 0 P (info f) (λ x i, P i ∧ φ x).
Proof. intros H d Hd HP. apply wp_gets. split_and!; [done|lia..|done|auto]. Qed.

Lemma ph_upd f (P : sd_info_t → Prop) (Q : () → sd_info_t → Prop) :
  (∀ i, info_ok i → P i → info_ok (f i) ∧ Q () (f i)) → phase 0 P (upd f) Q.
Proof. intros H d Hd HP. apply wp_modify. simpl. destruct (H _ Hd HP). split_and!; [done|lia..|done]. Qed.

Lemma ph_lift {X} P (r : res X) (φ : X → Prop) :
  (∃ a, r = Ok a ∧ φ a) → phase 0 P (lift r) (λ x i, P i ∧ φ x).
Proof.
  intros Hr d Hd HP. eapply wp_lift; [exact Hr|]. intros a Ha. split_and!; [done|lia..|done|done].
Qed.

Lemma sd_retry_phase patience P attempt :
  bus_op 1 1032 attempt (λ _, True) → 512 * C ≤ Z.of_nat patience →
  phase (512 * C + 1035 * K) P (sd_retry_2s patience attempt) (λ _ i, P i ∧ True).
Proof.
  intros Ha Hp d Hd HP. destruct (bl_rate _ _ _ laws) as (HC & HK & _).
  apply wp_bind, clock_step. intros d1 E1 T1.
  eapply wp_mono; [apply (sd_retry_ends _ Ha patience (now d) (now d)); lia|].
  intros x d2 (E2 & T2). cbv beta. rewrite E2, E1. split_and!; [done|lia..|done|done].
Qed.
End Spec.
