(* ===== verification/SdDetect.v ===== *)
(** The phases of sd_detect(): each ends in bounded time and keeps the types of
    sd_info and the cached block number, up to the layout that empties the cache. *)
From S2P Require Import Prelude CDefs SdAsm Sched Kern Fat SdCard SdSpec.

Definition cache_is (mode block : Z) (i : sd_info_t) : Prop :=
  si_cache_mode i = mode ∧ si_cache_block i = block.

Section Detect.
Context {B : spi_bus} (time : bus → Z) (C K : Z) (laws : bus_laws time C K).

Notation phase := (phase time).
Notation step := (ph_step time).

Lemma rd_block_typed i k : info_ok i → 0 ≤ k < 512 → ∃ v, rd (si_block i) k = Ok v ∧ is_byte v.
Proof.
  intros Hi Hk. destruct (rd_ok (si_block i) k) as (v & Hv & Hl); [by rewrite (ok_length _ Hi)|].
  exists v. split; [done|]. eapply Forall_lookup_1; [apply (ok_block _ Hi)|exact Hl].
Qed.

Lemma le16_typed b i v0 v1 :
  rd b i = Ok v0 → rd b (i + 1) = Ok v1 → is_byte v0 → is_byte v1 →
  ∃ v, le16 b i = Ok v ∧ 0 ≤ v < 65536.
Proof.
  unfold is_byte. intros E0 E1 H0 H1. unfold le16. rewrite E0. simpl. rewrite E1. simpl.
  eexists. split; [done|]. rewrite lor_add by lia. lia.
Qed.

Lemma sd_byte_phase P k : 0 ≤ k < 512 → phase 0 P (sd_byte k) (λ b i, P i ∧ is_byte b).
Proof.
  intros Hk d Hd HP. apply wp_bind, wp_gets. eapply wp_lift; [by apply rd_block_typed|].
  intros v Hv. split_and!; [done|lia..|done|done].
Qed.

Lemma block_word16 i k : info_ok i → 0 ≤ k → k + 1 < 512 →
  ∃ v, le16 (si_block i) k = Ok v ∧ 0 ≤ v < 65536.
Proof.
  intros Hi Hk Hk1. destruct (rd_block_typed i k Hi) as (v0 & E0 & H0); [lia|].
  destruct (rd_block_typed i (k + 1) Hi) as (v1 & E1 & H1); [lia|]. by eapply le16_typed.
Qed.

Lemma sd_word16_phase P k : 0 ≤ k → k + 1 < 512 →
  phase 0 P (sd_word16 k) (λ v i, P i ∧ is_u32 v).
Proof.
  intros Hk Hk1 d Hd HP. apply wp_bind, wp_gets. eapply wp_lift; [by apply block_word16|].
  intros v Hv. cbv beta in Hv. unfold is_u32. split_and!; [done|lia..|done|lia|lia].
Qed.

Lemma sd_word32_phase P k : 0 ≤ k → k + 3 < 512 →
  phase 0 P (sd_word32 k) (λ v i, P i ∧ is_u32 v).
Proof.
  intros Hk Hk1 d Hd HP. apply wp_bind, wp_gets.
  destruct (block_word16 (d_info d) k Hd) as (lo & E0 & H0); [lia..|].
  destruct (block_word16 (d_info d) (k + 2) Hd) as (hi & E1 & H1); [lia..|].
  eapply (wp_lift _ is_u32); [unfold le32; rewrite E0; simpl; rewrite E1; simpl; eexists; split; [done|]|].
  - unfold is_u32. rewrite lor_add by lia. lia.
  - intros v Hv. split_and!; [done|lia..|done|done].
Qed.

(** ** Steps *)

Ltac rates := destruct (bl_rate _ _ _ laws) as (HC & HK & _).
(** Runs the next step with the given lemma, and branches on its outcome. *)
Tactic Notation "run" tactic3(t) := eapply (ph_step time); [t | lia | cbv beta].
Tactic Notation "run_bus" tactic3(t) :=
  eapply (ph_step time); [eapply (ph_bus time K); [t | lia] | lia | cbv beta].
Ltac return_with := apply (ph_ret time); [lia|].

Lemma bus_unit hi : 0 ≤ hi → bus_op time K 0 hi (mret ()) (λ _, True).
Proof. intros H. eapply (bus_weaken time C K laws 0 0); [by apply (bus_ret _ _ _ (λ _, True))|lia..|done]. Qed.

Lemma spi_blank_op n : bus_op time K 0 (Z.of_nat n) (spi_blank n) (λ _, True).
Proof.
  eapply (bus_weaken time C K laws (0 + 0) (Z.of_nat n + 0)); [|lia..|done].
  eapply bus_bind; [apply (receive_many_op _ _ _ laws)|intros l _; by apply bus_unit].
Qed.

Lemma sd_wakeup_op : bus_op time K 0 11 sd_wakeup (λ _, True).
Proof.
  apply (bus_weaken time C K laws (0 + 0) (1 + 10) _ _ _ (λ _, True)); [|lia..|done].
  eapply bus_bind; [apply (raise_op _ _ _ laws)|intros _ _; apply (spi_blank_op 10)].
Qed.

Lemma raise_then {X} (x : X) : bus_op time K 0 1 (_ ← spi_sdcard_raise_cs; mret x) (λ y, y = x).
Proof.
  apply (bus_weaken time C K laws (0 + 0) (1 + 0) _ _ _ (λ y, y = x)); [|lia..|done].
  eapply bus_bind; [apply (raise_op _ _ _ laws)|intros _ _; by apply bus_ret].
Qed.

Lemma command_is_op cmd v : zlen (cmd_bytes cmd) = 6 →
  bus_op time K 1 516 (r ← sd_command cmd; mret (r =? v)) (λ _, True).
Proof.
  intros Hl. apply (bus_weaken time C K laws (1 + 0) (516 + 0) _ _ _ (λ _, True)); [|lia..|done].
  eapply bus_bind; [by apply (sd_command_op _ _ _ laws)|intros r _; by apply bus_ret].
Qed.

Lemma sd_still_there_op : bus_op time K 0 791 sd_still_there (λ _, True).
Proof.
  unfold sd_still_there.
  apply (bus_weaken time C K laws (0 + (1 + (0 + 0))) (1 + (516 + (255 + 19))) _ _ _ (λ _, True)); [|lia..|done].
  eapply bus_bind; [apply (lower_op _ _ _ laws)|intros _ _].
  eapply bus_bind; [apply (sd_simple_command_op _ _ _ laws)|intros status _].
  eapply (bus_bind time K 0 255 0 19 _ _ (λ _, True)).
  - destruct (_ =? _).
    + apply (bus_weaken time C K laws (0 + 0) (255 + 0) _ _ _ (λ _, True)); [|lia..|done].
      eapply bus_bind; [apply (sd_wait_for_start_op _ _ _ laws)|intros start _; by apply bus_ret].
    + by apply (bus_weaken time C K laws 0 0 _ _ _ (λ _, True)); [apply bus_ret|lia..|].
  - intros present _. destruct present.
    + apply (bus_weaken time C K laws (0 + 0) (18 + 1) _ _ _ (λ _, True)); [|lia..|done].
      eapply bus_bind; [apply (spi_blank_op 18)|intros _ _].
      eapply (bus_weaken time C K laws 0 1); [apply raise_then|lia..|done].
    + eapply (bus_weaken time C K laws 0 1); [apply raise_then|lia..|done].
Qed.

(** ** The phases in order *)

Lemma received_byte (arg : list Z) n k :
  length arg = n ∧ Forall is_byte arg → 0 ≤ k < Z.of_nat n → ∃ v, rd arg k = Ok v ∧ is_byte v.
Proof.
  intros [Hl Hb] Hk. destruct (rd_ok arg k) as (v & Hv & Hlk); [unfold zlen; lia|].
  exists v. split; [done|]. by eapply Forall_lookup_1.
Qed.

Lemma sd_version_phase P :
  phase (520 * K) P sd_version (λ v i, P i ∧ ∀ x, v = Some x → x = 1 ∨ x = 2).
Proof.
  rates. unfold sd_version.
  run_bus (by apply (sd_command_op _ _ _ laws)). intros r _.
  destruct (_ =? _); [|return_with; intros i _ HP; split; [done|intros x [= <-]; by left]].
  run_bus (apply (receive_many_op _ _ _ laws)). intros arg Harg.
  run (apply (ph_lift time), (received_byte arg 4 3 Harg); lia). intros echo _.
  return_with. intros i _ HP. split; [done|]. intros x. destruct (_ =? _); intros [= <-]. by right.
Qed.

Lemma sd_reset_phase patience P : 512 * C ≤ Z.of_nat patience →
  phase (512 * C + 1036 * K) P (sd_reset patience) (λ _ i, P i ∧ True).
Proof.
  intros Hp. rates. unfold sd_reset.
  run_bus (apply (lower_op _ _ _ laws)). intros _ _.
  eapply (ph_conseq time); [apply (sd_retry_phase _ _ _ laws patience P); [|done]|lia|done|done].
  eapply (bus_weaken _ _ _ laws); [by apply command_is_op|lia..|done].
Qed.

Lemma sd_activate_phase patience P version : 512 * C ≤ Z.of_nat patience →
  phase (512 * C + 1035 * K) P (sd_activate patience version) (λ _ i, P i ∧ True).
Proof.
  intros Hp. apply (sd_retry_phase _ _ _ laws patience P); [|done].
  apply (bus_weaken _ _ _ laws (1 + 1) (516 + 516) _ _ _ (λ _, True)); [|lia..|done].
  eapply bus_bind; [apply (sd_simple_command_op _ _ _ laws)|intros r _; by apply command_is_op].
Qed.

(** An assignment that keeps [P]. *)
Lemma ph_set P f :
  (∀ i, info_ok i → info_ok (f i)) → (∀ i, P i → P (f i)) → phase 0 P (upd f) (λ _ i, P i ∧ True).
Proof. intros Ht HP. apply ph_upd. intros i Hi H. auto. Qed.

Lemma skip_phase P : phase 0 P (mret ()) (λ _ i, P i ∧ True).
Proof. by apply (ph_ret time). Qed.

Ltac typed :=
  match goal with |- ∀ _ : sd_info_t, _ => intros ? | _ => idtac end;
  let Hi := fresh in intros Hi; destruct Hi; constructor; simpl;
  first [assumption | by apply u32_ok | by apply byte_const | idtac].

Lemma sd_ocr_phase P version : (∀ v i, P i → P (si_set_sdhc v i)) →
  phase (520 * K) P (sd_ocr version) (λ _ i, P i ∧ True).
Proof.
  intros HP. rates. unfold sd_ocr. destruct (_ =? _); [|by return_with].
  run_bus (by apply (sd_command_op _ _ _ laws)). intros r _.
  destruct (negb _); [by return_with|].
  run_bus (apply (receive_many_op _ _ _ laws)). intros arg Harg.
  run (apply (ph_lift time), (received_byte arg 4 0 Harg); lia). intros a0 _.
  eapply (ph_step time _ 0 _ _ (λ _, True)); [|lia|by intros _ _; return_with].
  destruct (_ =? _); [|apply skip_phase]. apply ph_set; [typed|auto].
Qed.

Lemma receive_block_phase P n : (n ≤ 512)%nat → (∀ v i, P i → P (si_set_block v i)) →
  phase (Z.of_nat n * K) P (receive_block n) (λ _ i, P i ∧ True).
Proof.
  intros Hn HP. rates. unfold receive_block.
  run_bus (apply (receive_many_op _ _ _ laws)). intros data [Hl Hb].
  eapply (ph_conseq time); [apply (ph_set P)|lia|done|done]; [|auto].
  intros i Hi. pose proof (ok_length _ Hi) as Hlen. pose proof (ok_block _ Hi) as Hblk.
  destruct Hi; constructor; simpl; try assumption.
  - unfold zlen, SD_BLKSIZE in *. rewrite length_app, length_drop. lia.
  - apply Forall_app. split; [done|]. by apply Forall_drop.
Qed.

Lemma sd_adjust_phase P b : phase 0 P (sd_adjust_block_number b) (λ _ i, P i ∧ True).
Proof.
  unfold sd_adjust_block_number. run (by apply (ph_info time _ _ (λ _, True))). intros sdhc _. by return_with.
Qed.

Lemma raise_phase {X} P (x : X) T (Q : X → sd_info_t → Prop) :
  K ≤ T → (∀ i, info_ok i → P i → Q x i) → phase T P (_ ← spi_sdcard_raise_cs; mret x) Q.
Proof.
  intros HT HQ. eapply (ph_conseq time); [eapply (ph_bus time K P); [apply (raise_then x)|lia]|lia|done|].
  simpl. intros y i Hi [HP ->]. auto.
Qed.

Lemma sd_read_phase P b : (∀ v i, P i → P (si_set_block v i)) →
  phase (1287 * K) P (sd_read b) (λ _ i, P i ∧ True).
Proof.
  intros HP. rates. unfold sd_read. run (apply (sd_adjust_phase P)). intros b' _.
  run_bus (apply (lower_op _ _ _ laws)). intros _ _.
  run_bus (by apply (sd_command_op _ _ _ laws)). intros r _.
  destruct (negb _); [apply raise_phase; [lia|done]|].
  run_bus (apply (sd_wait_for_start_op _ _ _ laws)). intros start _.
  destruct (_ =? _); [apply raise_phase; [lia|done]|].
  run (apply (receive_block_phase P 512); [lia|done]). intros _ _.
  do 2 (run_bus (apply (receive_op _ _ _ laws)); intros ? _).
  apply raise_phase; [lia|done].
Qed.

Lemma if_ok {X} T P Q (b : bool) (x : X) (m : M sd_drv X) :
  0 ≤ T → (∀ i, P i → Q x i) → phase T P m Q → phase T P (if b then mret x else m) Q.
Proof. intros HT HQ Hm. destruct b; [apply (ph_ret time); auto|done]. Qed.

Lemma sd_get_size_phase P : (∀ v i, P i → P (si_set_block v i)) →
  phase 0 P sd_get_size (λ v i, P i ∧ is_u32 v).
Proof.
  intros HP. unfold sd_get_size.
  do 7 (run (apply sd_byte_phase; lia); let b := fresh "b" in let H := fresh "H" in intros b H).
  destruct (get_size_clobbers _ _ _ _ _) as [[[c6 c7] c8] c10] eqn:E.
  apply get_size_clobbers_typed in E; [|by repeat apply Forall_cons_2].
  rewrite !Forall_cons in E. destruct E as (H6 & H7 & H8 & H10 & _).
  run (apply (ph_set P); [|auto]).
  - intros i Hi. pose proof (ok_length _ Hi) as Hl. pose proof (ok_block _ Hi) as Hb.
    destruct Hi; constructor; simpl; try assumption.
    + unfold zlen in *. by rewrite !length_insert.
    + by repeat apply Forall_insert.
  - intros _ _. return_with. intros i _ Hi. split; [done|]. apply get_size_typed.
    by repeat apply Forall_cons_2.
Qed.

(** What the phases between the start of the detection and the layout keep. *)
Definition pending (mode block : Z) (i : sd_info_t) : Prop :=
  si_detect i = 0 ∧ cache_is mode block i.

Lemma sd_csd_phase mode block :
  phase (789 * K) (pending mode block) sd_csd (λ _ i, pending mode block i ∧ True).
Proof.
  rates. unfold sd_csd.
  run_bus (by apply (sd_command_op _ _ _ laws)). intros r _. apply if_ok; [lia|done|].
  run_bus (apply (sd_wait_for_start_op _ _ _ laws)). intros start _. apply if_ok; [lia|done|].
  run (apply (receive_block_phase (pending mode block) 18); [lia|done]). intros _ _.
  run (by apply (sd_get_size_phase (pending mode block))). intros size Hs.
  run (apply (ph_set (pending mode block)); [typed|done]). intros _ _. by return_with.
Qed.

Lemma sd_read_signed_phase mode block b :
  phase (1287 * K) (pending mode block) (sd_read_signed b) (λ _ i, pending mode block i ∧ True).
Proof.
  rates. unfold sd_read_signed.
  run (by apply (sd_read_phase (pending mode block))). intros r _. apply if_ok; [lia|done|].
  run (apply sd_byte_phase; lia). intros b1 _. apply if_ok; [lia|done|].
  run (apply sd_byte_phase; lia). intros b2 _. by return_with.
Qed.

Lemma sd_partition_phase mode block :
  phase (2574 * K) (pending mode block) sd_partition (λ _ i, pending mode block i ∧ True).
Proof.
  rates. unfold sd_partition.
  run (apply sd_read_signed_phase). intros ok _. apply if_ok; [lia|done|].
  run (apply sd_byte_phase; lia). intros status _. destruct (_ =? _); [|by return_with].
  run (apply sd_word32_phase; lia). intros offset Ho.
  run (apply (ph_set (pending mode block)); [typed|done]). intros _ _.
  run (apply sd_word32_phase; lia). intros size Hs.
  run (apply (ph_set (pending mode block)); [typed|done]). intros _ _.
  eapply (ph_conseq time); [apply sd_read_signed_phase|lia|done|done].
Qed.

Lemma sd_expect_phase P l : Forall (λ e, 0 ≤ e.1 < 512) l → phase 0 P (sd_expect l) (λ _ i, P i ∧ True).
Proof.
  intros Hl. induction Hl as [|[k v] l Hk _ IH]; [by return_with|]. cbn [sd_expect].
  run (apply sd_byte_phase; exact Hk). intros b _. destruct (_ =? _); [exact IH|by return_with].
Qed.

Lemma sd_header_phase mode block :
  phase 0 (pending mode block) sd_header
    (λ ok i, pending mode block i ∧ (ok = true → si_cluster_size i ∈ cluster_sizes)).
Proof.
  unfold sd_header. run (apply sd_expect_phase; repeat constructor; simpl; lia). intros sector _.
  apply if_ok; [lia|done|]. run (apply sd_byte_phase; lia). intros size Hsz.
  eapply (ph_seq time _ 0 _ _ (λ _ i, pending mode block i ∧ si_cluster_size i = size)); [|lia|].
  { apply (ph_upd time). intros i Hi HP. split; [destruct Hi; by constructor|done]. }
  intros _. destruct (decide (size ∈ cluster_sizes)) as [Hin|Hin].
  - rewrite bool_decide_true by done. cbn [negb].
    run (apply sd_expect_phase; repeat constructor; simpl; lia). intros fixed _.
    destruct (negb fixed); [return_with; by intros i _ [? ->]|].
    run (apply sd_byte_phase; lia). intros status _. return_with. by intros i _ [? ->].
  - rewrite bool_decide_false by done. return_with. by intros i _ [? ->].
Qed.

Lemma shift_of_size size : size ∈ cluster_sizes →
  ∃ shift, sd_shift_loop 9 1 size 0 = Ok shift ∧ 0 ≤ shift ≤ 7 ∧ size = 2 ^ shift.
Proof.
  unfold cluster_sizes. rewrite !elem_of_cons, elem_of_nil. intros H. destruct_or! H; try done; subst size.
  all: eexists; split; [reflexivity|compute_decide].
Qed.

(** The layout of the volume is there, and the cache is empty. *)
Definition laid_out (i : sd_info_t) : Prop :=
  0 ≤ si_cluster_shift i ≤ 7 ∧ si_cluster_size i = 2 ^ si_cluster_shift i ∧ cache_is SD_C_EMPTY 0 i.

Lemma sd_layout_phase P :
  phase 0 (λ i, P i ∧ si_cluster_size i ∈ cluster_sizes) sd_layout (λ _, laid_out).
Proof.
  unfold sd_layout.
  eapply (ph_seq time _ 0 _ _ (λ v i, si_cluster_size i = v ∧ v ∈ cluster_sizes)); [|lia|].
  { intros d Hd [_ HP]. apply wp_gets. split_and!; [done|lia..|done|done]. }
  intros size. apply (ph_pure time). intros Hin.
  run (by apply (ph_lift time), shift_of_size). intros shift [Hsh Hsz].
  eapply (ph_seq time _ 0 _ _ (λ _ i, si_cluster_size i = 2 ^ shift ∧ si_cluster_shift i = shift)); [|lia|].
  { apply (ph_upd time). intros i Hi Hs. split; [|simpl; lia]. destruct Hi; constructor; simpl; try assumption.
    unfold is_byte. lia. }
  intros _. run (apply sd_word32_phase; lia). intros fat_size Hf.
  run (apply sd_word16_phase; lia). intros fat1 Hf1.
  run (apply sd_word32_phase; lia). intros root Hr.
  run (apply (ph_info time _ _ is_u32); intros i Hi _; apply (ok_part_size _ Hi)). intros part_size Hps.
  run (apply (ph_info time _ _ is_u32); intros i Hi _; apply (ok_part_offset _ Hi)). intros part_offset Hpo.
  run (apply ph_set; [typed|done]).
  { rewrite Z.shiftr_div_pow2 by lia. pose proof (u32_ok (part_size - u32 (u32 (fat1 + fat_size) + fat_size))) as Hu.
    unfold is_u32 in *. split; [apply Z.div_pos; lia|]. apply Z.div_lt_upper_bound; nia. }
  intros _ _. do 3 (run (apply ph_set; [typed|done]); intros _ _).
  apply (ph_upd time). intros i Hi [Hs1 Hs2]. split; [revert Hi; typed|]. unfold laid_out, cache_is. simpl.
  subst shift. split_and!; done || lia.
Qed.

(** ** The detection *)

Definition detected (mode block : Z) (r : Z) (i : sd_info_t) : Prop :=
  (r = SD_DETECT_NONE ∧ pending mode block i) ∨
  (r = SD_DETECT_NEW ∧ laid_out i ∧ (si_detect i = 1 ∨ si_detect i = 2)).

Lemma sd_detect_new_phase patience mode block : 512 * C ≤ Z.of_nat patience →
  phase (1024 * C + 6500 * K) (cache_is mode block) (sd_detect_new patience) (detected mode block).
Proof.
  intros Hp. rates. unfold sd_detect_new.
  assert (∀ T, K ≤ T → phase T (pending mode block) sd_fail (detected mode block)) as Hfail.
  { intros T HT. apply raise_phase; [done|]. intros i _ Hi. by left. }
  eapply (ph_seq time _ 0 _ _ (λ _, pending mode block)); [|lia|intros _].
  { apply (ph_upd time). intros i Hi HP. split; [revert Hi; typed|done]. }
  run_bus (apply sd_wakeup_op). intros _ _.
  run (apply sd_reset_phase; exact Hp). intros ok _. destruct ok; [cbn [negb]|apply Hfail; lia].
  run (apply sd_version_phase). intros version Hv. destruct version as [version|]; [|apply Hfail; lia].
  run (apply sd_activate_phase; exact Hp). intros ok _. destruct ok; [cbn [negb]|apply Hfail; lia].
  run (by apply (sd_ocr_phase (pending mode block))). intros ok _. destruct ok; [cbn [negb]|apply Hfail; lia].
  run (apply sd_csd_phase). intros ok _. destruct ok; [cbn [negb]|apply Hfail; lia].
  run (apply sd_partition_phase). intros ok _. destruct ok; [cbn [negb]|apply Hfail; lia].
  eapply (ph_seq time); [apply sd_header_phase|lia|]. intros ok. destruct ok.
  - cbn [negb]. eapply (ph_seq time _ 0 _ _ (λ _, laid_out)); [|lia|intros _].
    { eapply (ph_conseq time); [apply (sd_layout_phase (pending mode block))|lia| |done]. intros i _ [HP H]. auto. }
    run_bus (apply (raise_op _ _ _ laws)). intros _ _.
    eapply (ph_seq time _ 0 _ _ (λ _ i, laid_out i ∧ si_detect i = version)); [|lia|intros _].
    { apply (ph_upd time). intros i Hi HP. split; [revert Hi; typed|done].
      unfold is_byte. destruct (Hv version); [done|lia..]. }
    return_with. intros i _ [HP Hdt]. right. rewrite Hdt. auto.
  - cbn [negb]. eapply (ph_conseq time); [apply (Hfail (K + 0)); lia|lia| |done]. by intros i _ [HP _].
Qed.

Lemma sd_detect_phase patience i0 : 512 * C ≤ Z.of_nat patience →
  phase (1024 * C + 7300 * K) (λ i, i = i0) (sd_detect patience)
    (λ r i, (r = SD_DETECT_EXISTING ∧ i = i0) ∨
            detected (si_cache_mode i0) (si_cache_block i0) r i).
Proof.
  intros Hp. rates. unfold sd_detect. run (by apply (ph_info time _ _ (λ v, v = si_detect i0)); intros i _ ->).
  intros detect ->. eapply (ph_step time _ (791 * K) _ _ (λ _, True)); [|lia|].
  { destruct (negb _); [apply (ph_bus time K _ 0); [apply sd_still_there_op|lia]|].
    return_with. done. }
  intros present _. destruct present; [return_with; auto|].
  eapply (ph_conseq time); [by apply (sd_detect_new_phase patience (si_cache_mode i0) (si_cache_block i0))|lia| |auto].
  by intros i _ ->.
Qed.

End Detect.

(** ** Claims *)

(** What the users of the driver rely on after a card was detected: the version
    is known, and the cluster size is the power of two that the shift says. *)
Definition volume_ok (i : sd_info_t) : Prop :=
  (si_detect i = 1 ∨ si_detect i = 2) ∧
  0 ≤ si_cluster_shift i ≤ 7 ∧ si_cluster_size i = 2 ^ si_cluster_shift i.

(** C26: sd_detect() returns, whatever the card sends, in four seconds of the
    clock (two for each of its waiting loops) and the time of 7300 operations of
    the bus, with one of its three results.  [C] is the time of a clock tick, [K]
    that of the slowest bus operation; the fuel of the loops is the number of
    bytes that fit in two seconds. *)
Theorem sd_detect_terminates {B : spi_bus} (time : bus → Z) C K patience (d : sd_drv) :
  bus_laws time C K → 512 * C ≤ Z.of_nat patience → info_ok (d_info d) →
  ∃ r d', sd_detect patience d = Ok (r, d') ∧
    r ∈ [SD_DETECT_NONE; SD_DETECT_NEW; SD_DETECT_EXISTING] ∧
    time (d_bus d') ≤ time (d_bus d) + 1024 * C + 7300 * K.
Proof.
  intros laws Hp Hd.
  destruct (sd_detect_phase time C K laws patience (d_info d) Hp d Hd eq_refl) as (r & d' & E & _ & Ht & HQ).
  exists r, d'. split; [done|]. split; [|lia]. unfold detected in HQ.
  rewrite !elem_of_cons. naive_solver.
Qed.

(** C27: the types of sd_info are kept, and each result means what the users of
    sd_detect() take it for: EXISTING leaves the volume and the cache alone, NEW
    comes with a well-formed volume and an empty cache, after NONE no card is
    detected, but the cache is as it was. *)
Theorem sd_detect_typed {B : spi_bus} (time : bus → Z) C K patience (d : sd_drv) r d' :
  bus_laws time C K → 512 * C ≤ Z.of_nat patience → info_ok (d_info d) →
  sd_detect patience d = Ok (r, d') →
  info_ok (d_info d') ∧
  (r = SD_DETECT_EXISTING → d_info d' = d_info d) ∧
  (r = SD_DETECT_NEW → volume_ok (d_info d') ∧ cache_is SD_C_EMPTY 0 (d_info d')) ∧
  (r = SD_DETECT_NONE → si_detect (d_info d') = 0 ∧
     cache_is (si_cache_mode (d_info d)) (si_cache_block (d_info d)) (d_info d')).
Proof.
  intros laws Hp Hd E.
  destruct (sd_detect_phase time C K laws patience (d_info d) Hp d Hd eq_refl) as (r1 & d1 & E1 & Hok & _ & HQ).
  rewrite E in E1. injection E1 as <- <-. split; [done|].
  unfold detected, laid_out, pending, volume_ok, cache_is in *. naive_solver.
Qed.
