(* ===== verification/SdPins.v ===== *)
(** The SD card driver on the pins: the bus that the routines of Spi.v make of a
    port meets the laws that the theorems of the driver ask for, when each change of
    the pins takes some time and the clock runs with it. *)
From S2P Require Import Prelude CDefs SdAsm Sched Kern Fat SdCard Spi SdSpec SdDetect.

(** A change of the pins, and reading the clock, take at most [k] units; a tick of
    the clock is [C] units.  A byte that is sent changes the pins 24 times. *)
Record slave_laws {W : spi_slave} (time : dev → Z) (C k : Z) : Prop := {
  sl_pins : ∀ sclk mosi cs d, time d + 1 ≤ time (dev_pins sclk mosi cs d) ≤ time d + k;
  sl_clock : ∀ d, (dev_clock d).1 = u16 (time d / C);
  sl_clock_time : ∀ d, time d ≤ time (dev_clock d).2 ≤ time d + k;
  sl_time : ∀ d, 0 ≤ time d;
  sl_rate : 0 < C ∧ 0 < k ∧ 1100 * (24 * k) ≤ 60000 * C;
}.

Section Pins.
Context {W : spi_slave} (time : dev → Z) (C k : Z) (laws : slave_laws time C k).

Lemma send_bit_time cs b d : time d ≤ time (send_bit cs b d) ≤ time d + 3 * k.
Proof using laws.
  unfold send_bit. pose proof (sl_pins _ _ _ laws false b cs d).
  pose proof (sl_pins _ _ _ laws true b cs (dev_pins false b cs d)).
  pose proof (sl_pins _ _ _ laws false b cs (dev_pins true b cs (dev_pins false b cs d))). lia.
Qed.

Lemma send_bits_time cs v l d :
  time d ≤ time (foldl (λ d i, send_bit cs (Z.testbit v i) d) d l) ≤ time d + 3 * zlen l * k.
Proof using laws.
  revert d. induction l as [|i l IH]; intros d; [change (zlen []) with 0; cbn; lia|]. cbn [foldl]. rewrite zlen_cons.
  pose proof (send_bit_time cs (Z.testbit v i) d). specialize (IH (send_bit cs (Z.testbit v i) d)). lia.
Qed.

Lemma wave_send_time cs v d : time d ≤ time (wave_send cs v d) ≤ time d + 24 * k.
Proof using laws. apply (send_bits_time cs v [7; 6; 5; 4; 3; 2; 1; 0]). Qed.

Lemma receive_bits_time cs n v d :
  0 ≤ v →
  let r := Nat.iter n (receive_bit cs) (v, d) in
  0 ≤ r.1 < (v + 1) * 2 ^ Z.of_nat n ∧ time d ≤ time r.2 ≤ time d + 2 * Z.of_nat n * k.
Proof using laws.
  intros Hv. induction n as [|n IH]; [cbn; lia|].
  cbn zeta in *. rewrite Nat.iter_succ. destruct (Nat.iter n _ _) as [u e]. cbn [fst snd receive_bit] in *.
  rewrite Nat2Z.inj_succ, Z.pow_succ_r by lia.
  pose proof (sl_pins _ _ _ laws true true cs e). pose proof (sl_pins _ _ _ laws false true cs (dev_pins true true cs e)).
  split; [destruct (dev_miso _); lia|lia].
Qed.

Lemma wave_receive_time cs d :
  is_byte (wave_receive cs d).1 ∧ time d + 1 ≤ time (wave_receive cs d).2 ≤ time d + 17 * k.
Proof using laws.
  pose proof (sl_pins _ _ _ laws false true cs d). unfold wave_receive, is_byte.
  destruct (receive_bits_time cs 8 0 (dev_pins false true cs d)) as [Hv Ht]; [lia|]. split; [exact Hv|lia].
Qed.

(** The bus that the routines make of the pins keeps the laws that the driver
    needs, so that each of its theorems is one about the pins. *)
Lemma pin_bus_laws : bus_laws (B := pin_bus) (λ b, time b.2) C (24 * k).
Proof using laws.
  destruct (sl_rate _ _ _ laws) as (HC & Hk & Hr). constructor; [..|lia].
  - intros b. rewrite pin_bus_receive. apply wave_receive_time.
  - intros b. rewrite pin_bus_receive. pose proof (wave_receive_time b.1.1 b.2). cbn [snd]. lia.
  - intros c [[cs m] d]. cbn [bus_send_byte pin_bus snd]. apply wave_send_time.
  - intros [[cs m] d]. cbn [bus_lower_cs pin_bus snd]. pose proof (sl_pins _ _ _ laws false m false d). lia.
  - intros [[cs m] d]. cbn [bus_raise_cs pin_bus snd]. pose proof (sl_pins _ _ _ laws false m true d). lia.
  - intros [[cs m] d]. apply (sl_clock _ _ _ laws).
  - intros [[cs m] d]. cbn [bus_clock pin_bus snd]. pose proof (sl_clock_time _ _ _ laws d). destruct (dev_clock d) as [v d']. cbn in *. lia.
  - intros b. apply (sl_time _ _ _ laws).
Qed.

(** Detection on the pins of the breadboard ends with one of its results,
    whatever is wired to them, and leaves sd_info well-formed. *)
Corollary detection_on_pins patience (t : @sd_drv pin_bus) :
  512 * C ≤ Z.of_nat patience → info_ok (d_info t) →
  ∃ r t', SdCard.sd_detect patience t = Ok (r, t') ∧ r ∈ [SD_DETECT_NONE; SD_DETECT_NEW; SD_DETECT_EXISTING] ∧ info_ok (d_info t').
Proof using laws.
  intros Hp Ht. destruct (sd_detect_phase _ _ _ pin_bus_laws patience (d_info t) Hp t Ht eq_refl) as (r & t' & E & Hok & _ & HQ).
  exists r, t'. split; [done|]. split; [|done]. unfold detected in HQ. rewrite !elem_of_cons. naive_solver.
Qed.
End Pins.

(** The shift register with a clock that counts the changes of the pins. *)
Definition counting_slave : spi_slave := {|
  dev := nat * @dev shift_register;
  dev_pins := λ sclk mosi cs '(n, d), (S n, @dev_pins shift_register sclk mosi cs d);
  dev_miso := λ '(n, d), @dev_miso shift_register d;
  dev_clock := λ '(n, d), (u16 (Z.of_nat n), (n, d));
  floating := 0xFF;
  floating_range := byte_ff;
|}.

Lemma counting_laws : slave_laws (W := counting_slave) (λ d, Z.of_nat d.1) 1 1.
Proof.
  constructor; [..|lia]; intros; repeat match goal with d : dev |- _ => destruct d end; cbn; rewrite ?Z.div_1_r; try lia; done.
Qed.

Definition counting_bus : @bus (@pin_bus counting_slave) := (true, false, (0%nat, (false, false, replicate 8 false))).
Definition counting_info : sd_info_t := SdInfo 0 0 0 0 0 0 0 0 0 0 0 0 0 0 0 (replicate 512 0).

(** Whatever a shift register answers, detection ends. *)
Example counting_detect :
  ∃ r t', SdCard.sd_detect 512 (SdDrv counting_info counting_bus) = Ok (r, t') ∧
    r ∈ [SD_DETECT_NONE; SD_DETECT_NEW; SD_DETECT_EXISTING] ∧ info_ok (d_info t').
Proof.
  apply (detection_on_pins _ 1 1 counting_laws); [lia|].
  constructor; try (by apply byte_const); try (unfold is_u32; cbn; lia); [done|]. by apply Forall_replicate.
Qed.
