(* ===== verification/SdCache.v ===== *)
(** Reading blocks through the one-block cache, against the protocol of the card. *)
From S2P Require Import Prelude CDefs SdAsm Sched Kern Fat SdCard SdSpec SdDetect.

(** ** The protocol *)

Section Protocol.
Context {B : spi_bus}.

(** [sends b l b']: the next bytes received from [b] are [l]. *)
Fixpoint sends (b : bus) (l : list Z) (b' : bus) : Prop :=
  match l with
  | [] => b' = b
  | c :: l => ∃ b1, bus_receive_byte b = (c, b1) ∧ sends b1 l b'
  end.

Definition send_all (l : list Z) (b : bus) : bus := fold_left (λ b c, bus_send_byte c b) l b.

Definition read_command (addr : Z) : list Z :=
  cmd_bytes (SdCmd (Z.lor SD_CMD17 0x40) (arg_of addr) 0).

(** An idle card sends 0xFF until it is given a command.  It answers the
    command CMD17 with a response, after some bytes 0xFF; when that is "ready",
    a start token, the 512 bytes of the block and their checksum follow.
    [hc] is a card that is addressed by blocks, not by bytes. *)
Record card_laws (idle : bus → Prop) (hc : bool) (on_card : Z → Prop) (contents : Z → list Z) : Prop := {
  cl_lower : ∀ b, idle b → idle (bus_lower_cs b);
  cl_raise : ∀ b, idle b → idle (bus_raise_cs b);
  cl_idle : ∀ b, idle b → ∃ b', bus_receive_byte b = (0xFF, b') ∧ idle b';
  cl_length : ∀ blk, on_card blk → length (contents blk) = 512%nat;
  cl_read : ∀ b blk, idle b → on_card blk →
    let b1 := send_all (read_command (if hc then blk else u32 (Z.shiftl blk 9))) b in
    ∃ pre b2, (pre < 255)%nat ∧ idle b2 ∧
      ((∃ mid c1 c2, (mid < 255)%nat ∧
         sends b1 (replicate pre 0xFF ++ 0 :: replicate mid 0xFF ++ 0xFE :: contents blk ++ [c1; c2]) b2) ∨
       (∃ r, 0 < r < 0x80 ∧ sends b1 (replicate pre 0xFF ++ [r]) b2));
}.

(** ** Operations on what the card sends *)

Lemma sends_app b l1 l2 b' : sends b (l1 ++ l2) b' ↔ ∃ b1, sends b l1 b1 ∧ sends b1 l2 b'.
Proof.
  revert b. induction l1 as [|c l1 IH]; intros b; simpl; [naive_solver|].
  setoid_rewrite IH. naive_solver.
Qed.

Lemma receive_ok i b c b' : bus_receive_byte b = (c, b') →
  spi_receive_byte (SdDrv i b) = Ok (c, SdDrv i b').
Proof. intros E. unfold spi_receive_byte. simpl. by rewrite E. Qed.

Lemma spi_receive_ok i b l b' :
  sends b l b' → spi_receive (length l) (SdDrv i b) = Ok (l, SdDrv i b').
Proof.
  revert b. induction l as [|c l IH]; intros b; [by intros ->|]. intros (b1 & E & H). simpl.
  rewrite (bind_ok _ _ _ _ _ (receive_ok i _ _ _ E)), (bind_ok _ _ _ _ _ (IH _ H)). done.
Qed.

Lemma spi_send_ok i b l : spi_send l (SdDrv i b) = Ok ((), SdDrv i (send_all l b)).
Proof. revert b. induction l as [|c l IH]; intros b; [done|]. simpl. apply IH. Qed.

Lemma poll_ok i (p : Z → bool) n pre x b b' :
  (pre < n)%nat → p 0xFF = false → p x = true → sends b (replicate pre 0xFF ++ [x]) b' →
  poll n p (SdDrv i b) = Ok (Some x, SdDrv i b').
Proof.
  intros Hn Hff Hx. revert n b Hn. induction pre as [|pre IH]; intros [|n] b Hn; try lia; simpl.
  - intros (b1 & E & ->). by rewrite (bind_ok _ _ _ _ _ (receive_ok i _ _ _ E)), Hx.
  - intros (b1 & E & H). rewrite (bind_ok _ _ _ _ _ (receive_ok i _ _ _ E)), Hff. apply IH; [lia|done].
Qed.

Lemma poll_first i (p : Z → bool) n x b b' :
  p x = true → bus_receive_byte b = (x, b') → poll (S n) p (SdDrv i b) = Ok (Some x, SdDrv i b').
Proof. intros Hx E. cbn [poll]. by rewrite (bind_ok _ _ _ _ _ (receive_ok i _ _ _ E)), Hx. Qed.

Lemma poll_none i (p : Z → bool) n b b' :
  p 0xFF = false → sends b (replicate n 0xFF) b' → poll n p (SdDrv i b) = Ok (None, SdDrv i b').
Proof.
  intros Hp. revert b. induction n as [|n IH]; intros b; simpl; [by intros ->|].
  intros (b1 & E & H). rewrite (bind_ok _ _ _ _ _ (receive_ok i _ _ _ E)), Hp. by apply IH.
Qed.

Lemma high_bit_clear r : 0 ≤ r < 0x80 → (Z.land r 0x80 =? 0) = true.
Proof.
  intros Hr. apply Z.eqb_eq. apply Z.bits_inj'. intros n Hn. rewrite Z.land_spec, Z.bits_0.
  change 0x80 with (2 ^ 7). rewrite Z.pow2_bits_eqb by lia. destruct (Z.eqb_spec 7 n) as [<-|]; [|apply andb_false_r].
  rewrite andb_true_r. rewrite <- (Z.mod_small r (2 ^ 7)) by lia. by apply Z.mod_pow2_bits_high.
Qed.

Lemma sd_command_answer i b b1 cmd pre r b2 :
  bus_receive_byte b = (0xFF, b1) → (pre < 255)%nat → 0 ≤ r < 0x80 →
  sends (send_all (cmd_bytes cmd) b1) (replicate pre 0xFF ++ [r]) b2 →
  sd_command cmd (SdDrv i b) = Ok (r, SdDrv i b2).
Proof.
  intros E Hpre Hr Hs. unfold sd_command.
  rewrite (bind_ok _ _ _ _ _ (poll_first i (λ b, b =? 0xFF) 254 0xFF b b1 eq_refl E)).
  rewrite (bind_ok _ _ _ _ _ (spi_send_ok i b1 _)).
  rewrite (bind_ok _ _ _ _ _ (poll_ok i (λ b, Z.land b 0x80 =? 0) 255 pre r _ b2 Hpre eq_refl
    (high_bit_clear r Hr) Hs)).
  done.
Qed.

Context (hc : bool).
Implicit Types (i : sd_info_t) (d : sd_drv).

(** The driver's view of a card that is addressed by blocks, or not. *)
Definition addressed i : Prop := si_sdhc i = if hc then 1 else 0.

Lemma sd_adjust_ok d blk : addressed (d_info d) →
  sd_adjust_block_number blk d = Ok (if hc then blk else u32 (Z.shiftl blk 9), d).
Proof. unfold addressed, sd_adjust_block_number. intros H.
  rewrite (bind_ok _ _ _ (si_sdhc (d_info d)) d eq_refl), H. by destruct hc. Qed.

Lemma sd_wait_for_start_ok i mid b b2 :
  (mid < 255)%nat → sends b (replicate mid 0xFF ++ [0xFE]) b2 →
  sd_wait_for_start (SdDrv i b) = Ok (0xFE, SdDrv i b2).
Proof.
  intros Hm Hs. unfold sd_wait_for_start.
  by rewrite (bind_ok _ _ _ _ _ (poll_ok i (λ b, negb (b =? 0xFF)) 255 mid 0xFE _ b2 Hm eq_refl eq_refl Hs)).
Qed.

Lemma receive_block_ok i l b b2 : length l = 512%nat → zlen (si_block i) = SD_BLKSIZE → sends b l b2 →
  receive_block 512 (SdDrv i b) = Ok ((), SdDrv (si_set_block l i) b2).
Proof.
  intros Hl Hi Hs. unfold receive_block. pose proof (spi_receive_ok i b l b2 Hs) as E. rewrite Hl in E.
  rewrite (bind_ok _ _ _ _ _ E). unfold upd, modify. cbn [d_info d_bus]. rewrite drop_ge, app_nil_r; [done|]. unfold zlen, SD_BLKSIZE in Hi. lia.
Qed.

(** ** A card that goes silent *)

(** A card that accepts CMD17 and then sends nothing is not noticed.  The
    wait for the start token gives up with 0xFF, sd_read() tests for 0 only, and
    reports success with a block of 512 bytes 0xFF. *)
Theorem sd_read_silent_card d blk b1 b2 b3 pre :
  let b0 := bus_lower_cs (d_bus d) in
  addressed (d_info d) → zlen (si_block (d_info d)) = SD_BLKSIZE → (pre < 255)%nat →
  bus_receive_byte b0 = (0xFF, b1) →
  sends (send_all (read_command (if hc then blk else u32 (Z.shiftl blk 9))) b1) (replicate pre 0xFF ++ [0]) b2 →
  sends b2 (replicate (255 + 512 + 2) 0xFF) b3 →
  sd_read blk d = Ok (SD_R1_READY, SdDrv (si_set_block (replicate 512 0xFF) (d_info d)) (bus_raise_cs b3)).
Proof.
  intros b0 Ha Hl Hpre E0 Hs Hff. destruct d as [i b]. cbn [d_info d_bus] in *.
  set (addr := if hc then blk else _) in *.
  rewrite !replicate_add, <- app_assoc in Hff.
  apply sends_app in Hff as (b4 & Hs4 & Hff).
  apply sends_app in Hff as (b5 & Hs5 & b6 & E6 & b7 & E7 & Eb). simpl in Eb. subst b7.
  cut (wp (sd_read blk) (λ r d', r = SD_R1_READY ∧
    d' = SdDrv (si_set_block (replicate 512 0xFF) i) (bus_raise_cs b3)) (SdDrv i b)).
  { intros (r & d' & E & -> & ->). exact E. }
  unfold sd_read. apply wp_bind. eexists _, _. split; [by apply sd_adjust_ok|].
  apply wp_bind, wp_modify. cbn [d_info d_bus]. fold b0. fold addr.
  apply wp_bind. eexists _, _. split; [by apply (sd_command_answer i b0 b1 _ pre 0 b2)|].
  cbn [negb Z.eqb SD_R1_READY].
  apply wp_bind. eexists 0xFF, (SdDrv i b4). split.
  { unfold sd_wait_for_start. by rewrite (bind_ok _ _ _ _ _ (poll_none i (λ b, negb (b =? 0xFF)) 255 _ _ eq_refl Hs4)). }
  cbn [Z.eqb]. apply wp_bind. eexists _, _. split; [by apply (receive_block_ok i (replicate 512 0xFF) b4 b5)|].
  do 2 (apply wp_bind; eexists _, _; split; [by apply receive_ok|]).
  apply wp_bind, wp_modify, wp_ret. done.
Qed.
End Protocol.

Section Cache.
Context {B : spi_bus} (idle : bus → Prop) (hc : bool) (on_card : Z → Prop) (contents : Z → list Z).
Context (laws : card_laws idle hc on_card contents).
Implicit Types (i : sd_info_t) (d : sd_drv).

(** A command to an idle card: the card sees its bytes, and the driver waits for
    the response. *)
Lemma sd_command_ok i b cmd : idle b → ∃ b1, idle b1 ∧ ∀ pre r b2,
  (pre < 255)%nat → 0 ≤ r < 0x80 →
  sends (send_all (cmd_bytes cmd) b1) (replicate pre 0xFF ++ [r]) b2 →
  sd_command cmd (SdDrv i b) = Ok (r, SdDrv i b2).
Proof.
  intros Hb. destruct (cl_idle _ _ _ _ laws b Hb) as (b1 & E & Hb1). exists b1. split; [done|].
  intros pre r b2. by apply sd_command_answer.
Qed.

(** A block of an idle card is read, or the card's error is reported and the
    block buffer is unchanged. *)
Lemma sd_read_ok d blk :
  idle (d_bus d) → on_card blk → addressed hc (d_info d) → zlen (si_block (d_info d)) = SD_BLKSIZE →
  wp (sd_read blk) (λ r d', idle (d_bus d') ∧
    ((r = SD_R1_READY ∧ d_info d' = si_set_block (contents blk) (d_info d)) ∨
     (r ≠ SD_R1_READY ∧ d_info d' = d_info d))) d.
Proof.
  intros Hb Hblk Ha Hl. destruct d as [i b]. simpl in *. unfold sd_read.
  apply wp_bind. eexists _, _. split; [by apply sd_adjust_ok|].
  apply wp_bind, wp_modify. cbn [d_info d_bus].
  set (addr := if hc then blk else _).
  destruct (sd_command_ok i (bus_lower_cs b) (SdCmd (Z.lor SD_CMD17 0x40) (arg_of addr) 0))
    as (b1 & Hb1 & Hcmd); [by apply (cl_lower _ _ _ _ laws)|].
  destruct (cl_read _ _ _ _ laws b1 blk Hb1 Hblk) as (pre & b2 & Hpre & Hb2 & Hs).
  fold addr in Hs. unfold read_command in Hs. simpl in Hs. destruct Hs as [(mid & c1 & c2 & Hmid & Hs)|(r & Hr & Hs)].
  - change (0 :: ?l) with ([0] ++ l) in Hs. rewrite app_assoc in Hs. apply sends_app in Hs as (b3 & Hs3 & Hs).
    change (0xFE :: ?l) with ([0xFE] ++ l) in Hs. rewrite app_assoc in Hs. apply sends_app in Hs as (b4 & Hs4 & Hs).
    apply sends_app in Hs as (b5 & Hs5 & b6 & E6 & b7 & E7 & Eb). simpl in Eb. subst b7.
    apply wp_bind. eexists _, _. split; [by apply (Hcmd pre 0 b3)|]. cbn [negb Z.eqb SD_R1_READY].
    apply wp_bind. eexists _, _. split; [by apply (sd_wait_for_start_ok i mid b3 b4)|]. cbn [Z.eqb].
    apply wp_bind. eexists _, _. split.
    { apply (receive_block_ok i (contents blk) b4 b5); [by apply (cl_length _ _ _ _ laws)|done|done]. }
    apply wp_bind. eexists _, _. split; [by apply receive_ok|].
    apply wp_bind. eexists _, _. split; [by apply receive_ok|].
    apply wp_bind, wp_modify, wp_ret. simpl. split; [by apply (cl_raise _ _ _ _ laws)|by left].
  - apply wp_bind. eexists _, _. split; [apply (Hcmd pre r b2); [done|lia|done]|].
    rewrite (proj2 (Z.eqb_neq r SD_R1_READY)) by (unfold SD_R1_READY; lia). cbn [negb].
    apply wp_bind, wp_modify, wp_ret. simpl. split; [by apply (cl_raise _ _ _ _ laws)|].
    right. split; [unfold SD_R1_READY; lia|done].
Qed.

(** ** The cache *)

(** A filled cache holds the block of the card that it names. *)
Definition cached i : Prop :=
  si_cache_mode i ≠ SD_C_EMPTY → si_block i = contents (si_cache_block i).

Definition consistent d : Prop :=
  idle (d_bus d) ∧ addressed hc (d_info d) ∧ zlen (si_block (d_info d)) = SD_BLKSIZE ∧ cached (d_info d).

(** The layout of the volume, which reading leaves alone. *)
Definition same_layout i i' : Prop :=
  si_detect i' = si_detect i ∧ si_sdhc i' = si_sdhc i ∧ si_cluster_size i' = si_cluster_size i ∧
  si_cluster_shift i' = si_cluster_shift i ∧ si_fat1 i' = si_fat1 i ∧ si_fat2 i' = si_fat2 i ∧
  si_root i' = si_root i ∧ si_cluster_offset i' = si_cluster_offset i ∧
  si_cluster_count i' = si_cluster_count i.

(** The buffer holds the block, and the cache knows it. *)
Definition holds d blk : Prop :=
  si_block (d_info d) = contents blk ∧ si_cache_block (d_info d) = blk ∧ si_cache_mode (d_info d) ≠ SD_C_EMPTY.

(** Reading when the block is not in the cache. *)
Lemma sd_cache_miss d blk :
  idle (d_bus d) → on_card blk → addressed hc (d_info d) → zlen (si_block (d_info d)) = SD_BLKSIZE →
  si_cache_mode (d_info d) = SD_C_EMPTY →
  wp (status ← sd_read blk;
      if negb (status =? SD_R1_READY) then mret status
      else _ ← upd (λ i, si_set_cache_mode SD_C_READ (si_set_cache_block2 0 (si_set_cache_block blk i)));
           mret SD_R1_READY)
     (λ r d', consistent d' ∧ same_layout (d_info d) (d_info d') ∧
        (r = SD_R1_READY → holds d' blk)) d.
Proof.
  intros Hb Hblk Ha Hl Hm. eapply wp_seq; [by apply sd_read_ok|].
  intros r d1 [Hb1 [[-> E]|[Hr E]]]; cbv beta.
  - apply wp_bind, wp_modify, wp_ret. unfold consistent, cached, addressed, same_layout, holds. simpl. rewrite E. simpl.
    split_and!; try done. unfold zlen. by rewrite (cl_length _ _ _ _ laws blk Hblk).
  - rewrite (proj2 (Z.eqb_neq r SD_R1_READY) Hr). apply wp_ret. unfold consistent, cached, same_layout. rewrite E.
    split_and!; try done.
Qed.

Lemma sd_cache_read_spec d blk :
  consistent d → on_card blk →
  wp (sd_cache_read blk) (λ r d', consistent d' ∧ same_layout (d_info d) (d_info d') ∧
    (r = SD_R1_READY → holds d' blk)) d.
Proof.
  intros (Hb & Ha & Hl & Hc) Hblk. unfold sd_cache_read. do 2 apply wp_bind, wp_gets.
  destruct (Z.eqb_spec (si_cache_mode (d_info d)) SD_C_EMPTY) as [Hm|Hm].
  - rewrite andb_false_r. cbn [negb]. apply wp_bind, wp_ret. cbv beta. by apply sd_cache_miss.
  - rewrite andb_true_r. cbn [negb]. destruct (Z.eqb_spec blk (si_cache_block (d_info d))) as [->|].
    + apply wp_ret. split_and!; try done. intros _. split_and!; [by apply Hc|done|done].
    + apply wp_bind, wp_bind, wp_ret. cbn [negb Z.eqb SD_R1_READY].
      apply wp_bind, wp_modify, wp_ret. cbv beta.
      eapply wp_mono; [apply sd_cache_miss; done|]. simpl. done.
Qed.

(** Reading the block that the cache holds has no effect. *)
Lemma sd_cache_read_again d blk :
  si_cache_block (d_info d) = blk → si_cache_mode (d_info d) ≠ SD_C_EMPTY →
  sd_cache_read blk d = Ok (SD_R1_READY, d).
Proof.
  intros Hb Hm. unfold sd_cache_read.
  rewrite (bind_ok _ _ _ (si_cache_block (d_info d)) d eq_refl), (bind_ok _ _ _ (si_cache_mode (d_info d)) d eq_refl).
  rewrite Hb, Z.eqb_refl. by rewrite (proj2 (Z.eqb_neq _ _) Hm).
Qed.

(** A sequence of reads, each with what the caller finds in the buffer. *)
Fixpoint read_blocks (blks : list Z) : M sd_drv (list (Z * list Z)) :=
  match blks with
  | [] => mret []
  | blk :: blks =>
      status ← sd_cache_read blk; data ← info si_block;
      rest ← read_blocks blks; mret ((status, data) :: rest)
  end.

(** C28: any sequence of reads through the cache returns, and each read that
    reports success leaves the block of the card that was asked for in the
    buffer, whether it came from the cache or from the card: the cache is
    transparent.  The card keeps its contents, follows the protocol for CMD17,
    and may refuse any single read. *)
Theorem sd_cache_read_refines d blks :
  consistent d → Forall on_card blks →
  ∃ l d', read_blocks blks d = Ok (l, d') ∧ consistent d' ∧ same_layout (d_info d) (d_info d') ∧
    Forall2 (λ blk sd, sd.1 = SD_R1_READY → sd.2 = contents blk) blks l.
Proof.
  intros Hd Hblks. revert d Hd. induction Hblks as [|blk blks Hblk _ IH]; intros d Hd.
  { exists [], d. split_and!; done. }
  destruct (sd_cache_read_spec d blk Hd Hblk) as (r & d1 & E1 & Hd1 & Hs1 & Hr).
  destruct (IH d1 Hd1) as (l & d2 & E2 & Hd2 & Hs2 & Hl).
  exists ((r, si_block (d_info d1)) :: l), d2. split_and!; [|done| |constructor; [intros Hok; apply (Hr Hok)|done]].
  - cbn [read_blocks]. rewrite (bind_ok _ _ _ _ _ E1), (bind_ok _ _ _ (si_block (d_info d1)) d1 eq_refl).
    by rewrite (bind_ok _ _ _ _ _ E2).
  - unfold same_layout in *. intuition congruence.
Qed.
End Cache.
