(* ===== verification/SdSim.v ===== *)
(** A simulated card on the bus: an instance of the bus and of the card's
    protocol, the concrete inputs of the driver's claims, and a card that is
    exchanged for another one. *)
From S2P Require Import Prelude CDefs SdAsm Sched Kern Fat SdCard SdSpec SdDetect SdCache.

(** ** The card

    [sim_in] is the part of a command received so far, [sim_out] what is still
    to be sent.  Each transfer of a byte takes one unit of time, one tick of the
    clock.  The disk lists some blocks, the others are filled with their number. *)
Record sim := Sim { sim_disk : list (Z * list Z); sim_in : list Z; sim_out : list Z; sim_time : N }.

Definition disk_at (disk : list (Z * list Z)) (blk : Z) : list Z :=
  match list_find (λ e, e.1 = blk) disk with
  | Some (_, (_, data)) => data
  | None => replicate 512 blk
  end.

(** Always 512 bytes. *)
Definition sim_block (disk : list (Z * list Z)) (blk : Z) : list Z :=
  map u8 (take 512 (disk_at disk blk ++ replicate 512 0)).

Definition sim_csd : list Z := [0x40; 0x0E; 0; 0x32; 0x5B; 0x59; 0; 0; 0x1D; 0x69; 0x7F; 0x80; 0x0A; 0x40; 0; 1].

Definition SIM_BLOCKS : Z := 1000000.

(** A version 2 card with block addresses; a response comes after one 0xFF, and
    so does the start token of data.  No data comes for a block beyond the end. *)
Definition sim_answer (disk : list (Z * list Z)) (cmd : list Z) : list Z :=
  let data l := 0xFF :: 0 :: 0xFF :: 0xFE :: l ++ [0; 0] in
  match cmd with
  | [c; a3; a2; a1; a0; _] =>
      if c =? 0x40 then [0xFF; 1]
      else if c =? 0x48 then [0xFF; 1; 0; 0; a1; a0]
      else if c =? 0x49 then data sim_csd
      else if c =? 0x4A then data (replicate 16 0)
      else if c =? 0x51 then
        let blk := a0 + 256 * (a1 + 256 * (a2 + 256 * a3)) in
        if blk <? SIM_BLOCKS then data (sim_block disk blk) else [0xFF; 0]
      else if c =? 0x69 then [0xFF; 0]
      else if c =? 0x77 then [0xFF; 1]
      else if c =? 0x7A then [0xFF; 0; 0xC0; 0xFF; 0x80; 0]
      else [0xFF; 4]
  | _ => []
  end.

Definition sim_send (c : Z) (s : sim) : sim :=
  let cmd := sim_in s ++ [c] in
  if (length cmd =? 6)%nat
  then Sim (sim_disk s) [] (sim_answer (sim_disk s) cmd) (sim_time s + 1)%N
  else Sim (sim_disk s) cmd (sim_out s) (sim_time s + 1)%N.

Definition sim_receive (s : sim) : Z * sim :=
  match sim_out s with
  | [] => (0xFF, Sim (sim_disk s) (sim_in s) [] (sim_time s + 1)%N)
  | c :: out => (u8 c, Sim (sim_disk s) (sim_in s) out (sim_time s + 1)%N)
  end.

#[global] Instance sim_bus : spi_bus := {|
  bus := sim;
  bus_init := id;
  bus_send_byte := sim_send;
  bus_receive_byte := sim_receive;
  bus_lower_cs := id;
  bus_raise_cs := id;
  bus_clock := λ s, (u16 (Z.of_N (sim_time s) / 1), s);
|}.

Definition sim_clock (s : bus) : Z := Z.of_N (sim_time s).

(** ** A disk with a FAT32 volume *)

Definition with_bytes (l : list (nat * Z)) : list Z := foldr (λ e b, <[e.1 := e.2]> b) (replicate 512 0) l.

Definition sim_mbr : list Z :=
  with_bytes [(450%nat, 0x0C); (454%nat, 1); (458%nat, 0x10); (459%nat, 0x27); (510%nat, 0x55); (511%nat, 0xAA)].
(** 8 blocks per cluster, 32 reserved blocks, FATs of 16 blocks, root at cluster 2. *)
Definition sim_volume : list Z :=
  with_bytes [(12%nat, 2); (13%nat, 8); (14%nat, 32); (16%nat, 2); (21%nat, 0xF8); (36%nat, 16); (44%nat, 2);
              (510%nat, 0x55); (511%nat, 0xAA)].

Definition sim_fat_disk : list (Z * list Z) := [(0, sim_mbr); (1, sim_volume)].

Definition zero_info : sd_info_t := SdInfo 0 0 0 0 0 0 0 0 0 0 0 0 0 0 0 (replicate 512 0).
Definition sim_start (disk : list (Z * list Z)) : sd_drv := SdDrv zero_info (Sim disk [] [] 0).

(** ** Laws *)

Definition sim_idle (disk : list (Z * list Z)) (s : sim) : Prop := sim_disk s = disk ∧ sim_in s = [] ∧ sim_out s = [].

Lemma sends_out s l rest : sim_out s = l ++ rest →
  sends s (map u8 l) (Sim (sim_disk s) (sim_in s) rest (sim_time s + N.of_nat (length l))%N).
Proof.
  revert s. induction l as [|c l IH]; intros s Hs; simpl in *.
  { rewrite N.add_0_r, <- Hs. by destruct s. }
  eexists. split; [unfold sim_receive; by rewrite Hs|].
  set (s1 := Sim _ _ (l ++ rest) _). specialize (IH s1 eq_refl). simpl in IH.
  by replace (sim_time s + N.of_nat (S (length l)))%N with (sim_time s + 1 + N.of_nat (length l))%N by lia.
Qed.

Lemma sim_block_length disk blk : length (sim_block disk blk) = 512%nat.
Proof. unfold sim_block. rewrite length_map, length_take, length_app, length_replicate. lia. Qed.

Lemma u8_idemp x : u8 (u8 x) = u8 x.
Proof. apply Z.mod_mod. lia. Qed.

Lemma sim_block_bytes disk blk : map u8 (sim_block disk blk) = sim_block disk blk.
Proof. unfold sim_block. rewrite map_map. apply map_ext, u8_idemp. Qed.

Lemma arg_value v : is_u32 v →
  u8 v + 256 * (u8 (Z.shiftr v 8) + 256 * (u8 (Z.shiftr v 16) + 256 * u8 (Z.shiftr v 24))) = v.
Proof. intros Hv. pose proof (of_u32_value v Hv) as E. unfold value, of_u32 in E. simpl in E. lia. Qed.

Lemma sim_command disk c0 c1 c2 c3 c4 c5 t :
  send_all [c0; c1; c2; c3; c4; c5] (Sim disk [] [] t : bus) =
  Sim disk [] (sim_answer disk [c0; c1; c2; c3; c4; c5]) (t + 6)%N.
Proof.
  transitivity (Sim disk [] (sim_answer disk [c0; c1; c2; c3; c4; c5]) (t + 1 + 1 + 1 + 1 + 1 + 1)%N);
    [reflexivity|f_equal; lia].
Qed.

Definition sim_has (blk : Z) : Prop := 0 ≤ blk < SIM_BLOCKS.

Lemma sim_has_u32 blk : sim_has blk → is_u32 blk.
Proof. unfold sim_has, SIM_BLOCKS, is_u32. lia. Qed.

Lemma sim_read_answer disk blk t : sim_has blk →
  send_all (read_command blk) (Sim disk [] [] t : bus) =
  Sim disk [] (0xFF :: 0 :: 0xFF :: 0xFE :: sim_block disk blk ++ [0; 0]) (t + 6)%N.
Proof.
  intros Hblk. etransitivity; [apply sim_command|]. f_equal. unfold sim_answer. cbn [Z.eqb Pos.eqb Z.lor Pos.lor].
  change (Z.lor SD_CMD17 64) with 0x51. cbn [Z.eqb Pos.eqb].
  rewrite arg_value by by apply sim_has_u32. cbv zeta. by rewrite (proj2 (Z.ltb_lt _ _) (proj2 Hblk)).
Qed.

Lemma sim_card_laws disk : card_laws (sim_idle disk) true sim_has (sim_block disk).
Proof.
  constructor; [done|done| | |].
  - intros b (Hd & Hi & Ho). eexists. split; [simpl; unfold sim_receive; by rewrite Ho|done].
  - intros. apply sim_block_length.
  - intros b blk (Hd & Hi & Ho) Hblk. destruct b as [d inp out t]. simpl in Hd, Hi, Ho. subst d inp out.
    cbv zeta. rewrite sim_read_answer by done. set (l := 0xFF :: _).
    exists 1%nat, (Sim disk [] [] (t + 6 + N.of_nat (length l))%N).
    split; [lia|]. split; [done|]. left. exists 1%nat, 0, 0. split; [lia|].
    pose proof (sends_out (Sim disk [] l (t + 6)%N) l [] (eq_sym (app_nil_r l))) as H.
    replace (map u8 l) with l in H; [exact H|]. unfold l. cbn [map].
    rewrite map_app, sim_block_bytes. reflexivity.
Qed.

Lemma sim_bus_laws : bus_laws sim_clock 1 1.
Proof.
  constructor; simpl; unfold sim_clock; try done.
  - intros b. unfold sim_receive. destruct (sim_out b); [by apply byte_const|]. apply Z.mod_pos_bound. lia.
  - intros b. unfold sim_receive. destruct (sim_out b); simpl; lia.
  - intros c b. unfold sim_send. destruct (_ =? _)%nat; simpl; lia.
  - unfold id. lia.
  - unfold id. lia.
  - lia.
  - lia.
Qed.

Lemma zero_info_ok : info_ok zero_info.
Proof. constructor; try (by apply byte_const); try (unfold is_u32; simpl; lia); [done|]. by apply Forall_replicate. Qed.

(** ** Concrete runs *)

(** The card with the volume is detected, and its layout is read. *)
Example sim_detect :
  match sd_detect 512 (sim_start sim_fat_disk) with
  | Ok (r, d) => r = SD_DETECT_NEW ∧ si_detect (d_info d) = 2 ∧ si_cluster_shift (d_info d) = 3 ∧
      si_fat1 (d_info d) = 33 ∧ si_root (d_info d) = 2 ∧ si_cluster_offset (d_info d) = 65
  | Err _ => False
  end.
Proof. vm_compute. by split_and!. Qed.

(** The other card has no partition table. *)
Definition other_disk : list (Z * list Z) := [(0, replicate 512 0x77)].

(** The driver after block 5 of the volume was read, the card was exchanged and
    the new detection has read block 0 of the other card. *)
Definition before_exchange : sd_drv :=
  match (_ ← sd_detect 512; sd_cache_read 5) (sim_start sim_fat_disk) with
  | Ok (_, d) => SdDrv (si_set_detect 0 (d_info d)) (Sim other_disk [] [] (sim_time (d_bus d)))
  | Err _ => sim_start other_disk
  end.

(** when a detection fails, the cache still claims to hold the block of
    before, although the detection reads other blocks into the one buffer: the
    next read of that block reports success, with whatever is in the buffer and
    without asking the card. *)
Theorem sd_detect_stale_cache {B : spi_bus} (time : bus → Z) C K patience (d d' : sd_drv) :
  bus_laws time C K → 512 * C ≤ Z.of_nat patience → info_ok (d_info d) →
  si_cache_mode (d_info d) ≠ SD_C_EMPTY →
  sd_detect patience d = Ok (SD_DETECT_NONE, d') →
  sd_cache_read (si_cache_block (d_info d)) d' = Ok (SD_R1_READY, d').
Proof.
  intros laws Hp Hd Hm E.
  destruct (sd_detect_phase time C K laws patience (d_info d) Hp d Hd eq_refl) as (r1 & d1 & E1 & _ & _ & HQ).
  rewrite E in E1. injection E1 as <- <-.
  assert (cache_is (si_cache_mode (d_info d)) (si_cache_block (d_info d)) (d_info d')) as [Hmode Hblk].
  { unfold detected, pending in HQ. naive_solver. }
  apply sd_cache_read_again; [exact Hblk|]. by rewrite Hmode.
Qed.

(** ** Witnesses *)

Lemma sd_detect_terminates_witness :
  ∃ r d', sd_detect 512 (sim_start sim_fat_disk) = Ok (r, d') ∧
    r ∈ [SD_DETECT_NONE; SD_DETECT_NEW; SD_DETECT_EXISTING] ∧
    sim_clock (d_bus d') ≤ sim_clock (d_bus (sim_start sim_fat_disk)) + 1024 * 1 + 7300 * 1.
Proof. apply (sd_detect_terminates sim_clock 1 1); [apply sim_bus_laws|lia|apply zero_info_ok]. Defined.

Definition fat_detected : sd_drv :=
  match sd_detect 512 (sim_start sim_fat_disk) with Ok (_, d) => d | Err _ => sim_start sim_fat_disk end.

Lemma fat_detected_eq : sd_detect 512 (sim_start sim_fat_disk) = Ok (SD_DETECT_NEW, fat_detected).
Proof. apply (run_result _ 0xFF); [vm_compute; reflexivity|discriminate]. Qed.

Lemma sd_detect_typed_witness : volume_ok (d_info fat_detected) ∧ info_ok (d_info fat_detected).
Proof.
  destruct (sd_detect_typed sim_clock 1 1 512 (sim_start sim_fat_disk) SD_DETECT_NEW fat_detected) as (H1 & _ & H2 & _).
  - apply sim_bus_laws.
  - lia.
  - apply zero_info_ok.
  - apply fat_detected_eq.
  - split; [by apply H2|exact H1].
Defined.

Lemma fat_detected_consistent :
  consistent (sim_idle sim_fat_disk) true (sim_block sim_fat_disk) fat_detected.
Proof.
  unfold consistent, addressed, cached, sim_idle.
  split_and!; [..|intros H; destruct H]; vm_compute; reflexivity.
Qed.

Lemma sd_cache_read_refines_witness : ∃ l d', read_blocks [5; 0; 5; 5] fat_detected = Ok (l, d') ∧
  consistent (sim_idle sim_fat_disk) true (sim_block sim_fat_disk) d' ∧ same_layout (d_info fat_detected) (d_info d') ∧
  Forall2 (λ blk sd, sd.1 = SD_R1_READY → sd.2 = sim_block sim_fat_disk blk) [5; 0; 5; 5] l.
Proof.
  apply (sd_cache_read_refines _ _ sim_has _ (sim_card_laws sim_fat_disk)); [apply fat_detected_consistent|].
  repeat constructor; unfold sim_has, SIM_BLOCKS; lia.
Defined.

Definition after_exchange : sd_drv :=
  match sd_detect 512 before_exchange with Ok (_, d) => d | Err _ => before_exchange end.

Lemma before_exchange_ok : info_ok (d_info before_exchange).
Proof. constructor; unfold is_byte, is_u32; compute_decide. Qed.

Lemma sd_detect_stale_cache_witness :
  sd_cache_read 5 after_exchange = Ok (SD_R1_READY, after_exchange) ∧
  si_block (d_info after_exchange) = replicate 512 0x77 ∧
  sim_block sim_fat_disk 5 = replicate 512 5 ∧ sim_block other_disk 5 = replicate 512 5.
Proof.
  split; [|split_and!; vm_compute; reflexivity].
  apply (sd_detect_stale_cache sim_clock 1 1 512 before_exchange after_exchange).
  - apply sim_bus_laws.
  - lia.
  - apply before_exchange_ok.
  - intros H. vm_compute in H. discriminate H.
  - apply (run_result _ 0xFF); [vm_compute; reflexivity|discriminate].
Defined.

Lemma sends_silence disk n t :
  sends (Sim disk [] [] t : bus) (replicate n 0xFF) (Sim disk [] [] (t + N.of_nat n)%N : bus).
Proof.
  revert t. induction n as [|n IH]; intros t; [simpl; by rewrite N.add_0_r|].
  cbn [replicate sends]. eexists. split; [reflexivity|].
  replace (t + N.of_nat (S n))%N with (t + 1 + N.of_nat n)%N by lia. exact (IH _).
Qed.

Lemma sd_read_silent_card_witness : ∃ d', sd_read SIM_BLOCKS fat_detected = Ok (SD_R1_READY, d') ∧
  si_block (d_info d') = replicate 512 0xFF.
Proof.
  set (at_time n := Sim sim_fat_disk [] [] (sim_time (d_bus fat_detected) + n)%N : @bus sim_bus).
  eexists. split; [apply (sd_read_silent_card true fat_detected SIM_BLOCKS
    (at_time 1%N) (at_time 9%N) (at_time (9 + N.of_nat (255 + 512 + 2))%N) 1)|].
  - vm_compute. reflexivity.
  - vm_compute. reflexivity.
  - lia.
  - vm_compute. reflexivity.
  - vm_compute. repeat first [reflexivity | eexists; split; [reflexivity|]].
  - unfold at_time. rewrite N.add_assoc. apply sends_silence.
  - reflexivity.
Defined.
