(* ===== verification/FatSpec.v ===== *)
(** The names of the FAT filesystem: what fat_convert_dirent() shows and what
    fat_format_name() makes of it. *)
From S2P Require Import Prelude CDefs Sched Kern Inode Fat.

(** ** Names

    A character of a short name: printable, not a dot, a lower case letter or
    one of the characters that FAT excludes. *)
Definition fat_char (c : Z) : Prop :=
  0x21 ≤ c ≤ 0x7E ∧ c ≠ CH_DOT ∧ ¬ (97 ≤ c ≤ 122) ∧ c ∉ invalid_chars.

Definition lower (c : Z) : Z := if (65 <=? c) && (c <=? 90) then Z.lxor c 0x20 else c.
Definition pad (n : nat) (l : list Z) : list Z := l ++ replicate (n - length l) CH_SPACE.

(** The name field of a directory entry. *)
Definition name83 (base ext : list Z) : list Z := pad 8 base ++ pad 3 ext.

(** What a reader of the directory sees. *)
Definition shown (base ext : list Z) : list Z :=
  map lower base ++ (if bool_decide (ext = []) then [] else CH_DOT :: map lower ext).

(** The characters up to the padding are written in lower case. *)
Lemma fat_convert_name_spec o1 o2 o3 l rest len :
  Forall fat_char l → length o2 = length l → (length l ≤ len)%nat →
  ((length l < len)%nat → head rest = Some CH_SPACE) → zlen o1 + zlen l < 256 →
  fat_convert_name (o1 ++ o2 ++ o3) (zlen o1) (l ++ rest) len = Ok (zlen o1 + zlen l, o1 ++ map lower l ++ o3).
Proof.
  revert o1 o2 len. induction l as [|c l IH]; intros o1 o2 len Hl Ho2 Hlen Hrest Hb.
  - destruct o2; [|done]. simpl. unfold zlen. simpl. rewrite Z.add_0_r.
    destruct len as [|len]; [by destruct rest|].
    destruct rest as [|c rest]; [by specialize (Hrest ltac:(simpl; lia))|].
    specialize (Hrest ltac:(simpl; lia)). injection Hrest as ->. done.
  - apply Forall_cons in Hl as [Hc Hl]. rewrite zlen_cons in *. pose proof (zlen_nonneg l). pose proof (zlen_nonneg o1).
    destruct o2 as [|v o2]; [done|]. destruct len as [|len]; simpl in Hlen; [lia|]. cbn [app fat_convert_name].
    rewrite (proj2 (Z.eqb_neq c CH_SPACE)) by (unfold fat_char, CH_SPACE in *; lia).
    rewrite wr_app_at. cbn [mbind res_bind]. rewrite u8_small by lia.
    change (lower c :: ?x) with ([lower c] ++ x). rewrite (cons_middle _ o1), app_assoc.
    replace (zlen o1 + 1) with (zlen (o1 ++ [lower c])) by (by rewrite zlen_app).
    rewrite (IH _ o2); [|done|simpl in Ho2; lia|lia|intros; apply Hrest; simpl; lia|rewrite zlen_app; unfold zlen in *; simpl; lia].
    rewrite <- app_assoc. f_equal. f_equal. rewrite zlen_app. unfold zlen. simpl. lia.
Qed.

Lemma lower_range c : fat_char c → 0x21 ≤ lower c ≤ 0x7E ∧ lower c ≠ CH_DOT ∧ lower c ∉ invalid_chars ∧
  (if (97 <=? lower c) && (lower c <=? 122) then Z.lxor (lower c) 0x20 else lower c) = c.
Proof.
  intros (Hr & Hd & Hu & Hi). unfold lower. destruct ((65 <=? c) && (c <=? 90)) eqn:E.
  - assert (c ∈ seqZ 65 26) as Hin by (apply elem_of_seqZ; lia). clear -Hin.
    revert c Hin. apply (proj1 (Forall_forall _ _)). compute_decide.
  - rewrite (proj2 (andb_false_iff _ _)) by lia. done.
Qed.

Lemma fat_char_not c : fat_char c → c ≠ CH_DOT ∧ c ≠ CH_SPACE.
Proof. unfold fat_char, CH_SPACE. lia. Qed.

Lemma split_at_length {A} (l : list A) n : (n < length l)%nat → ∃ a v b, l = a ++ v :: b ∧ length a = n.
Proof.
  intros Hn. destruct (lookup_lt_is_Some_2 l n Hn) as [v Hv].
  exists (take n l), v, (drop (S n) l). split; [by rewrite take_drop_middle|rewrite length_take; lia].
Qed.

Lemma length_pad n (l : list Z) : (length l ≤ n)%nat → length (pad n l) = n.
Proof. intros H. unfold pad. rewrite length_app, length_replicate. lia. Qed.

Lemma pad_head n (l rest : list Z) : (length l < n)%nat → head (replicate (n - length l) CH_SPACE ++ rest) = Some CH_SPACE.
Proof. intros H. by destruct (n - length l)%nat eqn:E; [lia|]. Qed.

(** The name that fat_convert_dirent() writes. *)
Lemma convert_dirent_name_spec out base ext :
  Forall fat_char base → Forall fat_char ext → 1 ≤ zlen base ≤ 8 → zlen ext ≤ 3 → zlen out = DIRENT_NAME_MAX →
  ∃ tl, convert_dirent_name out (name83 base ext) = Ok (shown base ext ++ NUL :: tl).
Proof.
  intros Hb He Hlb Hle Ho. unfold zlen, DIRENT_NAME_MAX in Hlb, Hle, Ho.
  assert (rd (name83 base ext) 8 = of_option FBounds (pad 3 ext !! 0%nat)) as H8.
  { unfold rd, name83. simpl (8 <? 0). rewrite lookup_app_r, length_pad by (rewrite ?length_pad; lia). done. }
  assert (drop 8 (name83 base ext) = pad 3 ext) as Hd8 by (apply drop_app_length'; rewrite length_pad; lia).
  unfold convert_dirent_name.
  assert (∃ c, rd (name83 base ext) 0 = Ok c ∧ c ≠ CH_DOT) as (c & H0 & Hc).
  { destruct base as [|c base]; [simpl in Hlb; lia|]. exists c. split; [done|].
    apply Forall_cons in Hb as [Hc _]. by apply fat_char_not. }
  rewrite H0. cbn [mbind res_bind]. rewrite (proj2 (Z.eqb_neq c CH_DOT)) by done. cbn [negb].
  destruct (split_at_length out (length base)) as (ob & v & o & -> & Hob); [lia|].
  rewrite length_app in Ho. simpl in Ho.
  assert (base ++ replicate (8 - length base) CH_SPACE ++ pad 3 ext = name83 base ext) as En.
  { unfold name83, pad. by rewrite <- app_assoc. }
  pose proof (fat_convert_name_spec [] ob (v :: o) base (replicate (8 - length base) CH_SPACE ++ pad 3 ext) 8
    Hb Hob ltac:(lia) (pad_head 8 base _) ltac:(unfold zlen; simpl; lia)) as E1.
  rewrite En in E1. change (zlen (@nil Z)) with 0 in E1. cbn [app] in E1. rewrite Z.add_0_l in E1.
  rewrite E1. cbn [mbind res_bind]. rewrite H8.
  replace (zlen base) with (zlen (map lower base)) by (unfold zlen; by rewrite length_map).
  unfold shown. destruct ext as [|e ext].
  - cbn. rewrite wr_app_at. exists o. by rewrite app_nil_r.
  - apply Forall_cons in He as [Hc1 He']. simpl (pad 3 (e :: ext) !! 0%nat). cbn [of_option mbind res_bind].
    rewrite (proj2 (Z.eqb_neq e CH_SPACE)) by (by apply fat_char_not). cbn [negb].
    rewrite wr_app_at. cbn [mbind res_bind]. rewrite Hd8.
    destruct (split_at_length o (length (e :: ext))) as (oe & v2 & o2 & -> & Hoe); [simpl in *; lia|].
    rewrite u8_small by (unfold zlen; rewrite length_map; lia).
    replace (zlen (map lower base) + 1) with (zlen (map lower base ++ [CH_DOT])) by (by rewrite zlen_app).
    rewrite cons_middle, app_assoc. unfold pad.
    rewrite fat_convert_name_spec; [|by apply Forall_cons|done|lia| |].
    + cbn [mbind res_bind].
      replace (zlen (map lower base ++ [CH_DOT]) + zlen (e :: ext)) with
        (zlen ((map lower base ++ [CH_DOT]) ++ map lower (e :: ext)))
        by (rewrite zlen_app; unfold zlen at 2 4; by rewrite length_map).
      rewrite app_assoc, wr_app_at. exists o2. by rewrite <- !app_assoc.
    + intros Hlt. rewrite <- (app_nil_r (replicate _ _)). by apply pad_head.
    + unfold zlen in *. rewrite length_app, length_map. simpl in *. lia.
Qed.

(** ** fat_format_name() *)

(** The search ends a name at a limit that depends on the dot. *)
Definition name_limit (dot : bool) : Z := if dot then 11 else 8.

Lemma format_char c rest out out' n posn dot : fat_char c → posn < name_limit dot → wr out posn c = Ok out' →
  format_name_loop out (lower c :: rest) (S n) posn dot = format_name_loop out' rest n (u8 (posn + 1)) dot.
Proof.
  intros Hc Hp Ho. destruct (lower_range c Hc) as (Hr & Hd & Hi & Hu). cbn [format_name_loop].
  rewrite (proj2 (orb_false_iff _ _)) by lia. rewrite (proj2 (Z.eqb_neq _ _) Hd). cbn [andb negb orb].
  rewrite bool_decide_false by done. rewrite Hu.
  replace (if dot then 11 <=? posn else 8 <=? posn) with false by (unfold name_limit in Hp; destruct dot; lia).
  by rewrite Ho.
Qed.

Lemma format_char_full c rest out n posn dot : fat_char c → name_limit dot ≤ posn →
  format_name_loop out (lower c :: rest) (S n) posn dot = Ok (0, out).
Proof.
  intros Hc Hp. destruct (lower_range c Hc) as (Hr & Hd & Hi & Hu). cbn [format_name_loop].
  rewrite (proj2 (orb_false_iff _ _)) by lia. rewrite (proj2 (Z.eqb_neq _ _) Hd). cbn [andb negb orb].
  rewrite bool_decide_false by done.
  by replace (if dot then 11 <=? posn else 8 <=? posn) with true by (unfold name_limit in Hp; destruct dot; lia).
Qed.

Lemma format_chars l w v o rest n dot :
  Forall fat_char l → length v = length l → zlen w + zlen l ≤ name_limit dot →
  format_name_loop (w ++ v ++ o) (map lower l ++ rest) (length l + n) (zlen w) dot =
  format_name_loop (w ++ l ++ o) rest n (zlen w + zlen l) dot.
Proof.
  revert w v. induction l as [|c l IH]; intros w v Hl Hv Hb.
  { destruct v; [|done]. unfold zlen at 2. simpl. by rewrite Z.add_0_r. }
  destruct v as [|x v]; [done|]. apply Forall_cons in Hl as [Hc Hl].
  rewrite zlen_cons in *. pose proof (zlen_nonneg w). pose proof (zlen_nonneg l).
  cbn [app map length Nat.add]. rewrite (format_char c _ _ _ _ (zlen w) dot Hc ltac:(lia) (wr_app_at _ _ _ _)).
  rewrite u8_small by (unfold name_limit in Hb; destruct dot; lia).
  rewrite (cons_middle c w), app_assoc. replace (zlen w + 1) with (zlen (w ++ [c])) by (by rewrite zlen_app).
  rewrite IH; [|done|simpl in Hv; lia|rewrite zlen_app; unfold zlen in *; simpl in *; lia].
  rewrite <- app_assoc. f_equal. rewrite zlen_app. unfold zlen. simpl. lia.
Qed.

Lemma format_end out rest posn dot : format_name_loop out rest 0 posn dot = Ok (1, out).
Proof. by destruct rest. Qed.

Lemma format_dot rest out out' n posn : wr out 8 CH_DOT = Ok out' →
  format_name_loop out (CH_DOT :: rest) (S n) posn false = format_name_loop out' rest n 9 true.
Proof. intros Ho. cbn -[wr]. by rewrite Ho. Qed.

Lemma shown_head base ext : Forall fat_char base → 1 ≤ zlen base →
  ∃ c l, shown base ext = c :: l ∧ c ≠ CH_DOT.
Proof.
  intros Hb Hl. destruct base as [|c base]; [unfold zlen in Hl; simpl in Hl; lia|].
  apply Forall_cons in Hb as [Hc _]. eexists _, _. split; [done|]. by apply lower_range.
Qed.

(** The conversion of a shown name comes down to the loop. *)
Lemma fat_format_name_shown out base ext rest :
  Forall fat_char base → 1 ≤ zlen base → zlen out = FAT_NAME_LEN →
  fat_format_name out (shown base ext ++ rest) (zlen (shown base ext)) =
  format_name_loop (replicate 11 CH_SPACE) (shown base ext ++ rest) (length (shown base ext)) 0 false.
Proof.
  intros Hb Hl Ho. destruct (shown_head base ext Hb Hl) as (c & l & E & Hc). unfold fat_format_name.
  rewrite E at 1. rewrite zlen_cons. pose proof (zlen_nonneg l).
  rewrite (proj2 (Z.eqb_neq _ 0)) by lia.
  replace (memcpy out 0 (replicate 11 CH_SPACE) FAT_NAME_LEN) with (Ok (replicate 11 CH_SPACE)).
  2: { unfold memcpy. rewrite Ho. change (Ok (replicate 11 CH_SPACE) = Ok (replicate 11 CH_SPACE ++ drop (Z.to_nat 11) out)).
       rewrite drop_ge; [done|]. unfold zlen, FAT_NAME_LEN in Ho. lia. }
  cbn [mbind res_bind]. rewrite E at 1. rewrite (proj2 (rd_lookup _ 0 c)) by done. cbn [mbind res_bind].
  rewrite (proj2 (Z.eqb_neq _ _) Hc). unfold zlen. by rewrite Nat2Z.id.
Qed.

(** With an extension, the position 8 holds the dot. *)
Lemma format_extension base ext rest :
  Forall fat_char base → Forall fat_char ext → 1 ≤ zlen base ≤ 8 → zlen ext ≤ 3 → ext ≠ [] →
  let s := map lower base ++ CH_DOT :: map lower ext in
  ∃ r name, format_name_loop (replicate 11 CH_SPACE) (s ++ rest) (length s) 0 false = Ok (r, name) ∧
    (r = 0 ∨ name ≠ name83 base ext).
Proof.
  intros Hb He Hlb Hle Hne s.
  assert (Forall (λ c, c ≠ CH_DOT) ext) as Hdots by (eapply Forall_impl; [exact He|]; intros c; apply fat_char_not).
  destruct ext as [|e1 ext]; [done|]. apply Forall_cons in He as [He1 He]. apply Forall_cons in Hdots as [Hd1 _].
  unfold zlen in Hlb, Hle. simpl in Hle.
  assert (name83 base (e1 :: ext) !! 8%nat = Some e1) as H8.
  { unfold name83. rewrite lookup_app_r, length_pad by (rewrite ?length_pad; lia). done. }
  set (P := pad 8 base). assert (zlen P = 8) as HP by (unfold zlen, P; rewrite length_pad; lia).
  assert (∀ tl, P ++ CH_DOT :: tl ≠ name83 base (e1 :: ext)) as Hdiff.
  { intros tl E. rewrite <- E, lookup_app_r in H8 by (unfold zlen in HP; lia).
    replace (8 - length P)%nat with 0%nat in H8 by (unfold zlen in HP; lia). injection H8 as H8. congruence. }
  assert (replicate 11 CH_SPACE = [] ++ replicate (length base) CH_SPACE ++ replicate (11 - length base) CH_SPACE) as Er.
  { cbn [app]. rewrite <- replicate_add. f_equal. lia. }
  assert (base ++ replicate (11 - length base) CH_SPACE = P ++ replicate 3 CH_SPACE) as EP.
  { unfold P, pad. rewrite <- app_assoc. f_equal. rewrite <- replicate_add. f_equal. lia. }
  unfold s. rewrite length_app, length_map, Er, <- app_assoc. change 0 with (zlen (@nil Z)) at 1.
  rewrite format_chars; [|done|by rewrite length_replicate|unfold zlen; simpl; lia].
  cbn [app]. rewrite EP. cbn [length].
  rewrite (format_dot _ _ (P ++ [CH_DOT; CH_SPACE; CH_SPACE])) by (rewrite <- HP; apply wr_app_at).
  assert (∀ x1 x2 x, wr (P ++ [CH_DOT; x1; x2]) 9 x = Ok (P ++ [CH_DOT; x; x2])) as W9.
  { intros x1 x2 x. change (P ++ [CH_DOT; x1; x2]) with (P ++ ([CH_DOT] ++ x1 :: [x2])). rewrite app_assoc.
    replace 9 with (zlen (P ++ [CH_DOT])) by (rewrite zlen_app, HP; done). by rewrite wr_app_at, <- app_assoc. }
  assert (∀ x1 x2 x, wr (P ++ [CH_DOT; x1; x2]) 10 x = Ok (P ++ [CH_DOT; x1; x])) as W10.
  { intros x1 x2 x. change (P ++ [CH_DOT; x1; x2]) with (P ++ ([CH_DOT; x1] ++ x2 :: [])). rewrite app_assoc.
    replace 10 with (zlen (P ++ [CH_DOT; x1])) by (rewrite zlen_app, HP; done). by rewrite wr_app_at, <- app_assoc. }
  cbn [map length app]. rewrite (format_char e1 _ _ _ _ 9 true He1 ltac:(done) (W9 _ _ _)). change (u8 (9 + 1)) with 10.
  destruct ext as [|e2 ext]; [rewrite format_end; eexists _, _; split; [done|by right]|].
  apply Forall_cons in He as [He2 He].
  cbn [map length app]. rewrite (format_char e2 _ _ _ _ 10 true He2 ltac:(done) (W10 _ _ _)). change (u8 (10 + 1)) with 11.
  destruct ext as [|e3 ext]; [rewrite format_end; eexists _, _; split; [done|by right]|].
  apply Forall_cons in He as [He3 He]. cbn [map length app].
  rewrite (format_char_full e3 _ _ _ 11 true He3) by done. eexists _, _. split; [done|by left].
Qed.

(** C33: a name that a directory shows is found again exactly when it has no
    extension.  Without one, converting the entry's name and formatting the
    result is the identity; with one, the dot takes the place of the first
    character of the extension, so the formatted name, if there is one, never is
    the one of the entry. *)
Theorem fat_name_roundtrip out out' base ext rest :
  Forall fat_char base → Forall fat_char ext → 1 ≤ zlen base ≤ 8 → zlen ext ≤ 3 →
  zlen out = DIRENT_NAME_MAX → zlen out' = FAT_NAME_LEN →
  ∃ tl, convert_dirent_name out (name83 base ext) = Ok (shown base ext ++ NUL :: tl) ∧
    (ext = [] → fat_format_name out' (shown base ext ++ rest) (zlen (shown base ext)) = Ok (1, name83 base ext)) ∧
    (ext ≠ [] → ∃ r name, fat_format_name out' (shown base ext ++ rest) (zlen (shown base ext)) = Ok (r, name) ∧
       (r = 0 ∨ name ≠ name83 base ext)).
Proof.
  intros Hb He Hlb Hle Ho Ho'. destruct (convert_dirent_name_spec out base ext) as (tl & Ec); [done..|].
  exists tl. split; [exact Ec|]. rewrite fat_format_name_shown by (done || lia). clear Ec.
  assert (replicate 11 CH_SPACE = [] ++ replicate (length base) CH_SPACE ++ replicate (11 - length base) CH_SPACE) as Er.
  { cbn [app]. rewrite <- replicate_add. f_equal. unfold zlen in Hlb. lia. }
  unfold shown. rewrite Er. split.
  - intros ->. rewrite bool_decide_true, app_nil_r, length_map by done.
    rewrite <- (Nat.add_0_r (length base)) at 3. change 0 with (zlen (@nil Z)) at 1.
    rewrite format_chars; [|done|by rewrite length_replicate|unfold zlen in *; simpl; lia].
    rewrite format_end. cbn [app]. do 2 f_equal. unfold name83, pad. rewrite <- app_assoc. f_equal. cbn [app].
    change (replicate (3 - length []) CH_SPACE) with (replicate 3 CH_SPACE). rewrite <- replicate_add.
    f_equal. unfold zlen in Hlb. lia.
  - intros Hne. rewrite bool_decide_false by done.
    destruct (format_extension base ext rest) as (r & name & E & Hr); [done..|].
    exists r, name. split; [|exact Hr]. rewrite <- Er. exact E.
Qed.

(** The entries KERNEL and CONFIG.SYS. *)
Lemma fat_name_roundtrip_witness :
  fat_format_name (replicate 11 0) (chars "kernel" ++ [CH_SLASH]) 6 = Ok (1, chars "KERNEL     ") ∧
  ∃ r name, fat_format_name (replicate 11 0) (chars "config.sys" ++ [NUL]) 10 = Ok (r, name) ∧
    (r = 0 ∨ name ≠ chars "CONFIG  SYS").
Proof.
  assert (Forall fat_char (chars "KERNEL") ∧ Forall fat_char (chars "CONFIG") ∧ Forall fat_char (chars "SYS"))
    as (H1 & H2 & H3) by (unfold fat_char; compute_decide).
  split.
  - destruct (fat_name_roundtrip (replicate 16 0) (replicate 11 0) (chars "KERNEL") [] [CH_SLASH] H1
      ltac:(by constructor) ltac:(by compute) ltac:(by compute) eq_refl eq_refl) as (tl & _ & H & _).
    exact (H eq_refl).
  - destruct (fat_name_roundtrip (replicate 16 0) (replicate 11 0) (chars "CONFIG") (chars "SYS") [NUL] H2 H3
      ltac:(by compute) ltac:(by compute) eq_refl eq_refl) as (tl & _ & _ & H).
    exact (H ltac:(discriminate)).
Defined.
