(* ===== verification/FatDir.v ===== *)
(** The FAT filesystem on a card: the chain of clusters and the search of a
    directory.

    What the filesystem relies on is the class [block_reader]; the SD card driver
    on a card that follows the protocol is an instance. *)
From S2P Require Import Prelude CDefs SdAsm Sched Kern Inode Fat SdCard SdSpec SdDetect SdCache SdSim.

(** ** The interface of a block device

    Reading a block of the device returns, and keeps the layout of the volume.
    When it succeeds, the buffer holds the block, and reading it again has no
    effect. *)
Definition keeps_layout {SD : sdcard} (s s' : sd_state) : Prop :=
  sd_fat1 s' = sd_fat1 s ∧ sd_root s' = sd_root s ∧ sd_cluster_size s' = sd_cluster_size s ∧
  sd_cluster_count s' = sd_cluster_count s ∧ (∀ c, Kern.sd_cluster_to_block c s' = Kern.sd_cluster_to_block c s).

Class block_reader {SD : sdcard} (good : sd_state → Prop) (on_card : Z → Prop) (contents : Z → list Z) : Prop := {
  br_read s b : good s → on_card b → ∃ status s', Kern.sd_cache_read b s = Ok (status, s') ∧
    good s' ∧ keeps_layout s s' ∧
    (status = 0 → sd_block s' = contents b ∧ Kern.sd_cache_read b s' = Ok (0, s'));
  br_length b : on_card b → zlen (contents b) = SD_BLKSIZE;
}.

(** ** The driver as a block device *)

Section Driver.
Context {B : spi_bus} (patience : nat) (idle : bus → Prop) (hc : bool) (on_card : Z → Prop).
Context (contents : Z → list Z) (laws : card_laws idle hc on_card contents).

#[export] Instance driver_reads : @block_reader (sd_device patience) (consistent idle hc contents) on_card contents.
Proof.
  split.
  - intros d b Hd Hb. destruct (sd_cache_read_spec _ _ _ _ laws d b Hd Hb) as (st & d' & E & Hd' & Hl & Hst).
    exists st, d'. split; [exact E|]. split; [exact Hd'|]. split.
    + destruct Hl as (_ & _ & Hsz & Hsh & H1 & _ & Hr & Ho & Hc). simpl. unfold keeps_layout. simpl.
      split_and!; try congruence. intros c. unfold SdCard.sd_cluster_to_block. congruence.
    + intros ->. destruct (Hst eq_refl) as (Hblk & Hcb & Hm). split; [exact Hblk|]. by apply sd_cache_read_again.
  - intros b Hb. unfold zlen. by rewrite (cl_length _ _ _ _ laws).
Qed.
End Driver.

Section Reader.
Context {SD : sdcard} (good : sd_state → Prop) (on_card : Z → Prop) (contents : Z → list Z).
Context {BR : block_reader good on_card contents}.
Implicit Types (s : sd_state) (k : kern) (reader : fatfs_inode_info).

(** ** The chain of clusters *)

(** The entry of the file allocation table for a cluster, and the cluster that
    follows according to it, 0 at the end of the chain. *)
Definition fat_block (fat1 cluster : Z) : Z := u32 (fat1 + Z.shiftr cluster 7).
Definition fat_next (fat1 cluster : Z) : res Z :=
  v ← le32 (contents (fat_block fat1 cluster)) (4 * Z.land cluster 0x7F);
  let next := Z.land v 0x0FFFFFFF in
  Ok (if next <? FAT_END_CLUSTER then next else 0).

Lemma land_127 c : 0 ≤ Z.land c 0x7F < 128.
Proof. change 0x7F with (Z.ones 7). rewrite Z.land_ones by lia. apply Z.mod_pos_bound. lia. Qed.

Lemma le32_total l i : 0 ≤ i → i + 4 ≤ zlen l → ∃ v, le32 l i = Ok v.
Proof.
  intros H0 H1. unfold le32, le16.
  destruct (rd_ok l i) as (v0 & E0 & _); [lia|]. destruct (rd_ok l (i + 1)) as (v1 & E1 & _); [lia|].
  destruct (rd_ok l (i + 2)) as (v2 & E2 & _); [lia|]. destruct (rd_ok l (i + 2 + 1)) as (v3 & E3 & _); [lia|].
  rewrite E0. cbn [mbind res_bind]. rewrite E1. cbn [mbind res_bind]. rewrite E2. cbn [mbind res_bind].
  rewrite E3. by eexists.
Qed.

(** Fat_get_next_cluster() follows the chain of the card's file allocation
    table: a cluster out of range or a block that cannot be read ends the chain,
    otherwise the result is what the table says. *)
Theorem fat_get_next_cluster_refines s cluster :
  good s → on_card (fat_block (sd_fat1 s) cluster) →
  if u32 (sd_cluster_count s + 1) <? cluster then fat_get_next_cluster cluster s = Ok (0, s)
  else ∃ status next s',
    Kern.sd_cache_read (fat_block (sd_fat1 s) cluster) s = Ok (status, s') ∧
    fat_get_next_cluster cluster s = Ok (next, s') ∧ good s' ∧ keeps_layout s s' ∧
    if status =? 0 then fat_next (sd_fat1 s) cluster = Ok next else next = 0.
Proof.
  intros Hs Hb. unfold fat_get_next_cluster, fat_get.
  destruct (Z.ltb_spec (u32 (sd_cluster_count s + 1)) cluster) as [Hr|Hr].
  { erewrite (bind_ok _ _ s None s); [done|]. rewrite (bind_ok _ _ s (sd_cluster_count s) s eq_refl).
    by rewrite (proj2 (Z.ltb_lt _ _) Hr). }
  destruct (br_read s _ Hs Hb) as (status & s' & E & Hs' & Hl & Hst).
  assert (zlen (contents (fat_block (sd_fat1 s) cluster)) = SD_BLKSIZE) as Hlen by by apply br_length.
  destruct (le32_total (contents (fat_block (sd_fat1 s) cluster)) (4 * Z.land cluster 0x7F)) as (v & Ev).
  1,2: pose proof (land_127 cluster); unfold SD_BLKSIZE in Hlen; lia.
  exists status. unfold fat_next. rewrite Ev. cbn [mbind res_bind].
  destruct (Z.eqb_spec status 0) as [->|Hne].
  - eexists _, s'. split; [exact E|]. split_and!; [|done|done|reflexivity].
    erewrite (bind_ok _ _ s (Some (Z.land v 0x0FFFFFFF)) s'); [by destruct (_ <? _)|].
    rewrite (bind_ok _ _ s (sd_cluster_count s) s eq_refl), (proj2 (Z.ltb_ge _ _) Hr).
    rewrite (bind_ok _ _ s (sd_fat1 s) s eq_refl). fold (fat_block (sd_fat1 s) cluster).
    rewrite (bind_ok _ _ _ _ _ E). cbn [Z.eqb negb].
    rewrite (bind_ok _ _ s' (sd_block s') s' eq_refl), (proj1 (Hst eq_refl)), Ev. done.
  - exists 0, s'. split; [exact E|]. split_and!; [|done|done|done].
    erewrite (bind_ok _ _ s None s'); [done|].
    rewrite (bind_ok _ _ s (sd_cluster_count s) s eq_refl), (proj2 (Z.ltb_ge _ _) Hr).
    rewrite (bind_ok _ _ s (sd_fat1 s) s eq_refl). fold (fat_block (sd_fat1 s) cluster).
    rewrite (bind_ok _ _ _ _ _ E). by rewrite (proj2 (Z.eqb_neq _ _) Hne).
Qed.

(** ** The search of a directory

    The entries of the first block of a directory in order.  The search of the
    block ends with an entry, with the end of the directory, or at the last entry
    of the block, which is never looked at. *)
Inductive searched := SFound (e : fat_dir_entry) | SEnd | SLast.

Fixpoint dir_search (n : nat) (o : Z) (block name : list Z) : res searched :=
  match n with
  | O => Ok SLast
  | S n =>
      e ← fat_entry_at block o;
      c0 ← rd (fe_name e) 0;
      if c0 =? FAT_DIR_END then Ok SEnd
      else if (c0 =? FAT_DIR_DELETED) || has_bits (fe_attrs e) FAT_ATTR_BLOCKED
              || negb (bool_decide (fe_name e = name))
      then dir_search n (o + 32) block name
      else Ok (SFound e)
  end.

Lemma read_prepare_at s s' reader status :
  fi_block reader ≠ 0 → 0 ≤ fi_offset reader < 512 →
  Kern.sd_cache_read (fi_block reader) s = Ok (status, s') →
  fatfs_info_read_prepare reader s =
    Ok (if negb (status =? 0) then (- EIO, 0, reader) else (512 - fi_offset reader, fi_offset reader, reader), s').
Proof.
  intros Hb Ho E. unfold fatfs_info_read_prepare.
  rewrite (proj2 (Z.eqb_neq _ 0) Hb), (proj2 (Z.leb_gt _ _)) by (unfold SD_BLKSIZE; lia).
  transitivity ((status ← Kern.sd_cache_read (fi_block reader);
    if negb (status =? 0) then mret (- EIO, 0, reader)
    else mret (SD_BLKSIZE - fi_offset reader, fi_offset reader, reader)) s); [reflexivity|].
  rewrite (bind_ok _ _ _ _ _ E). by destruct (negb _).
Qed.

Lemma read_dirent_at s s' reader status :
  fi_block reader ≠ 0 → 0 ≤ fi_offset reader < 512 →
  Kern.sd_cache_read (fi_block reader) s = Ok (status, s') →
  fatfs_info_read_dirent reader s =
    Ok (if negb (status =? 0) then (- EIO, 0, reader)
        else if 480 <=? fi_offset reader then (- EINVAL, fi_offset reader, reader)
        else (1, fi_offset reader,
              FatfsInfo (fi_first_cluster reader) (fi_size reader) (fi_cluster reader) (fi_block reader)
                ((fi_offset reader + 32) mod 512) (fi_blocks_left reader)), s').
Proof.
  intros Hb Ho E. unfold fatfs_info_read_dirent. rewrite (bind_ok _ _ _ _ _ (read_prepare_at s s' reader status Hb Ho E)).
  destruct (negb (status =? 0)); [done|]. rewrite (proj2 (Z.leb_gt _ 0)) by lia. unfold sizeof_fat_dir_entry.
  destruct (Z.leb_spec 480 (fi_offset reader)); destruct (Z.leb_spec (512 - fi_offset reader) 32); done || lia.
Qed.

Lemma fat_entry_total block o : 0 ≤ o → o + 32 ≤ zlen block →
  ∃ e c0, fat_entry_at block o = Ok e ∧ rd (fe_name e) 0 = Ok c0.
Proof.
  intros H0 H1. unfold fat_entry_at, sizeof_fat_dir_entry.
  rewrite (proj2 (orb_false_iff _ _)) by lia.
  destruct (rd_ok block (o + 11)) as (at0 & -> & _); [lia|]. cbn [mbind res_bind].
  assert (∀ i, 0 ≤ i → i + 2 ≤ zlen block → ∃ v, le16 block i = Ok v) as H16.
  { intros i Hi Hi2. unfold le16. destruct (rd_ok block i) as (v0 & -> & _); [lia|]. cbn [mbind res_bind].
    destruct (rd_ok block (i + 1)) as (v1 & -> & _); [lia|]. by eexists. }
  destruct (H16 (o + 20)) as (v1 & ->); [lia..|]. destruct (H16 (o + 26)) as (v2 & ->); [lia..|].
  cbn [mbind res_bind]. destruct (le32_total block (o + 28)) as (v3 & ->); [lia..|]. cbn [mbind res_bind].
  destruct (rd_ok block o) as (c0 & _ & Hc0); [lia|].
  eexists _, c0. split; [reflexivity|]. apply rd_lookup. split; [done|]. cbn [fe_name].
  rewrite lookup_take_lt, lookup_drop by lia. by rewrite Nat.add_0_r.
Qed.

(** What the caller gets from a search that ended. *)
Definition search_result (dir : Z) (r : searched) : M kern (Z * Z) :=
  match r with
  | SFound e => inode ← fatfs_create_inode e dir; if negb (inode =? 0) then mret (0, inode) else mret (- ENOMEM, 0)
  | SEnd => mret (- ENOENT, 0)
  | SLast => mret (- EINVAL, 0)
  end.

Lemma on_sd_ok {A} (m : M sd_state A) k a s' : m (k_sd k) = Ok (a, s') → on_sd m k = Ok (a, set_sd s' k).
Proof. unfold on_sd. by intros ->. Qed.

(** The search from an entry on, when the card or the cache answers. *)
Lemma search_from k s' reader dir name block j max :
  Kern.sd_cache_read block (k_sd k) = Ok (0, s') → Kern.sd_cache_read block s' = Ok (0, s') →
  sd_block s' = contents block → zlen (contents block) = 512 → block ≠ 0 →
  fi_block reader = block → fi_offset reader = 32 * Z.of_nat (15 - j) → (j ≤ 15)%nat → (j < max)%nat →
  ∃ r, dir_search j (fi_offset reader) (contents block) name = Ok r ∧
    fatfs_lookup_loop max reader dir name k = search_result dir r (set_sd s' k).
Proof.
  intros E0 E1 Hblk Hlen Hne Hb. revert k reader max E0 Hb. induction j as [|j IH]; intros k reader max E0 Hb Ho Hj Hm.
  all: destruct max as [|max]; [lia|]; cbn [fatfs_lookup_loop dir_search].
  all: pose proof (read_dirent_at (k_sd k) s' reader 0 ltac:(congruence) ltac:(lia) ltac:(by rewrite Hb)) as Er.
  all: cbn [Z.eqb negb] in Er.
  - exists SLast. split; [done|]. rewrite (proj2 (Z.leb_le _ _)) in Er by lia.
    by rewrite (bind_ok _ _ _ _ _ (on_sd_ok _ k _ _ Er)).
  - rewrite (proj2 (Z.leb_gt _ _)) in Er by lia. rewrite (bind_ok _ _ _ _ _ (on_sd_ok _ k _ _ Er)). cbn.
    destruct (fat_entry_total (contents block) (fi_offset reader)) as (e & c0 & Ee & Ec); [lia..|].
    set (k1 := set_sd s' k). assert (set_sd s' k1 = k1) as Hk1 by done.
    rewrite (bind_ok _ _ k1 (sd_block s') k1 eq_refl), Hblk, Ee, (bind_ok (lift (Ok e)) _ k1 e k1 eq_refl), Ec.
    rewrite (bind_ok (lift (Ok c0)) _ k1 c0 k1 eq_refl). cbn [mbind res_bind]. rewrite Ec. cbn [mbind res_bind].
    destruct (c0 =? FAT_DIR_END); [by exists SEnd|].
    destruct ((c0 =? FAT_DIR_DELETED) || has_bits (fe_attrs e) FAT_ATTR_BLOCKED || negb (bool_decide (fe_name e = name))).
    + edestruct (IH k1 (FatfsInfo (fi_first_cluster reader) (fi_size reader) (fi_cluster reader) (fi_block reader)
        ((fi_offset reader + 32) mod 512) (fi_blocks_left reader)) max) as (r & Er1 & Er2);
        [exact E1|exact Hb|cbn [fi_offset]; rewrite Z.mod_small by lia; lia|lia|lia|].
      exists r. cbn [fi_offset] in Er1. rewrite Z.mod_small in Er1 by lia. rewrite Hk1 in Er2. done.
    + exists (SFound e). split; [done|]. unfold search_result, mbind, M_bind.
      destruct (fatfs_create_inode e dir k1) as [[i k2]|]; [|done]. by destruct (negb (i =? 0)).
Qed.

(** The search of fatfs_lookup() in the block of a directory: a block that
    cannot be read is -EIO; otherwise the result is that of the search of the
    card's block up to its last but one entry: the first entry with the name that
    is not deleted or hidden becomes an inode, the end of the directory is
    -ENOENT, and when none of the 15 entries ends the search, it fails with
    -EINVAL and does not look at the last entry or go on to the next block. *)
Lemma fatfs_lookup_loop_spec k reader dir name block max :
  good (k_sd k) → on_card block → block ≠ 0 → fi_block reader = block → fi_offset reader = 0 → (15 < max)%nat →
  ∃ status s', Kern.sd_cache_read block (k_sd k) = Ok (status, s') ∧ good s' ∧ keeps_layout (k_sd k) s' ∧
    if negb (status =? 0) then fatfs_lookup_loop max reader dir name k = Ok ((- EIO, 0), set_sd s' k)
    else ∃ r, dir_search 15 0 (contents block) name = Ok r ∧
         fatfs_lookup_loop max reader dir name k = search_result dir r (set_sd s' k).
Proof.
  intros Hk Hb Hne Hr Ho Hm. destruct (br_read (k_sd k) block Hk Hb) as (status & s' & E & Hs' & Hl & Hst).
  exists status, s'. split_and!; [done|done|done|]. destruct (Z.eqb_spec status 0) as [->|Hn]; cbn [negb].
  - destruct (Hst eq_refl) as [Hblk E1]. pose proof (br_length block Hb) as Hlen.
    destruct (search_from k s' reader dir name block 15 max) as (r & H1 & H2); try done.
    exists r. by rewrite <- Ho.
  - destruct max as [|max]; [lia|]. cbn [fatfs_lookup_loop].
    pose proof (read_dirent_at (k_sd k) s' reader status ltac:(congruence) ltac:(lia) ltac:(by rewrite Hr)) as Er.
    rewrite (proj2 (Z.eqb_neq _ 0) Hn) in Er. by rewrite (bind_ok _ _ _ _ _ (on_sd_ok _ k _ _ Er)).
Qed.
End Reader.

(** ** Witnesses: the simulated card with a directory *)

Definition w_entry (name : list Z) (attrs cluster size : Z) : list Z :=
  name ++ [attrs] ++ replicate 8 0 ++ [0; 0] ++ replicate 4 0 ++ bytes16 cluster ++ bytes32 size.
(** A deleted entry, the file KERNEL in cluster 5, and the end. *)
Definition w_dir : list Z :=
  w_entry (FAT_DIR_DELETED :: chars "LD     TXT") 0x20 4 7 ++ w_entry (chars "KERNEL     ") 0x21 5 9 ++ replicate 448 0.
(** The chain of cluster 5 is 5, 6. *)
Definition w_fat : list Z := replicate 20 0 ++ bytes32 6 ++ bytes32 0x0FFFFFFF ++ replicate 484 0.
Definition w_disk : list (Z * list Z) := sim_fat_disk ++ [(33, w_fat); (65, w_dir)].

Definition w_card : sd_drv :=
  match sd_detect 512 (sim_start w_disk) with Ok (_, d) => d | Err _ => sim_start w_disk end.

Lemma w_card_consistent : consistent (sim_idle w_disk) true (sim_block w_disk) w_card.
Proof.
  unfold consistent, addressed, cached, sim_idle.
  split_and!; [..|intros H; destruct H]; vm_compute; reflexivity.
Qed.

#[local] Instance w_device : sdcard := sd_device 512.
#[local] Instance w_reads : @block_reader w_device (consistent (sim_idle w_disk) true (sim_block w_disk)) sim_has (sim_block w_disk).
Proof. apply (driver_reads 512 _ _ _ _ (sim_card_laws w_disk)). Defined.

Lemma w_card_layout : sd_fat1 (w_card : sd_state) = 33 ∧ sd_cluster_count (w_card : sd_state) = 1242.
Proof. split; vm_compute; reflexivity. Qed.

Lemma w_has b : 0 ≤ b < 1000 → sim_has b.
Proof. unfold sim_has, SIM_BLOCKS. lia. Qed.

Lemma fat_get_next_cluster_refines_witness :
  ∃ next s', fat_get_next_cluster 5 (w_card : sd_state) = Ok (next, s') ∧
    (fat_next (sim_block w_disk) 33 5 = Ok next ∨ next = 0) ∧ fat_next (sim_block w_disk) 33 5 = Ok 6.
Proof.
  assert (sim_has (fat_block (sd_fat1 (w_card : sd_state)) 5)) as Hb.
  { rewrite (proj1 w_card_layout). apply w_has. compute_decide. }
  pose proof (fat_get_next_cluster_refines _ _ _ (w_card : sd_state) 5 w_card_consistent Hb) as H.
  rewrite (proj1 w_card_layout), (proj2 w_card_layout) in H.
  change (u32 (1242 + 1) <? 5) with false in H. cbv iota in H.
  destruct H as (status & next & s' & _ & E & _ & _ & Hn).
  exists next, s'. split; [exact E|]. split; [|vm_compute; reflexivity].
  destruct (status =? 0); [by left|by right].
Defined.

Definition w_kern : kern :=
  Kern w_device ∅ 0 [] 0 []
    (Proc (ProcContext 0 0 [] 0 []) 1 0 PROC_RUNNING None 64 [] [] 0 [] 0) 0 0 [] [] w_card.
