(* ===== verification/Devices.v ===== *)
(** Character devices: the device table (os/drivers/devices.c), /dev/null,
    /dev/zero and /dev/full (os/drivers/misc/null.c), and the console ttys
    (os/drivers/tty/basictty.c). *)
From S2P Require Import Prelude CDefs Sched Kern.

(** The console configuration of a target (include/mosnix/target.h of the
    target). *)
Class console_config := {
  CONFIG_CHRIN_ECHO : bool;
  CONFIG_CHROUT_LF_HANDLING : bool;
  CONFIG_CHROUT_NO_WAIT : bool;
}.

Definition CH_BS : Z := 8.
Definition CH_LF : Z := 10.
Definition CH_CR : Z := 13.
Definition CH_DEL : Z := 0x7F.

Section Devices.
Context {SD : sdcard} {CC : console_config}.

(** ** Opening a device *)

Definition open_dev (ops : fop) (f : nat) : M kern Z :=
  _ ← upd_file f (fset_op ops); mret 0.
Definition open_dev_null := open_dev FopDevNull.
Definition open_dev_zero := open_dev FopDevZero.
Definition open_dev_full := open_dev FopDevFull.
Definition open_dev_tty0 := open_dev FopBasicTty.
Definition open_dev_console := open_dev FopRawTty.

(** The tables end at the entry whose device number is 0. *)
Definition char_devices : list (Z * (nat → M kern Z)) :=
  [(DEV_NULL, open_dev_null); (DEV_ZERO, open_dev_zero); (DEV_FULL, open_dev_full);
   (DEV_TTY, open_dev_tty0); (DEV_TTY0, open_dev_tty0); (DEV_CONSOLE, open_dev_console)].
Definition block_devices : list (Z * (nat → M kern Z)) := [].

Fixpoint device_open (dev : Z) (f : nat) (info : list (Z * (nat → M kern Z))) : M kern Z :=
  match info with
  | [] => mret (- ENXIO)
  | (d, open) :: info => if d =? dev then open f else device_open dev f info
  end.

Definition char_device_open (dev : Z) (f : nat) : M kern Z := device_open dev f char_devices.
Definition block_device_open (dev : Z) (f : nat) : M kern Z := device_open dev f block_devices.

(** ** os/drivers/misc/null.c: reads return the result and the buffer *)

Definition dev_null_read (data : list Z) (size : Z) : M kern (Z * list Z) := mret (0, data).
Definition dev_zero_read (data : list Z) (size : Z) : M kern (Z * list Z) :=
  data ← lift (memcpy data 0 (replicate (Z.to_nat size) 0) size);
  mret (s16 size, data).
Definition dev_null_write (data : list Z) (size : Z) : M kern Z := mret (s16 size).
Definition dev_full_write (data : list Z) (size : Z) : M kern Z := mret (- ENOSPC).

(** ** The console *)

(** The next character, or a negative value when there is no input. *)
Definition chrin : M kern Z :=
  l ← gets k_in;
  match l with
  | [] => mret (-1)
  | c :: l => _ ← modify (set_in l); mret c
  end.
Definition chrout (c : Z) : M kern () := modify (λ k, set_out (k_out k ++ [u8 c]) k).

Definition chrout_newline : M kern () :=
  if CONFIG_CHROUT_LF_HANDLING then chrout CH_LF
  else _ ← chrout CH_CR; chrout CH_LF.

Fixpoint basic_tty_read_loop (size : nat) (data : list Z) (result : Z)
    : M kern (Z * list Z) :=
  match size with
  | O => mret (result, data)
  | S size =>
      c ← chrin;
      if c <? 0 then mret (result, data)
      else if (c =? CH_CR) || (c =? CH_LF) then
        data ← lift (wr data result CH_LF);
        _ ← (if CONFIG_CHRIN_ECHO then mret () else chrout_newline);
        mret (s16 (result + 1), data)
      else
        data ← lift (wr data result (u8 c));
        _ ← (if CONFIG_CHRIN_ECHO then mret ()
             else if (c =? CH_BS) || (c =? CH_DEL) then
               _ ← chrout CH_BS; _ ← chrout CH_SPACE; chrout CH_BS
             else chrout c);
        basic_tty_read_loop size data (s16 (result + 1))
  end.
Definition basic_tty_read (data : list Z) (size : Z) : M kern (Z * list Z) :=
  basic_tty_read_loop (Z.to_nat size) data 0.

Fixpoint basic_tty_write_loop (size : nat) (d : list Z) (result : Z) : M kern Z :=
  match size with
  | O => mret result
  | S size =>
      match d with
      | [] => fail FBounds
      | c :: d =>
          _ ← (if CONFIG_CHROUT_LF_HANDLING then chrout c
               else if negb (c =? CH_LF) then chrout c
               else _ ← chrout CH_CR; chrout CH_LF);
          basic_tty_write_loop size d (s16 (result + 1))
      end
  end.
Definition basic_tty_write (data : list Z) (size : Z) : M kern Z :=
  basic_tty_write_loop (Z.to_nat size) data 0.

Definition raw_tty_read (f : nat) (data : list Z) (size : Z) : M kern (Z * list Z) :=
  if size =? 0 then mret (0, data)
  else
    file ← get_file f;
    ch ← chrin;
    if CONFIG_CHROUT_NO_WAIT && has_bits (f_flags file) O_NONBLOCK && (ch <? 0)
    then mret (0, data)
    else
      data ← lift (wr data 0 (u8 ch));
      mret (1, data).

Fixpoint raw_tty_write_loop (size : nat) (d : list Z) : M kern () :=
  match size with
  | O => mret ()
  | S size =>
      match d with
      | [] => fail FBounds
      | c :: d => _ ← chrout c; raw_tty_write_loop size d
      end
  end.
Definition raw_tty_write (data : list Z) (size : Z) : M kern Z :=
  _ ← raw_tty_write_loop (Z.to_nat size) data;
  mret (s16 size).
End Devices.
