(* ===== verification/Ramfs.v ===== *)
(** The RAM filesystem (os/fs/ram/ramfs.c): lookup, directory reading, opening,
    creation and initialisation; and the walk of a pathname through the
    directories (inode_lookup and inode_lookup_path of os/inode.c). *)
From S2P Require Import Prelude CDefs Util PathRes Sched Kern Inode Fat Devices.

Definition RAMFS_MAX_NAME : Z := 13.

Section Code.
Context {SD : sdcard} {CC : console_config}.
Implicit Types (k : kern) (p : Z).

(** ** Lookup *)

(** memcmp (a, b, n) == 0 *)
Definition memcmp_eq (a b : list Z) (n : Z) : res bool :=
  if (zlen a <? n) || (zlen b <? n) then Err FBounds
  else Ok (bool_decide (take (Z.to_nat n) a = take (Z.to_nat n) b)).

Fixpoint ramfs_lookup_loop (fuel : nat) (dirent : Z) (name : list Z) (namelen : Z)
    : M kern (Z * Z) :=
  match fuel with
  | O => fail FFuel
  | S fuel =>
      if dirent =? 0 then mret (- ENOENT, 0)
      else
        d ← get_dirent dirent;
        same ← (if d_namelen d =? namelen
                then lift (memcmp_eq (d_name d) name namelen) else mret false);
        if (same : bool) then
          let found := d_inode d in
          if negb (found =? 0) then _ ← inode_ref found; mret (0, found)
          else mret (- EPERM, 0)
        else ramfs_lookup_loop fuel (d_next d) name namelen
  end.

(** The result and the child inode. *)
Definition ramfs_lookup (dir : Z) (name : list Z) (namelen : Z) : M kern (Z * Z) :=
  i ← get_inode dir;
  if negb (S_ISDIR (i_mode i)) then mret (- ENOTDIR, 0)
  else if has_bits (i_mode i) S_ISVTX then
    if negb (i_u1 i =? 0) then
      m ← get_inode (i_u1 i);
      match i_op m with
      | IopFat => fatfs_lookup (i_u1 i) name namelen
      | IopRam => fail FFuel    (* only FAT filesystems are ever mounted *)
      | IopNull => fail FNull
      end
    else mret (- ENOENT, 0)
  else ramfs_lookup_loop list_fuel (i_u0 i) name namelen.

(** ** Reading a directory *)

Fixpoint dir_seek (fuel : nat) (entry posn : Z) : M kern Z :=
  match fuel with
  | O => fail FFuel
  | S fuel =>
      if negb (entry =? 0) && (0 <? posn) then
        d ← get_dirent entry; dir_seek fuel (d_next d) (posn - 1)
      else mret entry
  end.

(** The struct dirent for a directory entry and its inode. *)
Definition ramfs_fill_dirent (d : ramfs_dirent) (i : inode) : res dirent :=
  let mode := i_mode i in
  let type := Z.land mode S_IFMT in
  let ino := if (type =? S_IFREG) || (type =? S_IFLNK) then i_u1 i
             else if (type =? S_IFCHR) || (type =? S_IFBLK) then i_u0 i
             else 0 in
  name ← memcpy (replicate 16 0) 0 (d_name d) (d_namelen d);
  Ok (Dirent ino (i_mtime i) mode (u8 (Z.shiftr mode 12)) name).

(** [out] is the offset of the next struct dirent in [data]. *)
Fixpoint ramfs_dir_read_loop (fuel : nat) (entry : Z) (data : list Z)
    (out size result count : Z) : M kern (Z * Z * list Z) :=
  match fuel with
  | O => fail FFuel
  | S fuel =>
      if (entry =? 0) || (size <? sizeof_dirent) then mret (result, count, data)
      else
        d ← get_dirent entry;
        i ← get_inode (d_inode d);
        e ← lift (ramfs_fill_dirent d i);
        data ← lift (memcpy data out (dirent_bytes e) sizeof_dirent);
        ramfs_dir_read_loop fuel (d_next d) data (out + sizeof_dirent)
          (u16 (size - sizeof_dirent)) (s16 (result + sizeof_dirent)) (u16 (count + 1))
  end.

Definition ramfs_dir_read (f : nat) (data : list Z) (size : Z) : M kern (Z * list Z) :=
  file ← get_file f;
  i ← get_inode (f_inode file);
  entry ← dir_seek list_fuel (i_u0 i) (u16 (f_posn file));
  '(result, count, data) ← ramfs_dir_read_loop list_fuel entry data 0 size 0 0;
  _ ← upd_file f (λ x, fset_posn (s32 (f_posn x + count)) x);
  mret (result, data).

(** ** Opening *)

Definition ramfs_open (f : nat) : M kern Z :=
  file ← get_file f;
  let type := Z.land (f_mode file) S_IFMT in
  if type =? S_IFDIR then
    if has_bits (f_mode file) S_ISVTX then
      i ← get_inode (f_inode file);
      let inode := i_u1 i in
      _ ← inode_ref inode;
      _ ← inode_deref (f_inode file);
      _ ← upd_file f (fset_inode inode);
      m ← get_inode inode;
      _ ← upd_file f (fset_mode (i_mode m));
      match i_op m with
      | IopFat => fatfs_open f
      | IopRam => fail FFuel    (* only FAT filesystems are ever mounted *)
      | IopNull => fail FNull
      end
    else
      _ ← upd_file f (fset_op FopRamDir);
      mret 0
  else if type =? S_IFREG then mret 0
  else if type =? S_IFCHR then
    let inode := f_inode file in
    _ ← upd_file f (fset_inode 0);
    i ← get_inode inode;
    result ← char_device_open (i_u0 i) f;
    _ ← inode_deref inode;
    mret result
  else mret (- EACCES).

(** ** Creation *)

(** The walk to the NULL link at the end of a directory, which is then set. *)
Fixpoint append_dirent (fuel : nat) (at_ dirent : Z) : M kern () :=
  match fuel with
  | O => fail FFuel
  | S fuel =>
      d ← get_dirent at_;
      if d_next d =? 0 then upd_dirent at_ (with_next dirent)
      else append_dirent fuel (d_next d) dirent
  end.

Definition ramfs_mknod (dir : Z) (name : list Z) (namelen mode : Z) : M kern (Z * Z) :=
  i ← get_inode dir;
  if negb (S_ISDIR (i_mode i)) then mret (- ENOTDIR, 0)
  else if RAMFS_MAX_NAME <? namelen then mret (- ENAMETOOLONG, 0)
  else
    dirent ← kmalloc_buf_alloc;
    if dirent =? 0 then mret (- ENOMEM, 0)
    else
      child ← inode_alloc IopRam;
      if child =? 0 then
        _ ← kmalloc_buf_free dirent;
        mret (- ENOMEM, 0)
      else
        _ ← upd_inode child (with_mode mode);
        mtime ← inode_get_mtime;
        _ ← upd_inode child (with_mtime mtime);
        d ← get_dirent dirent;
        nm ← lift (memcpy (d_name d) 0 name namelen);
        _ ← upd_dirent dirent (λ d, RamfsDirent (u8 namelen) nm child (d_next d));
        i ← get_inode dir;
        _ ← (if i_u0 i =? 0 then upd_inode dir (with_u0 dirent)
             else append_dirent list_fuel (i_u0 i) dirent);
        _ ← inode_ref child;
        mret (0, child).

Definition ROOT_MODE : Z :=
  Z.lor (Z.lor (Z.lor (Z.lor (Z.lor (Z.lor (Z.lor (Z.lor S_IRUSR S_IWUSR) S_IXUSR)
    S_IFDIR) S_IRGRP) S_IWGRP) S_IXGRP) S_IROTH) S_IXOTH.

Definition ramfs_init : M kern () :=
  root ← inode_alloc IopRam;
  _ ← modify (set_root root);
  _ ← upd_inode root (with_mode ROOT_MODE);
  _ ← inode_ref root;
  inode_ref root.

(** ** Walking a path (os/inode.c) *)

(** The calls through the operation table of an inode. *)
Definition op_lookup (node : Z) (name : list Z) (namelen : Z) : M kern (Z * Z) :=
  i ← get_inode node;
  match i_op i with
  | IopRam => ramfs_lookup node name namelen
  | IopFat => fatfs_lookup node name namelen
  | IopNull => fail FNull
  end.

(** The member mknod of the table, or NULL. *)
Definition op_mknod (node : Z) : M kern (option (list Z → Z → Z → M kern (Z * Z))) :=
  i ← get_inode node;
  match i_op i with
  | IopRam => mret (Some (ramfs_mknod node))
  | IopFat => mret None
  | IopNull => fail FNull
  end.

Definition op_open (node : Z) (f : nat) : M kern Z :=
  i ← get_inode node;
  match i_op i with
  | IopRam => ramfs_open f
  | IopFat => fatfs_open f
  | IopNull => fail FNull
  end.

(** Drops the reference to [node] and returns an error. *)
Definition drop_return (node error : Z) : M kern (Z * Z) :=
  _ ← inode_deref node; mret (error, 0).

(** The end of inode_lookup(): the checks on the node that was found. *)
Definition lookup_finish (want : bool) (oflag mode node : Z) : M kern (Z * Z) :=
  i ← get_inode node;
  let error := inode_access i (oflag_to_access_mode oflag) in
  if error <? 0 then drop_return node error
  else if negb (Z.land (Z.lxor mode (i_mode i)) S_IFMT =? 0) then
    if S_ISDIR mode then drop_return node (- ENOTDIR)
    else if S_ISDIR (i_mode i) then drop_return node (- EISDIR)
    else drop_return node (- EACCES)
  else if has_bits oflag O_CREAT && has_bits oflag O_EXCL then drop_return node (- EEXIST)
  else if want then mret (0, node)
  else _ ← inode_deref node; mret (0, 0).

(** The creation of the last component in the directory [node]. *)
Definition lookup_create (want : bool) (mode node : Z) (name : list Z) (namelen : Z)
    : M kern (Z * Z) :=
  i ← get_inode node;
  let error := inode_access i W_OK in
  if error <? 0 then drop_return node error
  else
    mk ← op_mknod node;
    match mk with
    | None => drop_return node (- EROFS)
    | Some mknod =>
        '(error, child) ← mknod name namelen mode;
        _ ← inode_deref node;
        if error <? 0 then mret (error, 0)
        else if want then mret (1, child)
        else _ ← inode_deref child; mret (1, 0)
    end.

(** The loop of inode_lookup(); [want] says that the caller passed a place for
    the inode.  CONFIG_SYMLINK is not defined, so [follow] has no effect. *)
Fixpoint lookup_loop (fuel : nat) (want : bool) (pathname : list Z) (posn oflag mode node : Z)
    : M kern (Z * Z) :=
  match fuel with
  | O => fail FFuel
  | S fuel =>
      c ← lift (rd pathname posn);
      if c =? NUL then lookup_finish want oflag mode node
      else
        i ← get_inode node;
        if negb (S_ISDIR (i_mode i)) then drop_return node (- ENOTDIR)
        else
          let error := inode_access i X_OK in
          if error <? 0 then drop_return node error
          else
            let name := drop (Z.to_nat posn) pathname in
            namelen ← lift (strlen_path_component name CONFIG_PATH_MAX);
            e ← lift (rd name namelen);
            let is_last := e =? NUL in
            '(error, child) ← op_lookup node name namelen;
            if (error =? - ENOENT) && is_last && has_bits oflag O_CREAT
            then lookup_create want mode node name namelen
            else if error <? 0 then drop_return node error
            else
              _ ← inode_deref node;
              ci ← get_inode child;
              if S_ISLNK (i_mode ci) then drop_return child (- EINVAL)
              else if is_last then lookup_finish want oflag mode child
              else lookup_loop fuel want pathname (u16 (posn + namelen + 1)) oflag mode child
  end.

(** A path has fewer components than characters. *)
Definition inode_lookup (want : bool) (pathname : list Z) (oflag mode : Z)
    : M kern (Z * Z) :=
  node ← inode_get_root;
  lookup_loop (S (length pathname)) want pathname 1 oflag mode node.

Definition inode_lookup_path (want : bool) (pathname : option (list Z)) (oflag mode : Z)
    : M kern (Z * Z) :=
  cwd ← gets (λ k, p_cwd (k_proc k));
  temp ← gets k_temp;
  '(error, temp) ← lift (inode_path_to_abs cwd temp CONFIG_PATH_MAX pathname);
  _ ← modify (set_temp temp);
  if error <? 0 then mret (error, 0)
  else
    '(error, inode) ← inode_lookup want temp oflag mode;
    if error <? 0 then mret (error, 0) else mret (0, inode).
End Code.
