(* ===== verification/File.v ===== *)
(** Open files and the file system calls (os/file.c, os/dir.c, os/mount.c). *)
From S2P Require Import Prelude CDefs Util PathRes Sched Kern Inode Fat Devices.
From S2P Require Import Ramfs.

(** ** Fields of struct proc that the system calls change *)

Definition set_fd v p := Proc (p_context p) (p_pid p) (p_ppid p) (p_state p) (p_wait_sem p)
  (p_zp p) v (p_cloexec p) (p_umask p) (p_cwd p) (p_argv p).
Definition set_cloexec v p := Proc (p_context p) (p_pid p) (p_ppid p) (p_state p) (p_wait_sem p)
  (p_zp p) (p_fd p) v (p_umask p) (p_cwd p) (p_argv p).
Definition set_umask v p := Proc (p_context p) (p_pid p) (p_ppid p) (p_state p) (p_wait_sem p)
  (p_zp p) (p_fd p) (p_cloexec p) v (p_cwd p) (p_argv p).
Definition set_cwd v p := Proc (p_context p) (p_pid p) (p_ppid p) (p_state p) (p_wait_sem p)
  (p_zp p) (p_fd p) (p_cloexec p) (p_umask p) v (p_argv p).

Section Code.
Context {SD : sdcard} {CC : console_config}.
Implicit Types (k : kern) (f : nat) (fd : Z).

(** The slots of the current process's tables. *)
Definition fd_read fd : M kern (option nat) :=
  t ← gets (λ k, p_fd (k_proc k)); lift (rd t fd).
Definition fd_write fd (v : option nat) : M kern () :=
  t ← gets (λ k, p_fd (k_proc k));
  t ← lift (wr t fd v);
  modify (λ k, set_cur (set_fd t (k_proc k)) k).
Definition cloexec_read fd : M kern Z :=
  t ← gets (λ k, p_cloexec (k_proc k)); lift (rd t fd).
Definition cloexec_write fd (v : Z) : M kern () :=
  t ← gets (λ k, p_cloexec (k_proc k));
  t ← lift (wr t fd v);
  modify (λ k, set_cur (set_cloexec t (k_proc k)) k).

(** ** os/file.c *)

Definition file_init : M kern () :=
  modify (λ k, set_files (fset_count 0 <$> k_files k) k).

Definition file_ref f : M kern () := upd_file f (λ x, fset_count (s8 (f_count x + 1)) x).

Definition file_close_default f : M kern Z :=
  file ← get_file f;
  _ ← (if negb (f_inode file =? 0) then _ ← inode_deref (f_inode file); mret () else mret ());
  mret 0.

Definition file_read_default (data : list Z) : M kern (Z * list Z) := mret (- EINVAL, data).
Definition file_write_default : M kern Z := mret (- EINVAL).

Definition fatfs_close f : M kern Z :=
  file ← get_file f;
  _ ← kmalloc_buf_free (f_fatfs_info file);
  file_close_default f.

(** The calls through the operation table of an open file. *)
Definition fop_close f : M kern Z :=
  file ← get_file f;
  match f_op file with
  | FopNull => fail FNull
  | FopFatDir | FopFatFile => fatfs_close f
  | _ => file_close_default f
  end.

Definition fop_read f (data : list Z) (size : Z) : M kern (Z * list Z) :=
  file ← get_file f;
  match f_op file with
  | FopNull => fail FNull
  | FopRamDir => ramfs_dir_read f data size
  | FopFatDir => fatfs_dir_read f data size
  | FopFatFile => fatfs_file_read f data size
  | FopDevNull => dev_null_read data size
  | FopDevZero | FopDevFull => dev_zero_read data size
  | FopBasicTty => basic_tty_read data size
  | FopRawTty => raw_tty_read f data size
  end.

Definition fop_write f (data : list Z) (size : Z) : M kern Z :=
  file ← get_file f;
  match f_op file with
  | FopNull => fail FNull
  | FopRamDir | FopFatDir | FopFatFile => file_write_default
  | FopDevNull | FopDevZero => dev_null_write data size
  | FopDevFull => dev_full_write data size
  | FopBasicTty => basic_tty_write data size
  | FopRawTty => raw_tty_write data size
  end.

Definition file_deref f : M kern Z :=
  _ ← upd_file f (λ x, fset_count (s8 (f_count x - 1)) x);
  file ← get_file f;
  if f_count file <=? 0 then fop_close f else mret 0.

Definition file_get fd : M kern (option nat) :=
  if (fd <? 0) || (CONFIG_PROC_FD_MAX <=? fd) then mret None else fd_read fd.

Fixpoint file_put_loop (n : nat) f fd : M kern Z :=
  match n with
  | O => mret (- EMFILE)
  | S n =>
      slot ← fd_read fd;
      match slot with
      | None => _ ← fd_write fd (Some f); mret fd
      | Some _ => file_put_loop n f (fd + 1)
      end
  end.
Definition file_put f : M kern Z := file_put_loop (Z.to_nat CONFIG_PROC_FD_MAX) f 0.

Fixpoint file_new_loop (n : nat) f (flags mode : Z) : M kern (option nat) :=
  match n with
  | O => mret None
  | S n =>
      file ← get_file f;
      if f_count file =? 0 then
        _ ← upd_file f (λ _, File 1 flags mode FopNull 0 0 0);
        mret (Some f)
      else file_new_loop n (S f) flags mode
  end.
Definition file_new (flags mode : Z) : M kern (option nat) :=
  file_new_loop (Z.to_nat CONFIG_FD_MAX) 0 (u16 flags) mode.

Definition file_open (path : option (list Z)) (flags mode : Z) : M kern Z :=
  '(error, inode) ← inode_lookup_path true path flags mode;
  if error <? 0 then mret error
  else
    i ← get_inode inode;
    file ← file_new flags (i_mode i);
    match file with
    | None => _ ← inode_deref inode; mret (- ENFILE)
    | Some f =>
        _ ← upd_file f (fset_inode inode);
        error ← op_open inode f;
        if error <? 0 then _ ← file_deref f; mret error
        else
          error ← file_put f;
          if error <? 0 then _ ← file_deref f; mret error else mret error
    end.

Definition umasked (mode : Z) : M kern Z :=
  m ← gets (λ k, p_umask (k_proc k)); mret (Z.ldiff mode m).

Definition sys_open (path : option (list Z)) (flags mode : Z) : M kern Z :=
  mode ← umasked mode;
  file_open path flags (Z.land mode MODE_0777).

Definition sys_close fd : M kern Z :=
  file ← file_get fd;
  match file with
  | None => mret (- EBADF)
  | Some f => _ ← fd_write fd None; file_deref f
  end.

(** [data] is None for a NULL pointer. *)
Definition sys_read fd (data : option (list Z)) (size : Z) : M kern (Z * option (list Z)) :=
  file ← file_get fd;
  match file with
  | None => mret (- EBADF, data)
  | Some f =>
      match data with
      | None =>
          if 0 <? size then mret (- EFAULT, data)
          else
            _ ← file_ref f;
            '(result, _) ← fop_read f [] size;
            _ ← file_deref f;
            mret (result, data)
      | Some d =>
          _ ← file_ref f;
          '(result, d) ← fop_read f d size;
          _ ← file_deref f;
          mret (result, Some d)
      end
  end.

Definition sys_write fd (data : option (list Z)) (size : Z) : M kern Z :=
  file ← file_get fd;
  match file with
  | None => mret (- EBADF)
  | Some f =>
      if bool_decide (data = None) && (0 <? size) then mret (- EFAULT)
      else
        _ ← file_ref f;
        result ← fop_write f (default [] data) size;
        _ ← file_deref f;
        mret result
  end.

Definition sys_lseek : M kern Z := mret (- ESPIPE).

Fixpoint dup_scan_loop (n : nat) f (newfd : Z) : M kern Z :=
  match n with
  | O => mret (- EMFILE)
  | S n =>
      if newfd <? CONFIG_PROC_FD_MAX then
        slot ← fd_read newfd;
        match slot with
        | None =>
            _ ← file_ref f;
            _ ← fd_write newfd (Some f);
            _ ← cloexec_write newfd 0;
            mret newfd
        | Some _ => dup_scan_loop n f (newfd + 1)
        end
      else mret (- EMFILE)
  end.

Definition sys_dup_scan (oldfd newfd : Z) : M kern Z :=
  file ← file_get oldfd;
  match file with
  | None => mret (- EBADF)
  | Some f =>
      if (newfd <? 0) || (CONFIG_PROC_FD_MAX <=? newfd) then mret (- EBADF)
      else dup_scan_loop (Z.to_nat CONFIG_PROC_FD_MAX) f newfd
  end.

Definition sys_dup (oldfd : Z) : M kern Z := sys_dup_scan oldfd 0.

Definition sys_dup2 (oldfd newfd : Z) : M kern Z :=
  file ← file_get oldfd;
  match file with
  | None => mret (- EBADF)
  | Some f =>
      if (newfd <? 0) || (CONFIG_PROC_FD_MAX <=? newfd) then mret (- EBADF)
      else if newfd =? oldfd then mret newfd
      else
        _ ← file_ref f;
        file2 ← file_get newfd;
        _ ← match file2 with Some f2 => file_deref f2 | None => mret 0 end;
        _ ← fd_write newfd (Some f);
        _ ← cloexec_write newfd 0;
        mret newfd
  end.

Definition sys_fcntl (fd cmd value : Z) : M kern Z :=
  file ← file_get fd;
  match file with
  | None => mret (- EBADF)
  | Some f =>
      if cmd =? F_DUPFD then sys_dup_scan fd value
      else if cmd =? F_GETFD then cloexec_read fd
      else if cmd =? F_SETFD then
        _ ← cloexec_write fd (Z.land value FD_CLOEXEC);
        mret (- EINVAL)
      else if cmd =? F_GETFL then
        x ← get_file f; mret (s16 (f_flags x))
      else if cmd =? F_SETFL then
        _ ← (if has_bits value O_NONBLOCK
             then upd_file f (λ x, fset_flags (Z.lor (f_flags x) O_NONBLOCK) x)
             else upd_file f (λ x, fset_flags (Z.ldiff (f_flags x) O_NONBLOCK) x));
        mret (- EINVAL)
      else mret (- EINVAL)
  end.

(** ** os/dir.c *)

Definition sys_notimp : M kern Z := mret (- ENOSYS).

(** The result and the buffer.  On success the address of the buffer is also
    stored behind the result pointer of the argument structure: the caller's
    memory is in [Syscall.do_getcwd], which makes that store. *)
Definition sys_getcwd (buf : option (list Z)) (size : Z) (result_null : bool)
    : M kern (Z * option (list Z)) :=
  match buf with
  | None => mret (- EFAULT, None)
  | Some b =>
      if result_null then mret (- EFAULT, buf)
      else if size =? 0 then mret (- EINVAL, buf)
      else
        cwd ← gets (λ k, p_cwd (k_proc k));
        b ← lift (strcpy_constrained b (Some cwd) size);
        mret (0, Some b)
  end.

Definition sys_chdir (path : option (list Z)) : M kern Z :=
  '(error, _) ← inode_lookup_path false path O_EXEC S_IFDIR;
  _ ← (if 0 <=? error then
         cwd ← gets (λ k, p_cwd (k_proc k));
         temp ← gets k_temp;
         cwd ← lift (strcpy_constrained cwd (Some temp) CONFIG_PATH_MAX);
         modify (λ k, set_cur (set_cwd cwd (k_proc k)) k)
       else mret ());
  mret error.

Definition sys_mkdir (path : option (list Z)) (mode : Z) : M kern Z :=
  mode ← umasked mode;
  let mode := Z.lor S_IFDIR (Z.land mode MODE_0777) in
  '(error, inode) ← inode_lookup_path true path (Z.lor O_CREAT O_EXCL) mode;
  _ ← (if 0 <=? error then _ ← inode_deref inode; mret () else mret ());
  mret error.

Definition sys_rmdir : M kern Z := mret (- ENOSYS).

Definition sys_mknod (path : option (list Z)) (mode dev : Z) : M kern Z :=
  mode ← umasked mode;
  if negb (S_ISCHR mode) && negb (S_ISBLK mode) then mret (- EINVAL)
  else if has_bits mode (Z.lor (Z.lor S_ISUID S_ISGID) S_ISVTX) then mret (- EINVAL)
  else
    '(error, inode) ← inode_lookup_path true path (Z.lor O_CREAT O_EXCL) mode;
    _ ← (if 0 <=? error then
           _ ← upd_inode inode (with_u0 dev);
           _ ← inode_deref inode;
           mret ()
         else mret ());
    mret error.

Definition sys_unlink : M kern Z := mret (- ENOSYS).
Definition sys_stat : M kern Z := mret (- ENOSYS).
Definition sys_lstat : M kern Z := sys_notimp.

Definition sys_opendir (path : option (list Z)) : M kern Z := file_open path O_RDONLY S_IFDIR.

Definition sys_umask (mask : Z) : M kern Z :=
  prev ← gets (λ k, p_umask (k_proc k));
  _ ← modify (λ k, set_cur (set_umask (Z.land mask MODE_0777) (k_proc k)) k);
  mret prev.

(** ** os/mount.c *)

(** strcmp (s, t) == 0 for a string literal [t] *)
Fixpoint streq (s t : list Z) : res bool :=
  match s with
  | [] => Err FBounds
  | c :: s =>
      match t with
      | [] => Ok (c =? NUL)
      | d :: t => if c =? d then streq s t else Ok false
      end
  end.

Definition sys_mount (source target filesystemtype : option (list Z)) (mountflags : Z)
    : M kern Z :=
  match source, filesystemtype with
  | None, _ | _, None => mret (- EFAULT)
  | Some source, Some filesystemtype =>
      is_mmc ← lift (streq source (chars "/dev/mmcblk0"));
      if negb is_mmc || negb fatfs_have_sd then mret (- ENOTBLK)
      else
        is_vfat ← lift (streq filesystemtype (chars "vfat"));
        if negb is_vfat then mret (- ENODEV)
        else if bool_decide (target = None) then mret 0
        else
          '(error, dir) ← inode_lookup_path true target O_EXEC S_IFDIR;
          if error <? 0 then mret error
          else
            i ← get_inode dir;
            if negb (bool_decide (i_op i = IopRam)) then
              _ ← inode_deref dir; mret (- EINVAL)
            else if negb (S_ISDIR (i_mode i)) then
              _ ← inode_deref dir; mret (- ENOTDIR)
            else if has_bits (i_mode i) S_ISVTX then
              _ ← inode_deref dir;
              if has_bits mountflags MS_REMOUNT then mret 0 else mret (- EBUSY)
            else
              error ← fatfs_mount_sd dir;
              _ ← inode_deref dir;
              mret error
  end.

Definition sys_umount : M kern Z := mret (- EPERM).
End Code.
