(* ===== verification/Vfs.v ===== *)
(** The RAM filesystem as an abstract inode table: the invariant that ties the
    buffer cache to it, and the refinement of lookup, creation and path
    walking.

    An abstract inode has a mode, a modification time, a device number when
    it is not a directory, and the entries of a directory, which name other
    inodes.  The reference count of an inode is one for its directory entry
    (three for the root, as ramfs_init() sets it up) plus the references [R]
    that open files and running operations hold. *)
From S2P Require Import Prelude CDefs Util PathRes Sched Kern BufCache Inode Fat.
From S2P Require Import Devices Ramfs.

Record anode := ANode {
  a_mode : Z;
  a_mtime : Z;
  a_data : Z;
  a_entries : list (list Z * Z);
}.

Abbreviation afs := (gmap Z anode).

(** The chain of directory entries [ds] from [p] holds the entries [es]. *)
Fixpoint dir_rep (B : gmap Z buffer) (p : Z) (es : list (list Z * Z)) (ds : list Z) : Prop :=
  match es, ds with
  | [], [] => p = 0
  | (nm, q) :: es, d :: ds =>
      p = d ∧ d ≠ 0 ∧ ∃ pad n,
        B !! d = Some (BDirent (RamfsDirent (zlen nm) (nm ++ pad) q n)) ∧
        zlen (nm ++ pad) = RAMFS_MAX_NAME ∧ dir_rep B n es ds
  | _, _ => False
  end.

(** The buffer of an inode. *)
Definition node_rep (B : gmap Z buffer) (p : Z) (n : anode) (count : Z) (ds : list Z) : Prop :=
  ∃ u0, B !! p = Some (BInode (Inode IopRam count (a_mode n) (a_mtime n) u0 0)) ∧
    if S_ISDIR (a_mode n)
    then has_bits (a_mode n) S_ISVTX = false ∧ dir_rep B u0 (a_entries n) ds
    else u0 = a_data n ∧ a_entries n = [] ∧ ds = [].

Definition base_refs (root p : Z) : Z := if p =? root then 3 else 1.

(** The inode of a name in a directory. *)
Fixpoint afind (nm : list Z) (es : list (list Z * Z)) : option Z :=
  match es with
  | [] => None
  | (n, q) :: es => if decide (n = nm) then Some q else afind nm es
  end.

Lemma afind_Some nm es q : afind nm es = Some q → (nm, q) ∈ es.
Proof.
  induction es as [|[n x] es IH]; simpl; [done|].
  case_decide; [intros [= ->]; subst; by left|]. intros. right. auto.
Qed.

Lemma afind_None nm es : afind nm es = None ↔ nm ∉ es.*1.
Proof.
  induction es as [|[n x] es IH]; simpl; [split; [intros _; apply not_elem_of_nil|done]|].
  rewrite not_elem_of_cons. case_decide; naive_solver.
Qed.

Lemma memcmp_eq_spec nm nm' pad rest :
  zlen nm' = zlen nm →
  memcmp_eq (nm' ++ pad) (nm ++ rest) (zlen nm) = Ok (bool_decide (nm' = nm)).
Proof.
  intros Hl. unfold memcmp_eq. rewrite !zlen_app.
  pose proof (zlen_nonneg pad). pose proof (zlen_nonneg rest).
  rewrite (proj2 (Z.ltb_ge (zlen nm' + _) _)), (proj2 (Z.ltb_ge (zlen nm + _) _)) by lia. simpl.
  unfold zlen in *. rewrite Nat2Z.id, take_app_length.
  assert (length nm' = length nm) as E by lia. by rewrite <- E, take_app_length.
Qed.

Lemma memcpy_zeroes n nm rest :
  (length nm ≤ n)%nat →
  memcpy (replicate n 0) 0 (nm ++ rest) (zlen nm) = Ok (nm ++ replicate (n - length nm) 0).
Proof.
  intros Hl. replace n with (length nm + (n - length nm))%nat at 1 by lia. rewrite replicate_add.
  apply (memcpy_app_at [] (replicate (length nm) 0) (replicate (n - length nm) 0) nm rest).
  by rewrite length_replicate.
Qed.

(** A list of distinct buffers is no longer than the buffer cache. *)
Lemma bufs_length (l : list Z) :
  NoDup l → (∀ p, p ∈ l → 1 ≤ p ≤ CONFIG_NUM_BUFFERS) → (length l < list_fuel)%nat.
Proof.
  intros Hn Hl. assert (l ⊆+ seqZ 1 CONFIG_NUM_BUFFERS) as Hs.
  { apply NoDup_submseteq; [done|]. intros p Hp. apply elem_of_seqZ. apply Hl in Hp. lia. }
  apply submseteq_length in Hs. rewrite length_seqZ in Hs. unfold list_fuel. lia.
Qed.

(** ** The specification of path walking *)

Inductive outcome :=
  | WErr (e : Z)
  | WFound (p : Z)
  | WCreate (p : Z) (nm : list Z).

Definition a_access (mode want : Z) : bool :=
  (want =? F_OK) || (Z.land (Z.land want (Z.shiftr mode 6)) 7 =? want).

Lemma inode_access_spec i want :
  inode_access i want = if a_access (i_mode i) want then 0 else - EACCES.
Proof. unfold inode_access, a_access. by destruct (want =? F_OK), (_ =? want). Qed.

(** The checks on the last node of the path. *)
Definition a_finish (A : afs) (oflag mode p : Z) : outcome :=
  match A !! p with
  | None => WErr (- ENOENT)
  | Some n =>
      if negb (a_access (a_mode n) (oflag_to_access_mode oflag)) then WErr (- EACCES)
      else if negb (Z.land (Z.lxor mode (a_mode n)) S_IFMT =? 0) then
        WErr (if S_ISDIR mode then - ENOTDIR
              else if S_ISDIR (a_mode n) then - EISDIR else - EACCES)
      else if has_bits oflag O_CREAT && has_bits oflag O_EXCL then WErr (- EEXIST)
      else WFound p
  end.

Fixpoint a_walk (A : afs) (oflag mode p : Z) (cs : list (list Z)) : outcome :=
  match cs with
  | [] => a_finish A oflag mode p
  | c :: cs =>
      match A !! p with
      | None => WErr (- ENOENT)
      | Some n =>
          if negb (S_ISDIR (a_mode n)) then WErr (- ENOTDIR)
          else if negb (a_access (a_mode n) X_OK) then WErr (- EACCES)
          else match afind c (a_entries n) with
               | Some q =>
                   if S_ISLNK (from_option a_mode 0 (A !! q)) then WErr (- EINVAL)
                   else a_walk A oflag mode q cs
               | None =>
                   if bool_decide (cs = []) && has_bits oflag O_CREAT then
                     if a_access (a_mode n) W_OK then WCreate p c else WErr (- EACCES)
                   else WErr (- ENOENT)
               end
      end
  end.

(** The text of a component list after the leading slash. *)
Definition path_tail (cs : list (list Z)) : list Z :=
  match cs with [] => [] | c :: cs => c ++ join cs end.

Lemma render_tail cs : render cs = CH_SLASH :: path_tail cs.
Proof. by destruct cs. Qed.

Section Vfs.
Context {SD : sdcard} {CC : console_config}.
Implicit Types (k : kern) (A : afs) (D : gmap Z (list Z)) (F : list Z) (R : gmap Z Z).

Record vfs_ok k A D F R : Prop := {
  vo_bufs : bufs_ok k F;
  vo_node : ∀ p n, A !! p = Some n →
    node_rep (k_bufs k) p n (base_refs (k_root k) p + R !!! p) (D !!! p);
  vo_refs : ∀ p, 0 ≤ R !!! p < 32000;
  vo_root : ∃ n, A !! k_root k = Some n ∧ S_ISDIR (a_mode n) = true;
  vo_child : ∀ p n nm q, A !! p = Some n → (nm, q) ∈ a_entries n →
    is_Some (A !! q) ∧ q ≠ k_root k ∧ wf_name nm;
  vo_names : ∀ p n, A !! p = Some n → NoDup (a_entries n).*1;
  vo_apart : ∀ p q d, d ∈ D !!! p → d ∈ D !!! q → p = q;
  vo_nodup : ∀ p, NoDup (D !!! p);
  vo_dirs : ∀ p, D !!! p ≠ [] → is_Some (A !! p);
}.

(** ** Reference counts *)

Definition buf_bump (δ : Z) (b : buffer) : buffer :=
  match b with BInode i => BInode (with_count (i_count i + δ) i) | _ => b end.
Definition bump (p δ : Z) k : kern := set_bufs (alter (buf_bump δ) p (k_bufs k)) k.

Lemma bump_bump p δ1 δ2 k : bump p δ1 (bump p δ2 k) = bump p (δ2 + δ1) k.
Proof.
  unfold bump. simpl. rewrite set_bufs_set_bufs, alter_alter_eq. f_equal.
  apply alter_ext. intros [] _; simpl; try done.
  unfold with_count. simpl. by rewrite Z.add_assoc.
Qed.

Lemma bump_0 p k : bump p 0 k = k.
Proof.
  unfold bump. rewrite alter_id; [apply set_bufs_id|].
  intros [] _; simpl; try done. destruct i. unfold with_count. simpl. by rewrite Z.add_0_r.
Qed.

(** A buffer that holds a given inode. *)
Definition inode_at k p (i : inode) : Prop := p ≠ 0 ∧ k_bufs k !! p = Some (BInode i).

Lemma get_inode_ok k p i : inode_at k p i → get_inode p k = Ok (i, k).
Proof. intros [Hp Hi]. unfold get_inode. by mstep by (by apply get_buf_ok). Qed.

Lemma bump_insert k p i δ :
  inode_at k p i →
  set_bufs (<[p := BInode (with_count (i_count i + δ) i)]> (k_bufs k)) k = bump p δ k.
Proof.
  intros [_ Hi]. unfold bump. f_equal.
  rewrite <- (insert_id _ _ _ Hi) at 2. by rewrite alter_insert_eq.
Qed.

Lemma upd_inode_ok k p i f :
  inode_at k p i →
  upd_inode p f k = Ok ((), set_bufs (<[p := BInode (f i)]> (k_bufs k)) k).
Proof. intros Hi. unfold upd_inode. by mstep by (by apply get_inode_ok). Qed.

Lemma inode_ref_ok k p i :
  inode_at k p i → -32768 ≤ i_count i < 32767 → inode_ref p k = Ok ((), bump p 1 k).
Proof.
  intros Hi Hc. unfold inode_ref. rewrite (upd_inode_ok _ _ i) by done.
  rewrite s16_small by lia. by rewrite (bump_insert _ _ i).
Qed.

Lemma inode_at_bump k p i q δ :
  inode_at k p i →
  inode_at (bump q δ k) p (if decide (p = q) then with_count (i_count i + δ) i else i).
Proof.
  intros [Hp Hi]. split; [done|]. simpl. case_decide; subst.
  - by rewrite lookup_alter_eq, Hi.
  - by rewrite lookup_alter_ne.
Qed.

(** Dropping a reference that is not the last one. *)
Lemma inode_deref_ok k p i :
  inode_at k p i → 2 ≤ i_count i < 32768 → inode_deref p k = Ok (0, bump p (-1) k).
Proof.
  intros Hi Hc. unfold inode_deref. cbn [inode_deref_fuel list_fuel].
  mstep by (by apply (upd_inode_ok _ _ i)). cbv beta. rewrite s16_small by lia.
  replace (i_count i - 1) with (i_count i + -1) by lia. rewrite (bump_insert _ _ i) by done.
  pose proof (inode_at_bump k p i p (-1) Hi) as Hi'. rewrite decide_True in Hi' by done.
  mstep by (by apply get_inode_ok). simpl. by rewrite (proj2 (Z.leb_gt _ 0)) by lia.
Qed.

(** ** The invariant under reference counting *)

Lemma dir_rep_write B p es ds q b :
  q ∉ ds → dir_rep B p es ds → dir_rep (<[q := b]> B) p es ds.
Proof.
  revert p ds. induction es as [|[nm x] es IH]; intros p [|d ds] Hq; simpl; try done.
  apply not_elem_of_cons in Hq as [Hqd Hq].
  intros (-> & Hd & pad & n & Hb & Hl & Hr). split_and!; [done..|].
  exists pad, n. rewrite lookup_insert_ne by done. auto.
Qed.

Lemma dir_rep_dirent B p es ds d :
  dir_rep B p es ds → d ∈ ds → ∃ x, B !! d = Some (BDirent x).
Proof.
  revert p ds. induction es as [|[nm x] es IH]; intros p [|e ds]; simpl; try done.
  { by intros _ ?%elem_of_nil. }
  intros (-> & Hd & pad & n & Hb & Hl & Hr) [->|]%elem_of_cons; eauto.
Qed.

Lemma node_dirent k A D F R p d :
  vfs_ok k A D F R → d ∈ D !!! p → ∃ x, k_bufs k !! d = Some (BDirent x).
Proof.
  intros Hk Hd. assert (is_Some (A !! p)) as [n Hn].
  { eapply vo_dirs; [done|]. intros E. rewrite E in Hd. by apply elem_of_nil in Hd. }
  destruct (vo_node _ _ _ _ _ Hk p n Hn) as (u0 & _ & H).
  destruct (S_ISDIR (a_mode n)); [|destruct H as (_ & _ & E); rewrite E in Hd;
                                  by apply elem_of_nil in Hd].
  destruct H as [_ H]. by eapply dir_rep_dirent.
Qed.

Lemma node_inode k A D F R p n :
  vfs_ok k A D F R → A !! p = Some n →
  ∃ u0, inode_at k p (Inode IopRam (base_refs (k_root k) p + R !!! p) (a_mode n) (a_mtime n) u0 0) ∧
    if S_ISDIR (a_mode n)
    then has_bits (a_mode n) S_ISVTX = false ∧ dir_rep (k_bufs k) u0 (a_entries n) (D !!! p)
    else u0 = a_data n ∧ a_entries n = [] ∧ D !!! p = [].
Proof.
  intros Hk Hn. destruct (vo_node _ _ _ _ _ Hk p n Hn) as (u0 & Hb & H).
  exists u0. split; [|done]. split; [|done]. eapply bufs_ok_ne0; [apply Hk|done].
Qed.

(** Replacing the inode of [p] by one that differs in its count. *)
Lemma node_rep_bump k A D F R p q n δ :
  vfs_ok k A D F R → A !! q = Some n →
  node_rep (k_bufs (bump p δ k)) q n
    (base_refs (k_root k) q + R !!! q + (if decide (q = p) then δ else 0)) (D !!! q).
Proof.
  intros Hk Hn. destruct (vo_node _ _ _ _ _ Hk q n Hn) as (u0 & Hb & H). exists u0.
  assert (∀ es, dir_rep (k_bufs k) u0 es (D !!! q) →
                dir_rep (k_bufs (bump p δ k)) u0 es (D !!! q)) as Hd.
  { intros es Hes. simpl. destruct (k_bufs k !! p) as [b|] eqn:Hp.
    - rewrite <- (insert_id _ _ _ Hp), alter_insert_eq.
      destruct (decide (p ∈ D !!! q)) as [Hin|]; [|by apply dir_rep_write].
      destruct (node_dirent _ _ _ _ _ _ _ Hk Hin) as [x Hx].
      rewrite Hx in Hp. injection Hp as <-. simpl. by rewrite insert_id.
    - by rewrite alter_id'. }
  split; [|destruct (S_ISDIR (a_mode n)); naive_solver].
  simpl. case_decide; subst.
  - by rewrite lookup_alter_eq, Hb.
  - rewrite lookup_alter_ne by done. by rewrite Z.add_0_r.
Qed.

Definition add_ref p (δ : Z) R : gmap Z Z := <[p := R !!! p + δ]> R.

Lemma bufs_ok_bump k F p δ : bufs_ok k F → bufs_ok (bump p δ k) F.
Proof.
  intros Hk. unfold bump. destruct (k_bufs k !! p) as [b|] eqn:Hp; last first.
  { rewrite alter_id' by done. by rewrite set_bufs_id. }
  rewrite <- (insert_id _ _ _ Hp) at 1. rewrite alter_insert_eq.
  destruct b; simpl; try (rewrite insert_id by done; by rewrite set_bufs_id).
  by eapply bufs_ok_write.
Qed.

Lemma vfs_ok_bump k A D F R p δ :
  vfs_ok k A D F R → 0 ≤ R !!! p + δ < 32000 →
  vfs_ok (bump p δ k) A D F (add_ref p δ R).
Proof.
  intros Hk Hδ. split; try apply Hk.
  - apply bufs_ok_bump, Hk.
  - intros q n Hn. pose proof (node_rep_bump _ _ _ _ _ p q n δ Hk Hn) as H.
    unfold add_ref. case_decide; subst.
    + rewrite lookup_total_insert_eq. by rewrite Z.add_assoc.
    + rewrite lookup_total_insert_ne by done. by rewrite Z.add_0_r in H.
  - intros q. unfold add_ref. destruct (decide (p = q)) as [->|].
    + by rewrite lookup_total_insert_eq.
    + rewrite lookup_total_insert_ne by done. apply Hk.
Qed.

Lemma node_ref_ok k A D F R p :
  vfs_ok k A D F R → is_Some (A !! p) → inode_ref p k = Ok ((), bump p 1 k).
Proof.
  intros Hk [n Hn]. destruct (node_inode _ _ _ _ _ _ _ Hk Hn) as (u0 & Hi & _).
  eapply inode_ref_ok; [done|]. simpl. pose proof (vo_refs _ _ _ _ _ Hk p).
  unfold base_refs. case_match; lia.
Qed.

(** Dropping a reference taken before gives the state before it. *)
Lemma node_deref_ok k A D F R p :
  vfs_ok k A D F R → is_Some (A !! p) → inode_deref p (bump p 1 k) = Ok (0, k).
Proof.
  intros Hk [n Hn]. destruct (node_inode _ _ _ _ _ _ _ Hk Hn) as (u0 & Hi & _).
  apply (inode_at_bump _ _ _ p 1) in Hi. rewrite decide_True in Hi by done.
  erewrite inode_deref_ok; [|done|].
  - rewrite bump_bump. simpl. by rewrite bump_0.
  - simpl. pose proof (vo_refs _ _ _ _ _ Hk p). unfold base_refs. case_match; lia.
Qed.

Lemma get_node_bumped k A D F R p n q δ :
  vfs_ok k A D F R → A !! p = Some n →
  ∃ i, get_inode p (bump q δ k) = Ok (i, bump q δ k) ∧
    i_mode i = a_mode n ∧ i_op i = IopRam.
Proof.
  intros Hk Hn. destruct (node_inode _ _ _ _ _ _ _ Hk Hn) as (u0 & Hi & _).
  apply (inode_at_bump _ _ _ q δ) in Hi.
  eexists. split; [by apply get_inode_ok|]. by case_decide.
Qed.

(** ** Lookup in a directory *)

Lemma get_dirent_ok k d x :
  d ≠ 0 → k_bufs k !! d = Some (BDirent x) → get_dirent d k = Ok (x, k).
Proof. intros Hd Hx. unfold get_dirent. by mstep by (by apply get_buf_ok). Qed.

Lemma dir_rep_length B p es ds : dir_rep B p es ds → length es = length ds.
Proof.
  revert p ds. induction es as [|[nm x] es IH]; intros p [|d ds]; simpl; try done.
  intros (_ & _ & pad & n & _ & _ & H). f_equal. eauto.
Qed.

Lemma ramfs_lookup_loop_spec k fuel p es ds nm rest :
  dir_rep (k_bufs k) p es ds → (length es < fuel)%nat → (∀ nm q, (nm, q) ∈ es → q ≠ 0) →
  ramfs_lookup_loop fuel p (nm ++ rest) (zlen nm) k =
  match afind nm es with
  | Some q => (_ ← inode_ref q; mret (0, q)) k
  | None => Ok ((- ENOENT, 0), k)
  end.
Proof.
  revert p ds fuel. induction es as [|[n q] es IH]; intros p ds [|fuel] Hd Hf Hq;
    simpl in Hf; try lia; destruct ds as [|d ds]; try done.
  { simpl in Hd. by subst p. }
  destruct Hd as (-> & Hd & pad & nxt & Hb & Hl & Hr). cbn [ramfs_lookup_loop].
  rewrite (proj2 (Z.eqb_neq d 0) Hd). mstep by (by apply get_dirent_ok). cbn [d_namelen d_name d_inode d_next].
  assert (ramfs_lookup_loop fuel nxt (nm ++ rest) (zlen nm) k =
          match afind nm es with
          | Some q => (_ ← inode_ref q; mret (0, q)) k
          | None => Ok ((- ENOENT, 0), k)
          end) as Hrest.
  { apply (IH nxt ds); [done|lia|]. intros nm' q' ?. apply (Hq nm'). by right. }
  cbn [afind]. destruct (Z.eqb_spec (zlen n) (zlen nm)) as [E|E]; last first.
  { mstep by done. rewrite decide_False by (by intros ->). exact Hrest. }
  mstep by (unfold lift; rewrite memcmp_eq_spec by done; done).
  case_decide; subst.
  - rewrite bool_decide_true by done. assert (q ≠ 0) as Hq0 by (apply (Hq nm); by left).
    by rewrite (proj2 (Z.eqb_neq q 0) Hq0).
  - rewrite bool_decide_false by done. exact Hrest.
Qed.

Lemma dirents_length k A D F R p n :
  vfs_ok k A D F R → A !! p = Some n → (length (a_entries n) < list_fuel)%nat.
Proof.
  intros Hk Hn. destruct (node_inode _ _ _ _ _ _ _ Hk Hn) as (u0 & _ & Hd).
  destruct (S_ISDIR (a_mode n)); [destruct Hd as [_ Hd]|destruct Hd as (_ & -> & _); simpl; unfold list_fuel; lia].
  rewrite (dir_rep_length _ _ _ _ Hd). apply bufs_length; [apply Hk|].
  intros d [x Hx]%(node_dirent _ _ _ _ _ _ _ Hk).
  apply (bo_dom _ _ (vo_bufs _ _ _ _ _ Hk)). eauto.
Qed.

Lemma node_ne0 k A D F R p : vfs_ok k A D F R → is_Some (A !! p) → p ≠ 0.
Proof. intros Hk [n Hn]. destruct (node_inode _ _ _ _ _ _ _ Hk Hn) as (u0 & [? _] & _). done. Qed.

Lemma ramfs_lookup_spec k A D F R p n nm rest :
  vfs_ok k A D F R → A !! p = Some n → S_ISDIR (a_mode n) = true →
  ramfs_lookup p (nm ++ rest) (zlen nm) k =
  match afind nm (a_entries n) with
  | Some q => Ok ((0, q), bump q 1 k)
  | None => Ok ((- ENOENT, 0), k)
  end.
Proof.
  intros Hk Hn Hdir. destruct (node_inode _ _ _ _ _ _ _ Hk Hn) as (u0 & Hi & Hd).
  rewrite Hdir in Hd. destruct Hd as [Hv Hd]. unfold ramfs_lookup.
  mstep by (by apply get_inode_ok). cbn [i_mode i_u0 i_u1]. rewrite Hdir, Hv. cbn [negb].
  erewrite ramfs_lookup_loop_spec; [|done|by eapply dirents_length|].
  - destruct (afind nm (a_entries n)) as [q|] eqn:Hq; [|done].
    apply afind_Some in Hq. mstep by (eapply node_ref_ok; [done|by eapply vo_child]). done.
  - intros nm' q Hq. eapply node_ne0; [done|by eapply vo_child].
Qed.

(** ** Creation *)

Lemma dir_rep_agree B B' p es ds :
  (∀ d, d ∈ ds → B' !! d = B !! d) → dir_rep B p es ds → dir_rep B' p es ds.
Proof.
  revert p ds. induction es as [|[nm x] es IH]; intros p [|d ds] Hag; simpl; try done.
  intros (-> & Hd & pad & n & Hb & Hl & Hr). split_and!; [done..|].
  exists pad, n. rewrite Hag by (by left). split_and!; [done..|].
  apply IH; [|done]. intros. apply Hag. by right.
Qed.

Lemma dir_rep_ne0 B p e es ds : dir_rep B p (e :: es) ds → p ≠ 0.
Proof. destruct e, ds; simpl; [done|]. by intros (-> & ? & _). Qed.

Lemma node_rep_agree B B' p n count ds :
  B' !! p = B !! p → (∀ d, d ∈ ds → B' !! d = B !! d) →
  node_rep B p n count ds → node_rep B' p n count ds.
Proof.
  intros Hp Hag (u0 & Hb & H). exists u0. rewrite Hp. split; [done|].
  destruct (S_ISDIR (a_mode n)); [|done]. destruct H as [? H]. split; [done|].
  by eapply dir_rep_agree.
Qed.

(** Linking the entry [x] at the end of a directory that is not empty. *)
Lemma append_dirent_spec k fuel p es ds x nm pad c :
  dir_rep (k_bufs k) p es ds → es ≠ [] → (length es ≤ fuel)%nat →
  NoDup ds → x ∉ ds → x ≠ 0 →
  k_bufs k !! x = Some (BDirent (RamfsDirent (zlen nm) (nm ++ pad) c 0)) →
  zlen (nm ++ pad) = RAMFS_MAX_NAME →
  ∃ d b, d ∈ ds ∧ append_dirent fuel p x k = Ok ((), set_bufs (<[d := BDirent b]> (k_bufs k)) k) ∧
    dir_rep (<[d := BDirent b]> (k_bufs k)) p (es ++ [(nm, c)]) (ds ++ [x]).
Proof.
  revert p ds fuel. induction es as [|[n q] es IH]; intros p ds fuel Hd Hne Hf Hnd Hx Hx0 Hb Hl; [done|].
  destruct ds as [|d ds]; [done|]. destruct fuel as [|fuel]; [simpl in Hf; lia|].
  destruct Hd as (-> & Hd & pad' & nxt & Hbd & Hld & Hr).
  apply NoDup_cons in Hnd as [Hdd Hnd]. apply not_elem_of_cons in Hx as [Hxd Hx].
  cbn [append_dirent]. destruct es as [|e es].
  - destruct ds as [|]; [|done]. simpl in Hr. subst nxt.
    exists d, (RamfsDirent (zlen n) (n ++ pad') q x). split_and!; [by left| |].
    + mstep by (by apply get_dirent_ok). simpl. unfold upd_dirent.
      by mstep by (by apply get_dirent_ok).
    + simpl. rewrite lookup_insert_eq. split_and!; [done..|].
      exists pad', x. split_and!; [done..|]. exists pad, 0.
      by rewrite lookup_insert_ne.
  - destruct (IH nxt ds fuel) as (d' & b & Hd' & E & Hr'); try done; [simpl in *; lia|].
    exists d', b. assert (d' ≠ d) by (intros ->; done). split_and!; [by right| |].
    + mstep by (by apply get_dirent_ok). simpl.
      pose proof (dir_rep_ne0 _ _ _ _ _ Hr) as Hn0.
      by rewrite (proj2 (Z.eqb_neq nxt 0) Hn0).
    + simpl in Hr' |- *. split_and!; [done..|]. exists pad', nxt.
      by rewrite lookup_insert_ne.
Qed.

Lemma inode_alloc_spec k op c F :
  bufs_ok k (c :: F) →
  let k' := set_free (hd 0 F) (set_bufs (<[c := BInode (Inode op 1 0 0 0 0)]> (k_bufs k)) k) in
  inode_alloc op k = Ok (c, k') ∧ bufs_ok k' F.
Proof.
  intros Hk k'. destruct (kmalloc_buf_alloc_cons _ _ _ Hk) as [E Hk1].
  assert (c ≠ 0) as Hc by (destruct Hk as [(_ & ? & _) _ _ _]; done). split.
  - unfold inode_alloc. mstep by exact E. rewrite (proj2 (Z.eqb_neq c 0) Hc). cbn [negb].
    unfold upd_inode, get_inode.
    mstep by (mstep by (mstep by (apply get_buf_ok; [done|]; simpl; by rewrite lookup_insert_eq); done); done).
    mstep by (mstep by (mstep by (apply get_buf_ok; [done|]; simpl; by rewrite lookup_insert_eq); done); done).
    unfold k', mret, M_ret. simpl. do 2 f_equal.
    rewrite !insert_insert_eq. by destruct k.
  - eapply (bufs_ok_write _ _ c BZero (BInode (Inode op 1 0 0 0 0))) in Hk1; [|simpl; by rewrite lookup_insert_eq|done..].
    simpl in Hk1. rewrite insert_insert_eq in Hk1. unfold k'. by destruct k.
Qed.

Lemma inode_alloc_nil k op : bufs_ok k [] → inode_alloc op k = Ok (0, k).
Proof. intros Hk. unfold inode_alloc. by mstep by (by apply kmalloc_buf_alloc_nil). Qed.

(** The abstract state after the creation of [c] as [nm] in [p]. *)
Definition a_create (mode mtime p : Z) (n : anode) (nm : list Z) (c : Z) A : afs :=
  <[c := ANode mode mtime 0 []]>
    (<[p := ANode (a_mode n) (a_mtime n) (a_data n) (a_entries n ++ [(nm, c)])]> A).

(** The buffers that a tree does not use. *)
Lemma free_fresh k A D F R x :
  vfs_ok k A D F R → x ∈ F →
  A !! x = None ∧ x ≠ k_root k ∧ D !!! x = [] ∧ ∀ p, x ∉ D !!! p.
Proof.
  intros Hk Hx. destruct (free_chain_free _ _ _ _ (bo_chain _ _ (vo_bufs _ _ _ _ _ Hk)) Hx) as [m Hm].
  assert (A !! x = None) as HA.
  { apply eq_None_not_Some. intros [n Hn].
    destruct (vo_node _ _ _ _ _ Hk x n Hn) as (u0 & Hb & _). congruence. }
  split_and!; [done| | |].
  - intros ->. destruct (vo_root _ _ _ _ _ Hk) as (n & Hn & _). congruence.
  - destruct (D !!! x) eqn:E; [done|]. destruct (vo_dirs _ _ _ _ _ Hk x); congruence.
  - intros p [y Hy]%(node_dirent _ _ _ _ _ _ _ Hk). congruence.
Qed.

Lemma vfs_ok_create k A D F R k' x c p n nm mode mtime :
  vfs_ok k A D (x :: c :: F) R → A !! p = Some n →
  wf_name nm → afind nm (a_entries n) = None →
  has_bits mode S_ISVTX = false →
  bufs_ok k' F → k_root k' = k_root k →
  k_bufs k' !! c = Some (BInode (Inode IopRam 2 mode mtime 0 0)) →
  (∀ q, q ≠ c → q ≠ x → q ≠ p → q ∉ D !!! p → k_bufs k' !! q = k_bufs k !! q) →
  node_rep (k_bufs k') p (ANode (a_mode n) (a_mtime n) (a_data n) (a_entries n ++ [(nm, c)]))
    (base_refs (k_root k) p + R !!! p) (D !!! p ++ [x]) →
  vfs_ok k' (a_create mode mtime p n nm c A) (<[p := D !!! p ++ [x]]> D) F (<[c := 1]> R).
Proof.
  intros Hk Hn Hwf Hfind Hvtx Hbufs Hroot Hc Hag Hp.
  destruct (free_fresh _ _ _ _ _ x Hk) as (HAx & Hxr & HDx & HxD); [by left|].
  destruct (free_fresh _ _ _ _ _ c Hk) as (HAc & Hcr & HDc & HcD); [right; by left|].
  assert (c ≠ p) as Hcp by congruence. unfold a_create.
  assert (∀ q y, D !!! q ≠ [] → q ≠ p → y ∈ D !!! q → k_bufs k' !! y = k_bufs k !! y) as HagD.
  { intros q y Hq Hqp Hy. apply Hag.
    - intros ->. by apply (HcD q).
    - intros ->. by apply (HxD q).
    - intros ->. destruct (node_dirent _ _ _ _ _ _ _ Hk Hy) as [? ?].
      destruct (node_inode _ _ _ _ _ _ _ Hk Hn) as (? & [_ ?] & _). congruence.
    - intros Hy'. by apply Hqp, (vo_apart _ _ _ _ _ Hk q p y). }
  split.
  - done.
  - intros q m. rewrite lookup_insert_Some. intros [[<- <-]|[Hqc Hq]].
    { rewrite Hroot, lookup_total_insert_eq, lookup_total_insert_ne, HDc by done.
      exists 0. simpl. unfold base_refs. rewrite (proj2 (Z.eqb_neq c _) Hcr).
      split; [done|]. by destruct (S_ISDIR mode). }
    rewrite lookup_insert_Some in Hq. destruct Hq as [[<- <-]|[Hqp Hq]].
    { rewrite Hroot, lookup_total_insert_ne, lookup_total_insert_eq by done. exact Hp. }
    rewrite Hroot, !lookup_total_insert_ne by done.
    destruct (vo_node _ _ _ _ _ Hk q m Hq) as (u0 & Hb & Hd). exists u0. split.
    + rewrite Hag; [done|done|congruence|done|].
      intros [? ?]%(node_dirent _ _ _ _ _ _ _ Hk). congruence.
    + destruct (S_ISDIR (a_mode m)); [|done]. destruct Hd as [? Hd]. split; [done|].
      eapply dir_rep_agree; [|exact Hd]. intros d Hdd. apply (HagD q); [|done|done].
      intros E. rewrite E in Hdd. by apply elem_of_nil in Hdd.
  - intros q. destruct (decide (c = q)) as [->|]; [rewrite lookup_total_insert_eq; lia|].
    rewrite lookup_total_insert_ne by done. apply Hk.
  - rewrite Hroot. destruct (vo_root _ _ _ _ _ Hk) as (r & Hr & Hrd).
    rewrite lookup_insert_ne by done. destruct (decide (p = k_root k)) as [->|].
    + rewrite lookup_insert_eq. eexists. split; [done|]. simpl. congruence.
    + rewrite lookup_insert_ne by done. eauto.
  - rewrite Hroot. intros q m nm' y. rewrite !lookup_insert_is_Some'.
    rewrite lookup_insert_Some. intros [[<- <-]|[Hqc Hq]] Hy; [by apply elem_of_nil in Hy|].
    rewrite lookup_insert_Some in Hq. destruct Hq as [[<- <-]|[Hqp Hq]].
    + simpl in Hy. apply elem_of_app in Hy as [Hy|Hy].
      * destruct (vo_child _ _ _ _ _ Hk p n nm' y Hn Hy) as (? & ? & ?). naive_solver.
      * apply list_elem_of_singleton in Hy as [= -> ->]. naive_solver.
    + destruct (vo_child _ _ _ _ _ Hk q m nm' y Hq Hy) as (? & ? & ?). naive_solver.
  - intros q m. rewrite lookup_insert_Some. intros [[<- <-]|[Hqc Hq]]; [constructor|].
    rewrite lookup_insert_Some in Hq. destruct Hq as [[<- <-]|[Hqp Hq]]; [|by eapply vo_names].
    simpl. rewrite fmap_app. apply NoDup_app. split_and!.
    + by eapply vo_names.
    + simpl. intros y Hy ->%list_elem_of_singleton. by apply afind_None in Hfind.
    + apply NoDup_singleton.
  - intros q1 q2 d. destruct (decide (p = q1)) as [<-|], (decide (p = q2)) as [<-|];
      rewrite ?lookup_total_insert_eq, ?lookup_total_insert_ne by done; [done|..|apply Hk];
      rewrite elem_of_app, list_elem_of_singleton.
    + intros [?| ->] ?; [by eapply Hk|]. by destruct (HxD q2).
    + intros ? [?| ->]; [by eapply Hk|]. by destruct (HxD q1).
  - intros q. destruct (decide (p = q)) as [<-|];
      rewrite ?lookup_total_insert_eq, ?lookup_total_insert_ne by done; [|apply Hk].
    apply NoDup_app. split_and!; [apply Hk| |apply NoDup_singleton].
    intros y Hy ->%list_elem_of_singleton. by apply (HxD p).
  - intros q. rewrite !lookup_insert_is_Some'. destruct (decide (p = q)) as [<-|]; [by eauto|].
    rewrite lookup_total_insert_ne by done. intros. right. right. by eapply vo_dirs.
Qed.

Definition mtime_now k : Z := s32 (Z.shiftr (s64 (k_mono k + k_real k)) 8).

(** The buffers of the new entry and the new inode, before they are linked. *)
Definition made_bufs x c nm mode mtime (B : gmap Z buffer) : gmap Z buffer :=
  <[x := BDirent (RamfsDirent (zlen nm) (nm ++ replicate (13 - length nm) 0) c 0)]>
    (<[c := BInode (Inode IopRam 1 mode mtime 0 0)]> B).
Definition made x c F nm mode k : kern :=
  set_free (hd 0 F) (set_bufs (made_bufs x c nm mode (mtime_now k) (k_bufs k)) k).

(** ramfs_mknod() up to the point where the entry is linked. *)
Lemma ramfs_mknod_make k x c F p i nm rest mode :
  bufs_ok k (x :: c :: F) → inode_at k p i → S_ISDIR (i_mode i) = true →
  0 < zlen nm ≤ RAMFS_MAX_NAME →
  ramfs_mknod p (nm ++ rest) (zlen nm) mode k =
  (i ← get_inode p;
   _ ← (if i_u0 i =? 0 then upd_inode p (with_u0 x) else append_dirent list_fuel (i_u0 i) x);
   _ ← inode_ref c;
   mret (0, c)) (made x c F nm mode k) ∧ bufs_ok (made x c F nm mode k) F.
Proof.
  intros Hk Hi Hd [Hl0 Hl]. unfold RAMFS_MAX_NAME in Hl.
  destruct (kmalloc_buf_alloc_cons _ _ _ Hk) as [E1 Hk1].
  destruct (inode_alloc_spec _ IopRam _ _ Hk1) as [E2 Hk2].
  assert (x ≠ 0 ∧ c ≠ 0 ∧ x ≠ c) as (Hx & Hc & Hxc).
  { destruct Hk as [(_ & ? & ? & _ & _ & ? & _) Hnd _ _]. apply NoDup_cons in Hnd as [? _]. set_solver. }
  set (k2 := set_free _ _) in *.
  assert (∀ i', inode_at (set_bufs (<[c := BInode i']> (k_bufs k2)) k2) c i') as Hic.
  { intros i'. split; [done|]. simpl. by rewrite lookup_insert_eq. }
  assert (k_bufs k2 !! x = Some BZero) as Hxz.
  { simpl. by rewrite lookup_insert_ne, lookup_insert_eq. }
  assert (set_bufs (<[x := BDirent (RamfsDirent (zlen nm) (nm ++ replicate (13 - length nm) 0) c 0)]>
            (<[c := BInode (Inode IopRam 1 mode (mtime_now k) 0 0)]> (k_bufs k2))) k2
          = made x c F nm mode k) as Hst.
  { unfold made, made_bufs, k2. simpl. unfold alloc_state. simpl. f_equal.
    destruct k; unfold set_bufs, set_free; simpl. f_equal. apply map_eq. intros q.
    rewrite !lookup_insert. repeat case_decide; congruence. }
  split.
  - unfold ramfs_mknod. mstep by (by apply get_inode_ok). rewrite Hd. cbn [negb].
    unfold RAMFS_MAX_NAME. rewrite (proj2 (Z.ltb_ge 13 _)) by done.
    mstep by exact E1. rewrite (proj2 (Z.eqb_neq x 0) Hx).
    mstep by exact E2. rewrite (proj2 (Z.eqb_neq c 0) Hc).
    mstep by (apply (upd_inode_ok k2 c (Inode IopRam 1 0 0 0 0)); split; [done|]; simpl; by rewrite lookup_insert_eq).
    mstep by done. mstep by (by apply upd_inode_ok).
    rewrite set_bufs_set_bufs. cbn [k_bufs set_bufs]. rewrite insert_insert_eq.
    mstep by (unfold get_dirent; mstep by (apply get_buf_ok; [done|]; simpl; rewrite lookup_insert_ne by done; exact Hxz); done).
    change (d_name dirent_zero) with (replicate 13 0).
    mstep by (unfold lift; rewrite memcpy_zeroes by (unfold zlen in Hl; lia); done).
    mstep by (unfold upd_dirent, get_dirent;
      mstep by (mstep by (apply get_buf_ok; [done|]; simpl; rewrite lookup_insert_ne by done; exact Hxz); done);
      done).
    rewrite set_bufs_set_bufs. cbn [k_bufs set_bufs d_next dirent_zero].
    rewrite u8_small by lia. exact (f_equal _ Hst).
  - assert (bufs_ok (set_bufs (<[c := BInode (Inode IopRam 1 mode (mtime_now k) 0 0)]> (k_bufs k2)) k2) F) as Hk3.
    { eapply (bufs_ok_write _ _ c (BInode (Inode IopRam 1 0 0 0 0)));
        [done|simpl; by rewrite lookup_insert_eq|done..]. }
    eapply (bufs_ok_write _ _ x BZero
              (BDirent (RamfsDirent (zlen nm) (nm ++ replicate (13 - length nm) 0) c 0))) in Hk3;
      [|simpl; rewrite lookup_insert_ne by done; exact Hxz|done..].
    rewrite set_bufs_set_bufs in Hk3. cbn [k_bufs set_bufs] in Hk3. rewrite <- Hst. exact Hk3.
Qed.

(** Linking the new entry: the entries of [p], and nothing else, change. *)
Lemma ramfs_mknod_link k A D F R x c p n nm mode :
  vfs_ok k A D (x :: c :: F) R → A !! p = Some n → S_ISDIR (a_mode n) = true →
  0 < zlen nm ≤ RAMFS_MAX_NAME → bufs_ok (made x c F nm mode k) F →
  ∃ i d b, inode_at (made x c F nm mode k) p i ∧ (d = p ∨ d ∈ D !!! p) ∧
    (∀ m, b ≠ BFree m) ∧
    (if i_u0 i =? 0 then upd_inode p (with_u0 x) else append_dirent list_fuel (i_u0 i) x)
      (made x c F nm mode k)
    = Ok ((), set_bufs (<[d := b]> (k_bufs (made x c F nm mode k))) (made x c F nm mode k)) ∧
    node_rep (<[d := b]> (k_bufs (made x c F nm mode k))) p
      (ANode (a_mode n) (a_mtime n) (a_data n) (a_entries n ++ [(nm, c)]))
      (base_refs (k_root k) p + R !!! p) (D !!! p ++ [x]).
Proof.
  intros Hk Hn Hdir Hl Hkm. set (km := made x c F nm mode k) in *.
  destruct (free_fresh _ _ _ _ _ x Hk) as (HAx & _ & _ & HxD); [by left|].
  destruct (free_fresh _ _ _ _ _ c Hk) as (HAc & _ & _ & HcD); [right; by left|].
  assert (x ≠ 0 ∧ c ≠ 0 ∧ x ≠ c) as (Hx & Hc & Hxc).
  { destruct Hk as [[(_ & ? & ? & _ & _ & ? & _) Hnd _ _] _ _ _ _ _ _ _ _].
    apply NoDup_cons in Hnd as [Hni _]. split_and!; [done..|]. intros ->. apply Hni. by left. }
  destruct (node_inode _ _ _ _ _ _ _ Hk Hn) as (u0 & [Hp0 Hi] & Hd). rewrite Hdir in Hd.
  destruct Hd as [Hv Hd]. assert (x ≠ p ∧ c ≠ p) as [Hxp Hcp] by (split; congruence).
  assert (k_bufs km !! p = k_bufs k !! p) as Hpk.
  { simpl. unfold made_bufs. by rewrite !lookup_insert_ne. }
  assert (k_bufs km !! x = Some (BDirent (RamfsDirent (zlen nm) (nm ++ replicate (13 - length nm) 0) c 0))) as Hxk.
  { simpl. unfold made_bufs. by rewrite lookup_insert_eq. }
  assert (zlen (nm ++ replicate (13 - length nm) 0) = RAMFS_MAX_NAME) as Hpad.
  { unfold RAMFS_MAX_NAME in *. len_lia. }
  rewrite Hi in Hpk. eassert (inode_at km p _) as Hik by (split; [done|exact Hpk]).
  exists (Inode IopRam (base_refs (k_root k) p + R !!! p) (a_mode n) (a_mtime n) u0 0).
  destruct (a_entries n) as [|e es] eqn:He.
  - destruct (D !!! p) as [|] eqn:HDp; [|done]. simpl in Hd. subst u0.
    exists p. eexists. split_and!; [exact Hik|by left| |simpl; by apply upd_inode_ok|]; [done|].
    exists x. rewrite lookup_insert_eq. split; [done|]. simpl. rewrite Hdir. split; [done|].
    split_and!; [done..|]. eexists _, 0. rewrite lookup_insert_ne by done.
    split_and!; [exact Hxk|exact Hpad|done].
  - destruct (append_dirent_spec km list_fuel u0 (e :: es) (D !!! p) x nm (replicate (13 - length nm) 0) c)
      as (d & b & Hdd & E & Hr); try done.
    + eapply dir_rep_agree; [|exact Hd]. intros d Hdd. simpl. unfold made_bufs.
      rewrite !lookup_insert_ne; [done|intros <-; by apply (HcD p)|intros <-; by apply (HxD p)].
    + rewrite <- He. apply Nat.lt_le_incl. by eapply dirents_length.
    + apply Hk.
    + exists d. exists (BDirent b). split_and!; [exact Hik|by right|done| |].
      * simpl. pose proof (dir_rep_ne0 _ _ _ _ _ Hd) as Hu.
        by rewrite (proj2 (Z.eqb_neq u0 0) Hu).
      * exists u0. simpl. rewrite Hdir. split; [|done]. rewrite lookup_insert_ne; [exact Hpk|].
        intros ->. destruct (node_dirent _ _ _ _ _ _ _ Hk Hdd) as [? ?]. congruence.
Qed.

(** The kernel differs from [k] in the buffer cache only. *)
Definition same_but_bufs k k' : Prop := k' = set_free (k_free k') (set_bufs (k_bufs k') k).

Lemma ramfs_mknod_ok k A D F R x c p n nm rest mode :
  vfs_ok k A D (x :: c :: F) R → A !! p = Some n → S_ISDIR (a_mode n) = true →
  wf_name nm → afind nm (a_entries n) = None → zlen nm ≤ RAMFS_MAX_NAME →
  has_bits mode S_ISVTX = false →
  ∃ k', ramfs_mknod p (nm ++ rest) (zlen nm) mode k = Ok ((0, c), k') ∧
    vfs_ok k' (a_create mode (mtime_now k) p n nm c A) (<[p := D !!! p ++ [x]]> D) F (<[c := 1]> R) ∧
    same_but_bufs k k'.
Proof.
  intros Hk Hn Hdir Hwf Hfind Hl Hvtx.
  assert (0 < zlen nm) by (destruct Hwf as (? & _); destruct nm; [done|rewrite zlen_cons; pose proof (zlen_nonneg nm); lia]).
  destruct (node_inode _ _ _ _ _ _ _ Hk Hn) as (u0 & Hi & _).
  destruct (ramfs_mknod_make k x c F p _ nm rest mode (vo_bufs _ _ _ _ _ Hk) Hi Hdir) as [-> Hkm]; [done|].
  destruct (ramfs_mknod_link k A D F R x c p n nm mode Hk Hn Hdir) as (i & d & b & Hik & Hd & Hbf & E & Hrep); [done..|].
  set (km := made x c F nm mode k) in *.
  destruct (free_fresh _ _ _ _ _ c Hk) as (HAc & _ & _ & HcD); [right; by left|].
  assert (c ≠ 0) as Hc0. { destruct Hk as [[(_ & _ & ? & _ & _ & ? & _) _ _ _] _ _ _ _ _ _ _ _]. done. }
  assert (x ≠ c) as Hxc.
  { pose proof (bo_nodup _ _ (vo_bufs _ _ _ _ _ Hk)) as [Hni _]%NoDup_cons.
    intros ->. apply Hni. by left. }
  assert (d ≠ c) as Hdc. { destruct Hd as [->|Hd]; [congruence|]. intros ->. by apply (HcD p). }
  assert (k_bufs km !! c = Some (BInode (Inode IopRam 1 mode (mtime_now k) 0 0))) as Hck.
  { simpl. unfold made_bufs. by rewrite lookup_insert_ne, lookup_insert_eq. }
  set (k4 := set_bufs (<[d := b]> (k_bufs km)) km) in *.
  assert (inode_at k4 c (Inode IopRam 1 mode (mtime_now k) 0 0)) as Hc4.
  { split; [done|]. simpl. by rewrite lookup_insert_ne. }
  mstep by (by apply get_inode_ok). mstep by exact E.
  mstep by (eapply inode_ref_ok; [exact Hc4|simpl; lia]). eexists. split; [done|].
  split; [|by destruct k]. destruct Hik as [_ Hik].
  assert (∃ b0, k_bufs km !! d = Some b0 ∧ ∀ m, b0 ≠ BFree m) as (b0 & Hb0 & Hb0f).
  { destruct Hd as [->|Hd]; [by eauto|]. destruct (node_dirent _ _ _ _ _ _ _ Hk Hd) as [y Hy].
    simpl. unfold made_bufs. destruct (decide (d = x)) as [->|]; [rewrite lookup_insert_eq; eauto|].
    rewrite !lookup_insert_ne by done. eauto. }
  assert (bufs_ok k4 F) as Hk4 by (by eapply bufs_ok_write).
  eapply (vfs_ok_create k A D F R _ x c p n nm mode (mtime_now k)); try done.
  - by apply bufs_ok_bump.
  - simpl. rewrite lookup_alter_eq. destruct Hc4 as [_ Hc4]. simpl in Hc4. by rewrite Hc4.
  - intros q Hqc Hqx Hqp HqD. simpl. rewrite lookup_alter_ne by done.
    rewrite lookup_insert_ne by (intros <-; by destruct Hd). unfold made_bufs.
    by rewrite !lookup_insert_ne.
  - eapply node_rep_agree; [| |exact Hrep]; simpl.
    + rewrite lookup_alter_ne; [done|]. congruence.
    + intros y [Hy|Hy%list_elem_of_singleton]%elem_of_app; rewrite lookup_alter_ne; try done;
        [intros <-; by apply (HcD p)|congruence].
Qed.

(** ** Walking a path *)

Definition refs_slack R : Prop := ∀ p, R !!! p < 31990.

Lemma bump_comm p q δ1 δ2 k : bump p δ1 (bump q δ2 k) = bump q δ2 (bump p δ1 k).
Proof.
  destruct (decide (p = q)) as [->|]; [by rewrite !bump_bump, Z.add_comm|].
  unfold bump. simpl. rewrite !set_bufs_set_bufs. by rewrite alter_alter_ne.
Qed.

Lemma vfs_ok_ref k A D F R p :
  vfs_ok k A D F R → refs_slack R → vfs_ok (bump p 1 k) A D F (add_ref p 1 R).
Proof. intros Hk Hs. apply vfs_ok_bump; [done|]. pose proof (Hs p). pose proof (vo_refs _ _ _ _ _ Hk p). lia. Qed.

Lemma drop_return_ok k A D F R p e :
  vfs_ok k A D F R → is_Some (A !! p) → drop_return p e (bump p 1 k) = Ok ((e, 0), k).
Proof. intros Hk Hp. unfold drop_return. by mstep by (by eapply node_deref_ok). Qed.

Lemma lookup_finish_spec k A D F R want oflag mode p :
  vfs_ok k A D F R → is_Some (A !! p) →
  lookup_finish want oflag mode p (bump p 1 k) =
  match a_finish A oflag mode p with
  | WFound q => Ok ((0, if want then q else 0), if want : bool then bump q 1 k else k)
  | WErr e => Ok ((e, 0), k)
  | WCreate _ _ => Err FFuel
  end.
Proof.
  intros Hk [n Hn]. destruct (get_node_bumped _ _ _ _ _ p n p 1 Hk Hn) as (i & Ei & Hm & _).
  unfold lookup_finish, a_finish. mstep by exact Ei. rewrite Hn, inode_access_spec, Hm.
  destruct (a_access _ _); simpl; [|by eapply drop_return_ok].
  destruct (_ =? 0); simpl.
  - destruct (has_bits oflag O_CREAT && _); [by eapply drop_return_ok|].
    destruct want; [done|]. by mstep by (by eapply node_deref_ok).
  - destruct (S_ISDIR mode); [by eapply drop_return_ok|].
    destruct (S_ISDIR (a_mode n)); by eapply drop_return_ok.
Qed.

Lemma op_lookup_ram k A D F R p n nm rest :
  vfs_ok k A D F R → A !! p = Some n → S_ISDIR (a_mode n) = true →
  op_lookup p (nm ++ rest) (zlen nm) k =
  match afind nm (a_entries n) with
  | Some q => Ok ((0, q), bump q 1 k)
  | None => Ok ((- ENOENT, 0), k)
  end.
Proof.
  intros Hk Hn Hd. destruct (node_inode _ _ _ _ _ _ _ Hk Hn) as (u0 & Hi & _).
  unfold op_lookup. mstep by (by apply get_inode_ok). by eapply ramfs_lookup_spec.
Qed.

(** The component at the position, and what follows it. *)
Lemma path_component pre c cs junk :
  wf_path (c :: cs) → zlen c < CONFIG_PATH_MAX →
  let path := pre ++ path_tail (c :: cs) ++ NUL :: junk in
  drop (length pre) path = c ++ join cs ++ NUL :: junk ∧
  rd path (zlen pre) = Ok (hd 0 c) ∧ hd 0 c ≠ NUL ∧
  strlen_path_component (c ++ join cs ++ NUL :: junk) CONFIG_PATH_MAX = Ok (zlen c) ∧
  rd (c ++ join cs ++ NUL :: junk) (zlen c) = Ok (if decide (cs = []) then NUL else CH_SLASH).
Proof.
  intros [Hc Hcs]%Forall_cons Hl path. destruct Hc as (Hne & Hnn & Hns & _).
  unfold path. simpl. rewrite <- app_assoc. split_and!.
  - apply drop_app_length.
  - destruct c as [|x c]; [done|]. simpl. by rewrite rd_app_at.
  - destruct c as [|x c]; [done|]. simpl. by inversion Hnn.
  - destruct cs as [|d cs]; simpl; apply strlen_path_component_spec;
      auto; unfold CONFIG_PATH_MAX in *; lia.
  - destruct cs as [|d cs]; simpl; by rewrite rd_app_at.
Qed.

Lemma join_cons c cs : join (c :: cs) = CH_SLASH :: c ++ join cs.
Proof. done. Qed.

Lemma lookup_loop_spec k A D F R want oflag mode cs fuel p pre junk :
  vfs_ok k A D F R → refs_slack R → is_Some (A !! p) → wf_path cs →
  zlen pre + zlen (path_tail cs) < CONFIG_PATH_MAX → (length cs < fuel)%nat →
  let path := pre ++ path_tail cs ++ NUL :: junk in
  let run := lookup_loop fuel want path (zlen pre) oflag mode p (bump p 1 k) in
  match a_walk A oflag mode p cs with
  | WErr e => run = Ok ((e, 0), k)
  | WFound q => run = Ok ((0, if want then q else 0), if want : bool then bump q 1 k else k)
  | WCreate d nm => run = lookup_create want mode d (nm ++ NUL :: junk) (zlen nm) (bump d 1 k) ∧
      ∃ n, A !! d = Some n ∧ S_ISDIR (a_mode n) = true ∧ a_access (a_mode n) W_OK = true ∧
           afind nm (a_entries n) = None ∧ wf_name nm
  end.
Proof.
  intros Hk Hs. revert fuel p pre.
  induction cs as [|c cs IH]; intros fuel p pre [n Hn] Hwf Hl Hf path run;
    (destruct fuel as [|fuel]; [simpl in Hf; lia|]).
  { assert (run = lookup_finish want oflag mode p (bump p 1 k)) as ->.
    { unfold run. cbn [lookup_loop]. unfold path. simpl.
      by mstep by (unfold lift; rewrite rd_app_at; reflexivity). }
    rewrite (lookup_finish_spec k A D F R) by eauto. simpl. unfold a_finish. rewrite Hn.
    repeat case_match; done. }
  pose proof (vfs_ok_ref _ _ _ _ _ p Hk Hs) as Hk1.
  destruct (get_node_bumped _ _ _ _ _ p n p 1 Hk Hn) as (i & Ei & Hm & _).
  simpl in Hl. rewrite zlen_app in Hl. pose proof (zlen_nonneg pre). pose proof (zlen_nonneg (join cs)).
  destruct (path_component pre c cs junk Hwf) as (Hdrop & Hrd & Hh & Hsl & Hend); [lia|]. fold path in Hdrop, Hrd.
  apply Forall_cons in Hwf as [Hwc Hwf].
  unfold run. cbn [lookup_loop]. mstep by (unfold lift; rewrite Hrd; reflexivity).
  rewrite (proj2 (Z.eqb_neq (hd 0 c) NUL) Hh). mstep by exact Ei. rewrite Hm, inode_access_spec, Hm.
  cbn [a_walk]. rewrite Hn. destruct (S_ISDIR (a_mode n)) eqn:Hdir; cbn [negb]; last first.
  { eapply drop_return_ok; eauto. }
  destruct (a_access (a_mode n) X_OK); cbn [negb]; last first.
  { eapply drop_return_ok; eauto. }
  replace (Z.to_nat (zlen pre)) with (length pre) by (unfold zlen; lia). rewrite Hdrop.
  change (0 <? 0) with false. cbv iota. mstep by (unfold lift; rewrite Hsl; reflexivity).
  mstep by (unfold lift; rewrite Hend; reflexivity).
  pose proof (op_lookup_ram _ _ _ _ _ p n c (join cs ++ NUL :: junk) Hk1 Hn Hdir) as Hop.
  assert ((if decide (cs = []) then NUL else CH_SLASH) =? NUL = bool_decide (cs = [])) as -> by by destruct cs.
  destruct (afind c (a_entries n)) as [q|] eqn:Hq.
  - mstep by exact Hop. cbv beta iota. apply afind_Some in Hq.
    destruct (vo_child _ _ _ _ _ Hk p n c q Hn Hq) as ([m Hm'] & _ & _).
    change (0 =? - ENOENT) with false. change (0 <? 0) with false. cbn [andb].
    pose proof (vfs_ok_ref _ _ _ _ _ q Hk Hs) as Hk2.
    rewrite bump_comm. mstep by (eapply node_deref_ok; [exact Hk2|eauto]).
    destruct (get_node_bumped _ _ _ _ _ q m q 1 Hk Hm') as (j & Ej & Hmj & _).
    mstep by exact Ej. rewrite Hmj, Hm'. simpl.
    destruct (S_ISLNK (a_mode m)); [eapply drop_return_ok; eauto|].
    destruct cs as [|d cs].
    + rewrite bool_decide_true by done. rewrite (lookup_finish_spec k A D F R) by eauto.
      cbn [a_walk]. unfold a_finish. rewrite Hm'. repeat case_match; done.
    + rewrite bool_decide_false by done.
      assert (path = (pre ++ c ++ [CH_SLASH]) ++ path_tail (d :: cs) ++ NUL :: junk) as Hpath.
      { unfold path. cbn [path_tail]. rewrite join_cons, <- !app_assoc. simpl. by rewrite <- !app_assoc. }
      assert (u16 (zlen pre + zlen c + 1) = zlen (pre ++ c ++ [CH_SLASH])) as Hposn.
      { rewrite !zlen_app. change (zlen [CH_SLASH]) with 1. pose proof (zlen_nonneg c).
        rewrite u16_small; unfold CONFIG_PATH_MAX in *; lia. }
      rewrite Hposn, Hpath. apply IH; [eauto|done| |simpl in *; lia].
      rewrite join_cons, zlen_cons in Hl. cbn [path_tail]. rewrite !zlen_app in *.
      change (zlen [CH_SLASH]) with 1. lia.
  - mstep by exact Hop. cbv beta iota. change (- ENOENT =? - ENOENT) with true. change (- ENOENT <? 0) with true.
    destruct cs as [|d cs]; [rewrite !bool_decide_true by done|rewrite !bool_decide_false by done].
    + destruct (has_bits oflag O_CREAT); cbn [andb]; [|eapply drop_return_ok; eauto].
      destruct (a_access (a_mode n) W_OK) eqn:Hacc; [split; [done|eauto 10]|].
      unfold lookup_create. mstep by exact Ei. rewrite inode_access_spec, Hm, Hacc.
      eapply drop_return_ok; eauto.
    + cbn [andb]. eapply drop_return_ok; eauto.
Qed.

Lemma vfs_ok_refs_ext k A D F R R' :
  (∀ p, R' !!! p = R !!! p) → vfs_ok k A D F R → vfs_ok k A D F R'.
Proof.
  intros E Hk. split; try apply Hk.
  - intros p n Hn. rewrite E. by apply Hk.
  - intros p. rewrite E. apply Hk.
Qed.

(** Dropping a reference that is counted in [R]. *)
Lemma node_drop_ok k A D F R p :
  vfs_ok k A D F R → is_Some (A !! p) → 1 ≤ R !!! p →
  inode_deref p k = Ok (0, bump p (-1) k) ∧ vfs_ok (bump p (-1) k) A D F (add_ref p (-1) R).
Proof.
  intros Hk [n Hn] Hr. destruct (node_inode _ _ _ _ _ _ _ Hk Hn) as (u0 & Hi & _).
  pose proof (vo_refs _ _ _ _ _ Hk p). split.
  - eapply inode_deref_ok; [done|]. simpl. unfold base_refs. case_match; lia.
  - apply vfs_ok_bump; [done|lia].
Qed.

(** The failures of ramfs_mknod() change nothing. *)
Lemma ramfs_mknod_fail k A D F R p n nm rest mode :
  vfs_ok k A D F R → A !! p = Some n → S_ISDIR (a_mode n) = true →
  (RAMFS_MAX_NAME < zlen nm →
   ramfs_mknod p (nm ++ rest) (zlen nm) mode k = Ok ((- ENAMETOOLONG, 0), k)) ∧
  (zlen nm ≤ RAMFS_MAX_NAME → (length F < 2)%nat →
   ramfs_mknod p (nm ++ rest) (zlen nm) mode k = Ok ((- ENOMEM, 0), k)).
Proof.
  intros Hk Hn Hdir. destruct (node_inode _ _ _ _ _ _ _ Hk Hn) as (u0 & Hi & _).
  unfold ramfs_mknod. split; intros Hl; (mstep by (by apply get_inode_ok)); cbn [i_mode];
    rewrite Hdir; cbn [negb].
  - by rewrite (proj2 (Z.ltb_lt _ _) Hl).
  - intros HF. rewrite (proj2 (Z.ltb_ge _ _) Hl). destruct Hk as [Hb _ _ _ _ _ _ _ _].
    destruct F as [|x [|y F]]; [..|simpl in HF; lia].
    + by mstep by (by apply kmalloc_buf_alloc_nil).
    + destruct (kmalloc_buf_alloc_cons _ _ _ Hb) as [E Hb1]. mstep by exact E.
      assert (x ≠ 0) as Hx by (destruct Hb as [(_ & ? & _) _ _ _]; done).
      rewrite (proj2 (Z.eqb_neq x 0) Hx). mstep by (by apply inode_alloc_nil).
      change (0 =? 0) with true. cbv iota.
      destruct (kmalloc_buf_free_spec _ _ x BZero Hb1) as [Ef _]; [simpl; by rewrite lookup_insert_eq|done|].
      mstep by exact Ef. by rewrite free_alloc_state.
Qed.

(** The state after the creation of the last component of a path; [want] says
    whether the caller receives a reference to the new inode. *)
Definition created k A D F R (mode p : Z) (n : anode) nm (want : bool) (x c : Z) k' : Prop :=
  vfs_ok k' (a_create mode (mtime_now k) p n nm c A) (<[p := D !!! p ++ [x]]> D) F
    (<[c := if want then 1 else 0]> R) ∧ same_but_bufs k k'.

Lemma same_but_bufs_bump k k' p δ : same_but_bufs k k' → same_but_bufs k (bump p δ k').
Proof. unfold same_but_bufs. intros ->. by destruct k. Qed.

Lemma same_but_bufs_trans k k' k'' :
  same_but_bufs k k' → same_but_bufs k' k'' → same_but_bufs k k''.
Proof. unfold same_but_bufs. intros -> ->. by destruct k. Qed.

Lemma lookup_create_ok k A D F R want mode p n nm rest x c :
  vfs_ok k A D (x :: c :: F) R → refs_slack R → A !! p = Some n → S_ISDIR (a_mode n) = true →
  a_access (a_mode n) W_OK = true → afind nm (a_entries n) = None → wf_name nm →
  has_bits mode S_ISVTX = false → zlen nm ≤ RAMFS_MAX_NAME →
  ∃ k', lookup_create want mode p (nm ++ rest) (zlen nm) (bump p 1 k)
        = Ok ((1, if want then c else 0), k') ∧ created k A D F R mode p n nm want x c k'.
Proof.
  intros Hk Hs Hn Hdir Hacc Hfind Hwf Hvtx Hl.
  pose proof (vfs_ok_ref _ _ _ _ _ p Hk Hs) as Hk1.
  destruct (free_fresh _ _ _ _ _ c Hk) as (HAc & Hcr & _ & _); [right; by left|].
  assert (c ≠ p) as Hcp by congruence.
  destruct (get_node_bumped _ _ _ _ _ p n p 1 Hk Hn) as (i & Ei & Hm & Hop).
  unfold lookup_create. mstep by exact Ei. rewrite inode_access_spec, Hm, Hacc.
  change (0 <? 0) with false. cbv iota.
  mstep by (unfold op_mknod; mstep by exact Ei; rewrite Hop; reflexivity).
  destruct (ramfs_mknod_ok _ _ _ _ _ x c p n nm rest mode Hk1 Hn Hdir) as (k2 & E2 & Hk2 & Hf2); [done..|].
  mstep by exact E2. cbv beta iota.
  destruct (node_drop_ok _ _ _ _ _ p Hk2) as [E3 Hk3].
  { unfold a_create. rewrite lookup_insert_ne, lookup_insert_eq by done. eauto. }
  { unfold add_ref. rewrite lookup_total_insert_ne, lookup_total_insert_eq by done.
    pose proof (vo_refs _ _ _ _ _ Hk p). lia. }
  mstep by exact E3. change (0 <? 0) with false. cbv iota.
  assert (same_but_bufs k (bump p (-1) k2)) as Hsame.
  { apply same_but_bufs_bump. eapply same_but_bufs_trans, Hf2. by destruct k. }
  assert (∀ q, <[c := 1]> R !!! q = add_ref p (-1) (<[c := 1]> (add_ref p 1 R)) !!! q) as HR.
  { intros q. unfold add_ref. rewrite (lookup_total_insert_ne _ c p) by done.
    rewrite lookup_total_insert_eq. destruct (decide (c = q)) as [->|].
    - rewrite lookup_total_insert_eq, lookup_total_insert_ne by done. by rewrite lookup_total_insert_eq.
    - rewrite lookup_total_insert_ne by done. destruct (decide (p = q)) as [->|].
      + rewrite lookup_total_insert_eq. lia.
      + by rewrite !lookup_total_insert_ne. }
  apply (vfs_ok_refs_ext _ _ _ _ _ _ HR) in Hk3. destruct want.
  { eexists. split; [done|]. split; [exact Hk3|done]. }
  destruct (node_drop_ok _ _ _ _ _ c Hk3) as [E4 Hk4].
  { unfold a_create. rewrite lookup_insert_eq. eauto. }
  { by rewrite lookup_total_insert_eq. }
  mstep by exact E4. eexists. split; [done|]. split; [|by apply same_but_bufs_bump].
  eapply vfs_ok_refs_ext, Hk4. intros q. unfold add_ref. rewrite insert_insert_eq.
  rewrite lookup_total_insert_eq. done.
Qed.

Lemma lookup_create_fail k A D F R want mode p n nm rest e :
  vfs_ok k A D F R → refs_slack R → A !! p = Some n → S_ISDIR (a_mode n) = true →
  a_access (a_mode n) W_OK = true →
  e = (if RAMFS_MAX_NAME <? zlen nm then - ENAMETOOLONG else - ENOMEM) →
  RAMFS_MAX_NAME < zlen nm ∨ (length F < 2)%nat →
  lookup_create want mode p (nm ++ rest) (zlen nm) (bump p 1 k) = Ok ((e, 0), k).
Proof.
  intros Hk Hs Hn Hdir Hacc -> Hfail. pose proof (vfs_ok_ref _ _ _ _ _ p Hk Hs) as Hk1.
  destruct (get_node_bumped _ _ _ _ _ p n p 1 Hk Hn) as (i & Ei & Hm & Hop).
  unfold lookup_create. mstep by exact Ei. rewrite inode_access_spec, Hm, Hacc.
  change (0 <? 0) with false. cbv iota.
  mstep by (unfold op_mknod; mstep by exact Ei; rewrite Hop; reflexivity).
  destruct (ramfs_mknod_fail _ _ _ _ _ p n nm rest mode Hk1 Hn Hdir) as [H1 H2].
  destruct (Z.ltb_spec RAMFS_MAX_NAME (zlen nm)).
  - mstep by by apply H1. cbv beta iota. by mstep by (eapply node_deref_ok; eauto).
  - mstep by (apply H2; naive_solver lia). cbv beta iota. by mstep by (eapply node_deref_ok; eauto).
Qed.
End Vfs.
