(* ===== verification/Symlink.v ===== *)
(** Symbolic links (CONFIG_SYMLINK, off by default): reading one in the RAM file
    system (ramfs_readlink of os/fs/ram/ramfs.c), and making its contents an absolute
    path (inode_symlink_to_abs of os/inode.c). *)
From S2P Require Import Prelude CDefs Util PathRes Kern BufCache Inode Vfs.

(** ** os/fs/ram/ramfs.c *)

Definition RAMFS_MAX_DATA : Z := 16.

Section Code.
Context {SD : sdcard}.

(** The result is the number of bytes, and the caller's buffer. *)
Fixpoint readlink_loop (fuel : nat) (buf : list Z) (size result data : Z) : M kern (Z * list Z) :=
  match fuel with
  | O => fail FFuel
  | S fuel =>
      if (result <? size) && negb (data =? 0) then
        let len := size - result in
        d ← get_data data;
        if RAMFS_MAX_DATA <=? len then
          buf ← lift (memcpy buf result (r_data d) RAMFS_MAX_DATA);
          readlink_loop fuel buf size (result + RAMFS_MAX_DATA) (r_next d)
        else
          buf ← lift (memcpy buf result (r_data d) len);
          mret (result + len, buf)
      else mret (result, buf)
  end.

Definition ramfs_readlink (p : Z) (buf : option (list Z)) (size : Z) : M kern (Z * list Z) :=
  match buf with
  | None => mret (- EFAULT, [])
  | Some buf =>
      if size =? 0 then mret (- EINVAL, buf)
      else
        i ← get_inode p;
        if negb (S_ISLNK (i_mode i)) then mret (- EINVAL, buf)
        else
          let size := if i_u1 i <? size then i_u1 i else size in
          '(result, buf) ← readlink_loop (S (Z.to_nat size)) buf size 0 (i_u0 i);
          mret (s16 result, buf)
  end.
End Code.

(** ** os/inode.c *)

Definition inode_symlink_to_abs (cwd out : list Z) (outlen : Z) (pathname : option (list Z)) : res (Z * list Z) :=
  match pathname with
  | None => Ok (- EFAULT, out)
  | Some pathname =>
      c0 ← rd pathname 0;
      if c0 =? CH_SLASH then inode_path_to_abs cwd out outlen (Some pathname)
      else if c0 =? NUL then Ok (- EINVAL, out)
      else
        toolong ← str_is_too_long pathname (CONFIG_PATH_MAX - 1);
        if (toolong : bool) then Ok (- ENAMETOOLONG, out)
        else
          posn ← strlen_constrained (Some out) outlen;
          posn ← (if posn >? 1 then
                    p ← strip_component (Z.to_nat posn) out;
                    let posn := Z.of_nat p in
                    if posn >? 1 then Ok (posn - 1) else Ok posn
                  else Ok posn);
          inode_resolve_relative out outlen posn pathname
  end.

(** ** The contents of a link *)

Section Readlink.
Context {SD : sdcard}.

(** The data of the inode, in pieces of 16 bytes. *)
Fixpoint data_chain (k : kern) (p : Z) (cs : list (list Z)) : Prop :=
  match cs with
  | [] => p = 0
  | c :: cs => p ≠ 0 ∧ length c = 16%nat ∧ ∃ next, k_bufs k !! p = Some (BData (RamfsData c next)) ∧ data_chain k next cs
  end.

Lemma get_data_ok k p d : p ≠ 0 → k_bufs k !! p = Some (BData d) → get_data p k = Ok (d, k).
Proof. intros Hp Hd. unfold get_data. by mstep by (by apply get_buf_ok). Qed.

Lemma memcpy_at (before b src : list Z) n :
  (n ≤ length src)%nat → (n ≤ length b)%nat →
  memcpy (before ++ b) (zlen before) src (Z.of_nat n) = Ok (before ++ take n src ++ drop n b).
Proof.
  intros Hs Hb. pose proof (memcpy_app_at before (take n b) (drop n b) (take n src) (drop n src)) as E.
  rewrite !take_drop in E. replace (zlen (take n src)) with (Z.of_nat n) in E by (unfold zlen; rewrite length_take; lia).
  apply E. rewrite !length_take. lia.
Qed.

Lemma readlink_loop_ok k fuel size before b p cs :
  data_chain k p cs → zlen before ≤ size ≤ zlen (before ++ b) → size - zlen before ≤ zlen (concat cs) →
  size - zlen before < Z.of_nat fuel →
  let n := Z.to_nat (size - zlen before) in
  readlink_loop fuel (before ++ b) size (zlen before) p k = Ok ((size, before ++ take n (concat cs) ++ drop n b), k).
Proof.
  intros Hch Hsz Hcs Hf. revert before b p cs Hch Hsz Hcs Hf. induction fuel as [|fuel IH]; intros before b p cs Hch Hsz Hcs Hf; [lia|].
  rewrite zlen_app in Hsz. cbn zeta. cbn [readlink_loop]. destruct (Z.ltb_spec (zlen before) size) as [Hlt|Hge]; cbn [andb].
  - destruct cs as [|c cs]; [change (zlen (concat [])) with 0 in Hcs; lia|]. destruct Hch as (Hp & Hc & next & Hd & Hch).
    rewrite (proj2 (Z.eqb_neq p 0)) by done. cbn [negb]. mstep by (by apply get_data_ok). cbn [r_data r_next concat].
    destruct (Z.leb_spec RAMFS_MAX_DATA (size - zlen before)) as [Hl|Hl]; unfold RAMFS_MAX_DATA in *.
    + mstep by (unfold lift; rewrite (memcpy_at _ _ _ 16) by (unfold zlen in *; lia); reflexivity).
      rewrite app_assoc. rewrite take_ge by lia.
      assert (zlen (before ++ c) = zlen before + 16) as Hz by (unfold zlen; rewrite length_app; lia).
      rewrite <- Hz. rewrite IH with (cs := cs); [|done|..].
      * rewrite Hz, drop_drop, <- app_assoc. do 4 f_equal.
        replace (Z.to_nat (size - zlen before)) with (length c + Z.to_nat (size - (zlen before + 16)))%nat by lia.
        rewrite take_app_add, <- app_assoc. do 3 f_equal. lia.
      * unfold zlen in *. rewrite !length_app, length_drop. lia.
      * rewrite Hz. cbn [concat] in Hcs. rewrite zlen_app in Hcs. unfold zlen in *. lia.
      * lia.
    + rewrite <- (Z2Nat.id (size - zlen before)) at 1 by lia.
      mstep by (unfold lift; rewrite memcpy_at by (unfold zlen in *; lia); reflexivity).
      rewrite take_app_le by lia. unfold mret, M_ret. do 3 f_equal. lia.
  - assert (size = zlen before) as -> by lia. rewrite Z.sub_diag. cbn [Z.to_nat take drop app]. done.
Qed.

(** The contents of the link, as many bytes of them as the buffer takes. *)
Lemma ramfs_readlink_spec k p i buf size cs :
  inode_at k p i → S_ISLNK (i_mode i) = true → data_chain k (i_u0 i) cs → 0 ≤ i_u1 i ≤ zlen (concat cs) →
  0 < size ≤ zlen buf → zlen buf < 32768 →
  let n := Z.to_nat (Z.min size (i_u1 i)) in
  ramfs_readlink p (Some buf) size k = Ok ((Z.of_nat n, take n (concat cs) ++ drop n buf), k).
Proof.
  intros Hi Hm Hch Hu Hs Hb n. unfold ramfs_readlink. rewrite (proj2 (Z.eqb_neq size 0)) by lia.
  mstep by (by apply get_inode_ok). rewrite Hm. cbn [negb].
  assert ((if i_u1 i <? size then i_u1 i else size) = Z.min size (i_u1 i)) as -> by (destruct (Z.ltb_spec (i_u1 i) size); lia).
  pose proof (readlink_loop_ok k (S (Z.to_nat (Z.min size (i_u1 i)))) (Z.min size (i_u1 i)) [] buf (i_u0 i) cs Hch) as E.
  cbn [app] in E. change (zlen []) with 0 in E. rewrite Z.sub_0_r in E. mstep by (apply E; lia).
  unfold mret, M_ret. rewrite s16_small by lia. unfold n. rewrite Z2Nat.id by lia. done.
Qed.

Lemma ramfs_readlink_errors k p i buf size :
  inode_at k p i →
  ramfs_readlink p None size k = Ok ((- EFAULT, []), k) ∧
  ramfs_readlink p (Some buf) 0 k = Ok ((- EINVAL, buf), k) ∧
  (S_ISLNK (i_mode i) = false → ramfs_readlink p (Some buf) size k = Ok ((- EINVAL, buf), k)).
Proof.
  intros Hi. split; [done|]. split; [done|]. intros Hm. unfold ramfs_readlink. destruct (size =? 0); [done|].
  mstep by (by apply get_inode_ok). by rewrite Hm.
Qed.
End Readlink.

(** ** The path of a link *)

(** The base of a relative link is the directory that the link is in: ".." of its
    own path. *)
Definition symlink_spec (outlen : Z) (base : list (list Z)) (p : list Z) : option (list (list Z)) :=
  if CONFIG_PATH_MAX - 1 <=? zlen p then None
  else if decide (head p = Some CH_SLASH) then resolve_path outlen [] (components p)
  else resolve_path outlen (removelast base) (components p).

Lemma parent_position base rest :
  wf_path base →
  (if zlen (render base) >? 1 then
     p ← strip_component (Z.to_nat (zlen (render base))) (render base ++ rest);
     let posn := Z.of_nat p in
     if posn >? 1 then Ok (posn - 1) else Ok posn
   else Ok (zlen (render base))) = Ok (zlen (render (removelast base))).
Proof.
  intros Hwf. pose proof (resolve_dotdot_spec base rest Hwf) as E. revert E. unfold resolve_dotdot.
  destruct (_ >? 1); [|by intros [= -> _]]. destruct (strip_component _ _) as [p|]; [|done]. cbn [mbind res_bind].
  destruct (_ >? 1); by intros [= -> _].
Qed.

Lemma inode_symlink_to_abs_refines cwd cbase base rest out pathname p :
  cstring cwd (render cbase) → wf_path cbase → zlen (render cbase) < CONFIG_PATH_MAX →
  out = render base ++ NUL :: rest → wf_path base →
  cstring pathname p → p ≠ [] → 2 ≤ zlen out < 65535 - CONFIG_PATH_MAX →
  resolve_outcome (inode_symlink_to_abs cwd out (zlen out) (Some pathname)) (zlen out) (symlink_spec (zlen out) base p).
Proof.
  intros Hcwd Hcb Hcl Ho Hwf Hp Hne Hout. unfold inode_symlink_to_abs.
  rewrite (cstring_head _ _ Hp). destruct p as [|c p]; [done|]. simpl.
  destruct (Z.eqb_spec c CH_SLASH) as [->|Hs].
  - pose proof (path_to_abs_outcome cwd cbase out pathname (CH_SLASH :: p)) as E. unfold path_spec, symlink_spec in *.
    rewrite decide_True in * by done. by apply E.
  - pose proof Hp as [Hn [junk Ej]]. apply Forall_cons in Hn as Hc; destruct Hc as [Hc _]. rewrite (proj2 (Z.eqb_neq c NUL)) by done.
    unfold symlink_spec. rewrite (str_is_too_long_spec _ _ _ Hp) by done. cbn [mbind res_bind].
    destruct (Z.leb_spec (CONFIG_PATH_MAX - 1) (zlen (c :: p))) as [|Hl].
    { exists (- ENAMETOOLONG), out. done. }
    rewrite decide_False by (cbn; congruence).
    assert (cstring out (render base)) as Hco by (split; [by apply render_nonul|by eexists]).
    unfold CONFIG_PATH_MAX in *. rewrite (strlen_constrained_spec _ _ _ Hco) by lia.
    assert (zlen (render base) < zlen out) as Hlen by (rewrite Ho, zlen_app, zlen_cons; pose proof (zlen_nonneg rest); lia).
    rewrite Z.min_l by lia. cbn [mbind res_bind]. rewrite Ho at 1. rewrite parent_position by done. cbn [mbind res_bind].
    destruct (render_removelast base) as [x Ex]. rewrite Ej.
    assert (zlen (render (removelast base)) ≤ zlen (render base)) by (rewrite Ex, zlen_app; pose proof (zlen_nonneg x); lia).
    apply (resolve_relative_refines out (removelast base) (x ++ NUL :: rest));
      [by rewrite Ho, Ex at 1; rewrite <- app_assoc|by apply removelast_wf|done|unfold CONFIG_PATH_MAX; lia|unfold CONFIG_PATH_MAX; lia].
Qed.

(** /bin/sh -> ../usr/sh, in a buffer of 64 bytes. *)
Example symlink_in_directory :
  inode_symlink_to_abs w_cwd (chars "/bin/sh" ++ NUL :: replicate 56 0) 64 (Some (chars "../usr/sh" ++ [NUL]))
    = Ok (0, chars "/usr/sh" ++ NUL :: replicate 56 0).
Proof. vm_compute. reflexivity. Qed.
