(* ===== verification/FsCalls.v ===== *)
(** The system calls that walk paths, on the abstract inode table: lookup of a
    pathname, mkdir, mknod, chdir, getcwd and opendir. *)
From S2P Require Import Prelude CDefs Util PathRes Sched Kern BufCache Inode Fat.
From S2P Require Import Devices Ramfs Vfs File.

Section Lookup.
Context {SD : sdcard} {CC : console_config}.
Implicit Types (k : kern) (A : afs) (D : gmap Z (list Z)) (F : list Z) (R : gmap Z Z).

Lemma vfs_ok_frame k k' A D F R :
  k_bufs k' = k_bufs k → k_free k' = k_free k → k_root k' = k_root k →
  vfs_ok k A D F R → vfs_ok k' A D F R.
Proof.
  intros E1 E2 E3 []. split; rewrite ?E1, ?E3; try done. by eapply bufs_ok_frame.
Qed.

Lemma a_finish_WErr A oflag mode p e : a_finish A oflag mode p = WErr e → e < 0.
Proof. unfold a_finish. repeat case_match; intros [= <-]; done. Qed.

Lemma a_walk_WErr A oflag mode p cs e : a_walk A oflag mode p cs = WErr e → e < 0.
Proof.
  revert p. induction cs as [|c cs IH]; intros p; simpl; [apply a_finish_WErr|].
  repeat case_match; try (by intros [= <-]); eauto.
Qed.

(** What inode_lookup() returns on a resolved path. *)
Definition walk_post k A D F R (want : bool) (oflag mode : Z) (cs : list (list Z))
    (r : Z * Z) k' : Prop :=
  match a_walk A oflag mode (k_root k) cs with
  | WErr e => r = (e, 0) ∧ k' = k
  | WFound q => r = (0, if want then q else 0) ∧ k' = if want then bump q 1 k else k
  | WCreate p nm =>
      ∃ n, A !! p = Some n ∧ wf_name nm ∧ afind nm (a_entries n) = None ∧
      if RAMFS_MAX_NAME <? zlen nm then r = (- ENAMETOOLONG, 0) ∧ k' = k
      else match F with
           | x :: c :: F' =>
               r = (1, if want then c else 0) ∧ created k A D F' R mode p n nm want x c k'
           | _ => r = (- ENOMEM, 0) ∧ k' = k
           end
  end.

Lemma walk_post_error k A D F R want oflag mode cs e q k' :
  walk_post k A D F R want oflag mode cs (e, q) k' → e < 0 → q = 0 ∧ k' = k.
Proof.
  unfold walk_post. destruct (a_walk _ _ _ _ _) as [?|?|p nm]; [naive_solver lia..|].
  intros (n & _ & _ & _ & H) He. destruct (_ <? _); [naive_solver|].
  destruct F as [|x [|c F]]; naive_solver lia.
Qed.

Lemma inode_lookup_spec k A D F R want oflag mode cs junk :
  vfs_ok k A D F R → refs_slack R → wf_path cs → zlen (render cs) < CONFIG_PATH_MAX →
  has_bits mode S_ISVTX = false →
  ∃ r k', inode_lookup want (render cs ++ NUL :: junk) oflag mode k = Ok (r, k') ∧
    walk_post k A D F R want oflag mode cs r k'.
Proof.
  intros Hk Hs Hwf Hl Hvtx. unfold inode_lookup, inode_get_root, walk_post.
  destruct (vo_root _ _ _ _ _ Hk) as (rn & Hrn & _).
  mstep by (mstep by done; mstep by (eapply node_ref_ok; eauto); done).
  rewrite render_tail in *. rewrite zlen_cons in Hl.
  pose proof (lookup_loop_spec k A D F R want oflag mode cs
    (S (length ((CH_SLASH :: path_tail cs) ++ NUL :: junk))) (k_root k) [CH_SLASH] junk
    Hk Hs ltac:(eauto) Hwf) as H.
  change (zlen [CH_SLASH]) with 1 in H. cbn [app] in H |- *.
  assert (length cs ≤ length (path_tail cs))%nat as Hlen.
  { destruct cs as [|c cs]; [done|]. simpl. apply Forall_cons in Hwf as [(Hc & _) _].
    rewrite length_app. destruct c; [done|]. simpl.
    assert (length cs ≤ length (join cs))%nat; [|lia]. clear.
    induction cs as [|d cs IH]; [done|]. rewrite join_cons. simpl. rewrite length_app. lia. }
  specialize (H ltac:(lia) ltac:(simpl; rewrite ?length_app; lia)).
  destruct (a_walk A oflag mode (k_root k) cs) as [e|q|p nm].
  - rewrite H. eexists _, _. done.
  - rewrite H. eexists _, _. done.
  - destruct H as (-> & n & Hn & Hdir & Hacc & Hfind & Hwn).
    destruct (Z.ltb_spec RAMFS_MAX_NAME (zlen nm)) as [Hlong|Hshort].
    + erewrite lookup_create_fail; [|done..|by left].
      rewrite (proj2 (Z.ltb_lt _ _) Hlong). eexists _, _. split; [done|]. eexists. done.
    + destruct F as [|x [|c F]].
      1, 2: (erewrite lookup_create_fail; [|done..|right; simpl; lia];
        rewrite (proj2 (Z.ltb_ge _ _) Hshort); eexists _, _; (split; [done|]); eexists; done).
      destruct (lookup_create_ok k A D F R want mode p n nm (NUL :: junk) x c) as (k' & -> & Hc); [done..|].
      eexists _, _. split; [done|]. eexists. done.
Qed.

(** What inode_lookup_path() returns, for the absolute path [spec] that the
    pathname resolves to; only temp_path[] and the buffers change. *)
Definition lookup_post k A D F R (want : bool) (oflag mode : Z)
    (spec : option (list (list Z))) (r : Z * Z) k' : Prop :=
  ∃ temp, zlen temp = CONFIG_PATH_MAX ∧
    match spec with
    | None => r = (- ENAMETOOLONG, 0) ∧ k' = set_temp temp k
    | Some cs => cstring temp (render cs) ∧ wf_path cs ∧ ∃ r1,
        walk_post (set_temp temp k) A D F R want oflag mode cs r1 k' ∧
        r = (Z.min r1.1 0, r1.2)
    end.

(** The process has a valid working directory and the path buffer its size. *)
Definition cwd_ok k (base : list (list Z)) : Prop :=
  cstring (p_cwd (k_proc k)) (render base) ∧ wf_path base ∧
  zlen (render base) < CONFIG_PATH_MAX ∧
  zlen (p_cwd (k_proc k)) = CONFIG_PATH_MAX ∧ zlen (k_temp k) = CONFIG_PATH_MAX.

Lemma render_fits (cs : list (list Z)) (temp : list Z) junk :
  zlen temp = CONFIG_PATH_MAX → temp = render cs ++ NUL :: junk → zlen (render cs) < CONFIG_PATH_MAX.
Proof. intros Hl ->. len_lia. Qed.

Lemma inode_lookup_path_spec k A D F R base want oflag mode pathname p :
  vfs_ok k A D F R → refs_slack R → cwd_ok k base → cstring pathname p → p ≠ [] →
  has_bits mode S_ISVTX = false →
  ∃ r k', inode_lookup_path want (Some pathname) oflag mode k = Ok (r, k') ∧
    lookup_post k A D F R want oflag mode (path_spec CONFIG_PATH_MAX base p) r k'.
Proof.
  intros Hk Hs (Hcwd & Hwb & Hlb & Hlc & Htl) Hp Hne Hvtx. unfold inode_lookup_path, lookup_post.
  do 2 (mstep by done).
  destruct (path_to_abs_outcome (p_cwd (k_proc k)) base (k_temp k) pathname p) as (r & out & E & Ho & Hspec);
    [done..|rewrite Htl; unfold CONFIG_PATH_MAX; lia|]. rewrite Htl in *.
  mstep by (unfold lift; rewrite E; reflexivity). cbv beta iota. mstep by done.
  destruct (path_spec CONFIG_PATH_MAX base p) as [cs|].
  - destruct Hspec as (Hr & Hwf & junk & Hout).
    assert (r <? 0 = false) as -> by (destruct Hr as [-> | ->]; done).
    assert (vfs_ok (set_temp out k) A D F R) as Hk' by by apply (vfs_ok_frame k).
    pose proof (render_fits _ _ _ Ho Hout) as Hfit.
    destruct (inode_lookup_spec _ A D F R want oflag mode cs junk Hk' Hs Hwf Hfit Hvtx)
      as ([e q] & k' & E' & Hw).
    rewrite <- Hout in E'. mstep by exact E'. cbv beta iota.
    assert (cstring out (render cs)) as Hcs.
    { rewrite Hout. apply cstring_intro. by apply render_nonul. }
    destruct (Z.ltb_spec e 0) as [He|He]; eexists _, _; (split; [done|]); exists out;
      (split; [done|]); (split_and!; [done..|]); exists (e, q); (split; [done|]); simpl; f_equal; try lia.
    by destruct (walk_post_error _ _ _ _ _ _ _ _ _ _ _ _ Hw He) as [-> _].
  - subst r. eexists _, _. split; [done|]. by exists out.
Qed.

(** C4: looking a pathname up refines the walk of the abstract tree: the path
    is made absolute and normalised as specified, each component is looked up
    with search permission, a missing last component is created when asked
    for; the result is the inode with one new reference, or the error of the
    walk, in which case no reference is kept and no buffer is used.  The status
    is 0 on each success: that of a creation, 1, which
    include/mosnix/inode.h promises for this function too, is given by
    inode_lookup() only ([Z.min r 0] in [lookup_post]). *)
Theorem inode_lookup_path_refines k A D F R base want oflag mode pathname p :
  vfs_ok k A D F R → refs_slack R → cwd_ok k base → cstring pathname p → p ≠ [] →
  has_bits mode S_ISVTX = false →
  ∃ r k', inode_lookup_path want (Some pathname) oflag mode k = Ok (r, k') ∧
    lookup_post k A D F R want oflag mode (path_spec CONFIG_PATH_MAX base p) r k'.
Proof. apply inode_lookup_path_spec. Qed.
End Lookup.

(** ** Creation and lookup on the abstract inode table *)

Lemma afind_app nm es es' :
  afind nm (es ++ es') = match afind nm es with Some q => Some q | None => afind nm es' end.
Proof. induction es as [|[n q] es IH]; simpl; [done|]. by case_decide. Qed.

(** The entries of the directories name inodes of the table. *)
Definition closed (A : afs) : Prop :=
  ∀ p n nm q, A !! p = Some n → (nm, q) ∈ a_entries n → is_Some (A !! q).

Section Create.
Context (A : afs) (mode mtime d : Z) (nd : anode) (nm : list Z) (c : Z).
Context (HA : closed A) (Hd : A !! d = Some nd) (Hc : A !! c = None)
        (Hnm : afind nm (a_entries nd) = None).
Let A' := a_create mode mtime d nd nm c A.

Lemma create_new : A' !! c = Some (ANode mode mtime 0 []).
Proof. unfold A', a_create. by rewrite lookup_insert_eq. Qed.

(** An old inode keeps its mode and its entries. *)
Lemma create_old p n :
  A !! p = Some n →
  ∃ n', A' !! p = Some n' ∧ a_mode n' = a_mode n ∧
    ∀ x q, afind x (a_entries n) = Some q → afind x (a_entries n') = Some q.
Proof.
  intros Hp. unfold A', a_create. rewrite lookup_insert_ne by congruence.
  destruct (decide (d = p)) as [<-|].
  - rewrite lookup_insert_eq. eexists. split_and!; [done|simpl; congruence|].
    intros x q Hq. simpl. rewrite afind_app. replace nd with n by congruence. by rewrite Hq.
  - rewrite lookup_insert_ne by done. eauto.
Qed.

(** Paths that lead to an inode still do. *)
Lemma a_walk_keep oflag m p cs q :
  is_Some (A !! p) → a_walk A oflag m p cs = WFound q → a_walk A' oflag m p cs = WFound q.
Proof.
  revert p. induction cs as [|x cs IH]; intros p [n Hp]; simpl.
  - unfold a_finish. rewrite Hp. destruct (create_old p n Hp) as (n' & -> & -> & _). done.
  - rewrite Hp. destruct (create_old p n Hp) as (n' & -> & -> & Hfind).
    destruct (negb _); [done|]. destruct (negb _); [done|].
    destruct (afind x (a_entries n)) as [y|] eqn:Hy; last first.
    { destruct (_ && _); [|done]. by destruct (a_access _ _). }
    rewrite (Hfind x y Hy). apply afind_Some in Hy.
    destruct (HA _ _ _ _ Hp Hy) as [m' Hm']. rewrite Hm'.
    destruct (create_old y m' Hm') as (n'' & -> & Hmode & _). simpl. rewrite Hmode.
    destruct (S_ISLNK _); [done|]. apply IH. eauto.
Qed.

(** The path that was created leads to the new inode. *)
Lemma a_walk_new fl m fl' m' p cs :
  is_Some (A !! p) → S_ISLNK mode = false →
  a_walk A fl m p cs = WCreate d nm → a_walk A' fl' m' p cs = a_finish A' fl' m' c.
Proof.
  intros Hp Hlnk. revert p Hp. induction cs as [|x cs IH]; intros p [n Hp]; simpl.
  - unfold a_finish. rewrite Hp. repeat case_match; done.
  - rewrite Hp. destruct (create_old p n Hp) as (n' & Hn' & Hmode & Hfind). rewrite Hn', Hmode.
    destruct (negb _); [done|]. destruct (negb _); [done|].
    destruct (afind x (a_entries n)) as [y|] eqn:Hy.
    + rewrite (Hfind x y Hy). apply afind_Some in Hy.
      destruct (HA _ _ _ _ Hp Hy) as [ny Hny]. rewrite Hny.
      destruct (create_old y ny Hny) as (n'' & -> & Hmode' & _). simpl. rewrite Hmode'.
      destruct (S_ISLNK (a_mode ny)); [done|]. apply IH. eauto.
    + case_bool_decide; simpl; [|done]. destruct (has_bits fl O_CREAT); [|done].
      destruct (a_access _ _); [|done]. intros [= -> ->]. subst cs.
      assert (n' = ANode (a_mode nd) (a_mtime nd) (a_data nd) (a_entries nd ++ [(nm, c)])) as ->.
      { unfold A', a_create in Hn'. rewrite lookup_insert_ne, lookup_insert_eq in Hn' by congruence.
        congruence. }
      simpl. rewrite afind_app, Hnm. simpl. rewrite decide_True by done.
      rewrite create_new. simpl. by rewrite Hlnk.
Qed.
End Create.

Lemma vfs_closed {SD : sdcard} (k : kern) A D F R : vfs_ok k A D F R → closed A.
Proof. intros Hk p n nm q Hp Hq. by destruct (vo_child _ _ _ _ _ Hk p n nm q Hp Hq). Qed.

(** ** System calls *)

Lemma land_lor_high x m n f :
  Z.land m n = 0 → Z.land (Z.lor f (Z.land x m)) n = Z.land f n.
Proof.
  intros Hmn. rewrite Z.land_lor_distr_l, <- Z.land_assoc, Hmn, Z.land_0_r. apply Z.lor_0_r.
Qed.

Section Calls.
Context {SD : sdcard} {CC : console_config}.
Implicit Types (k : kern) (A : afs) (D : gmap Z (list Z)) (F : list Z) (R : gmap Z Z).

(** The mode that mkdir() gives to the new directory. *)
Definition mkdir_mode k (mode : Z) : Z :=
  Z.lor S_IFDIR (Z.land (Z.ldiff mode (p_umask (k_proc k))) MODE_0777).

Lemma mkdir_mode_vtx k mode : has_bits (mkdir_mode k mode) S_ISVTX = false.
Proof. unfold has_bits, mkdir_mode. by rewrite land_lor_high. Qed.
Lemma mkdir_mode_dir k mode : S_ISDIR (mkdir_mode k mode) = true.
Proof. unfold S_ISDIR, mkdir_mode. by rewrite land_lor_high. Qed.
Lemma mkdir_mode_lnk k mode : S_ISLNK (mkdir_mode k mode) = false.
Proof. unfold S_ISLNK, mkdir_mode. by rewrite land_lor_high. Qed.

Definition O_EXCREAT : Z := Z.lor O_CREAT O_EXCL.

(** With O_CREAT | O_EXCL a walk never finds an existing inode. *)
Lemma a_walk_excl A mode p cs q : a_walk A O_EXCREAT mode p cs ≠ WFound q.
Proof.
  revert p. induction cs as [|c cs IH]; intros p; simpl.
  - unfold a_finish. repeat case_match; done.
  - by repeat case_match.
Qed.

(** Only the scratch path buffer has changed. *)
Definition scratch k k' : Prop := ∃ temp, zlen temp = CONFIG_PATH_MAX ∧ k' = set_temp temp k.

(** The effect of a creation through the path [spec] on the abstract table:
    the new inode, or an error that leaves the buffer cache as it was. *)
Definition create_post k A D F R (mode data : Z) (spec : option (list (list Z))) (e : Z) k' : Prop :=
  match spec with
  | None => e = - ENAMETOOLONG ∧ scratch k k'
  | Some cs =>
      match a_walk A O_EXCREAT mode (k_root k) cs with
      | WErr e' => e = e' ∧ scratch k k'
      | WFound _ => False
      | WCreate p nm =>
          ∃ n, A !! p = Some n ∧ wf_name nm ∧ afind nm (a_entries n) = None ∧
          if RAMFS_MAX_NAME <? zlen nm then e = - ENAMETOOLONG ∧ scratch k k'
          else match F with
               | x :: c :: F' =>
                   e = 0 ∧ A !! c = None ∧
                   vfs_ok k'
                     (<[c := ANode mode (mtime_now k) data []]>
                        (a_create mode (mtime_now k) p n nm c A))
                     (<[p := D !!! p ++ [x]]> D) F' (<[c := 0]> R) ∧
                   ∃ temp, zlen temp = CONFIG_PATH_MAX ∧ same_but_bufs (set_temp temp k) k'
               | _ => e = - ENOMEM ∧ scratch k k'
               end
      end
  end.

(** Creation with [fill] between the lookup and the release of the reference:
    nothing for mkdir(), the device number for mknod(). *)
Lemma create_spec k A D F R base pathname p mode data (fill : Z → M kern ()) :
  vfs_ok k A D F R → refs_slack R → cwd_ok k base → cstring pathname p → p ≠ [] →
  has_bits mode S_ISVTX = false →
  (∀ k1 A1 D1 F1 R1 c mt, vfs_ok k1 A1 D1 F1 R1 → A1 !! c = Some (ANode mode mt 0 []) →
     ∃ k2, fill c k1 = Ok ((), k2) ∧ same_but_bufs k1 k2 ∧
       vfs_ok k2 (<[c := ANode mode mt data []]> A1) D1 F1 R1) →
  ∃ e k',
    ('(error, inode) ← inode_lookup_path true (Some pathname) O_EXCREAT mode;
     _ ← (if 0 <=? error then _ ← fill inode; _ ← inode_deref inode; mret () else mret ());
     mret error) k = Ok (e, k') ∧
    create_post k A D F R mode data (path_spec CONFIG_PATH_MAX base p) e k'.
Proof.
  intros Hk Hs Hcwd Hp Hne Hvtx Hfill.
  destruct (inode_lookup_path_spec k A D F R base true O_EXCREAT mode pathname p Hk Hs Hcwd Hp Hne Hvtx)
    as ([e q] & k1 & E & temp & Ht & Hpost).
  assert (scratch k (set_temp temp k)) as Hscr by by exists temp.
  assert (∀ e', e = e' → e' < 0 → q = 0 → ∃ k', (_ ← (if 0 <=? e then _ ← fill q; _ ← inode_deref q; mret () else mret ());
     mret e) k1 = Ok (e', k') ∧ k' = k1) as Herr.
  { intros e' -> He _. rewrite (proj2 (Z.leb_gt 0 e')) by done. eauto. }
  erewrite bind_ok by exact E. cbv beta iota. unfold create_post.
  destruct (path_spec _ _ _) as [cs|]; last first.
  { destruct Hpost as [[= -> ->] ->]. destruct (Herr (- ENAMETOOLONG)) as (k' & E' & ->); [done..|].
    eexists _, _. split; [exact E'|]. eauto. }
  destruct Hpost as (_ & _ & [e1 q1] & Hw & [= Ee ->]). unfold walk_post in Hw.
  change (k_root (set_temp temp k)) with (k_root k) in Hw.
  destruct (a_walk A O_EXCREAT mode (k_root k) cs) as [e'|q|d nm] eqn:Hwalk.
  - destruct Hw as [[= -> ->] ->]. apply a_walk_WErr in Hwalk. simpl in Ee.
    destruct (Herr e') as (k' & E' & ->); [lia..|done|]. eexists _, _. split; [exact E'|]. eauto.
  - by apply a_walk_excl in Hwalk.
  - destruct Hw as (n & Hn & Hwf & Hfind & Hw). destruct (_ <? zlen nm) eqn:Hlong.
    { destruct Hw as [[= -> ->] ->]. destruct (Herr (- ENAMETOOLONG)) as (k' & E' & ->); [done..|].
      eexists _, _. split; [exact E'|]. exists n. eauto 10. }
    destruct F as [|x [|c F]].
    1, 2: destruct Hw as [[= -> ->] ->]; destruct (Herr (- ENOMEM)) as (k' & E' & ->); [done..|];
      eexists _, _; (split; [exact E'|]); exists n; eauto 10.
    destruct Hw as ([= -> ->] & Hvk & Hsame). simpl in Ee. subst e.
    destruct (Hfill _ _ _ _ _ c (mtime_now k) Hvk) as (k2 & E2 & Hsame2 & Hk2).
    { unfold a_create. by rewrite lookup_insert_eq. }
    destruct (node_drop_ok _ _ _ _ _ c Hk2) as [E3 Hk3].
    { rewrite lookup_insert_eq. eauto. }
    { by rewrite lookup_total_insert_eq. }
    change (1 `min` 0) with 0. change (0 <=? 0) with true. cbv iota.
    exists 0, (bump c (-1) k2). split.
    { mstep by (mstep by (exact E2); mstep by (exact E3); reflexivity). done. }
    exists n. split_and!; try done.
    { by destruct (free_fresh _ _ _ _ _ c Hk) as (? & _); [right; left|]. }
    + eapply vfs_ok_refs_ext, Hk3. intros y. unfold add_ref.
      by rewrite insert_insert_eq, lookup_total_insert_eq.
    + exists temp. split; [done|]. apply same_but_bufs_bump. by eapply same_but_bufs_trans.
Qed.

(** Setting the device number of an inode that is not a directory. *)
Lemma vfs_ok_set_data k A D F R c n data :
  vfs_ok k A D F R → A !! c = Some n → S_ISDIR (a_mode n) = false →
  ∃ k', upd_inode c (with_u0 data) k = Ok ((), k') ∧ same_but_bufs k k' ∧
    vfs_ok k' (<[c := ANode (a_mode n) (a_mtime n) data []]> A) D F R.
Proof.
  intros Hk Hn Hdir. destruct (node_inode _ _ _ _ _ _ _ Hk Hn) as (u0 & Hi & Hd).
  rewrite Hdir in Hd. destruct Hd as (_ & Hes & HDc).
  eexists. split; [by apply upd_inode_ok|]. split; [by destruct k|].
  assert (∀ q, c ∉ D !!! q) as Hcd.
  { intros q [? ?]%(node_dirent _ _ _ _ _ _ _ Hk). destruct Hi. congruence. }
  split; simpl; try apply Hk.
  - eapply bufs_ok_write; [apply Hk|apply Hi|done..].
  - intros p m. rewrite lookup_insert_Some. intros [[<- <-]|[Hcp Hp]].
    + exists data. rewrite lookup_insert_eq. simpl. by rewrite Hdir.
    + eapply node_rep_agree; [..|by apply Hk].
      * by rewrite lookup_insert_ne.
      * intros d Hdd. rewrite lookup_insert_ne; [done|]. intros ->. by apply (Hcd p).
  - destruct (vo_root _ _ _ _ _ Hk) as (r & Hr & Hrd). rewrite lookup_insert_ne; [eauto|congruence].
  - intros p m nm q. rewrite lookup_insert_Some, lookup_insert_is_Some'.
    intros [[<- <-]|[Hcp Hp]] Hq; [by apply elem_of_nil in Hq|].
    destruct (vo_child _ _ _ _ _ Hk p m nm q Hp Hq). naive_solver.
  - intros p m. rewrite lookup_insert_Some. intros [[<- <-]|[_ Hp]]; [constructor|by eapply vo_names].
  - intros p Hp. rewrite lookup_insert_is_Some'. right. by eapply vo_dirs.
Qed.

Lemma sys_mkdir_spec k A D F R base pathname p mode :
  vfs_ok k A D F R → refs_slack R → cwd_ok k base → cstring pathname p → p ≠ [] →
  ∃ e k', sys_mkdir (Some pathname) mode k = Ok (e, k') ∧
    create_post k A D F R (mkdir_mode k mode) 0 (path_spec CONFIG_PATH_MAX base p) e k'.
Proof.
  intros Hk Hs Hcwd Hp Hne. unfold sys_mkdir, umasked. mstep by (by mstep by done).
  destruct (create_spec k A D F R base pathname p (mkdir_mode k mode) 0 (λ _, mret ()))
    as (e & k' & E & Hpost); try done; [apply mkdir_mode_vtx| |by exists e, k'].
  intros k1 A1 D1 F1 R1 c mt Hk1 Hc. exists k1. rewrite insert_id by done.
  split_and!; [done|by destruct k1|done].
Qed.

(** C8: mkdir() refines the creation of an empty directory: it resolves the
    path as specified, returns the error of the walk without touching the
    buffer cache, or adds one inode and one entry at the end of the parent
    directory, uses exactly two buffers, keeps the invariant (no other inode,
    entry or reference count changes), and keeps no reference. *)
Theorem sys_mkdir_refines k A D F R base pathname p mode :
  vfs_ok k A D F R → refs_slack R → cwd_ok k base → cstring pathname p → p ≠ [] →
  ∃ e k', sys_mkdir (Some pathname) mode k = Ok (e, k') ∧
    create_post k A D F R (mkdir_mode k mode) 0 (path_spec CONFIG_PATH_MAX base p) e k'.
Proof. apply sys_mkdir_spec. Qed.

Definition mknod_mode k (mode : Z) : Z := Z.ldiff mode (p_umask (k_proc k)).

Lemma sys_mknod_spec k A D F R base pathname p mode dev :
  vfs_ok k A D F R → refs_slack R → cwd_ok k base → cstring pathname p → p ≠ [] →
  let m := mknod_mode k mode in
  if (S_ISCHR m || S_ISBLK m) && negb (has_bits m (Z.lor (Z.lor S_ISUID S_ISGID) S_ISVTX))
  then ∃ e k', sys_mknod (Some pathname) mode dev k = Ok (e, k') ∧
         create_post k A D F R m dev (path_spec CONFIG_PATH_MAX base p) e k'
  else sys_mknod (Some pathname) mode dev k = Ok (- EINVAL, k).
Proof.
  intros Hk Hs Hcwd Hp Hne m. unfold sys_mknod, umasked.
  erewrite bind_ok by (by mstep by done). fold (mknod_mode k mode). fold m.
  rewrite <- negb_orb. destruct (S_ISCHR m || S_ISBLK m) eqn:Htype; simpl; [|done].
  destruct (has_bits m _) eqn:Hbits; simpl; [done|].
  assert (has_bits m S_ISVTX = false) as Hvtx.
  { unfold has_bits in *. apply negb_false_iff, Z.eqb_eq in Hbits. rewrite Z.land_lor_distr_r in Hbits.
    apply Z.lor_eq_0_iff in Hbits as [_ ->]. done. }
  apply (create_spec k A D F R base pathname p m dev (λ c, upd_inode c (with_u0 dev))); try done.
  intros k1 A1 D1 F1 R1 c mt Hk1 Hc.
  destruct (vfs_ok_set_data k1 A1 D1 F1 R1 c (ANode m mt 0 []) dev) as (k2 & E & Hsame & Hk2); try done.
  - simpl. unfold S_ISDIR, S_ISCHR, S_ISBLK, S_IFDIR, S_IFCHR, S_IFBLK in *. lia.
  - by exists k2.
Qed.

(** Mknod() accepts character and block devices without set-id or sticky
    bits only, and then creates an inode with the device number. *)
Theorem sys_mknod_refines k A D F R base pathname p mode dev :
  vfs_ok k A D F R → refs_slack R → cwd_ok k base → cstring pathname p → p ≠ [] →
  let m := mknod_mode k mode in
  if (S_ISCHR m || S_ISBLK m) && negb (has_bits m (Z.lor (Z.lor S_ISUID S_ISGID) S_ISVTX))
  then ∃ e k', sys_mknod (Some pathname) mode dev k = Ok (e, k') ∧
         create_post k A D F R m dev (path_spec CONFIG_PATH_MAX base p) e k'
  else sys_mknod (Some pathname) mode dev k = Ok (- EINVAL, k).
Proof. apply sys_mknod_spec. Qed.

Lemma a_walk_nocreat A oflag mode p cs d nm :
  has_bits oflag O_CREAT = false → a_walk A oflag mode p cs ≠ WCreate d nm.
Proof.
  intros Ho. revert p. induction cs as [|c cs IH]; intros p; simpl.
  - unfold a_finish. by repeat case_match.
  - rewrite Ho, andb_false_r. by repeat case_match.
Qed.

(** Copying a path of the kernel into another buffer of CONFIG_PATH_MAX bytes. *)
Lemma strcpy_path dest src t :
  cstring src t → zlen t < CONFIG_PATH_MAX → zlen dest = CONFIG_PATH_MAX →
  ∃ out, strcpy_constrained dest (Some src) CONFIG_PATH_MAX = Ok out ∧
    cstring out t ∧ zlen out = CONFIG_PATH_MAX.
Proof.
  intros Hs Ht Hd. unfold CONFIG_PATH_MAX in *.
  destruct (strcpy_constrained_loop_spec (Z.to_nat (64 - 1)) [] dest src t Hs) as (d3 & E & Hl);
    [unfold zlen in Hd; lia|]. cbn [app] in E. change (zlen []) with 0 in E.
  rewrite take_ge in E, Hl by (unfold zlen in Ht; lia).
  exists (t ++ NUL :: d3). split_and!; [exact E| |len_lia].
  split; [apply Hs|eauto].
Qed.

Definition chdir_post k A (spec : option (list (list Z))) (e : Z) k' : Prop :=
  ∃ temp, zlen temp = CONFIG_PATH_MAX ∧
  match spec with
  | None => e = - ENAMETOOLONG ∧ k' = set_temp temp k
  | Some cs =>
      match a_walk A O_EXEC S_IFDIR (k_root k) cs with
      | WErr e' => e = e' ∧ k' = set_temp temp k
      | WFound _ => e = 0 ∧ cwd_ok k' cs ∧
          ∃ cwd, k' = set_cur (set_cwd cwd (k_proc k)) (set_temp temp k)
      | WCreate _ _ => False
      end
  end.

Lemma sys_chdir_spec k A D F R base pathname p :
  vfs_ok k A D F R → refs_slack R → cwd_ok k base → cstring pathname p → p ≠ [] →
  ∃ e k', sys_chdir (Some pathname) k = Ok (e, k') ∧
    chdir_post k A (path_spec CONFIG_PATH_MAX base p) e k'.
Proof.
  intros Hk Hs Hcwd Hp Hne. unfold sys_chdir.
  destruct (inode_lookup_path_spec k A D F R base false O_EXEC S_IFDIR pathname p Hk Hs Hcwd Hp Hne)
    as ([e q] & k1 & E & temp & Ht & Hpost); [done|].
  erewrite bind_ok by exact E. cbv beta iota. unfold chdir_post.
  destruct (path_spec _ _ _) as [cs|]; last first.
  { destruct Hpost as [[= -> ->] ->]. eexists _, _. split; [done|]. by exists temp. }
  destruct Hpost as (Hct & Hwf & [e1 q1] & Hw & [= -> ->]). unfold walk_post in Hw.
  change (k_root (set_temp temp k)) with (k_root k) in Hw.
  destruct (a_walk A O_EXEC S_IFDIR (k_root k) cs) as [e'|q|d nm] eqn:Hwalk.
  - destruct Hw as [[= -> ->] ->]. apply a_walk_WErr in Hwalk. cbn [fst snd].
    rewrite Z.min_l by lia. rewrite (proj2 (Z.leb_gt 0 e')) by done.
    eexists _, _. split; [done|]. by exists temp.
  - destruct Hw as [[= -> ->] ->]. cbn [fst snd]. change (0 `min` 0) with 0.
    change (0 <=? 0) with true. cbv iota.
    destruct Hcwd as (Hcw & Hwb & Hlb & Hlc & Htl).
    assert (zlen (render cs) < CONFIG_PATH_MAX) as Hfit.
    { destruct Hct as (_ & junk & ->). len_lia. }
    destruct (strcpy_path (p_cwd (k_proc k)) temp (render cs) Hct Hfit Hlc) as (out & Es & Ho & Hlo).
    eexists 0, _. split.
    { mstep by (do 2 (mstep by done); cbn [k_proc k_temp set_temp];
                mstep by (unfold lift; rewrite Es; reflexivity); reflexivity). done. }
    exists temp. split; [done|]. split; [done|]. split; [|by exists out].
    unfold cwd_ok. by destruct k.
  - by apply a_walk_nocreat in Hwalk.
Qed.

(** Chdir() changes the working directory to the resolved path exactly
    when the walk finds a directory that may be searched; otherwise it returns
    the error of the walk and only the scratch path buffer has changed.  The
    buffer cache is never changed: no reference is leaked. *)
Theorem sys_chdir_refines k A D F R base pathname p :
  vfs_ok k A D F R → refs_slack R → cwd_ok k base → cstring pathname p → p ≠ [] →
  ∃ e k', sys_chdir (Some pathname) k = Ok (e, k') ∧
    chdir_post k A (path_spec CONFIG_PATH_MAX base p) e k'.
Proof. apply sys_chdir_spec. Qed.

(** C9: getcwd() returns the path that chdir() set. *)
Theorem sys_chdir_getcwd k A D F R base pathname p buf k' :
  vfs_ok k A D F R → refs_slack R → cwd_ok k base → cstring pathname p → p ≠ [] →
  sys_chdir (Some pathname) k = Ok (0, k') → zlen buf = CONFIG_PATH_MAX →
  ∃ cs buf', path_spec CONFIG_PATH_MAX base p = Some cs ∧
    sys_getcwd (Some buf) CONFIG_PATH_MAX false k' = Ok ((0, Some buf'), k') ∧
    cstring buf' (render cs).
Proof.
  intros Hk Hs Hcwd Hp Hne E Hbuf.
  destruct (sys_chdir_spec k A D F R base pathname p Hk Hs Hcwd Hp Hne)
    as (e & k1 & E1 & temp & Ht & Hpost).
  rewrite E in E1. injection E1 as <- <-.
  destruct (path_spec _ _ _) as [cs|]; [|by destruct Hpost].
  destruct (a_walk _ _ _ _ _) as [e'|q|d nm] eqn:Hw; [|..|done].
  { destruct Hpost as [<- _]. by apply a_walk_WErr in Hw. }
  destruct Hpost as (_ & (Hc & _ & Hl & _) & _).
  destruct (strcpy_path buf (p_cwd (k_proc k')) (render cs) Hc Hl Hbuf) as (out & Es & Ho & _).
  exists cs, out. split_and!; [done| |done].
  unfold sys_getcwd. change (CONFIG_PATH_MAX =? 0) with false. cbv iota.
  mstep by done. by mstep by (unfold lift; rewrite Es; reflexivity).
Qed.

(** what mkdir() created, a path walk finds: after a successful mkdir() a
    chdir() to the same pathname succeeds exactly when the new directory may
    be searched by its owner, and fails with -EACCES otherwise. *)
Theorem sys_mkdir_chdir k A D F R base pathname p mode k1 :
  vfs_ok k A D F R → refs_slack R → cwd_ok k base → cstring pathname p → p ≠ [] →
  sys_mkdir (Some pathname) mode k = Ok (0, k1) →
  ∃ k2, sys_chdir (Some pathname) k1
        = Ok (if a_access (mkdir_mode k mode) X_OK then 0 else - EACCES, k2) ∧
    (a_access (mkdir_mode k mode) X_OK = true →
     ∃ cs, path_spec CONFIG_PATH_MAX base p = Some cs ∧ cwd_ok k2 cs).
Proof.
  intros Hk Hs Hcwd Hp Hne E.
  destruct (sys_mkdir_spec k A D F R base pathname p mode Hk Hs Hcwd Hp Hne) as (e & k' & E' & Hpost).
  rewrite E in E'. injection E' as <- <-. unfold create_post in Hpost.
  destruct (path_spec CONFIG_PATH_MAX base p) as [cs|] eqn:Hspec; [|by destruct Hpost].
  destruct (a_walk A O_EXCREAT _ _ _) as [e'|q|d nm] eqn:Hw; [|done|].
  { destruct Hpost as [<- _]. by apply a_walk_WErr in Hw. }
  destruct Hpost as (n & Hn & Hwf & Hfind & Hpost). destruct (_ <? zlen nm); [by destruct Hpost|].
  destruct F as [|x [|c F]]; [by destruct Hpost..|].
  destruct Hpost as (_ & HAc & Hk1 & temp & Htl & Hsame).
  unfold a_create in Hk1. rewrite insert_insert_eq in Hk1.
  fold (a_create (mkdir_mode k mode) (mtime_now k) d n nm c A) in Hk1.
  assert (k_proc k1 = k_proc k ∧ k_root k1 = k_root k ∧ k_temp k1 = temp) as (Ep & Er & Et).
  { rewrite Hsame. by destruct k. }
  assert (cwd_ok k1 base) as Hcwd1.
  { destruct Hcwd as (? & ? & ? & ? & ?). unfold cwd_ok. by rewrite Ep, Et. }
  assert (refs_slack (<[c := 0]> R)) as Hs1.
  { intros y. destruct (decide (c = y)) as [->|]; [by rewrite lookup_total_insert_eq|].
    rewrite lookup_total_insert_ne by done. apply Hs. }
  destruct (sys_chdir_spec k1 _ _ _ _ base pathname p Hk1 Hs1 Hcwd1 Hp Hne)
    as (e & k2 & E2 & temp2 & Ht2 & Hpost). exists k2. rewrite E2.
  rewrite Hspec, Er in Hpost.
  rewrite (a_walk_new A _ _ d n nm c (vfs_closed _ _ _ _ _ Hk) Hn HAc Hfind
             O_EXCREAT (mkdir_mode k mode)) in Hpost; try done.
  - unfold a_finish in Hpost. rewrite create_new in Hpost. cbn [a_mode] in Hpost.
    change (oflag_to_access_mode O_EXEC) with X_OK in Hpost.
    assert (Z.land (Z.lxor S_IFDIR (mkdir_mode k mode)) S_IFMT =? 0 = true) as Htype.
    { pose proof (mkdir_mode_dir k mode) as Hd. unfold S_ISDIR in Hd. apply Z.eqb_eq in Hd.
      apply Z.eqb_eq. rewrite land_lxor_distr, Hd. done. }
    rewrite Htype in Hpost. destruct (a_access (mkdir_mode k mode) X_OK); simpl in Hpost.
    + destruct Hpost as (-> & Hc2 & _). split; [done|]. intros _. by exists cs.
    + destruct Hpost as [-> _]. done.
  - destruct (vo_root _ _ _ _ _ Hk) as (r & ? & _). eauto.
  - apply mkdir_mode_lnk.
Qed.
End Calls.
