(* ===== verification/FileSpec.v ===== *)
(** The file table: the invariant that ties reference counts of open files to
    descriptors and reference counts of inodes to open files, and the system
    calls on descriptors. *)
From S2P Require Import Prelude CDefs Util PathRes Sched Kern BufCache Inode Fat.
From S2P Require Import Devices Ramfs Vfs File FsCalls.

(** How many slots of a descriptor table refer to the file [f]. *)
Definition fd_ind (f : nat) (slot : option nat) : Z := if decide (slot = Some f) then 1 else 0.
Definition fd_refs (f : nat) (t : list (option nat)) : Z := sumZ (fd_ind f) t.

(** How many open files refer to the inode [p]. *)
Definition open_ind (p : Z) (x : file) : Z :=
  if decide (0 < f_count x ∧ f_inode x = p) then 1 else 0.
Definition open_refs (p : Z) (fs : list file) : Z := sumZ (open_ind p) fs.

Lemma fd_ind_bound f s : 0 ≤ fd_ind f s ≤ 1.
Proof. unfold fd_ind. case_decide; lia. Qed.
Lemma open_ind_bound p x : 0 ≤ open_ind p x ≤ 1.
Proof. unfold open_ind. case_decide; lia. Qed.

Section Spec.
Context {SD : sdcard} {CC : console_config}.
Implicit Types (k : kern) (A : afs) (D : gmap Z (list Z)) (F : list Z) (oth : nat → Z).

(** A file is open on a directory of the RAM filesystem or on a character
    device, whose inode is not kept. *)
Definition live_file A (x : file) : Prop :=
  (f_op x = FopRamDir ∧ ∃ n, A !! f_inode x = Some n ∧ S_ISDIR (a_mode n) = true) ∨
  (f_op x ∈ [FopDevNull; FopDevZero; FopDevFull; FopBasicTty; FopRawTty] ∧ f_inode x = 0).

(** [T] is the descriptor table whose slots own references, the table of the
    current process except in the middle of dup2(); [oth] counts the other
    references to each file: those of other processes and of running calls. *)
Record files_ok k A (T : list (option nat)) oth : Prop := {
  fo_len : zlen (k_files k) = CONFIG_FD_MAX;
  fo_count : ∀ f x, k_files k !! f = Some x → f_count x = fd_refs f T + oth f;
  fo_live : ∀ f x, k_files k !! f = Some x → 0 < f_count x → live_file A x;
  fo_oth : ∀ f, 0 ≤ oth f;
  fo_tlen : zlen T = CONFIG_PROC_FD_MAX;
  fo_fd : ∀ i f, T !! i = Some (Some f) → is_Some (k_files k !! f);
  fo_fdlen : zlen (p_fd (k_proc k)) = CONFIG_PROC_FD_MAX;
  fo_cloexec : zlen (p_cloexec (k_proc k)) = CONFIG_PROC_FD_MAX;
}.

(** The references of open files to the inodes are the ones that are counted. *)
Definition inode_refs_ok k A D F : Prop :=
  ∃ R, vfs_ok k A D F R ∧ refs_slack R ∧
    ∀ p, is_Some (A !! p) → R !!! p = open_refs p (k_files k).

Record kern_ok k A D F T oth : Prop := {
  ko_files : files_ok k A T oth;
  ko_refs : inode_refs_ok k A D F;
  ko_cwd : ∃ base, cwd_ok k base;
}.

Definition oadd (f : nat) (δ : Z) oth : nat → Z :=
  λ g, if decide (g = f) then oth g + δ else oth g.
Definition oth_slack oth : Prop := ∀ f, oth f ≤ 100.

Lemma fd_refs_bound k A T oth f : files_ok k A T oth → 0 ≤ fd_refs f T ≤ 8.
Proof.
  intros Hk. split; [apply sumZ_nonneg, fd_ind_bound|].
  change 8 with CONFIG_PROC_FD_MAX. rewrite <- (fo_tlen _ _ _ _ Hk). apply sumZ_le, fd_ind_bound.
Qed.

Lemma open_refs_bound k A T oth p : files_ok k A T oth → 0 ≤ open_refs p (k_files k) ≤ 32.
Proof.
  intros Hk. split; [apply sumZ_nonneg, open_ind_bound|].
  change 32 with CONFIG_FD_MAX. rewrite <- (fo_len _ _ _ _ Hk). apply sumZ_le, open_ind_bound.
Qed.

Lemma fd_slot_refs k A T oth i f :
  files_ok k A T oth → T !! i = Some (Some f) →
  ∃ x, k_files k !! f = Some x ∧ 0 < f_count x ∧ live_file A x.
Proof.
  intros Hk Hi. destruct (fo_fd _ _ _ _ Hk i f Hi) as [x Hx]. exists x.
  assert (0 < f_count x).
  { rewrite (fo_count _ _ _ _ Hk f x Hx). pose proof (fo_oth _ _ _ _ Hk f).
    assert (1 ≤ fd_refs f T); [|lia].
    pose proof (sumZ_ge (fd_ind f) _ _ _ ltac:(apply fd_ind_bound) Hi) as Hge.
    unfold fd_ind in Hge at 1. by rewrite decide_True in Hge. }
  split_and!; [done..|]. by eapply fo_live.
Qed.

(** ** References to files *)

Lemma upd_file_ok k f x g :
  k_files k !! f = Some x → upd_file f g k = Ok ((), set_files (<[f := g x]> (k_files k)) k).
Proof. intros Hx. unfold upd_file, get_file. mstep by (by rewrite Hx). done. Qed.

Lemma get_file_ok k f x : k_files k !! f = Some x → get_file f k = Ok (x, k).
Proof. intros Hx. unfold get_file. by rewrite Hx. Qed.

(** Changing the count of a file by [δ], between two non-zero values. *)
Lemma files_ok_count k A T oth f x δ :
  files_ok k A T oth → k_files k !! f = Some x → 0 < f_count x → 0 ≤ oth f + δ →
  files_ok (set_files (<[f := fset_count (f_count x + δ) x]> (k_files k)) k) A T (oadd f δ oth).
Proof.
  intros Hk Hx Hc Hδ. split; simpl; try apply Hk.
  - unfold zlen. rewrite length_insert. apply Hk.
  - intros g y. rewrite list_lookup_insert_Some. unfold oadd.
    intros [(<- & <- & _)|[Hne Hy]].
    + rewrite decide_True by done. simpl. rewrite (fo_count _ _ _ _ Hk f x Hx). lia.
    + rewrite decide_False by done. by apply Hk.
  - intros g y. rewrite list_lookup_insert_Some. intros [(<- & <- & _)|[Hne Hy]] Hpos.
    + destruct (fo_live _ _ _ _ Hk f x Hx Hc) as [H|H]; [by left|by right].
    + by eapply fo_live.
  - intros g. unfold oadd. case_decide; [subst; done|apply Hk].
  - intros i g Hg. destruct (fo_fd _ _ _ _ Hk i g Hg) as [y Hy].
    destruct (decide (f = g)) as [<-|].
    + rewrite list_lookup_insert_eq; [eauto|]. by eapply lookup_lt_Some.
    + rewrite list_lookup_insert_ne by done. eauto.
Qed.

(** The references to inodes depend on which files are open only. *)
Lemma inode_refs_files k A D F fs :
  inode_refs_ok k A D F → (∀ p, open_refs p fs = open_refs p (k_files k)) →
  inode_refs_ok (set_files fs k) A D F.
Proof.
  intros (R & Hk & Hs & HR) Hfs. exists R. split_and!; [by apply (vfs_ok_frame k)|done|].
  intros p Hp. simpl. rewrite Hfs. by apply HR.
Qed.

Lemma open_refs_insert p fs f x y :
  fs !! f = Some x → open_refs p (<[f := y]> fs) = open_refs p fs - open_ind p x + open_ind p y.
Proof. apply sumZ_insert. Qed.

Lemma file_ref_spec k A D F T oth f x :
  kern_ok k A D F T oth → oth_slack oth → k_files k !! f = Some x → 0 < f_count x →
  let k' := set_files (<[f := fset_count (f_count x + 1) x]> (k_files k)) k in
  file_ref f k = Ok ((), k') ∧ kern_ok k' A D F T (oadd f 1 oth).
Proof.
  intros [Hf Hr Hc] Hs Hx Hpos k'. pose proof (fd_refs_bound _ _ _ _ f Hf).
  pose proof (fo_count _ _ _ _ Hf f x Hx). pose proof (Hs f). pose proof (fo_oth _ _ _ _ Hf f). split.
  - unfold file_ref. rewrite (upd_file_ok _ _ x) by done. by rewrite s8_small by lia.
  - split; [apply files_ok_count; done || lia| |].
    + apply inode_refs_files; [done|]. intros p. rewrite (open_refs_insert _ _ _ x) by done.
      unfold open_ind. simpl. repeat case_decide; naive_solver lia.
    + destruct Hc as [base Hc]. by exists base.
Qed.

Lemma files_ok_ext k A T oth oth' :
  (∀ f, oth' f = oth f) → files_ok k A T oth → files_ok k A T oth'.
Proof.
  intros E Hk. split; try apply Hk.
  - intros f x Hx. rewrite E. by apply Hk.
  - intros f. rewrite E. apply Hk.
Qed.

Lemma kern_ok_ext k A D F T oth oth' :
  (∀ f, oth' f = oth f) → kern_ok k A D F T oth → kern_ok k A D F T oth'.
Proof. intros E [Hf Hr Hc]. split; [by eapply files_ok_ext|done..]. Qed.

(** The state apart from the buffer cache and the file table. *)
Definition same_but_files k k' : Prop :=
  k' = set_free (k_free k') (set_bufs (k_bufs k') (set_files (k_files k') k)).

Lemma same_but_files_trans k k' k'' :
  same_but_files k k' → same_but_files k' k'' → same_but_files k k''.
Proof. unfold same_but_files. intros -> ->. by destruct k. Qed.

(** What the calls on files leave alone: the clocks, the console, the root and
    the card; and a file that is in use stays the kind of file it is. *)
Definition ops_kept k k' : Prop :=
  ∀ g y, k_files k !! g = Some y → f_count y ≠ 0 → ∃ y', k_files k' !! g = Some y' ∧ f_op y' = f_op y.
Definition frame k k' : Prop :=
  k' = set_cur (k_proc k') (set_temp (k_temp k') (set_free (k_free k') (set_bufs (k_bufs k') (set_files (k_files k') k)))) ∧
  ops_kept k k'.

Lemma ops_kept_insert k f x y :
  k_files k !! f = Some x → f_count x = 0 ∨ f_op y = f_op x → ops_kept k (set_files (<[f := y]> (k_files k)) k).
Proof.
  intros Hx Hc g z Hz Hpos. simpl. destruct (decide (f = g)) as [<-|Hne].
  - rewrite list_lookup_insert_eq by (by eapply lookup_lt_Some). exists y. split; [done|].
    rewrite Hx in Hz. injection Hz as <-. destruct Hc; [lia|done].
  - rewrite list_lookup_insert_ne by done. eauto.
Qed.
Lemma frame_same_files k k' : same_but_files k k' → ops_kept k k' → frame k k'.
Proof. intros E Ho. split; [|done]. rewrite E. by destruct k. Qed.
Lemma frame_files k fs : ops_kept k (set_files fs k) → frame k (set_files fs k).
Proof. intros H. split; [by destruct k|done]. Qed.
Lemma frame_scratch k k' :
  k_files k' = k_files k →
  k' = set_cur (k_proc k') (set_temp (k_temp k') (set_free (k_free k') (set_bufs (k_bufs k') k))) → frame k k'.
Proof. intros Ef E. split; [rewrite Ef, E; by destruct k|]. intros g y Hy _. rewrite Ef. eauto. Qed.
Lemma frame_refl k : frame k k.
Proof. apply frame_scratch; by destruct k. Qed.
(** The same file may be written to before and after; a file in use is not reused. *)
Lemma frame_step k k1 k2 :
  frame k k1 → frame k1 k2 → (∀ g y y', k_files k !! g = Some y → f_count y ≠ 0 → k_files k1 !! g = Some y' → f_count y' ≠ 0) →
  frame k k2.
Proof.
  intros [E1 H1] [E2 H2] Hpos. split; [rewrite E2, E1; by destruct k|]. intros g y Hy Hc.
  destruct (H1 g y Hy Hc) as (y1 & Hy1 & <-). eapply H2; [exact Hy1|by eapply Hpos].
Qed.

Lemma same_proc k k' : same_but_files k k' → k_proc k' = k_proc k.
Proof. intros ->. by destruct k. Qed.

(** ** Closing *)

Lemma files_ok_bump k A T oth p δ : files_ok k A T oth → files_ok (bump p δ k) A T oth.
Proof. intros []. by split. Qed.

(** The last reference to a file is dropped: the file is closed. *)
Lemma fop_close_spec k A D F T oth f x :
  kern_ok k A D F T oth → k_files k !! f = Some x → f_count x = 1 → 1 ≤ oth f →
  ∃ k', fop_close f (set_files (<[f := fset_count 0 x]> (k_files k)) k) = Ok (0, k') ∧
    kern_ok k' A D F T (oadd f (-1) oth) ∧ same_but_files k k' ∧ ops_kept k k'.
Proof.
  intros [Hf (R & Hv & Hs & HR) [base Hc]] Hx Hcount Ho.
  set (k1 := set_files (<[f := fset_count 0 x]> (k_files k)) k).
  assert (k_files k1 !! f = Some (fset_count 0 x)) as Hx1.
  { simpl. rewrite list_lookup_insert_eq; [done|]. by eapply lookup_lt_Some. }
  assert (ops_kept k k1) as Hkept by (eapply ops_kept_insert; [exact Hx|by right]).
  assert (vfs_ok k1 A D F R) as Hv1 by by apply (vfs_ok_frame k).
  assert (files_ok k1 A T (oadd f (-1) oth)) as Hf1.
  { pose proof (files_ok_count k A T oth f x (-1) Hf Hx ltac:(lia) ltac:(lia)) as H1.
    by rewrite Hcount in H1. }
  assert (∀ p, open_refs p (k_files k1) = open_refs p (k_files k) - (if decide (f_inode x = p) then 1 else 0)) as Hopen.
  { intros p. simpl. rewrite (open_refs_insert _ _ _ x) by done. unfold open_ind. simpl.
    rewrite Hcount. repeat case_decide; naive_solver lia. }
  unfold fop_close, file_close_default. mstep by (by apply get_file_ok). simpl.
  destruct (fo_live _ _ _ _ Hf f x Hx) as [(-> & n & Hn & _)|[Hop Hi]]; [lia|..].
  - assert (f_inode x ≠ 0) as Hi0 by (eapply node_ne0; eauto).
    destruct (node_drop_ok _ _ _ _ _ (f_inode x) Hv1) as [Ed Hv2]; [eauto| |].
    { rewrite HR by eauto. pose proof (sumZ_ge (open_ind (f_inode x)) _ _ _ ltac:(apply open_ind_bound) Hx) as Hge.
      unfold open_ind in Hge at 1. rewrite decide_True in Hge by (split; [lia|done]). exact Hge. }
    mstep by (by apply get_file_ok). simpl. rewrite (proj2 (Z.eqb_neq _ 0) Hi0). simpl.
    mstep by (mstep by exact Ed; reflexivity). eexists. split; [done|].
    split; [split|split; [by destruct k|exact Hkept]]; [by apply files_ok_bump| |by exists base].
    exists (add_ref (f_inode x) (-1) R). split; [done|]. unfold add_ref. split.
    + intros p. destruct (decide (f_inode x = p)) as [->|].
      * rewrite lookup_total_insert_eq. pose proof (Hs p). lia.
      * rewrite lookup_total_insert_ne by done. apply Hs.
    + intros p Hp. change (k_files (bump (f_inode x) (-1) k1)) with (k_files k1).
      rewrite Hopen. case_decide; subst.
      * rewrite lookup_total_insert_eq, HR by done. lia.
      * rewrite lookup_total_insert_ne, HR by done. lia.
  - assert (∃ k', (file ← get_file f;
        _ ← (if negb (f_inode file =? 0) then _ ← inode_deref (f_inode file); mret () else mret ());
        mret 0) k1 = Ok (0, k') ∧ k' = k1) as (k' & E & ->).
    { mstep by (by apply get_file_ok). simpl. rewrite Hi. by eexists. }
    exists k1. split.
    { repeat (apply elem_of_cons in Hop as [->|Hop]; [exact E|]). by apply elem_of_nil in Hop. }
    split; [split; [done| |by exists base]|split; [by destruct k|exact Hkept]].
    exists R. split_and!; [done..|]. intros p Hp. rewrite HR, Hopen by done.
    rewrite decide_False; [lia|]. rewrite Hi. intros <-. by eapply node_ne0.
Qed.

Lemma file_deref_spec k A D F T oth f x :
  kern_ok k A D F T oth → k_files k !! f = Some x → 0 < f_count x < 128 → 1 ≤ oth f →
  ∃ k', file_deref f k = Ok (0, k') ∧ kern_ok k' A D F T (oadd f (-1) oth) ∧ same_but_files k k' ∧ ops_kept k k'.
Proof.
  intros Hk Hx Hc Ho. unfold file_deref. mstep by (by apply (upd_file_ok _ _ x)). cbv beta.
  rewrite s8_small by lia.
  mstep by (apply get_file_ok; simpl; rewrite list_lookup_insert_eq; [done|by eapply lookup_lt_Some]).
  simpl. destruct (Z.leb_spec (f_count x - 1) 0).
  - replace (f_count x - 1) with 0 by lia. eapply fop_close_spec; [done..|lia|done].
  - eexists. split; [done|]. split; [|split; [by destruct k|eapply ops_kept_insert; [exact Hx|by right]]].
    replace (f_count x - 1) with (f_count x + -1) by lia. destruct Hk as [Hf Hr Hcwd]. split.
    + apply files_ok_count; [done..|lia|lia].
    + apply inode_refs_files; [done|]. intros p. rewrite (open_refs_insert _ _ _ x) by done.
      unfold open_ind. simpl. repeat case_decide; naive_solver lia.
    + destruct Hcwd as [base ?]. by exists base.
Qed.

(** ** Descriptors *)

(** The references when a slot changes from [old] to [new]. *)
Definition owrite (old new : option nat) oth : nat → Z :=
  λ g, oth g + fd_ind g old - fd_ind g new.

(** Changing a slot of the owning table. *)
Lemma table_write k A D F T oth i old new :
  kern_ok k A D F T oth → T !! i = Some old →
  (∀ g, new = Some g → is_Some (k_files k !! g)) → (∀ g, 0 ≤ owrite old new oth g) →
  kern_ok k A D F (<[i := new]> T) (owrite old new oth).
Proof.
  intros [Hf Hr Hc] Hold Hnew Hpos. split; [|done..]. split; try apply Hf.
  - intros f x Hx. rewrite (fo_count _ _ _ _ Hf f x Hx). unfold fd_refs, owrite.
    rewrite (sumZ_insert _ _ _ _ new Hold). lia.
  - done.
  - unfold zlen. rewrite length_insert. apply Hf.
  - intros j f. rewrite list_lookup_insert_Some. intros [(_ & -> & _)|[_ Hi]]; [by apply Hnew|by eapply Hf].
Qed.

Lemma fd_write_spec k A D F T oth fd new :
  kern_ok k A D F T oth → 0 ≤ fd < CONFIG_PROC_FD_MAX →
  let k' := set_cur (set_fd (<[Z.to_nat fd := new]> (p_fd (k_proc k))) (k_proc k)) k in
  fd_write fd new k = Ok ((), k') ∧ kern_ok k' A D F T oth.
Proof.
  intros [Hf (R & Hv & Hs & HR) [base Hc]] Hfd k'. split.
  - unfold fd_write. mstep by done.
    mstep by (unfold lift; rewrite wr_ok; [done|]; by rewrite (fo_fdlen _ _ _ _ Hf)). done.
  - split; [split|..]; simpl; try apply Hf.
    + unfold zlen. rewrite length_insert. apply Hf.
    + exists R. split_and!; [by apply (vfs_ok_frame k)|done..].
    + by exists base.
Qed.

Lemma cloexec_write_spec k A D F T oth fd v :
  kern_ok k A D F T oth → 0 ≤ fd < CONFIG_PROC_FD_MAX →
  let k' := set_cur (set_cloexec (<[Z.to_nat fd := v]> (p_cloexec (k_proc k))) (k_proc k)) k in
  cloexec_write fd v k = Ok ((), k') ∧ kern_ok k' A D F T oth.
Proof.
  intros [Hf (R & Hv & Hs & HR) [base Hc]] Hfd k'. split.
  - unfold cloexec_write. mstep by done.
    mstep by (unfold lift; rewrite wr_ok; [done|]; by rewrite (fo_cloexec _ _ _ _ Hf)). done.
  - split; [split|..]; simpl; try apply Hf.
    + unfold zlen. rewrite length_insert. apply Hf.
    + exists R. split_and!; [by apply (vfs_ok_frame k)|done..].
    + by exists base.
Qed.

(** ** The calls on descriptors *)

Abbreviation table k := (p_fd (k_proc k)).
Definition proc_ok k A D F oth : Prop := kern_ok k A D F (table k) oth.

(** The file of a descriptor. *)
Definition fd_at (t : list (option nat)) (fd : Z) : option nat :=
  if (fd <? 0) || (CONFIG_PROC_FD_MAX <=? fd) then None else default None (t !! Z.to_nat fd).

Lemma fd_read_ok k fd :
  zlen (table k) = CONFIG_PROC_FD_MAX → 0 ≤ fd < CONFIG_PROC_FD_MAX →
  ∃ v, fd_read fd k = Ok (v, k) ∧ table k !! Z.to_nat fd = Some v.
Proof.
  intros Hl Hfd. destruct (rd_ok (table k) fd) as (v & E & Hv); [lia|]. exists v. split; [|done].
  unfold fd_read. mstep by done. unfold lift. by rewrite E.
Qed.

Lemma file_get_spec k fd :
  zlen (table k) = CONFIG_PROC_FD_MAX → file_get fd k = Ok (fd_at (table k) fd, k).
Proof.
  intros Hl. unfold file_get, fd_at. destruct (_ || _) eqn:Hr; [done|]. apply orb_false_iff in Hr as [H1 H2].
  apply Z.ltb_ge in H1. apply Z.leb_gt in H2.
  destruct (fd_read_ok k fd Hl) as (v & -> & ->); [lia|done].
Qed.

Lemma fd_at_Some t fd f :
  fd_at t fd = Some f → 0 ≤ fd < CONFIG_PROC_FD_MAX ∧ t !! Z.to_nat fd = Some (Some f).
Proof.
  unfold fd_at. destruct (_ || _) eqn:Hr; [done|]. apply orb_false_iff in Hr as [H1 H2].
  apply Z.ltb_ge in H1. apply Z.leb_gt in H2.
  destruct (t !! Z.to_nat fd) as [[g|]|]; simpl; try done. intros [= ->]. done.
Qed.

Lemma owrite_nonneg old new oth :
  (∀ g, 0 ≤ oth g) → (∀ g, new = Some g → 1 ≤ oth g) → ∀ g, 0 ≤ owrite old new oth g.
Proof.
  intros Ho Hnew g. unfold owrite. pose proof (fd_ind_bound g old). pose proof (Ho g).
  destruct (decide (new = Some g)) as [->|Hne].
  - pose proof (fd_ind_bound g (Some g)). pose proof (Hnew g eq_refl). lia.
  - unfold fd_ind at 2. rewrite decide_False by done. lia.
Qed.

Lemma oadd_owrite_close f oth g : oadd f (-1) (owrite (Some f) None oth) g = oth g.
Proof. unfold oadd, owrite, fd_ind. repeat case_decide; simplify_eq; lia. Qed.
Lemma owrite_oadd_open f oth g : owrite None (Some f) (oadd f 1 oth) g = oth g.
Proof. unfold oadd, owrite, fd_ind. repeat case_decide; simplify_eq; lia. Qed.

Lemma slot_count k A D F T oth i f :
  kern_ok k A D F T oth → oth_slack oth → T !! i = Some (Some f) →
  ∃ x, k_files k !! f = Some x ∧ 0 < f_count x < 110.
Proof.
  intros Hk Hs Hi. destruct (fd_slot_refs _ _ _ _ _ _ (ko_files _ _ _ _ _ _ Hk) Hi) as (x & Hx & Hc & _).
  exists x. split; [done|]. rewrite (fo_count _ _ _ _ (ko_files _ _ _ _ _ _ Hk) f x Hx) in Hc |- *.
  pose proof (fd_refs_bound _ _ _ _ f (ko_files _ _ _ _ _ _ Hk)). pose proof (Hs f). lia.
Qed.

Lemma sys_close_spec k A D F oth fd :
  proc_ok k A D F oth → oth_slack oth →
  match fd_at (table k) fd with
  | None => sys_close fd k = Ok (- EBADF, k)
  | Some f => ∃ k', sys_close fd k = Ok (0, k') ∧ proc_ok k' A D F oth ∧
      table k' = <[Z.to_nat fd := None]> (table k) ∧ frame k k'
  end.
Proof.
  intros Hk Hs. pose proof (fo_fdlen _ _ _ _ (ko_files _ _ _ _ _ _ Hk)) as Hl.
  unfold sys_close. destruct (fd_at (table k) fd) as [f|] eqn:Hf;
    [|by mstep by (rewrite file_get_spec, Hf by done; reflexivity)].
  apply fd_at_Some in Hf as Hfd. destruct Hfd as [Hfd Hslot].
  destruct (slot_count _ _ _ _ _ _ _ _ Hk Hs Hslot) as (x & Hx & Hc).
  destruct (fd_write_spec _ _ _ _ _ _ fd None Hk Hfd) as [Ew Hk1]. set (k1 := set_cur _ k) in *.
  pose proof (table_write _ _ _ _ _ _ (Z.to_nat fd) (Some f) None Hk1 Hslot ltac:(done)) as Hk1'.
  specialize (Hk1' ltac:(apply owrite_nonneg; [apply (fo_oth _ _ _ _ (ko_files _ _ _ _ _ _ Hk))|done])).
  destruct (file_deref_spec _ _ _ _ _ _ f x Hk1') as (k2 & Ed & Hk2 & Hsame & Hops); [done|lia| |].
  { unfold owrite, fd_ind. rewrite decide_True by done. simpl.
    pose proof (fo_oth _ _ _ _ (ko_files _ _ _ _ _ _ Hk) f). lia. }
  exists k2. apply same_proc in Hsame as Hp.
  assert (table k2 = <[Z.to_nat fd := None]> (table k)) as Ht by by rewrite Hp.
  split_and!; [|unfold proc_ok; rewrite Ht; eapply kern_ok_ext, Hk2|done|].
  - mstep by (rewrite file_get_spec, Hf by done; reflexivity). mstep by exact Ew. exact Ed.
  - intros g. by rewrite oadd_owrite_close.
  - split; [rewrite Hsame; by destruct k|exact Hops].
Qed.

(** The lowest free slot from [newfd] on receives the file [f]. *)
Definition dup_post k A D F oth f (newfd e : Z) k' : Prop :=
  (e = - EMFILE ∧ k' = k ∧
   ∀ m, newfd ≤ m < CONFIG_PROC_FD_MAX → table k !! Z.to_nat m ≠ Some None) ∨
  (newfd ≤ e < CONFIG_PROC_FD_MAX ∧ table k !! Z.to_nat e = Some None ∧
   (∀ m, newfd ≤ m < e → table k !! Z.to_nat m ≠ Some None) ∧
   proc_ok k' A D F oth ∧ table k' = <[Z.to_nat e := Some f]> (table k) ∧
   p_cloexec (k_proc k') = <[Z.to_nat e := 0]> (p_cloexec (k_proc k))).

(** Installing one more reference to [f] in a free slot. *)
Lemma install_spec k A D F oth i f fd :
  proc_ok k A D F oth → oth_slack oth → table k !! i = Some (Some f) →
  0 ≤ fd < CONFIG_PROC_FD_MAX → table k !! Z.to_nat fd = Some None →
  ∃ k', (_ ← file_ref f; _ ← fd_write fd (Some f); _ ← cloexec_write fd 0; mret fd) k
        = Ok (fd, k') ∧ proc_ok k' A D F oth ∧
    table k' = <[Z.to_nat fd := Some f]> (table k) ∧
    p_cloexec (k_proc k') = <[Z.to_nat fd := 0]> (p_cloexec (k_proc k)).
Proof.
  intros Hk Hs Hi Hfd Hfree. destruct (slot_count _ _ _ _ _ _ _ _ Hk Hs Hi) as (x & Hx & Hc).
  destruct (file_ref_spec _ _ _ _ _ _ f x Hk Hs Hx) as [Er Hk1]; [lia|]. set (k1 := set_files _ k) in *.
  destruct (fd_write_spec _ _ _ _ _ _ fd (Some f) Hk1 Hfd) as [Ew Hk2]. set (k2 := set_cur _ k1) in *.
  assert (kern_ok k2 A D F (<[Z.to_nat fd := Some f]> (table k)) (owrite None (Some f) (oadd f 1 oth))) as Hk2'.
  { apply table_write; [done..| |apply owrite_nonneg].
    - intros g [= <-]. simpl. rewrite list_lookup_insert_eq; [eauto|by eapply lookup_lt_Some].
    - apply (fo_oth _ _ _ _ (ko_files _ _ _ _ _ _ Hk1)).
    - intros g [= <-]. unfold oadd. rewrite decide_True by done.
      pose proof (fo_oth _ _ _ _ (ko_files _ _ _ _ _ _ Hk) f). lia. }
  destruct (cloexec_write_spec _ _ _ _ _ _ fd 0 Hk2' Hfd) as [Ec Hk3].
  set (k3 := set_cur _ k2) in *. exists k3. split; [|split; [|split; reflexivity]].
  - mstep by exact Er. mstep by exact Ew. mstep by exact Ec. done.
  - eapply kern_ok_ext, Hk3. intros g. by rewrite owrite_oadd_open.
Qed.

Lemma dup_scan_loop_spec n k A D F oth i f fd :
  proc_ok k A D F oth → oth_slack oth → table k !! i = Some (Some f) →
  0 ≤ fd → CONFIG_PROC_FD_MAX ≤ fd + Z.of_nat n →
  ∃ e k', dup_scan_loop n f fd k = Ok (e, k') ∧ dup_post k A D F oth f fd e k'.
Proof.
  intros Hk Hs Hi. revert fd. induction n as [|n IH]; intros fd Hfd Hn.
  { eexists _, _. split; [done|]. left. split_and!; [done..|]. lia. }
  cbn [dup_scan_loop]. destruct (Z.ltb_spec fd CONFIG_PROC_FD_MAX) as [Hlt|Hge]; last first.
  { eexists _, _. split; [done|]. left. split_and!; [done..|]. lia. }
  pose proof (fo_fdlen _ _ _ _ (ko_files _ _ _ _ _ _ Hk)) as Hl.
  destruct (fd_read_ok k fd Hl) as (v & Ev & Hv); [lia|]. destruct v as [g|].
  - destruct (IH (fd + 1)) as (e & k' & E & Hpost); [lia..|].
    exists e, k'. split; [by mstep by exact Ev|].
    assert (∀ m, fd ≤ m → m < fd + 1 → table k !! Z.to_nat m ≠ Some None) as Hthis.
    { intros m ??. replace m with fd by lia. by rewrite Hv. }
    destruct Hpost as [(-> & -> & Hall)|(He & Hfree & Hall & Hrest)]; [left|right].
    + split_and!; [done..|]. intros m Hm. destruct (decide (m < fd + 1)); [apply Hthis; lia|apply Hall; lia].
    + split; [lia|]. split; [done|]. split; [|exact Hrest]. intros m Hm.
      destruct (decide (m < fd + 1)); [apply Hthis; lia|apply Hall; lia].
  - destruct (install_spec _ _ _ _ _ _ f fd Hk Hs Hi ltac:(lia) Hv) as (k' & E & Hk' & Ht & Hc).
    exists fd, k'. split; [mstep by exact Ev; exact E|]. right. split_and!; try done; lia.
Qed.

Lemma sys_dup_scan_spec k A D F oth oldfd newfd :
  proc_ok k A D F oth → oth_slack oth →
  match fd_at (table k) oldfd with
  | None => sys_dup_scan oldfd newfd k = Ok (- EBADF, k)
  | Some f =>
      if (newfd <? 0) || (CONFIG_PROC_FD_MAX <=? newfd)
      then sys_dup_scan oldfd newfd k = Ok (- EBADF, k)
      else ∃ e k', sys_dup_scan oldfd newfd k = Ok (e, k') ∧ dup_post k A D F oth f newfd e k'
  end.
Proof.
  intros Hk Hs. pose proof (fo_fdlen _ _ _ _ (ko_files _ _ _ _ _ _ Hk)) as Hl.
  unfold sys_dup_scan. destruct (fd_at (table k) oldfd) as [f|] eqn:Hf;
    [|by mstep by (rewrite file_get_spec, Hf by done; reflexivity)].
  apply fd_at_Some in Hf as Hfd. destruct Hfd as [Hfd Hslot].
  destruct (_ || _) eqn:Hr.
  - by mstep by (rewrite file_get_spec, Hf by done; reflexivity).
  - pose proof Hr as [H1%Z.ltb_ge H2%Z.leb_gt]%orb_false_iff.
    destruct (dup_scan_loop_spec (Z.to_nat CONFIG_PROC_FD_MAX) _ _ _ _ _ _ f newfd Hk Hs Hslot)
      as (e & k' & E & Hpost); [lia..|].
    exists e, k'. split; [|done].
    mstep by (rewrite file_get_spec, Hf by done; reflexivity). exact E.
Qed.

(** Emptying the slot [fd] of the owning table: its file loses a reference. *)
Lemma evict_spec k A D F T oth fd slot :
  kern_ok k A D F T oth → (∀ f, oth f ≤ 101) → T !! Z.to_nat fd = Some slot →
  ∃ k', match slot with Some f2 => file_deref f2 | None => mret 0 end k = Ok (0, k') ∧
    kern_ok k' A D F (<[Z.to_nat fd := None]> T) oth ∧ same_but_files k k'.
Proof.
  intros Hk Hs Hslot. pose proof (ko_files _ _ _ _ _ _ Hk) as Hf. destruct slot as [f2|]; last first.
  { exists k. rewrite list_insert_id by done. split_and!; [done..|by destruct k]. }
  destruct (fd_slot_refs _ _ _ _ _ _ Hf Hslot) as (x & Hx & Hc & _).
  pose proof (table_write _ _ _ _ _ _ (Z.to_nat fd) (Some f2) None Hk Hslot ltac:(done)) as Hk1.
  specialize (Hk1 ltac:(apply owrite_nonneg; [apply (fo_oth _ _ _ _ Hf)|done])).
  destruct (file_deref_spec _ _ _ _ _ _ f2 x Hk1) as (k2 & E & Hk2 & Hsame & _); [done|..].
  { pose proof (fo_count _ _ _ _ Hf f2 x Hx). pose proof (fd_refs_bound _ _ _ _ f2 Hf).
    pose proof (Hs f2). lia. }
  { unfold owrite, fd_ind. rewrite decide_True by done. simpl.
    pose proof (fo_oth _ _ _ _ Hf f2). lia. }
  exists k2. split_and!; [done| |done]. eapply kern_ok_ext, Hk2.
  intros g. by rewrite oadd_owrite_close.
Qed.

Lemma sys_dup2_spec k A D F oth oldfd newfd :
  proc_ok k A D F oth → oth_slack oth →
  match fd_at (table k) oldfd with
  | None => sys_dup2 oldfd newfd k = Ok (- EBADF, k)
  | Some f =>
      if (newfd <? 0) || (CONFIG_PROC_FD_MAX <=? newfd)
      then sys_dup2 oldfd newfd k = Ok (- EBADF, k)
      else if newfd =? oldfd then sys_dup2 oldfd newfd k = Ok (newfd, k)
      else ∃ k', sys_dup2 oldfd newfd k = Ok (newfd, k') ∧ proc_ok k' A D F oth ∧
             table k' = <[Z.to_nat newfd := Some f]> (table k) ∧
             p_cloexec (k_proc k') = <[Z.to_nat newfd := 0]> (p_cloexec (k_proc k))
  end.
Proof.
  intros Hk Hs. pose proof (ko_files _ _ _ _ _ _ Hk) as Hfo. pose proof (fo_fdlen _ _ _ _ Hfo) as Hl.
  unfold sys_dup2. destruct (fd_at (table k) oldfd) as [f|] eqn:Hf;
    [|by mstep by (rewrite file_get_spec, Hf by done; reflexivity)].
  apply fd_at_Some in Hf as Hfd. destruct Hfd as [Hfd Hslot].
  destruct (_ || _) eqn:Hr; [by mstep by (rewrite file_get_spec, Hf by done; reflexivity)|].
  pose proof Hr as [H1%Z.ltb_ge H2%Z.leb_gt]%orb_false_iff.
  destruct (Z.eqb_spec newfd oldfd) as [->|Hne];
    [by mstep by (rewrite file_get_spec, Hf by done; reflexivity)|].
  destruct (slot_count _ _ _ _ _ _ _ _ Hk Hs Hslot) as (x & Hx & Hc).
  destruct (file_ref_spec _ _ _ _ _ _ f x Hk Hs Hx) as [Er Hk1]; [lia|]. set (k1 := set_files _ k) in *.
  destruct (fd_read_ok k1 newfd Hl) as (slot & Ev & Hv); [lia|].
  destruct (evict_spec _ _ _ _ _ _ newfd slot Hk1) as (k2 & Ed & Hk2 & Hsame); [|done|].
  { intros g. unfold oadd. pose proof (Hs g). case_decide; lia. }
  destruct (fd_write_spec _ _ _ _ _ _ newfd (Some f) Hk2 ltac:(lia)) as [Ew Hk3].
  set (k3 := set_cur _ k2) in *.
  assert (kern_ok k3 A D F (<[Z.to_nat newfd := Some f]> (<[Z.to_nat newfd := None]> (table k)))
            (owrite None (Some f) (oadd f 1 oth))) as Hk3'.
  { apply table_write; [done|..].
    - apply list_lookup_insert_eq. by eapply lookup_lt_Some.
    - intros g [= <-]. eapply (fo_fd _ _ _ _ (ko_files _ _ _ _ _ _ Hk3) (Z.to_nat oldfd)).
      rewrite list_lookup_insert_ne by lia. done.
    - apply owrite_nonneg; [apply (fo_oth _ _ _ _ (ko_files _ _ _ _ _ _ Hk1))|].
      intros g [= <-]. unfold oadd. rewrite decide_True by done. pose proof (fo_oth _ _ _ _ Hfo f). lia. }
  destruct (cloexec_write_spec _ _ _ _ _ _ newfd 0 Hk3' ltac:(lia)) as [Ec Hk4]. set (k4 := set_cur _ k3) in *.
  pose proof (same_proc _ _ Hsame) as Hp. change (k_proc k1) with (k_proc k) in Hp.
  assert (table k4 = <[Z.to_nat newfd := Some f]> (table k)) as Ht by (simpl; by rewrite Hp).
  exists k4. split_and!; [| |done|simpl; by rewrite Hp].
  - mstep by (rewrite file_get_spec, Hf by done; reflexivity).
    mstep by exact Er.
    mstep by (rewrite file_get_spec by done; reflexivity).
    unfold fd_at. change (table k1) with (table k) in Hv |- *. rewrite Hr, Hv. simpl.
    mstep by exact Ed. mstep by exact Ew. mstep by exact Ec. done.
  - unfold proc_ok. rewrite Ht. rewrite list_insert_insert_eq in Hk4. eapply kern_ok_ext, Hk4.
    intros g. by rewrite owrite_oadd_open.
Qed.

(** ** Opening a directory *)

Definition busy (x : file) : Prop := f_count x ≠ 0.

Lemma file_new_loop_spec n k f flags mode :
  zlen (k_files k) = Z.of_nat f + Z.of_nat n →
  (∃ g x, (f ≤ g)%nat ∧ k_files k !! g = Some x ∧ f_count x = 0 ∧
     file_new_loop n f flags mode k
     = Ok (Some g, set_files (<[g := File 1 flags mode FopNull 0 0 0]> (k_files k)) k)) ∨
  ((∀ g x, (f ≤ g)%nat → k_files k !! g = Some x → busy x) ∧
   file_new_loop n f flags mode k = Ok (None, k)).
Proof.
  revert f. induction n as [|n IH]; intros f Hl.
  { right. split; [|done]. intros g x Hg Hx. apply lookup_lt_Some in Hx. unfold zlen in Hl. lia. }
  cbn [file_new_loop]. destruct (lookup_lt_is_Some_2 (k_files k) f) as [x Hx]; [unfold zlen in Hl; lia|].
  rewrite (bind_ok _ _ _ _ _ (get_file_ok _ _ _ Hx)). destruct (Z.eqb_spec (f_count x) 0) as [H0|H0].
  - left. exists f, x. split_and!; [done..|]. by mstep by (by apply (upd_file_ok _ _ x)).
  - destruct (IH (S f)) as [(g & y & Hg & Hy & H)|[H E]]; [lia|left|right].
    + exists g, y. split; [lia|done].
    + split; [|done]. intros g y Hg Hy. destruct (decide (g = f)) as [->|].
      * rewrite Hx in Hy. by injection Hy as <-.
      * apply (H g); [lia|done].
Qed.

(** The lowest free descriptor is taken. *)
Lemma file_put_loop_spec n k A D F T oth f fd :
  kern_ok k A D F T oth → 0 ≤ fd → fd + Z.of_nat n = CONFIG_PROC_FD_MAX →
  (file_put_loop n f fd k = Ok (- EMFILE, k) ∧
   ∀ m, fd ≤ m < CONFIG_PROC_FD_MAX → table k !! Z.to_nat m ≠ Some None) ∨
  ∃ e k', file_put_loop n f fd k = Ok (e, k') ∧ fd_write e (Some f) k = Ok ((), k') ∧
    fd ≤ e < CONFIG_PROC_FD_MAX ∧ table k !! Z.to_nat e = Some None ∧
    ∀ m, fd ≤ m < e → table k !! Z.to_nat m ≠ Some None.
Proof.
  intros Hk. revert fd. induction n as [|n IH]; intros fd Hfd Hn; [left; split; [done|lia]|].
  pose proof (fo_fdlen _ _ _ _ (ko_files _ _ _ _ _ _ Hk)) as Hl.
  destruct (fd_read_ok k fd Hl) as (v & Ev & Hv); [lia|].
  cbn [file_put_loop]. rewrite (bind_ok _ _ _ _ _ Ev). destruct v as [g|].
  - assert (∀ m, fd ≤ m → m < fd + 1 → table k !! Z.to_nat m ≠ Some None) as Hthis.
    { intros m ??. replace m with fd by lia. by rewrite Hv. }
    destruct (IH (fd + 1)) as [[E H]|(e & k' & E & Ew & He & Hf & H)]; [lia..|left|right].
    + split; [done|]. intros m Hm. destruct (decide (m < fd + 1)); [apply Hthis; lia|apply H; lia].
    + exists e, k'. split_and!; [done..|lia|lia|done|].
      intros m Hm. destruct (decide (m < fd + 1)); [apply Hthis; lia|apply H; lia].
  - right. destruct (fd_write_spec _ _ _ _ _ _ fd (Some f) Hk ltac:(lia)) as [Ew _].
    exists fd. eexists. split_and!; [by mstep by exact Ew|exact Ew|lia|lia|done|lia].
Qed.

(** A new open file on the directory [q], for which the caller holds a
    reference. *)
Lemma files_ok_open k A T oth f x y :
  files_ok k A T oth → k_files k !! f = Some x → f_count x = 0 → f_count y = 1 → live_file A y →
  files_ok (set_files (<[f := y]> (k_files k)) k) A T (oadd f 1 oth).
Proof.
  intros Hk Hx H0 H1 Hlive. pose proof (fo_count _ _ _ _ Hk f x Hx) as Hc.
  pose proof (fd_refs_bound _ _ _ _ f Hk). pose proof (fo_oth _ _ _ _ Hk f).
  split; simpl; try apply Hk.
  - unfold zlen. rewrite length_insert. apply Hk.
  - intros g z. rewrite list_lookup_insert_Some. unfold oadd. intros [(<- & <- & _)|[Hne Hz]].
    + rewrite decide_True by done. lia.
    + rewrite decide_False by done. by apply Hk.
  - intros g z. rewrite list_lookup_insert_Some. intros [(<- & <- & _)|[Hne Hz]] Hpos; [done|by eapply fo_live].
  - intros g. unfold oadd. case_decide; [subst; lia|apply Hk].
  - intros i g Hg. destruct (fo_fd _ _ _ _ Hk i g Hg) as [z Hz]. destruct (decide (f = g)) as [<-|].
    + rewrite list_lookup_insert_eq; [eauto|]. by eapply lookup_lt_Some.
    + rewrite list_lookup_insert_ne by done. eauto.
Qed.

Lemma kern_ok_open k A D F T oth f x q n flags R base :
  files_ok k A T oth → vfs_ok k A D F R → refs_slack R → cwd_ok k base →
  A !! q = Some n → S_ISDIR (a_mode n) = true →
  (∀ p, is_Some (A !! p) → R !!! p = open_refs p (k_files k) + (if decide (q = p) then 1 else 0)) →
  k_files k !! f = Some x → f_count x = 0 →
  kern_ok (set_files (<[f := File 1 flags (a_mode n) FopRamDir q 0 0]> (k_files k)) k) A D F T (oadd f 1 oth).
Proof.
  intros Hf Hv Hs Hc Hn Hdir HR Hx H0. split; [|exists R; split_and!|by exists base].
  - eapply files_ok_open; try done. left. eauto.
  - by apply (vfs_ok_frame k).
  - done.
  - intros p Hp. simpl. rewrite HR by done. rewrite (open_refs_insert _ _ _ x) by done.
    unfold open_ind. simpl. rewrite H0. repeat case_decide; naive_solver lia.
Qed.

Lemma a_walk_found A oflag m p cs q :
  a_walk A oflag m p cs = WFound q →
  ∃ n, A !! q = Some n ∧ Z.land m S_IFMT = Z.land (a_mode n) S_IFMT.
Proof.
  revert p. induction cs as [|c cs IH]; intros p; simpl.
  - unfold a_finish. destruct (A !! p) as [n|] eqn:Hn; [|done].
    destruct (negb (a_access _ _)); [done|].
    destruct (negb _) eqn:Ht; [by repeat case_match|].
    apply negb_false_iff, Z.eqb_eq in Ht. rewrite land_lxor_distr in Ht. apply Z.lxor_eq in Ht.
    destruct (_ && _); [done|]. intros [= <-]. eauto.
  - destruct (A !! p) as [n|]; [|done]. repeat case_match; try done. apply IH.
Qed.

(** file_open() after the lookup, on a directory. *)
Definition open_tail (flags inode : Z) : M kern Z :=
  i ← get_inode inode;
  file ← file_new flags (i_mode i);
  match file with
  | None => _ ← inode_deref inode; mret (- ENFILE)
  | Some f =>
      _ ← upd_file f (fset_inode inode);
      error ← op_open inode f;
      if error <? 0 then _ ← file_deref f; mret error
      else
        error ← file_put f;
        if error <? 0 then _ ← file_deref f; mret error else mret error
  end.

Definition opened_post k A D F oth (q e : Z) k' : Prop :=
  proc_ok k' A D F oth ∧ frame k k' ∧
  ((e = - ENFILE ∧ ∀ f x, k_files k !! f = Some x → busy x) ∨
   (e = - EMFILE ∧ ∀ m, 0 ≤ m < CONFIG_PROC_FD_MAX → table k !! Z.to_nat m ≠ Some None) ∨
   (0 ≤ e < CONFIG_PROC_FD_MAX ∧ table k !! Z.to_nat e = Some None ∧
    (∀ m, 0 ≤ m < e → table k !! Z.to_nat m ≠ Some None) ∧
    ∃ f n, A !! q = Some n ∧ table k' = <[Z.to_nat e := Some f]> (table k) ∧
      k_files k' !! f = Some (File 1 O_RDONLY (a_mode n) FopRamDir q 0 0))).

Lemma ramfs_open_dir k f q mode :
  k_files k !! f = Some (File 1 O_RDONLY mode FopNull q 0 0) →
  Z.land mode S_IFMT = S_IFDIR → has_bits mode S_ISVTX = false →
  ramfs_open f k
  = Ok (0, set_files (<[f := File 1 O_RDONLY mode FopRamDir q 0 0]> (k_files k)) k).
Proof.
  intros Hf Ht Hv. unfold ramfs_open. mstep by (by apply get_file_ok). simpl. rewrite Ht, Hv.
  simpl. by mstep by (by apply (upd_file_ok _ _ _ _ Hf)).
Qed.

(** The new file before it gets a descriptor. *)
Lemma open_tail_file k A D F oth R base q n f x :
  files_ok k A (table k) oth → vfs_ok k A D F R → refs_slack R → cwd_ok k base →
  A !! q = Some n → S_ISDIR (a_mode n) = true → (∀ p, is_Some (A !! p) → R !!! p = open_refs p (k_files k)) →
  k_files k !! f = Some x → f_count x = 0 →
  let k3 := set_files (<[f := File 1 O_RDONLY (a_mode n) FopRamDir q 0 0]> (k_files k)) (bump q 1 k) in
  (_ ← upd_file f (fset_inode q); op_open q f)
    (set_files (<[f := File 1 O_RDONLY (a_mode n) FopNull 0 0 0]> (k_files k)) (bump q 1 k)) = Ok (0, k3) ∧
  kern_ok k3 A D F (table k) (oadd f 1 oth).
Proof.
  intros Hf Hv Hs Hc Hn Hdir HR Hx H0 k3. pose proof (lookup_lt_Some _ _ _ Hx) as Hlt. split.
  - mstep by (apply upd_file_ok; simpl; rewrite list_lookup_insert_eq by done; reflexivity).
    unfold set_files at 2. cbn [k_files]. rewrite list_insert_insert_eq.
    change (fset_inode q _) with (File 1 O_RDONLY (a_mode n) FopNull q 0 0).
    destruct (get_node_bumped _ _ _ _ _ q n q 1 Hv Hn) as (i & Ei & _ & Hop).
    destruct (node_inode _ _ _ _ _ _ _ Hv Hn) as (u0 & Hi & Hd). rewrite Hdir in Hd.
    unfold op_open.
    apply (inode_at_bump _ _ _ q 1) in Hi. rewrite decide_True in Hi by done.
    mstep by (eapply get_inode_ok; exact Hi). cbn [i_op with_count].
    rewrite (ramfs_open_dir _ f q (a_mode n)).
    + simpl. rewrite list_insert_insert_eq. by destruct k.
    + simpl. by rewrite list_lookup_insert_eq.
    + unfold S_ISDIR in Hdir. by apply Z.eqb_eq in Hdir.
    + apply Hd.
  - apply (kern_ok_open (bump q 1 k) _ _ _ _ _ _ x q n _ (add_ref q 1 R) base); try done.
    + by apply files_ok_bump.
    + by apply vfs_ok_ref.
    + intros p. unfold add_ref. destruct (decide (q = p)) as [<-|].
      * rewrite lookup_total_insert_eq, HR by eauto.
        pose proof (open_refs_bound _ _ _ _ q Hf). lia.
      * rewrite lookup_total_insert_ne by done. apply Hs.
    + intros p Hp. simpl. unfold add_ref. case_decide; subst.
      * rewrite lookup_total_insert_eq, HR by done. lia.
      * rewrite lookup_total_insert_ne, HR by done. lia.
Qed.

Lemma open_tail_spec k A D F oth R base q n :
  files_ok k A (table k) oth → oth_slack oth → vfs_ok k A D F R → refs_slack R → cwd_ok k base →
  A !! q = Some n → S_ISDIR (a_mode n) = true → (∀ p, is_Some (A !! p) → R !!! p = open_refs p (k_files k)) →
  ∃ e k', open_tail O_RDONLY q (bump q 1 k) = Ok (e, k') ∧ opened_post k A D F oth q e k'.
Proof.
  intros Hf Ho Hv Hs Hc Hn Hdir HR. unfold open_tail.
  destruct (get_node_bumped _ _ _ _ _ q n q 1 Hv Hn) as (i & Ei & Hm & _).
  rewrite (bind_ok _ _ _ _ _ Ei). rewrite Hm. unfold file_new. change (u16 O_RDONLY) with O_RDONLY.
  destruct (file_new_loop_spec (Z.to_nat CONFIG_FD_MAX) (bump q 1 k) 0 O_RDONLY (a_mode n))
    as [(f & x & _ & Hx & H0 & E)|[Hbusy E]]; [change (k_files (bump q 1 k)) with (k_files k);
      rewrite (fo_len _ _ _ _ Hf); done|..]; rewrite (bind_ok _ _ _ _ _ E).
  2: { mstep by (by eapply node_deref_ok). eexists _, _. split; [done|]. split.
       - split; [done|by exists R|by exists base].
       - split; [apply frame_refl|]. left. split; [done|]. intros f x. apply (Hbusy f x). lia. }
  change (k_files (bump q 1 k)) with (k_files k) in *.
  destruct (open_tail_file _ _ _ _ _ _ _ q n f x Hf Hv Hs Hc Hn Hdir HR Hx H0) as [Eo Hk3].
  set (k3 := set_files (<[f := File 1 O_RDONLY (a_mode n) FopRamDir q 0 0]> _) (bump q 1 k)) in Eo, Hk3.
  assert (∀ rest : Z → M kern Z, (_ ← upd_file f (fset_inode q); error ← op_open q f; rest error)
            (set_files (<[f := File 1 O_RDONLY (a_mode n) FopNull 0 0 0]> (k_files k)) (bump q 1 k))
          = rest 0 k3) as ->.
  { intros rest. apply bind_inv in Eo as ([] & k2 & E2 & E3). rewrite (bind_ok _ _ _ _ _ E2).
    by rewrite (bind_ok _ _ _ _ _ E3). }
  change (0 <? 0) with false. cbv iota.
  assert (k_files k3 !! f = Some (File 1 O_RDONLY (a_mode n) FopRamDir q 0 0)) as Hf3.
  { simpl. rewrite list_lookup_insert_eq; [done|]. by eapply lookup_lt_Some. }
  pose proof (fo_oth _ _ _ _ Hf f) as Hoth.
  assert (frame k k3) as Hfr3.
  { split; [by destruct k|]. exact (ops_kept_insert k f x _ Hx (or_introl H0)). }
  destruct (file_put_loop_spec (Z.to_nat CONFIG_PROC_FD_MAX) _ _ _ _ _ _ f 0 Hk3)
    as [[Ep Hfull]|(e & k4 & Ep & Ew & He & Hfree & Hlow)]; [lia|done|..]; rewrite (bind_ok _ _ _ _ _ Ep).
  - change (- EMFILE <? 0) with true. cbv iota.
    destruct (file_deref_spec _ _ _ _ _ _ f _ Hk3 Hf3) as (k4 & Ed & Hk4 & Hsame & Hops); [simpl; lia| |].
    { unfold oadd. rewrite decide_True by done. lia. }
    rewrite (bind_ok _ _ _ _ _ Ed). eexists _, _. split; [done|]. split; [|split; [|by right; left]].
    + unfold proc_ok. rewrite (same_proc _ _ Hsame). eapply kern_ok_ext, Hk4.
      intros g. unfold oadd. case_decide; lia.
    + apply (frame_step k k3 k4 Hfr3 (frame_same_files _ _ Hsame Hops)). intros g y y' Hy Hpos. simpl.
      rewrite list_lookup_insert_ne by (intros <-; rewrite Hx in Hy; by injection Hy as ->).
      rewrite Hy. by intros [= <-].
  - rewrite (proj2 (Z.ltb_ge e 0)) by lia.
    destruct (fd_write_spec _ _ _ _ _ _ e (Some f) Hk3 ltac:(lia)) as [Ew' Hk4].
    rewrite Ew in Ew'. injection Ew' as ->. set (k4 := set_cur _ k3) in *.
    assert (kern_ok k4 A D F (<[Z.to_nat e := Some f]> (table k)) (owrite None (Some f) (oadd f 1 oth))) as Hk5.
    { apply table_write; [done..| |apply owrite_nonneg].
      - intros g [= <-]. change (k_files k4) with (k_files k3). eauto.
      - apply (fo_oth _ _ _ _ (ko_files _ _ _ _ _ _ Hk3)).
      - intros g [= <-]. unfold oadd. rewrite decide_True by done. lia. }
    exists e, k4. split; [done|]. split; [|split].
    + eapply kern_ok_ext, Hk5. intros g. by rewrite owrite_oadd_open.
    + destruct Hfr3 as [_ Hops]. split; [by destruct k|exact Hops].
    + right. right. split_and!; [lia..|done|done|]. by exists f, n.
Qed.

(** What opendir() returns for the resolved path [spec]. *)
Definition opendir_post k A D F oth (spec : option (list (list Z))) (e : Z) k' : Prop :=
  match spec with
  | None => e = - ENAMETOOLONG ∧ proc_ok k' A D F oth ∧ table k' = table k ∧ frame k k'
  | Some cs =>
      match a_walk A O_RDONLY S_IFDIR (k_root k) cs with
      | WErr e' => e = e' ∧ proc_ok k' A D F oth ∧ table k' = table k ∧ frame k k'
      | WFound q => opened_post k A D F oth q e k'
      | WCreate _ _ => False
      end
  end.

Lemma cwd_ok_temp k base temp :
  cwd_ok k base → zlen temp = CONFIG_PATH_MAX → cwd_ok (set_temp temp k) base.
Proof. intros (H1 & H2 & H3 & H4 & _) Ht. exact (conj H1 (conj H2 (conj H3 (conj H4 Ht)))). Qed.

Lemma kern_ok_temp k A D F T oth temp :
  kern_ok k A D F T oth → zlen temp = CONFIG_PATH_MAX → kern_ok (set_temp temp k) A D F T oth.
Proof.
  intros [Hf (R & Hv & Hs & HR) [base Hc]] Ht. split.
  - destruct Hf. by split.
  - exists R. split_and!; [by apply (vfs_ok_frame k)|done..].
  - exists base. by apply cwd_ok_temp.
Qed.

Lemma sys_opendir_spec k A D F oth base pathname p :
  proc_ok k A D F oth → oth_slack oth → cwd_ok k base → cstring pathname p → p ≠ [] →
  ∃ e k', sys_opendir (Some pathname) k = Ok (e, k') ∧
    opendir_post k A D F oth (path_spec CONFIG_PATH_MAX base p) e k'.
Proof.
  intros Hk Ho Hcwd Hp Hne. pose proof Hk as [Hf (R & Hv & Hs & HR) _].
  destruct (inode_lookup_path_spec k A D F R base true O_RDONLY S_IFDIR pathname p Hv Hs Hcwd Hp Hne)
    as ([e q] & k1 & E & temp & Ht & Hpost); [done|].
  pose proof (kern_ok_temp _ _ _ _ _ _ temp Hk Ht) as Hkt.
  assert (frame k (set_temp temp k)) as Hfr by (apply frame_scratch; by destruct k).
  change (sys_opendir (Some pathname)) with
    ('(error, inode) ← inode_lookup_path true (Some pathname) O_RDONLY S_IFDIR;
     if error <? 0 then mret error else open_tail O_RDONLY inode).
  rewrite (bind_ok _ _ _ _ _ E). cbv beta iota. unfold opendir_post.
  destruct (path_spec _ _ _) as [cs|]; last first.
  { destruct Hpost as [[= -> ->] ->]. eexists _, _. split; [done|]. by split_and!. }
  destruct Hpost as (_ & _ & [e1 q1] & Hw & [= -> ->]). unfold walk_post in Hw.
  change (k_root (set_temp temp k)) with (k_root k) in Hw.
  destruct (a_walk A O_RDONLY S_IFDIR (k_root k) cs) as [e'|q|d nm] eqn:Hwalk.
  - destruct Hw as [[= -> ->] ->]. apply a_walk_WErr in Hwalk. cbn [fst snd].
    rewrite Z.min_l by lia. rewrite (proj2 (Z.ltb_lt e' 0)) by done.
    eexists _, _. split; [done|]. by split_and!.
  - destruct Hw as [[= -> ->] ->]. cbn [fst snd]. change (0 `min` 0) with 0.
    change (0 <? 0) with false. cbv iota.
    destruct (a_walk_found _ _ _ _ _ _ Hwalk) as (n & Hn & Htype).
    destruct (open_tail_spec (set_temp temp k) A D F oth R base q n) as (e & k' & E' & Hpost); try done.
    + apply Hkt.
    + by apply (vfs_ok_frame k).
    + by apply cwd_ok_temp.
    + unfold S_ISDIR. by rewrite <- Htype.
    + exists e, k'. split; [done|]. destruct Hpost as (Hk' & Hfr' & Hpost). split; [done|]. split; [|exact Hpost].
      apply (frame_step _ _ _ Hfr Hfr'). intros g y y' Hy Hpos. simpl. rewrite Hy. by intros [= <-].
  - by apply a_walk_nocreat in Hwalk.
Qed.

(** Close() releases exactly the descriptor it is given, or returns
    -EBADF and changes nothing; when the last reference to the file goes, the
    reference of the file to its inode goes too. *)
Theorem sys_close_refines k A D F oth fd :
  proc_ok k A D F oth → oth_slack oth →
  match fd_at (table k) fd with
  | None => sys_close fd k = Ok (- EBADF, k)
  | Some f => ∃ k', sys_close fd k = Ok (0, k') ∧ proc_ok k' A D F oth ∧
      table k' = <[Z.to_nat fd := None]> (table k)
  end.
Proof.
  intros Hk Hs. pose proof (sys_close_spec k A D F oth fd Hk Hs) as H.
  destruct (fd_at (table k) fd); [|exact H]. destruct H as (k' & E & Hk' & Ht & _). eauto.
Qed.

(** dup() (from 0) and fcntl(F_DUPFD) make the lowest free descriptor from
    [newfd] on refer to the same open file and clear its close-on-exec flag,
    or fail with -EBADF or -EMFILE and change nothing. *)
Theorem sys_dup_scan_refines k A D F oth oldfd newfd :
  proc_ok k A D F oth → oth_slack oth →
  match fd_at (table k) oldfd with
  | None => sys_dup_scan oldfd newfd k = Ok (- EBADF, k)
  | Some f =>
      if (newfd <? 0) || (CONFIG_PROC_FD_MAX <=? newfd)
      then sys_dup_scan oldfd newfd k = Ok (- EBADF, k)
      else ∃ e k', sys_dup_scan oldfd newfd k = Ok (e, k') ∧ dup_post k A D F oth f newfd e k'
  end.
Proof. apply sys_dup_scan_spec. Qed.

(** Dup2() makes [newfd] refer to the file of [oldfd], after it released
    the file that was open there, even when the two descriptors share it; with
    equal descriptors it does nothing. *)
Theorem sys_dup2_refines k A D F oth oldfd newfd :
  proc_ok k A D F oth → oth_slack oth →
  match fd_at (table k) oldfd with
  | None => sys_dup2 oldfd newfd k = Ok (- EBADF, k)
  | Some f =>
      if (newfd <? 0) || (CONFIG_PROC_FD_MAX <=? newfd)
      then sys_dup2 oldfd newfd k = Ok (- EBADF, k)
      else if newfd =? oldfd then sys_dup2 oldfd newfd k = Ok (newfd, k)
      else ∃ k', sys_dup2 oldfd newfd k = Ok (newfd, k') ∧ proc_ok k' A D F oth ∧
             table k' = <[Z.to_nat newfd := Some f]> (table k) ∧
             p_cloexec (k_proc k') = <[Z.to_nat newfd := 0]> (p_cloexec (k_proc k))
  end.
Proof. apply sys_dup2_spec. Qed.

(** C10: opendir() resolves the path, and opens the directory on the lowest
    free descriptor with a new open file at position 0, or returns the error
    of the walk, -ENFILE when the file table is full, or -EMFILE when the
    descriptor table is full; on each failure the references that it took are
    released. *)
Theorem sys_opendir_refines k A D F oth base pathname p :
  proc_ok k A D F oth → oth_slack oth → cwd_ok k base → cstring pathname p → p ≠ [] →
  ∃ e k', sys_opendir (Some pathname) k = Ok (e, k') ∧
    opendir_post k A D F oth (path_spec CONFIG_PATH_MAX base p) e k'.
Proof. apply sys_opendir_spec. Qed.
End Spec.
