(* ===== verification/DirSpec.v ===== *)
(** Reading a directory of the RAM filesystem: ramfs_dir_read() returns the
    entries, in order, as struct dirent. *)
From S2P Require Import Prelude CDefs Util PathRes Sched Kern BufCache Inode Fat.
From S2P Require Import Devices Ramfs Vfs File FsCalls FileSpec.

(** The struct dirent of an entry, from the abstract inode table. *)
Definition a_dirent (A : afs) (e : list Z * Z) : dirent :=
  let n := default (ANode 0 0 0 []) (A !! e.2) in
  let type := Z.land (a_mode n) S_IFMT in
  Dirent (if (type =? S_IFCHR) || (type =? S_IFBLK) then a_data n else 0)
    (a_mtime n) (a_mode n) (u8 (Z.shiftr (a_mode n) 12))
    (e.1 ++ replicate (16 - length e.1) 0).

Lemma dirent_bytes_length d : zlen (de_name d) = 16 → zlen (dirent_bytes d) = sizeof_dirent.
Proof.
  intros Hl. unfold dirent_bytes, bytes32, bytes16. rewrite !zlen_app, Hl. done.
Qed.

Section Spec.
Context {SD : sdcard} {CC : console_config}.
Implicit Types (k : kern) (A : afs) (D : gmap Z (list Z)) (F : list Z) (R : gmap Z Z).

Lemma dir_seek_spec k fuel p es ds n :
  dir_rep (k_bufs k) p es ds → (length es < fuel)%nat →
  ∃ p', dir_seek fuel p (Z.of_nat n) k = Ok (p', k) ∧
    dir_rep (k_bufs k) p' (drop n es) (drop n ds).
Proof.
  revert p es ds n. induction fuel as [|fuel IH]; intros p es ds n Hd Hf; [lia|].
  cbn [dir_seek]. destruct es as [|[nm q] es], ds as [|d ds]; try done.
  { simpl in Hd. subst p. exists 0. rewrite !drop_nil. done. }
  pose proof Hd as (-> & Hd0 & pad & nxt & Hb & Hl & Hr). rewrite (proj2 (Z.eqb_neq d 0) Hd0). simpl.
  destruct n as [|n]; [by exists d|]. rewrite (proj2 (Z.ltb_lt 0 _)) by lia.
  destruct (IH nxt es ds n Hr) as (p' & E & Hr'); [simpl in Hf; lia|]. exists p'. split; [|done].
  mstep by (by apply get_dirent_ok). simpl. by replace (Z.of_nat (S n) - 1) with (Z.of_nat n) by lia.
Qed.

(** The entry and the inode that a pointer into a directory names. *)
Lemma ramfs_fill_dirent_spec k A D F R nm q pad nxt n :
  vfs_ok k A D F R → A !! q = Some n → zlen (nm ++ pad) = RAMFS_MAX_NAME →
  ∃ i, get_inode q k = Ok (i, k) ∧
    ramfs_fill_dirent (RamfsDirent (zlen nm) (nm ++ pad) q nxt) i = Ok (a_dirent A (nm, q)).
Proof.
  intros Hk Hn Hl. destruct (node_inode _ _ _ _ _ _ _ Hk Hn) as (u0 & Hi & Hd).
  eexists. split; [by apply get_inode_ok|]. unfold ramfs_fill_dirent, a_dirent.
  cbn [i_mode i_mtime i_u0 i_u1 d_name d_namelen fst snd]. rewrite Hn. cbn [default].
  rewrite memcpy_zeroes by (unfold RAMFS_MAX_NAME in Hl; len_lia). simpl. do 2 f_equal.
  unfold S_ISDIR, S_IFMT, S_IFREG, S_IFLNK, S_IFCHR, S_IFBLK, S_IFDIR in *.
  set (t := Z.land (a_mode n) 61440) in *.
  clearbody t.
  destruct (Z.eqb_spec t 8192) as [E1|E1], (Z.eqb_spec t 24576) as [E2|E2]; try lia;
    rewrite ?E1, ?E2 in *; simpl in *.
  all: try (destruct Hd as (-> & _); done).
  all: destruct (_ || _); done.
Qed.

Lemma a_dirent_length A nm q : zlen nm ≤ 16 → zlen (dirent_bytes (a_dirent A (nm, q))) = sizeof_dirent.
Proof. intros Hl. apply dirent_bytes_length. simpl. len_lia. Qed.

(** The bytes of a list of entries. *)
Definition dirents_bytes A (es : list (list Z * Z)) : list Z :=
  concat (dirent_bytes ∘ a_dirent A <$> es).

Lemma ramfs_dir_read_loop_spec k A D F R fuel p es ds b1 b2 size result count :
  vfs_ok k A D F R → dir_rep (k_bufs k) p es ds → (length es < fuel)%nat →
  (∀ nm q, (nm, q) ∈ es → is_Some (A !! q)) →
  0 ≤ size ≤ zlen b2 → size < 65536 →
  0 ≤ result → result + sizeof_dirent * zlen es < 32768 → 0 ≤ count → count + zlen es < 65536 →
  let out := take (Z.to_nat (size / sizeof_dirent)) es in
  ramfs_dir_read_loop fuel p (b1 ++ b2) (zlen b1) size result count k
  = Ok ((result + sizeof_dirent * zlen out, count + zlen out,
         b1 ++ dirents_bytes A out ++ drop (Z.to_nat (sizeof_dirent * zlen out)) b2), k).
Proof.
  intros Hk. revert p es ds b1 b2 size result count.
  induction fuel as [|fuel IH]; intros p es ds b1 b2 size result count Hd Hf HA Hs Hs2 Hr1 Hr2 Hc1 Hc2 out; [lia|].
  cbn [ramfs_dir_read_loop]. unfold sizeof_dirent in *.
  destruct es as [|[nm q] es], ds as [|d ds]; try done.
  { simpl in Hd. subst p out. rewrite take_nil. simpl. by rewrite !Z.add_0_r. }
  pose proof Hd as (-> & Hd0 & pad & nxt & Hb & Hl & Hr). rewrite (proj2 (Z.eqb_neq d 0) Hd0). cbn [orb].
  rewrite zlen_cons in *. pose proof (zlen_nonneg es).
  destruct (Z.ltb_spec size 27) as [Hlt|Hge].
  { assert (out = []) as ->. { unfold out. by rewrite Z.div_small by lia. }
    simpl. by rewrite !Z.add_0_r. }
  destruct (HA nm q ltac:(by left)) as [n Hn].
  destruct (ramfs_fill_dirent_spec _ _ _ _ _ nm q pad nxt n Hk Hn Hl) as (i & Ei & Ef).
  assert (zlen nm ≤ 16) as Hnm by (unfold RAMFS_MAX_NAME in Hl; len_lia).
  pose proof (a_dirent_length A nm q Hnm) as Hlen. unfold sizeof_dirent in Hlen.
  mstep by (by apply get_dirent_ok). cbn [d_inode d_next]. mstep by exact Ei.
  mstep by (unfold lift; rewrite Ef; reflexivity).
  rewrite <- (take_drop 27 b2) at 1. set (bs := dirent_bytes (a_dirent A (nm, q))) in *.
  pose proof (memcpy_app_at b1 (take 27 b2) (drop 27 b2) bs []) as Hcp. rewrite app_nil_r, Hlen in Hcp.
  mstep by (unfold lift; rewrite Hcp; [reflexivity|unfold zlen in *; rewrite length_take; lia]).
  rewrite (u16_small (size - 27)), s16_small, (u16_small (count + 1)) by lia.
  rewrite app_assoc. replace (zlen b1 + 27) with (zlen (b1 ++ bs)) by (rewrite zlen_app; lia).
  assert (out = (nm, q) :: take (Z.to_nat ((size - 27) / 27)) es) as ->.
  { unfold out. replace (size / 27) with ((size - 27) / 27 + 1).
    - assert (0 ≤ (size - 27) / 27) by (apply Z.div_pos; lia).
      replace (Z.to_nat ((size - 27) / 27 + 1)) with (S (Z.to_nat ((size - 27) / 27))) by lia. done.
    - rewrite <- (Z.div_add _ 1) by lia. f_equal. lia. }
  rewrite (IH nxt es ds); try done; try lia; [|simpl in Hf; lia| |].
  - rewrite zlen_cons, drop_drop. set (l := take _ es). pose proof (zlen_nonneg l).
    replace (27 + Z.to_nat (27 * zlen l))%nat with (Z.to_nat (27 * (zlen l + 1))) by lia.
    unfold dirents_bytes. rewrite fmap_cons. cbn [concat]. rewrite <- !app_assoc.
    f_equal. f_equal. f_equal. f_equal; lia.
  - intros nm' q' ?. apply (HA nm'). by right.
  - unfold zlen in *. rewrite length_drop. lia.
Qed.

(** The entries that a read of [size] bytes at position [posn] returns. *)
Definition dir_window (n : anode) (posn size : Z) : list (list Z * Z) :=
  take (Z.to_nat (size / sizeof_dirent)) (drop (Z.to_nat (u16 posn)) (a_entries n)).

(** The state in which the directory of the file [f] has been read up to [posn]. *)
Definition at_posn k (f : nat) (x : file) (posn : Z) : kern :=
  set_files (<[f := fset_posn posn x]> (k_files k)) k.

Lemma ramfs_dir_read_spec k A D F R f x n data size :
  vfs_ok k A D F R → k_files k !! f = Some x →
  A !! f_inode x = Some n → S_ISDIR (a_mode n) = true →
  0 ≤ size < 65536 → size ≤ zlen data →
  let out := dir_window n (f_posn x) size in
  ramfs_dir_read f data size k
  = Ok ((sizeof_dirent * zlen out,
         dirents_bytes A out ++ drop (Z.to_nat (sizeof_dirent * zlen out)) data),
        at_posn k f x (s32 (f_posn x + zlen out))).
Proof.
  intros Hk Hf Hn Hdir Hs Hd out. unfold ramfs_dir_read.
  set (posn := u16 (f_posn x)). assert (0 ≤ posn < 65536) as Hp by (apply Z.mod_pos_bound; lia).
  destruct (node_inode _ _ _ _ _ _ _ Hk Hn) as (u0 & Hi & Hrep). rewrite Hdir in Hrep.
  pose proof (dirents_length _ _ _ _ _ _ _ Hk Hn) as Hlen.
  destruct (dir_seek_spec k list_fuel u0 (a_entries n) (D !!! f_inode x) (Z.to_nat posn))
    as (p' & Es & Hr'); [apply Hrep|done|].
  mstep by (by apply get_file_ok). mstep by (by apply get_inode_ok). cbn [i_u0].
  rewrite Z2Nat.id in Es by lia. mstep by exact Es.
  set (es := drop _ (a_entries n)) in *.
  assert (length es ≤ 100)%nat as Hes.
  { unfold es. rewrite length_drop. unfold list_fuel, CONFIG_NUM_BUFFERS in Hlen. lia. }
  assert (zlen out ≤ 100) as Ho.
  { unfold out, dir_window, zlen. rewrite length_take. fold posn es. lia. }
  pose proof (ramfs_dir_read_loop_spec k A D F R list_fuel p' es _ [] data size 0 0 Hk Hr') as El.
  change (zlen []) with 0 in El. cbn [app] in El. rewrite !Z.add_0_l in El.
  assert (∀ nm q, (nm, q) ∈ es → is_Some (A !! q)) as Hch.
  { intros nm q [i Hq]%list_elem_of_lookup. unfold es in Hq. rewrite lookup_drop in Hq.
    apply list_elem_of_lookup_2 in Hq.
    by destruct (vo_child _ _ _ _ _ Hk _ _ _ _ Hn Hq). }
  unfold sizeof_dirent, zlen in El.
  specialize (El ltac:(unfold list_fuel, CONFIG_NUM_BUFFERS; lia) Hch ltac:(unfold zlen in Hd; lia)
                ltac:(lia) ltac:(lia) ltac:(lia) ltac:(lia) ltac:(lia)).
  mstep by exact El. by mstep by (by apply upd_file_ok).
Qed.

(** ** read() on the descriptor of a directory *)

Lemma sys_read_dir_spec k A D F oth fd f x n data size :
  proc_ok k A D F oth → oth_slack oth →
  fd_at (p_fd (k_proc k)) fd = Some f → k_files k !! f = Some x → f_op x = FopRamDir →
  A !! f_inode x = Some n → 0 ≤ size < 65536 → size ≤ zlen data →
  let out := dir_window n (f_posn x) size in
  sys_read fd (Some data) size k
  = Ok ((sizeof_dirent * zlen out,
         Some (dirents_bytes A out ++ drop (Z.to_nat (sizeof_dirent * zlen out)) data)),
        at_posn k f x (s32 (f_posn x + zlen out))).
Proof.
  intros Hk Ho Hfd Hx Hop Hn Hs Hd out.
  pose proof Hk as [Hf (R & Hv & _ & _) _]. pose proof (fo_fdlen _ _ _ _ Hf) as Hl.
  destruct (fd_at_Some _ _ _ Hfd) as [_ Hslot].
  destruct (slot_count _ _ _ _ _ _ _ _ Hk Ho Hslot) as (x' & Hx' & Hc).
  rewrite Hx in Hx'. injection Hx' as <-. pose proof (lookup_lt_Some _ _ _ Hx) as Hlt.
  assert (S_ISDIR (a_mode n) = true) as Hdir.
  { destruct (fo_live _ _ _ _ Hf f x Hx) as [(_ & n' & Hn' & Hd')|[Hin _]]; [lia|congruence|].
    rewrite Hop in Hin. by repeat (apply elem_of_cons in Hin as [?|Hin]; [done|]); apply elem_of_nil in Hin. }
  set (x1 := fset_count (f_count x + 1) x). set (k1 := set_files (<[f := x1]> (k_files k)) k).
  assert (k_files k1 !! f = Some x1) as Hx1 by (simpl; by rewrite list_lookup_insert_eq).
  pose proof (ramfs_dir_read_spec k1 A D F R f x1 n data size (vfs_ok_frame k k1 A D F R eq_refl eq_refl eq_refl Hv)
                Hx1 Hn Hdir Hs Hd) as Er. change (f_posn x1) with (f_posn x) in Er. fold out in Er.
  unfold sys_read. mstep by (rewrite file_get_spec, Hfd by done; reflexivity).
  mstep by (unfold file_ref; rewrite (upd_file_ok _ _ x), s8_small by (done || lia); reflexivity).
  fold x1 k1. unfold fop_read.
  mstep by (mstep by (by apply get_file_ok); change (f_op x1) with (f_op x); rewrite Hop; exact Er).
  cbv beta iota. set (po := s32 (f_posn x + zlen out)). set (x2 := fset_posn po x1). set (k2 := at_posn k1 f x1 po).
  assert (k_files k2 !! f = Some x2) as Hx2.
  { simpl. rewrite list_lookup_insert_eq; [done|]. by rewrite length_insert. }
  mstep by (unfold file_deref; mstep by (by apply (upd_file_ok _ _ x2));
    rewrite s8_small by (simpl; lia); mstep by (apply get_file_ok; simpl;
      rewrite list_lookup_insert_eq; [reflexivity|by rewrite !length_insert]);
    cbn [f_count fset_count x2 fset_posn x1]; rewrite (proj2 (Z.leb_gt _ 0)) by lia; reflexivity).
  unfold at_posn. simpl. rewrite !list_insert_insert_eq. unfold po.
  unfold fset_count, fset_posn. simpl. by replace (f_count x + 1 - 1) with (f_count x) by lia.
Qed.

Lemma proc_ok_posn k A D F oth f x posn :
  proc_ok k A D F oth → k_files k !! f = Some x → proc_ok (at_posn k f x posn) A D F oth.
Proof.
  intros [Hf (R & Hv & Hs & HR) [base Hc]] Hx. pose proof (lookup_lt_Some _ _ _ Hx) as Hlt. split.
  - split; simpl; try apply Hf.
    + unfold zlen. rewrite length_insert. apply Hf.
    + intros g y. rewrite list_lookup_insert_Some. intros [(<- & <- & _)|[_ Hy]]; [|by apply Hf].
      apply (fo_count _ _ _ _ Hf f x Hx).
    + intros g y. rewrite list_lookup_insert_Some. intros [(<- & <- & _)|[_ Hy]]; [|by eapply fo_live].
      apply (fo_live _ _ _ _ Hf f x Hx).
    + intros i g Hg. destruct (fo_fd _ _ _ _ Hf i g Hg) as [y Hy].
      rewrite list_lookup_insert_is_Some. eauto.
  - exists R. split_and!; [by apply (vfs_ok_frame k)|done|]. intros p Hp. simpl. rewrite HR by done.
    rewrite (open_refs_insert _ _ _ x) by done. unfold open_ind. simpl. lia.
  - by exists base.
Qed.

(** read() on the descriptor of a directory returns whole entries: as many
    as fit in the buffer of those from the position of the file on, in the
    order of creation, each the struct dirent of its inode; the rest of the
    buffer and every other part of the state keep their values, and the
    position advances by the number of entries. *)
Theorem sys_read_dir_refines k A D F oth fd f x n data size :
  proc_ok k A D F oth → oth_slack oth →
  fd_at (p_fd (k_proc k)) fd = Some f → k_files k !! f = Some x → f_op x = FopRamDir →
  A !! f_inode x = Some n → 0 ≤ size < 65536 → size ≤ zlen data →
  let out := dir_window n (f_posn x) size in
  let k' := at_posn k f x (s32 (f_posn x + zlen out)) in
  sys_read fd (Some data) size k
  = Ok ((sizeof_dirent * zlen out,
         Some (dirents_bytes A out ++ drop (Z.to_nat (sizeof_dirent * zlen out)) data)), k') ∧
  proc_ok k' A D F oth.
Proof. intros. split; [by eapply sys_read_dir_spec|by apply proc_ok_posn]. Qed.

(** A client that reads a directory to its end, [size] bytes at a time. *)
Fixpoint read_to_end (fuel : nat) (fd : Z) (buf : list Z) (size : Z) : M kern (list Z) :=
  match fuel with
  | O => fail FFuel
  | S fuel =>
      '(r, b) ← sys_read fd (Some buf) size;
      if r <=? 0 then mret []
      else
        let b := default [] b in
        rest ← read_to_end fuel fd b size;
        mret (take (Z.to_nat r) b ++ rest)
  end.

Lemma dir_rep_names B p es ds nm q : dir_rep B p es ds → (nm, q) ∈ es → zlen nm ≤ RAMFS_MAX_NAME.
Proof.
  revert p ds. induction es as [|[nm' q'] es IH]; intros p [|d ds] Hd Hin; try done;
    [by apply elem_of_nil in Hin..|].
  destruct Hd as (_ & _ & pad & nxt & _ & Hl & Hr).
  apply elem_of_cons in Hin as [[= -> ->]|Hin]; [|by eapply IH]. rewrite <- Hl. len_lia.
Qed.

Lemma dirents_bytes_length A es :
  (∀ nm q, (nm, q) ∈ es → zlen nm ≤ RAMFS_MAX_NAME) →
  zlen (dirents_bytes A es) = sizeof_dirent * zlen es.
Proof.
  induction es as [|[nm q] es IH]; intros Hes; [done|].
  unfold dirents_bytes. rewrite fmap_cons. cbn [concat]. rewrite zlen_app, zlen_cons.
  unfold compose at 1. rewrite a_dirent_length.
  - fold (dirents_bytes A es). rewrite IH; [unfold sizeof_dirent; lia|]. intros nm' q' ?.
    apply (Hes nm' q'). by right.
  - pose proof (Hes nm q ltac:(by left)). unfold RAMFS_MAX_NAME in *. lia.
Qed.

Lemma node_names k A D F R p n nm q :
  vfs_ok k A D F R → A !! p = Some n → (nm, q) ∈ a_entries n → zlen nm ≤ RAMFS_MAX_NAME.
Proof.
  intros Hk Hn Hin. destruct (node_inode _ _ _ _ _ _ _ Hk Hn) as (u0 & _ & Hd).
  destruct (S_ISDIR (a_mode n)); [by eapply dir_rep_names; [apply Hd|]|].
  destruct Hd as (_ & E & _). rewrite E in Hin. by apply elem_of_nil in Hin.
Qed.

Lemma read_to_end_spec fuel k A D F oth fd f x n buf size i :
  proc_ok k A D F oth → oth_slack oth →
  fd_at (p_fd (k_proc k)) fd = Some f → k_files k !! f = Some x → f_op x = FopRamDir →
  A !! f_inode x = Some n → sizeof_dirent ≤ size < 65536 → size ≤ zlen buf →
  f_posn x = Z.of_nat i → (i ≤ length (a_entries n))%nat → (length (a_entries n) < i + fuel)%nat →
  ∃ k', read_to_end fuel fd buf size k = Ok (dirents_bytes A (drop i (a_entries n)), k') ∧
    proc_ok k' A D F oth.
Proof.
  revert k x buf i. induction fuel as [|fuel IH]; intros k x buf i Hk Ho Hfd Hx Hop Hn Hs Hb Hi Hle Hf; [lia|].
  cbn [read_to_end]. pose proof Hk as [Hfi (R & Hv & _ & _) _].
  pose proof (dirents_length _ _ _ _ _ _ _ Hv Hn) as Hlen. unfold list_fuel, CONFIG_NUM_BUFFERS in Hlen.
  mstep by (eapply (sys_read_dir_spec k A D F oth fd f x n); try done; unfold sizeof_dirent in *; lia).
  cbv beta iota. cbn [default]. set (out := dir_window n (f_posn x) size).
  assert (out = take (Z.to_nat (size / sizeof_dirent)) (drop i (a_entries n))) as Eo.
  { unfold out, dir_window. rewrite Hi, u16_small by lia. by rewrite Nat2Z.id. }
  assert (1 ≤ size / sizeof_dirent) as Hq by (apply Z.div_le_lower_bound; unfold sizeof_dirent in *; lia).
  assert (zlen out ≤ 100) as Hol by (rewrite Eo; unfold zlen; rewrite length_take, length_drop; lia).
  pose proof (zlen_nonneg out). pose proof (proc_ok_posn _ _ _ _ _ f x (s32 (f_posn x + zlen out)) Hk Hx) as Hk1.
  destruct (Z.leb_spec (sizeof_dirent * zlen out) 0) as [H0|H0]; unfold sizeof_dirent in H0.
  - eexists. split; [|exact Hk1]. assert (drop i (a_entries n) = []) as ->; [|done].
    rewrite Eo in H0. unfold zlen in H0. rewrite length_take in H0.
    apply length_zero_iff_nil. rewrite length_drop in *. lia.
  - set (buf1 := dirents_bytes A out ++ _).
    assert (∀ nm q, (nm, q) ∈ out → zlen nm ≤ RAMFS_MAX_NAME) as Hnames.
    { intros nm q Hin. rewrite Eo in Hin. apply list_elem_of_lookup in Hin as [j Hj].
      apply lookup_take_Some in Hj as [Hj _]. rewrite lookup_drop in Hj.
      eapply node_names; [exact Hv|exact Hn|]. by eapply list_elem_of_lookup_2. }
    pose proof (dirents_bytes_length A out Hnames) as Hbl.
    assert (sizeof_dirent * zlen out ≤ size) as Hfit.
    { assert (zlen out ≤ size / sizeof_dirent) by (rewrite Eo; unfold zlen; rewrite length_take; lia).
      pose proof (Z.mul_div_le size sizeof_dirent). unfold sizeof_dirent in *. lia. }
    destruct (IH (at_posn k f x (s32 (f_posn x + zlen out))) (fset_posn (s32 (f_posn x + zlen out)) x)
                buf1 (i + length out)%nat) as (k' & E & Hk'); try done.
    + simpl. apply list_lookup_insert_eq. by eapply lookup_lt_Some.
    + unfold buf1, zlen in *. rewrite length_app, length_drop. lia.
    + simpl. rewrite Hi, s32_small by lia. unfold zlen. lia.
    + rewrite Eo, length_take, length_drop. lia.
    + unfold zlen in H0. lia.
    + exists k'. split; [|done]. mstep by exact E.
      replace (Z.to_nat (sizeof_dirent * zlen out)) with (length (dirents_bytes A out)) by (unfold zlen in *; lia).
      unfold buf1, id. rewrite take_app_length. unfold dirents_bytes. rewrite <- concat_app, <- fmap_app.
      assert (out ++ drop (i + length out) (a_entries n) = drop i (a_entries n)) as ->; [|done].
      rewrite <- (take_drop (Z.to_nat (size / sizeof_dirent)) (drop i (a_entries n))) at 1.
      rewrite <- Eo, drop_drop. f_equal.
      destruct (decide (Z.to_nat (size / sizeof_dirent) ≤ length (drop i (a_entries n)))%nat).
      * f_equal. rewrite Eo, length_take. lia.
      * rewrite !drop_ge; [done|..]; rewrite ?Eo, ?length_take, ?length_drop in *; lia.
Qed.

(** C11: reading a freshly opened directory to its end terminates and returns
    every entry of the directory exactly once, in the order of creation,
    whatever the size of the buffer, as long as one entry fits. *)
Theorem sys_read_dir_complete k A D F oth fd f x n buf size :
  proc_ok k A D F oth → oth_slack oth →
  fd_at (p_fd (k_proc k)) fd = Some f → k_files k !! f = Some x → f_op x = FopRamDir →
  f_posn x = 0 → A !! f_inode x = Some n → sizeof_dirent ≤ size < 65536 → size ≤ zlen buf →
  ∃ k', read_to_end list_fuel fd buf size k = Ok (dirents_bytes A (a_entries n), k') ∧
    proc_ok k' A D F oth.
Proof.
  intros Hk Ho Hfd Hx Hop H0 Hn Hs Hb.
  assert (length (a_entries n) < list_fuel)%nat.
  { destruct Hk as [_ (R & Hv & _) _]. by eapply dirents_length. }
  by apply (read_to_end_spec list_fuel k A D F oth fd f x n buf size 0); try done; lia.
Qed.
End Spec.
