(* ===== verification/FatFile.v ===== *)
(** The FAT filesystem on a card: what the calls of the filesystem do as a whole.

    Reading a directory is a listing of the entries of the card's block; a lookup
    is the search of [FatDir] with the checks around it; a mount and a new inode
    take buffers from the cache or leave it as it was; and a file that has been
    opened reads as empty. *)
From S2P Require Import Prelude CDefs Sched Kern BufCache Inode Fat FatSpec FatDir Devices Ramfs File Vfs.
From S2P Require Import FsCalls FileSpec DirSpec SdCard SdSpec SdDetect SdCache SdSim.

(** ** Entries as the program sees them *)

(** The characters before the padding. *)
Fixpoint until_space (l : list Z) : list Z :=
  match l with
  | [] => []
  | c :: l => if c =? CH_SPACE then [] else c :: until_space l
  end.

(** The name of an entry, whatever its bytes. *)
Definition shown_name (name : list Z) : list Z :=
  if nth 0 name 0 =? CH_DOT then if nth 1 name 0 =? CH_DOT then [CH_DOT; CH_DOT] else [CH_DOT]
  else map lower (until_space (take 8 name)) ++
       if nth 8 name 0 =? CH_SPACE then [] else CH_DOT :: map lower (until_space (drop 8 name)).

(** The directory entry structure for an entry of the card. *)
Definition entry_mode (e : fat_dir_entry) : Z :=
  Z.lor (if has_bits (fe_attrs e) FAT_ATTR_READ_ONLY then MODE_0555 else MODE_0755)
    (if has_bits (fe_attrs e) FAT_ATTR_DIRECTORY then S_IFDIR else S_IFREG).

Record shows (e : fat_dir_entry) (d : dirent) : Prop := {
  sh_ino : de_ino d = fe_size e;
  sh_mtime : de_mtime d = 0;
  sh_mode : de_mode d = entry_mode e;
  sh_type : de_type d = if has_bits (fe_attrs e) FAT_ATTR_DIRECTORY then DT_DIR else DT_REG;
  sh_name : ∃ junk, de_name d = shown_name (fe_name e) ++ NUL :: junk;
  sh_length : zlen (de_name d) = DIRENT_NAME_MAX;
}.

Lemma until_space_length l : (length (until_space l) ≤ length l)%nat.
Proof. induction l as [|c l IH]; simpl; [done|]. destruct (c =? CH_SPACE); simpl; lia. Qed.

Lemma fat_convert_name_total o1 o2 l len :
  (len ≤ length l)%nat → (len ≤ length o2)%nat → zlen o1 + Z.of_nat len < 256 →
  let w := map lower (until_space (take len l)) in
  fat_convert_name (o1 ++ o2) (zlen o1) l len = Ok (zlen (o1 ++ w), (o1 ++ w) ++ drop (length w) o2).
Proof.
  revert o1 o2 l. induction len as [|len IH]; intros o1 o2 l Hl Ho Hb; cbn zeta.
  { by destruct l; cbn; rewrite app_nil_r, drop_0. }
  destruct l as [|c l]; simpl in Hl; [lia|]. destruct o2 as [|v o2]; simpl in Ho; [lia|].
  cbn [fat_convert_name take until_space]. destruct (c =? CH_SPACE); [by cbn; rewrite app_nil_r|].
  rewrite wr_app_at. cbn [mbind res_bind]. pose proof (zlen_nonneg o1). rewrite u8_small by lia.
  change (if (65 <=? c) && (c <=? 90) then Z.lxor c 0x20 else c) with (lower c).
  rewrite (cons_middle (lower c) o1 o2), app_assoc.
  replace (zlen o1 + 1) with (zlen (o1 ++ [lower c])) by (by rewrite zlen_app).
  rewrite IH by (rewrite ?zlen_app; unfold zlen in *; simpl; lia). cbn [map length drop].
  by rewrite <- !app_assoc.
Qed.

Lemma rd_nth (l : list Z) i : (i < length l)%nat → rd l (Z.of_nat i) = Ok (nth i l 0).
Proof.
  intros Hi. apply rd_lookup. split; [lia|]. rewrite Nat2Z.id.
  destruct (nth_lookup_or_length l i 0); [done|lia].
Qed.

(** Cutting the first character off a buffer that is long enough. *)
Lemma wr_end (o1 o2 : list Z) v : o2 ≠ [] → wr (o1 ++ o2) (zlen o1) v = Ok (o1 ++ v :: drop 1 o2).
Proof. destruct o2; [done|]. intros _. by rewrite wr_app_at. Qed.

Lemma convert_dirent_name_total out name :
  length name = 11%nat → length out = 16%nat →
  ∃ junk, convert_dirent_name out name = Ok (shown_name name ++ NUL :: junk) ∧
          length (shown_name name ++ NUL :: junk) = 16%nat.
Proof.
  intros Hn Ho. unfold convert_dirent_name, shown_name.
  pose proof (rd_nth name 0) as R0. pose proof (rd_nth name 1) as R1. pose proof (rd_nth name 8) as R8.
  change (Z.of_nat 0) with 0 in R0. change (Z.of_nat 1) with 1 in R1. change (Z.of_nat 8) with 8 in R8.
  rewrite R0 by lia. cbn [mbind res_bind].
  destruct (nth 0 name 0 =? CH_DOT); cbn [negb].
  - do 16 (destruct out as [|? out]; [done|]). destruct out; [|done].
    rewrite R1 by lia. cbn. destruct (nth 1 name 0 =? CH_DOT); cbn; by eexists.
  - pose proof (fat_convert_name_total [] out name 8 ltac:(lia) ltac:(lia) ltac:(done)) as E1.
    cbn zeta in E1. change (zlen (@nil Z)) with 0 in E1. cbn [app] in E1.
    set (w := map lower (until_space (take 8 name))) in *.
    assert (length w ≤ 8)%nat as Hw.
    { unfold w. rewrite length_map. etrans; [apply until_space_length|]. rewrite length_take. lia. }
    rewrite E1. cbn [mbind res_bind]. rewrite R8 by lia. cbn [mbind res_bind].
    destruct (nth 8 name 0 =? CH_SPACE); cbn [negb].
    + rewrite wr_end by (intros E; apply (f_equal length) in E; rewrite length_drop in E; simpl in E; lia).
      eexists. rewrite app_nil_r. split; [done|]. rewrite length_app. simpl. rewrite !length_drop. lia.
    + rewrite wr_end by (intros E; apply (f_equal length) in E; rewrite length_drop in E; simpl in E; lia).
      cbn [mbind res_bind]. rewrite u8_small by (unfold zlen; lia).
      rewrite (cons_middle CH_DOT w), app_assoc.
      replace (zlen w + 1) with (zlen (w ++ [CH_DOT])) by (by rewrite zlen_app).
      set (o2 := drop 1 _). assert (length o2 = 15 - length w)%nat as Ho2 by (unfold o2; rewrite !length_drop; lia).
      rewrite fat_convert_name_total; [|rewrite length_drop; lia|lia|rewrite zlen_app; unfold zlen; simpl; lia].
      rewrite (take_ge (drop 8 name)) by (rewrite length_drop; lia).
      set (x := map lower (until_space (drop 8 name))). cbn [mbind res_bind].
      assert (length x ≤ 3)%nat as Hx.
      { unfold x. rewrite length_map. etrans; [apply until_space_length|]. rewrite length_drop. lia. }
      rewrite wr_end by (intros E; apply (f_equal length) in E; rewrite length_drop in E; simpl in E; lia).
      eexists. rewrite <- !app_assoc. cbn [app]. split; [done|].
      rewrite !length_app. cbn [length]. rewrite !length_app. cbn [length]. rewrite !length_drop. lia.
Qed.

(** An entry is passed over when it is deleted or hidden. *)
Definition entry_hidden (e : fat_dir_entry) : bool :=
  (nth 0 (fe_name e) 0 =? FAT_DIR_DELETED) || has_bits (fe_attrs e) FAT_ATTR_BLOCKED.

Lemma fat_convert_dirent_spec old e :
  length (fe_name e) = 11%nat → length (de_name old) = 16%nat →
  nth 0 (fe_name e) 0 ≠ FAT_DIR_END →
  if entry_hidden e then fat_convert_dirent old e = Ok (0, old)
  else ∃ d, fat_convert_dirent old e = Ok (1, d) ∧ shows e d.
Proof.
  intros Hn Ho H0. unfold fat_convert_dirent, entry_hidden.
  pose proof (rd_nth (fe_name e) 0) as R0. change (Z.of_nat 0) with 0 in R0. rewrite R0 by lia. cbn [mbind res_bind].
  rewrite (proj2 (Z.eqb_neq _ FAT_DIR_END) H0). cbn [orb].
  destruct (_ =? FAT_DIR_DELETED); [done|]. destruct (has_bits (fe_attrs e) FAT_ATTR_BLOCKED); [done|]. cbn [orb].
  destruct (convert_dirent_name_total (de_name old) (fe_name e) Hn Ho) as (junk & E & Hl).
  rewrite E. cbn [mbind res_bind]. eexists. split; [reflexivity|].
  split; cbn [de_ino de_mtime de_mode de_type de_name]; try done; [by exists junk|].
  unfold zlen. by rewrite Hl.
Qed.

(** ** The listing of a directory

    The entries of a block from an offset on, as far as there is room for them:
    those that the program sees, how many entries were passed, and what ended the
    listing: no room, the end of the directory, or the last entry of the block. *)
Inductive list_stop := LFull | LEnd | LLast.

#[export] Instance list_stop_eq_dec : EqDecision list_stop.
Proof. solve_decision. Defined.

Fixpoint dir_listing (n room : nat) (o : Z) (block : list Z) : res (list fat_dir_entry * Z * list_stop) :=
  match room, n with
  | O, _ => Ok ([], 0, LFull)
  | _, O => Ok ([], 0, LLast)
  | S room', S n =>
      e ← fat_entry_at block o;
      if nth 0 (fe_name e) 0 =? FAT_DIR_END then Ok ([], 0, LEnd)
      else if entry_hidden e then
        '(es, c, st) ← dir_listing n room (o + 32) block;
        Ok (es, c + 1, st)
      else
        '(es, c, st) ← dir_listing n room' (o + 32) block;
        Ok (e :: es, c + 1, st)
  end.

Section Reading.
Context {SD : sdcard} (good : sd_state → Prop) (on_card : Z → Prop) (contents : Z → list Z).
Context {BR : block_reader good on_card contents}.
Implicit Types (s : sd_state) (k : kern) (f : nat) (x : file) (i : fatfs_inode_info).

Definition at_offset o i : fatfs_inode_info :=
  FatfsInfo (fi_first_cluster i) (fi_size i) (fi_cluster i) (fi_block i) o (fi_blocks_left i).

(** The state in which an open directory has been read up to a position and an
    offset, and the driver is in the state [s]. *)
Definition fat_at k f x i s (posn offset : Z) : kern :=
  set_sd s (set_bufs (<[f_fatfs_info x := BFatInfo (at_offset offset i)]> (k_bufs k))
    (set_files (<[f := fset_posn posn x]> (k_files k)) k)).

(** An open file of the FAT filesystem with its information block. *)
Record fat_file_at k f x i : Prop := {
  ff_file : k_files k !! f = Some x;
  ff_ne0 : f_fatfs_info x ≠ 0;
  ff_info : k_bufs k !! f_fatfs_info x = Some (BFatInfo i);
}.

Lemma get_info_ok k p i : p ≠ 0 → k_bufs k !! p = Some (BFatInfo i) → get_info p k = Ok (i, k).
Proof. intros Hp Hb. unfold get_info. by mstep by (by apply get_buf_ok). Qed.

Lemma set_info_ok k p i i' : p ≠ 0 → k_bufs k !! p = Some (BFatInfo i) →
  set_info p i' k = Ok ((), set_bufs (<[p := BFatInfo i']> (k_bufs k)) k).
Proof. intros Hp Hb. unfold set_info. by mstep by (by apply (get_info_ok k p i)). Qed.

Lemma fat_at_file k f x i s posn o :
  fat_file_at k f x i → fat_file_at (fat_at k f x i s posn o) f (fset_posn posn x) (at_offset o i).
Proof.
  intros [Hf Hp Hb]. split; [|done|]; simpl.
  - apply list_lookup_insert_eq. by apply lookup_lt_Some in Hf.
  - by rewrite lookup_insert_eq.
Qed.

Lemma fat_at_at k f x i s s' posn o posn' o' :
  fat_at (fat_at k f x i s posn o) f (fset_posn posn x) (at_offset o i) s' posn' o' = fat_at k f x i s' posn' o'.
Proof. unfold fat_at. simpl. rewrite insert_insert_eq, list_insert_insert_eq. by destruct k. Qed.

Lemma fat_at_id k f x i :
  fat_file_at k f x i → fat_at k f x i (k_sd k) (f_posn x) (fi_offset i) = k.
Proof.
  intros [Hf Hp Hb]. unfold fat_at. replace (fset_posn (f_posn x) x) with x by (by destruct x).
  replace (at_offset (fi_offset i) i) with i by (by destruct i).
  rewrite insert_id by done. rewrite list_insert_id by done. by destruct k.
Qed.

Lemma at_offset_id i : at_offset (fi_offset i) i = i.
Proof. by destruct i. Qed.

Lemma fat_at_stored k f x i s o :
  fat_file_at k f x i →
  set_bufs (<[f_fatfs_info x := BFatInfo (at_offset o i)]> (k_bufs (set_sd s k))) (set_sd s k)
  = fat_at k f x i s (f_posn x) o.
Proof.
  intros [Hf Hp Hb]. unfold fat_at. replace (fset_posn (f_posn x) x) with x by (by destruct x).
  rewrite list_insert_id by done. by destruct k.
Qed.

(** The offset that a listing leaves: the entry that ends the directory has been
    taken, the last entry of the block has not. *)
Definition list_offset (o c : Z) (st : list_stop) : Z := o + 32 * (c + if decide (st = LEnd) then 1 else 0).

Lemma entry_name_ok block o e : fat_entry_at block o = Ok e → 0 ≤ o → o + 32 ≤ zlen block → length (fe_name e) = 11%nat.
Proof.
  unfold fat_entry_at. destruct (_ || _); [done|]. intros E Ho Hl.
  destruct (rd block (o + 11)); [|done]. destruct (le16 block (o + 20)); [|done].
  destruct (le16 block (o + 26)); [|done]. destruct (le32 block (o + 28)); [|done].
  injection E as <-. cbn [fe_name]. rewrite length_take, length_drop. unfold zlen in Hl. lia.
Qed.

(** One entry of the block, read through an open directory. *)
Lemma read_entry_file k f x i s' block :
  fat_file_at k f x i → Kern.sd_cache_read block (k_sd k) = Ok (0, s') →
  fi_block i = block → block ≠ 0 → 0 ≤ fi_offset i < 512 →
  on_sd (fatfs_info_read_dirent i) k =
    Ok (if 480 <=? fi_offset i then (- EINVAL, fi_offset i, i)
        else (1, fi_offset i, at_offset ((fi_offset i + 32) mod 512) i), set_sd s' k).
Proof.
  intros Hf E Hb Hne Ho. apply on_sd_ok.
  pose proof (read_dirent_at (k_sd k) s' i 0 ltac:(congruence) Ho ltac:(by rewrite Hb)) as Er.
  cbn [Z.eqb negb] in Er. exact Er.
Qed.

Lemma room_step size : 27 ≤ size → Z.to_nat (size / 27) = S (Z.to_nat ((size - 27) / 27)).
Proof.
  intros H. assert (0 ≤ (size - 27) / 27) by (apply Z.div_pos; lia).
  replace (size / 27) with ((size - 27) / 27 + 1); [lia|]. rewrite <- (Z.div_add _ 1) by lia. f_equal. lia.
Qed.

Definition dirents (ds : list dirent) : list Z := concat (dirent_bytes <$> ds).

Lemma dirents_zlen es ds : Forall2 shows es ds → zlen (dirents ds) = sizeof_dirent * zlen es.
Proof.
  induction 1 as [|e d es ds Hs _ IH]; [done|]. unfold dirents in *. cbn [fmap list_fmap concat].
  rewrite zlen_app, zlen_cons, IH, dirent_bytes_length by (apply (sh_length _ _ Hs)). unfold sizeof_dirent. lia.
Qed.

(** What a round of fatfs_dir_read() makes of an entry: it ends the listing, is
    passed over, or is copied to the buffer. *)
Definition round_result f k k' (e : fat_dir_entry) (b1 b2 : list Z) (size result : Z) (fuel : nat)
    (run : res ((Z * list Z) * kern)) : Prop :=
  if nth 0 (fe_name e) 0 =? FAT_DIR_END then run = Ok ((result, b1 ++ b2), k)
  else if entry_hidden e then run = fatfs_dir_read_loop fuel f (b1 ++ b2) (zlen b1) size result k'
  else ∃ d, shows e d ∧
    run = fatfs_dir_read_loop fuel f ((b1 ++ dirent_bytes d) ++ drop 27 b2) (zlen (b1 ++ dirent_bytes d))
            (size - 27) (result + 27) k'.

Lemma fat_dir_read_round fuel k f x i s' block b1 b2 size result :
  fat_file_at k f x i → Kern.sd_cache_read block (k_sd k) = Ok (0, s') →
  sd_block s' = contents block → zlen (contents block) = 512 → block ≠ 0 → fi_block i = block →
  0 ≤ fi_offset i < 480 → 27 ≤ size < 65536 → size ≤ zlen b2 → 0 ≤ result < 32000 →
  -2147483648 ≤ f_posn x < 2147483600 →
  ∃ e, fat_entry_at (contents block) (fi_offset i) = Ok e ∧
    round_result f (fat_at k f x i s' (f_posn x) (fi_offset i + 32))
      (fat_at k f x i s' (f_posn x + 27) (fi_offset i + 32)) e b1 b2 size result fuel
      (fatfs_dir_read_loop (S fuel) f (b1 ++ b2) (zlen b1) size result k).
Proof.
  intros Hf E0 Hblk Hlen Hne Hb Ho Hs1 Hs2 Hr Hp. pose proof Hf as [Hfile Hp0 Hinfo].
  destruct (fat_entry_total (contents block) (fi_offset i)) as (e & c0 & Ee & Ec); [lia..|].
  exists e. split; [exact Ee|]. pose proof (entry_name_ok _ _ _ Ee ltac:(lia) ltac:(lia)) as Hname.
  pose proof (rd_nth (fe_name e) 0 ltac:(lia)) as Hc0. change (Z.of_nat 0) with 0 in Hc0.
  cbn [fatfs_dir_read_loop]. unfold sizeof_dirent. rewrite (proj2 (Z.ltb_ge size 27)) by lia.
  mstep by (by apply get_file_ok). mstep by (by apply (get_info_ok k _ i)).
  mstep by (by apply (read_entry_file k f x i s' block); [done..|lia]).
  rewrite (proj2 (Z.leb_gt 480 _)), Z.mod_small by lia. cbn beta iota.
  mstep by (by apply (set_info_ok (set_sd s' k) _ i)). rewrite (fat_at_stored k f x) by done.
  set (k2 := fat_at _ _ _ _ _ _ _). pose proof (fat_at_file k f x i s' (f_posn x) (fi_offset i + 32) Hf) as Hf2.
  fold k2 in Hf2. change (1 <? 0) with false. change (1 =? 0) with false. cbn iota.
  mstep by reflexivity. change (sd_block (k_sd k2)) with (sd_block s'). rewrite Hblk, Ee.
  mstep by reflexivity. rewrite Hc0. mstep by reflexivity. unfold round_result.
  destruct (Z.eqb_spec (nth 0 (fe_name e) 0) FAT_DIR_END) as [He|He]; [reflexivity|].
  pose proof (fat_convert_dirent_spec (Dirent 0 0 0 0 (take 16 (drop (Z.to_nat (zlen b1 + 11)) (b1 ++ b2)))) e Hname) as Hc.
  cbn [de_name] in Hc. rewrite length_take, length_drop, length_app in Hc.
  specialize (Hc ltac:(unfold zlen in *; lia) He).
  assert (upd_file f (λ x, fset_posn (s32 (f_posn x + 27)) x) k2
          = Ok ((), fat_at k f x i s' (f_posn x + 27) (fi_offset i + 32))) as Hadv.
  { rewrite (upd_file_ok k2 f (fset_posn (f_posn x) x) _ (ff_file _ _ _ _ Hf2)). cbn [f_posn fset_posn].
    rewrite s32_small by lia. unfold k2, fat_at. simpl. by rewrite list_insert_insert_eq. }
  destruct (entry_hidden e).
  - rewrite Hc. mstep by reflexivity. change (negb (0 =? 0)) with false. cbn iota. by mstep by exact Hadv.
  - destruct Hc as (d & Ed & Hd). exists d. split; [exact Hd|]. rewrite Ed. mstep by reflexivity.
    change (negb (1 =? 0)) with true. cbn iota.
    assert (zlen (dirent_bytes d) = 27) as Hl by (by apply dirent_bytes_length; apply (sh_length _ _ Hd)).
    pose proof (memcpy_app_at b1 (take 27 b2) (drop 27 b2) (dirent_bytes d) []) as Hcp.
    rewrite take_drop, app_nil_r, Hl in Hcp.
    mstep by (unfold lift; rewrite Hcp; [reflexivity|unfold zlen in *; rewrite length_take; lia]).
    mstep by exact Hadv. rewrite u16_small, s16_small by lia.
    by rewrite zlen_app, <- app_assoc, Hl.
Qed.

(** The round that finds the last entry of the block. *)
Lemma fat_dir_read_last fuel k f x i s' block data out size result :
  fat_file_at k f x i → Kern.sd_cache_read block (k_sd k) = Ok (0, s') → block ≠ 0 → fi_block i = block →
  fi_offset i = 480 → 27 ≤ size →
  fatfs_dir_read_loop (S fuel) f data out size result k =
    Ok ((- EINVAL, data), fat_at k f x i s' (f_posn x) (fi_offset i)).
Proof.
  intros Hf E0 Hne Hb Ho Hs. pose proof Hf as [Hfile Hp0 Hinfo].
  cbn [fatfs_dir_read_loop]. unfold sizeof_dirent. rewrite (proj2 (Z.ltb_ge size 27)) by lia.
  mstep by (by apply get_file_ok). mstep by (by apply (get_info_ok k _ i)).
  mstep by (by apply (read_entry_file k f x i s' block); [done..|lia]).
  rewrite (proj2 (Z.leb_le 480 _)) by lia. cbn beta iota.
  mstep by (by apply (set_info_ok (set_sd s' k) _ i)). change (- EINVAL <? 0) with true. cbn iota.
  by rewrite <- fat_at_stored, at_offset_id.
Qed.

(** The round that finds no room, and the one that cannot read the block. *)
Lemma fat_dir_read_full fuel f data out size result k :
  size < 27 → fatfs_dir_read_loop (S fuel) f data out size result k = Ok ((result, data), k).
Proof. intros Hs. cbn [fatfs_dir_read_loop]. by rewrite (proj2 (Z.ltb_lt size sizeof_dirent) Hs). Qed.

Lemma fat_dir_read_error fuel k f x i s' data out size result status :
  fat_file_at k f x i → Kern.sd_cache_read (fi_block i) (k_sd k) = Ok (status, s') → status ≠ 0 →
  fi_block i ≠ 0 → 0 ≤ fi_offset i < 512 → 27 ≤ size →
  fatfs_dir_read_loop (S fuel) f data out size result k =
    Ok ((- EIO, data), fat_at k f x i s' (f_posn x) (fi_offset i)).
Proof.
  intros Hf E Hn0 Hne Ho Hs. pose proof Hf as [Hfile Hp0 Hinfo].
  cbn [fatfs_dir_read_loop]. rewrite (proj2 (Z.ltb_ge size sizeof_dirent) Hs).
  mstep by (by apply get_file_ok). mstep by (by apply (get_info_ok k _ i)).
  pose proof (read_dirent_at (k_sd k) s' i status Hne Ho E) as Er.
  rewrite (proj2 (Z.eqb_neq status 0) Hn0) in Er. mstep by exact (on_sd_ok _ k _ _ Er).
  mstep by (by apply (set_info_ok (set_sd s' k) _ i)). change (- EIO <? 0) with true. cbn iota.
  by rewrite <- fat_at_stored, at_offset_id.
Qed.

(** A listing result and the state, with what came before. *)
Definition read_result k f x i s' (b1 b2 : list Z) (result : Z) (es : list fat_dir_entry) (c : Z)
    (st : list_stop) (ds : list dirent) : res ((Z * list Z) * kern) :=
  Ok ((if decide (st = LLast) then - EINVAL else result + 27 * zlen es,
       b1 ++ dirents ds ++ drop (Z.to_nat (27 * zlen es)) b2),
      fat_at k f x i s' (f_posn x + 27 * c) (list_offset (fi_offset i) c st)).

(** Passing an entry. *)
Lemma read_result_pass k f x i s' b1 b2 result es c st ds :
  read_result (fat_at k f x i s' (f_posn x + 27) (fi_offset i + 32)) f (fset_posn (f_posn x + 27) x)
    (at_offset (fi_offset i + 32) i) s' b1 b2 result es c st ds = read_result k f x i s' b1 b2 result es (c + 1) st ds.
Proof.
  unfold read_result. cbn [f_posn fset_posn]. rewrite fat_at_at. unfold list_offset. cbn [fi_offset at_offset].
  set (last := if decide (st = LEnd) then 1 else 0).
  replace (fi_offset i + 32 + 32 * (c + last)) with (fi_offset i + 32 * (c + 1 + last)) by lia.
  by replace (f_posn x + 27 + 27 * c) with (f_posn x + 27 * (c + 1)) by lia.
Qed.

(** Taking an entry into the buffer. *)
Lemma read_result_take k f x i s' b1 b2 result e es c st d ds :
  read_result k f x i s' (b1 ++ dirent_bytes d) (drop 27 b2) (result + 27) es c st ds
  = read_result k f x i s' b1 b2 result (e :: es) c st (d :: ds).
Proof.
  unfold read_result. rewrite zlen_cons, drop_drop. pose proof (zlen_nonneg es).
  replace (27 + Z.to_nat (27 * zlen es))%nat with (Z.to_nat (27 * (zlen es + 1))) by lia.
  unfold dirents. cbn [fmap list_fmap concat]. rewrite <- !app_assoc.
  by replace (result + 27 + 27 * zlen es) with (result + 27 * (zlen es + 1)) by lia.
Qed.

(** Nothing has been passed. *)
Lemma read_result_nil k f x i s' b1 b2 result st :
  read_result k f x i s' b1 b2 result [] 0 st [] =
  Ok ((if decide (st = LLast) then - EINVAL else result, b1 ++ b2),
      fat_at k f x i s' (f_posn x) (fi_offset i + if decide (st = LEnd) then 32 else 0)).
Proof.
  unfold read_result, list_offset. change (zlen []) with 0. rewrite !Z.mul_0_r, !Z.add_0_r.
  by destruct st.
Qed.

(** The loop of fatfs_dir_read() from an entry on, when the cache answers. *)
Lemma fat_dir_read_loop_spec j fuel k f x i s' block b1 b2 size result :
  fat_file_at k f x i →
  Kern.sd_cache_read block (k_sd k) = Ok (0, s') → Kern.sd_cache_read block s' = Ok (0, s') →
  sd_block s' = contents block → zlen (contents block) = 512 → block ≠ 0 → fi_block i = block →
  fi_offset i = 32 * Z.of_nat (15 - j) → (j ≤ 15)%nat → (j < fuel)%nat → (27 ≤ size ∨ k_sd k = s') →
  0 ≤ size ≤ zlen b2 → size < 65536 → 0 ≤ result → result + 27 * Z.of_nat j < 32000 →
  -2147483648 ≤ f_posn x → f_posn x + 27 * Z.of_nat j < 2147483600 →
  ∃ es c st ds, dir_listing j (Z.to_nat (size / 27)) (fi_offset i) (contents block) = Ok (es, c, st) ∧
    Forall2 shows es ds ∧
    fatfs_dir_read_loop fuel f (b1 ++ b2) (zlen b1) size result k = read_result k f x i s' b1 b2 result es c st ds.
Proof.
  intros Hf E0 E1 Hblk Hlen Hne. revert k x i b1 b2 size result fuel Hf E0.
  induction j as [|j IH]; intros k x i b1 b2 size result fuel Hf E0 Hb Ho Hj Hfu Hsd Hs1 Hs2 Hr1 Hr2 Hp1 Hp2.
  all: destruct fuel as [|fuel]; [lia|]; destruct (Z.ltb_spec size 27) as [Hlt|Hge];
    [assert (k_sd k = s') as <- by (destruct Hsd; [lia|done]);
     exists [], 0, LFull, []; rewrite Z.div_small, read_result_nil by lia;
     split; [reflexivity|]; split; [by apply Forall2_nil|];
     cbn [fatfs_dir_read_loop]; rewrite (proj2 (Z.ltb_lt size sizeof_dirent) Hlt), Z.add_0_r, fat_at_id by done;
     reflexivity|].
  all: pose proof (room_step size Hge) as Hroom; rewrite Hroom; cbn [dir_listing].
  - exists [], 0, LLast, []. rewrite read_result_nil, Z.add_0_r. split; [reflexivity|]. split; [by apply Forall2_nil|].
    eapply fat_dir_read_last; try done.
  - destruct (fat_dir_read_round fuel k f x i s' block b1 b2 size result) as (e & Ee & Hround); try done; try lia.
    rewrite Ee. cbn [mbind res_bind]. unfold round_result in Hround.
    destruct (nth 0 (fe_name e) 0 =? FAT_DIR_END).
    { exists [], 0, LEnd, []. rewrite read_result_nil. split; [reflexivity|]. by split; [apply Forall2_nil|]. }
    set (k' := fat_at k f x i s' (f_posn x + 27) (fi_offset i + 32)) in *.
    assert (∀ b1' b2' size' result', 0 ≤ size' ≤ zlen b2' → size' ≤ size → 0 ≤ result' ≤ result + 27 →
      ∃ es c st ds, dir_listing j (Z.to_nat (size' / 27)) (fi_offset i + 32) (contents block) = Ok (es, c, st) ∧
       Forall2 shows es ds ∧ fatfs_dir_read_loop fuel f (b1' ++ b2') (zlen b1') size' result' k'
         = read_result k f x i s' b1' b2' result' es (c + 1) st ds) as IH'.
    { intros b1' b2' size' result' Hs' Hss Hr'.
      destruct (IH k' (fset_posn (f_posn x + 27) x) (at_offset (fi_offset i + 32) i) b1' b2' size' result' fuel)
        as (es & c & st & ds & El & Hds & Er); cbn [f_posn fset_posn fi_offset fi_block at_offset]; try lia; try done.
      - by apply fat_at_file.
      - by right.
      - exists es, c, st, ds. split; [exact El|]. split; [exact Hds|]. rewrite Er. apply read_result_pass. }
    destruct (entry_hidden e).
    + destruct (IH' b1 b2 size result) as (es & c & st & ds & El & Hds & Er); [done|lia|lia|].
      rewrite Hroom in El. exists es, (c + 1), st, ds. rewrite El. by rewrite Hround.
    + destruct Hround as (d & Hd & Erun).
      destruct (IH' (b1 ++ dirent_bytes d) (drop 27 b2) (size - 27) (result + 27))
        as (es & c & st & ds & El & Hds & Er); [unfold zlen in *; rewrite length_drop; lia|lia|lia|].
      rewrite El. exists (e :: es), (c + 1), st, (d :: ds). split; [reflexivity|].
      split; [by apply Forall2_cons|]. rewrite Erun, Er. apply read_result_take.
Qed.

(** C30: a read of an open FAT directory is a listing of the block of the card
    that it has reached: when the block cannot be read the result is -EIO;
    otherwise the buffer gets one dirent for each entry that is neither deleted
    nor hidden, in order and as many as fit, with its size, mode, type and name,
    and keeps the rest of its bytes; the position of the file counts the entries
    passed, and nothing else in the kernel changes.  When the listing comes to
    the last entry of the block, the whole read fails with -EINVAL. *)
Theorem fatfs_dir_read_refines k f x i data size :
  fat_file_at k f x i → good (k_sd k) → on_card (fi_block i) → fi_block i ≠ 0 →
  0 ≤ fi_offset i ≤ 480 → (32 | fi_offset i) → 0 ≤ size < 65536 → size ≤ zlen data →
  -2147483648 ≤ f_posn x < 2147480000 →
  if size <? sizeof_dirent then fatfs_dir_read f data size k = Ok ((0, data), k)
  else ∃ status s', Kern.sd_cache_read (fi_block i) (k_sd k) = Ok (status, s') ∧ good s' ∧ keeps_layout (k_sd k) s' ∧
    if negb (status =? 0)
    then fatfs_dir_read f data size k = Ok ((- EIO, data), fat_at k f x i s' (f_posn x) (fi_offset i))
    else ∃ es c st ds,
      dir_listing (15 - Z.to_nat (fi_offset i / 32)) (Z.to_nat (size / sizeof_dirent)) (fi_offset i)
        (contents (fi_block i)) = Ok (es, c, st) ∧
      Forall2 shows es ds ∧
      fatfs_dir_read f data size k =
        Ok ((if decide (st = LLast) then - EINVAL else sizeof_dirent * zlen es,
             dirents ds ++ drop (Z.to_nat (sizeof_dirent * zlen es)) data),
            fat_at k f x i s' (f_posn x + sizeof_dirent * c) (list_offset (fi_offset i) c st)).
Proof.
  intros Hf Hg Hb Hne Ho [n Hn] Hs Hd Hp. unfold fatfs_dir_read, sizeof_dirent.
  destruct (Z.ltb_spec size 27) as [Hlt|Hge].
  { by apply fat_dir_read_full. }
  destruct (br_read (k_sd k) _ Hg Hb) as (status & s' & E & Hs' & Hl & Hst).
  exists status, s'. split; [exact E|]. split; [exact Hs'|]. split; [exact Hl|].
  destruct (Z.eqb_spec status 0) as [->|Hn0]; cbn [negb].
  - destruct (Hst eq_refl) as [Hblk E1]. pose proof (br_length _ Hb) as Hlen.
    assert (fi_offset i / 32 = n) as -> by (rewrite Hn; by apply Z.div_mul).
    destruct (fat_dir_read_loop_spec (15 - Z.to_nat n) 17 k f x i s' (fi_block i) [] data size 0)
      as (es & c & st & ds & El & Hds & Er); [first [assumption|reflexivity|lia|by left]..|].
    exists es, c, st, ds. split; [exact El|]. split; [exact Hds|].
    change (zlen []) with 0 in Er. cbn [app] in Er. rewrite Er. unfold read_result. by rewrite Z.add_0_l.
  - apply (fat_dir_read_error 16 k f x i s' data 0 size 0 status); done || lia.
Qed.
End Reading.

(** ** New inodes

    An inode of the FAT filesystem takes two buffers, for the inode and for its
    information block. *)
Section Inodes.
Context {SD : sdcard}.
Implicit Types (k : kern) (F : list Z).

Definition pair_state (c : Z) (n : inode) (p : Z) (b : buffer) F k : kern :=
  set_free (hd 0 F) (set_bufs (<[c := BInode n]> (<[p := b]> (k_bufs k))) k).
Definition new_pair (c p : Z) (n : inode) (info : fatfs_inode_info) F k : kern :=
  pair_state c n p (BFatInfo info) F k.

(** The inode of a directory entry. *)
Definition entry_inode (e : fat_dir_entry) (p : Z) : inode := Inode IopFat 1 (entry_mode e) 0 p 0.
Definition entry_info (e : fat_dir_entry) : fatfs_inode_info :=
  FatfsInfo (Z.lor (u32 (Z.shiftl (fe_cluster_high e) 16)) (fe_cluster_low e)) (fe_size e) 0 0 0 0.

(** An inode that has just been allocated is released without a trace. *)
Lemma inode_alloc_undo k c F :
  bufs_ok k (c :: F) →
  inode_deref c (set_free (hd 0 F) (set_bufs (<[c := BInode (Inode IopFat 1 0 0 0 0)]> (k_bufs k)) k)) = Ok (0, k).
Proof.
  intros Hk. pose proof Hk as [(Hc & Hc0 & n & Hn & Hch) _ _ _]. pose proof (free_chain_hd _ _ _ Hch) as ->.
  set (k1 := set_free _ _).
  assert (inode_at k1 c (Inode IopFat 1 0 0 0 0)) as Hi by (split; [done|]; simpl; by rewrite lookup_insert_eq).
  unfold inode_deref. cbn [inode_deref_fuel list_fuel]. mstep by (by apply (upd_inode_ok _ _ _ _ Hi)).
  cbn [i_count with_count i_op i_mode i_mtime i_u0 i_u1]. change (s16 (1 - 1)) with 0. set (k2 := set_bufs _ k1).
  assert (inode_at k2 c (Inode IopFat 0 0 0 0 0)) as Hi2 by (split; [done|]; simpl; by rewrite lookup_insert_eq).
  mstep by (by apply (get_inode_ok _ _ _ Hi2)). cbn [i_count i_op Z.leb Z.compare].
  unfold fatfs_release. mstep by (mstep by (by apply (get_inode_ok _ _ _ Hi2)); mstep by (apply kmalloc_buf_free_null); done).
  unfold kmalloc_buf_free, free_insert_head. rewrite (proj2 (Z.eqb_neq c 0) Hc0). cbn [negb].
  mstep by (mstep by (apply get_buf_ok; [done|apply Hi2]); reflexivity).
  unfold mret, M_ret, k2, k1. destruct k; simpl in *. rewrite !insert_insert_eq, insert_id by done.
    unfold set_files, set_free, set_bufs. cbn. by subst.
Qed.

Lemma inode_at_insert_ne k p i q b : inode_at k p i → q ≠ p → inode_at (set_bufs (<[q := b]> (k_bufs k)) k) p i.
Proof. intros [H1 H2] Hne. split; [done|]. simpl. by rewrite lookup_insert_ne. Qed.

Lemma new_pair_ok k c p n info F : bufs_ok k (c :: p :: F) → bufs_ok (new_pair c p n info F k) F.
Proof.
  intros Hk. destruct (kmalloc_buf_alloc_cons _ _ _ Hk) as [_ H1]. destruct (kmalloc_buf_alloc_cons _ _ _ H1) as [_ H2].
  assert (c ≠ p) as Hne by (pose proof (bo_nodup _ _ Hk) as [? _]%NoDup_cons; set_solver).
  eapply (bufs_ok_write _ _ p _ (BFatInfo info)) in H2; [|simpl; by rewrite lookup_insert_eq|done..].
  eapply (bufs_ok_write _ _ c BZero (BInode n)) in H2; [| |done..].
  - eapply bufs_ok_frame; [| |exact H2]; [|done]. simpl.
    rewrite insert_insert_eq, (insert_insert_ne _ p c), insert_insert_eq by done. done.
  - simpl. by rewrite !lookup_insert_ne, lookup_insert_eq by done.
Qed.

(** Both allocations, and the members that are set afterwards. *)
Lemma alloc_pair_eq k c p F :
  bufs_ok k (c :: p :: F) →
  ∃ k1, inode_alloc IopFat k = Ok (c, k1) ∧
    kmalloc_buf_alloc k1 = Ok (p, pair_state c (Inode IopFat 1 0 0 0 0) p BZero F k) ∧ c ≠ p ∧ c ≠ 0 ∧ p ≠ 0.
Proof.
  intros Hk. destruct (inode_alloc_spec k IopFat c (p :: F) Hk) as [E1 Hk1].
  destruct (kmalloc_buf_alloc_cons _ _ _ Hk1) as [E2 _].
  pose proof (bo_nodup _ _ Hk) as [Hn _]%NoDup_cons.
  assert (c ≠ 0) by (by destruct Hk as [(_ & ? & _) _ _ _]).
  assert (p ≠ 0) by (by destruct Hk1 as [(_ & ? & _) _ _ _]). assert (c ≠ p) by set_solver.
  eexists. split; [exact E1|]. split; [|done]. rewrite E2. unfold alloc_state, pair_state. simpl.
  rewrite insert_insert_ne by done. by destruct k.
Qed.

Lemma pair_inode k c p n b F : c ≠ 0 → inode_at (pair_state c n p b F k) c n.
Proof. intros Hc. split; [done|]. simpl. by rewrite lookup_insert_eq. Qed.

Lemma pair_info k c p n info F : c ≠ p → k_bufs (new_pair c p n info F k) !! p = Some (BFatInfo info).
Proof. intros Hne. simpl. by rewrite lookup_insert_ne, lookup_insert_eq. Qed.

Lemma pair_upd_inode k c p n b F g :
  c ≠ 0 → upd_inode c g (pair_state c n p b F k) = Ok ((), pair_state c (g n) p b F k).
Proof.
  intros Hc. rewrite (upd_inode_ok _ _ _ _ (pair_inode k c p n b F Hc)). unfold pair_state. simpl.
  rewrite insert_insert_eq. by destruct k.
Qed.

Lemma pair_set_info k c p n F info :
  c ≠ p → p ≠ 0 → set_info p info (pair_state c n p BZero F k) = Ok ((), new_pair c p n info F k).
Proof.
  intros Hne Hp. unfold set_info, get_info.
  mstep by (mstep by (apply get_buf_ok; [done|]; simpl; by rewrite lookup_insert_ne, lookup_insert_eq); done).
  unfold set_buf, modify, new_pair, pair_state. simpl. rewrite insert_insert_ne, insert_insert_eq by done.
  by destruct k.
Qed.

Lemma fatfs_create_inode_spec k F e parent :
  bufs_ok k F →
  match F with
  | c :: p :: F => fatfs_create_inode e parent k = Ok (c, new_pair c p (entry_inode e p) (entry_info e) F k) ∧ c ≠ 0
  | _ => fatfs_create_inode e parent k = Ok (0, k)
  end.
Proof.
  intros Hk. destruct F as [|c [|p F]]; unfold fatfs_create_inode.
  - by mstep by (by apply inode_alloc_nil).
  - destruct (inode_alloc_spec k IopFat c [] Hk) as [E1 Hk1]. mstep by exact E1.
    assert (c ≠ 0) as Hc0 by (by destruct Hk as [(_ & ? & _) _ _ _]). rewrite (proj2 (Z.eqb_neq c 0) Hc0).
    mstep by (by apply kmalloc_buf_alloc_nil). cbn [Z.eqb]. by mstep by (by apply inode_alloc_undo).
  - destruct (alloc_pair_eq k c p F Hk) as (k1 & E1 & E2 & Hne & Hc0 & Hp0). split; [|done].
    mstep by exact E1. rewrite (proj2 (Z.eqb_neq c 0) Hc0). mstep by exact E2. rewrite (proj2 (Z.eqb_neq p 0) Hp0).
    mstep by (by apply pair_upd_inode). mstep by (by apply pair_upd_inode). mstep by (by apply pair_set_info).
    by mstep by (by apply pair_upd_inode).
Qed.

(** ** Mounting the card *)

(** The inode of the root directory of the card, and the mount point. *)
Definition mounted_root (mtime p : Z) : inode := Inode IopFat 1 (Z.lor S_IFDIR MODE_0755) mtime p 0.
Definition mount_point (root : Z) (i : inode) : inode := with_u1 root (with_mode (Z.lor (i_mode i) S_ISVTX) i).
Definition mount_time k : Z := s32 (Z.shiftr (s64 (k_mono k + k_real k)) 8).

(** Fatfs_mount_sd() puts the root directory of the card on a directory: the
    new inode, whose first cluster says that it is the root, becomes the mount
    of the directory, which is marked as a mount point; no other buffer changes.
    The result is 1 without a card and 0 with one, and the mount stands in both
    cases.  When there are no buffers for the inode and its information block,
    the result is -ENOMEM and the state is as before. *)
Theorem fatfs_mount_sd_refines k F dir i present s' :
  have_sd = true → bufs_ok k F → inode_at k dir i → Kern.sd_detect (k_sd k) = Ok (present, s') →
  match F with
  | root :: p :: F =>
      ∃ k', fatfs_mount_sd dir k = Ok (if present =? 0 then 1 else 0, k') ∧ bufs_ok k' F ∧
        k' = set_sd s' (set_free (hd 0 F) (set_bufs
               (<[dir := BInode (mount_point root i)]> (<[root := BInode (mounted_root (mount_time k) p)]>
                  (<[p := BFatInfo (FatfsInfo FAT_END_CLUSTER 0 0 0 0 0)]> (k_bufs k)))) k))
  | _ => fatfs_mount_sd dir k = Ok (- ENOMEM, k)
  end.
Proof.
  intros Hsd Hk Hdir Hdet. destruct F as [|root [|p F]]; unfold fatfs_mount_sd; rewrite Hsd.
  - by mstep by (by apply inode_alloc_nil).
  - destruct (inode_alloc_spec k IopFat root [] Hk) as [E1 Hk1]. mstep by exact E1.
    assert (root ≠ 0) as Hc0 by (by destruct Hk as [(_ & ? & _) _ _ _]). rewrite (proj2 (Z.eqb_neq root 0) Hc0).
    mstep by (by apply kmalloc_buf_alloc_nil). cbn [Z.eqb]. by mstep by (by apply inode_alloc_undo).
  - destruct (alloc_pair_eq k root p F Hk) as (k1 & E1 & E2 & Hne & Hc0 & Hp0).
    mstep by exact E1. rewrite (proj2 (Z.eqb_neq root 0) Hc0). mstep by exact E2. rewrite (proj2 (Z.eqb_neq p 0) Hp0).
    mstep by (by apply pair_set_info). mstep by (by apply pair_upd_inode).
    unfold inode_get_mtime. mstep by (mstep by reflexivity; mstep by reflexivity; reflexivity).
    mstep by (by apply pair_upd_inode). mstep by (by apply pair_upd_inode).
    set (k2 := pair_state _ _ _ _ _ _). mstep by (apply on_sd_ok; exact Hdet). set (k3 := set_sd s' k2).
    assert (dir ∉ root :: p :: F) as Hnd by (eapply free_chain_not_free; [apply Hk|apply Hdir|done]).
    assert (inode_at k3 dir i) as Hd3.
    { split; [apply Hdir|]. simpl. rewrite !lookup_insert_ne by set_solver. apply Hdir. }
    mstep by (by apply (upd_inode_ok _ _ _ _ Hd3)).
    mstep by (apply (upd_inode_ok _ _ (with_mode (Z.lor (i_mode i) S_ISVTX) i)); split; [apply Hdir|]; simpl; by rewrite lookup_insert_eq).
    eexists. split; [unfold k3, k2, pair_state, mret, M_ret; simpl; rewrite insert_insert_eq; reflexivity|].
    split; [|by destruct k].
    pose proof (new_pair_ok k root p (mounted_root (mount_time k) p) (FatfsInfo FAT_END_CLUSTER 0 0 0 0 0) F Hk) as Hok.
    eapply (bufs_ok_write _ _ dir (BInode i) (BInode (mount_point root i))) in Hok; [|apply Hd3|done..].
    by eapply bufs_ok_frame; [| |exact Hok].
Qed.
End Inodes.

(** ** Lookup *)

(** fat_format_name() returns for every name. *)
Lemma format_name_loop_total out name n posn dot :
  length out = 11%nat → (n ≤ length name)%nat → 0 ≤ posn ≤ 11 →
  ∃ ok out', format_name_loop out name n posn dot = Ok (ok, out') ∧ length out' = 11%nat.
Proof.
  revert out name posn dot. induction n as [|n IH]; intros out name posn dot Ho Hn Hp; [destruct name; cbn; eauto|].
  destruct name as [|ch name]; simpl in Hn; [lia|]. cbn [format_name_loop].
  destruct (_ || _); [eauto|]. destruct (_ && _); [eauto|]. destruct (_ && _); [eauto|]. cbv zeta.
  set (posn' := if ch =? CH_DOT then 8 else posn). assert (0 ≤ posn' ≤ 11) by (unfold posn'; case_match; lia).
  set (dot' := (ch =? CH_DOT) || dot). destruct (if dot' then 11 <=? posn' else 8 <=? posn') eqn:El; [eauto|].
  assert (posn' < 11) by (destruct dot'; lia).
  rewrite wr_ok by (unfold zlen; lia). cbn [mbind res_bind]. rewrite u8_small by lia.
  apply IH; [by rewrite length_insert|lia|lia].
Qed.

Lemma fat_format_name_total out name namelen :
  length out = 11%nat → 0 ≤ namelen ≤ zlen name →
  ∃ ok out', fat_format_name out name namelen = Ok (ok, out') ∧ length out' = 11%nat.
Proof.
  intros Ho Hn. unfold fat_format_name. destruct (Z.eqb_spec namelen 0) as [|Hn0]; [eauto|].
  do 11 (destruct out as [|? out]; [done|]). destruct out; [|done]. cbn -[Z.to_nat rd format_name_loop].
  destruct (rd_ok name 0) as (c0 & -> & _); [lia|]. cbn [mbind res_bind].
  destruct (c0 =? CH_DOT); [|apply format_name_loop_total; [done|unfold zlen in Hn; lia|lia]].
  destruct (namelen =? 1); [cbn; eauto|].
  destruct (Z.eqb_spec namelen 2) as [->|]; [|cbn; eauto].
  destruct (rd_ok name 1) as (c1 & -> & _); [lia|]. cbn. destruct (c1 =? CH_DOT); cbn; eauto.
Qed.

Section Lookup.
Context {SD : sdcard} (good : sd_state → Prop) (on_card : Z → Prop) (contents : Z → list Z).
Context {BR : block_reader good on_card contents}.
Implicit Types (s : sd_state) (k : kern) (F : list Z) (i : inode).

(** Where a directory starts: the root directory of the card is found by
    detecting the card again, other directories have their first cluster. *)
Definition dir_start k (cluster present : Z) s : Prop :=
  if cluster =? FAT_END_CLUSTER then Kern.sd_detect (k_sd k) = Ok (present, s)
  else present = 1 ∧ s = k_sd k.
Definition start_cluster s (cluster : Z) : Z := if cluster =? FAT_END_CLUSTER then sd_root s else cluster.
Definition start_block s (cluster : Z) : Z := Kern.sd_cluster_to_block (start_cluster s cluster) s.

(** A card that was detected can be read from the start of the directory. *)
Definition start_ok k (cluster present : Z) s : Prop :=
  dir_start k cluster present s ∧
  (present ≠ 0 → good s ∧ (start_block s cluster ≠ 0 → on_card (start_block s cluster))).

(** What a search makes of the kernel: an entry becomes a new inode when there
    are two buffers. *)
Definition lookup_result (r : searched) F k : res ((Z * Z) * kern) :=
  match r with
  | SFound e =>
      match F with
      | c :: p :: F => Ok ((0, c), new_pair c p (entry_inode e p) (entry_info e) F k)
      | _ => Ok ((- ENOMEM, 0), k)
      end
  | SEnd => Ok ((- ENOENT, 0), k)
  | SLast => Ok ((- EINVAL, 0), k)
  end.

Lemma search_result_eq k F dir r : bufs_ok k F → search_result dir r k = lookup_result r F k.
Proof.
  intros Hk. destruct r as [e| |]; [|done..]. pose proof (fatfs_create_inode_spec k F e dir Hk) as H.
  unfold search_result, lookup_result. destruct F as [|c [|p F]].
  - by mstep by exact H.
  - by mstep by exact H.
  - destruct H as [E Hc]. mstep by exact E. by rewrite (proj2 (Z.eqb_neq c 0) Hc).
Qed.

(** The start of a directory, as fatfs_lookup() and fatfs_open() find it. *)
Lemma detect_start_ok k cluster present s :
  dir_start k cluster present s → (cluster ≠ FAT_END_CLUSTER → present = 1) ∧
  (if cluster =? FAT_END_CLUSTER then r ← on_sd Kern.sd_detect; mret (r =? 0) else mret false) k
    = Ok (present =? 0, set_sd s k).
Proof.
  unfold dir_start. destruct (Z.eqb_spec cluster FAT_END_CLUSTER) as [->|Hne].
  - intros E. split; [done|]. by mstep by exact (on_sd_ok _ k _ _ E).
  - intros [-> ->]. split; [done|]. by destruct k.
Qed.

Lemma info_new_ok s cluster size old :
  fatfs_info_new old cluster size s =
    Ok (if Kern.sd_cluster_to_block cluster s =? 0
        then (0, FatfsInfo cluster size cluster 0 (fi_offset old) (fi_blocks_left old))
        else (1, FatfsInfo cluster size cluster (Kern.sd_cluster_to_block cluster s) 0 (sd_cluster_size s mod 128)), s).
Proof.
  unfold fatfs_info_new. mstep by reflexivity.
  destruct (Z.eqb_spec (Kern.sd_cluster_to_block cluster s) 0) as [E|E]; [by rewrite E|]. by mstep by reflexivity.
Qed.
(** The checks of fatfs_lookup() before the search. *)
Lemma fatfs_lookup_eq k dir i info name namelen ok name83 present s1 :
  inode_at k dir i → i_u0 i ≠ 0 → k_bufs k !! i_u0 i = Some (BFatInfo info) →
  fat_format_name (replicate 11 0) name namelen = Ok (ok, name83) →
  dir_start k (fi_first_cluster info) present s1 →
  let cluster := start_cluster s1 (fi_first_cluster info) in
  let block := start_block s1 (fi_first_cluster info) in
  fatfs_lookup dir name namelen k =
    if negb (S_ISDIR (i_mode i)) then Ok ((- ENOTDIR, 0), k)
    else if ok =? 0 then Ok ((- EINVAL, 0), k)
    else if present =? 0 then Ok ((- ENOENT, 0), set_sd s1 k)
    else if block =? 0 then Ok ((- EIO, 0), set_sd s1 k)
    else fatfs_lookup_loop (Z.to_nat 65535)
           (FatfsInfo cluster 0 cluster block 0 (sd_cluster_size s1 mod 128)) dir name83 (set_sd s1 k).
Proof.
  intros Hi Hu0 Hinfo Efmt Hstart cluster block. unfold fatfs_lookup. mstep by (by apply (get_inode_ok _ _ i)).
  destruct (negb (S_ISDIR (i_mode i))); [done|]. rewrite Efmt. mstep by reflexivity. destruct (ok =? 0); [done|].
  mstep by (by apply (get_info_ok k _ info)).
  mstep by (apply (detect_start_ok _ _ _ _ Hstart)). destruct (present =? 0); [done|].
  mstep by reflexivity. change (sd_root (k_sd (set_sd s1 k))) with (sd_root s1). fold (start_cluster s1 (fi_first_cluster info)).
  fold cluster. mstep by (apply on_sd_ok, info_new_ok). fold block.
  change (k_sd (set_sd s1 k)) with s1. change (set_sd s1 (set_sd s1 k)) with (set_sd s1 k).
  change (Kern.sd_cluster_to_block cluster s1) with block. destruct (block =? 0); reflexivity.
Qed.

(** C29: fatfs_lookup() looks a name up in a directory of the card: a file that
    is not a directory is -ENOTDIR and a name that is no 8.3 name is -EINVAL;
    for the root directory the card is detected first, and without one the name
    does not exist; a first block that has no place on the card or that cannot be
    read is -EIO; otherwise the result is that of the search of that block, and an
    entry that is found becomes a new inode with the mode, the size and the first
    cluster of the entry, or -ENOMEM, which leaves the buffers as they were. *)
Theorem fatfs_lookup_refines k F dir i info name namelen present s1 :
  bufs_ok k F → inode_at k dir i → i_u0 i ≠ 0 → k_bufs k !! i_u0 i = Some (BFatInfo info) →
  0 ≤ namelen ≤ zlen name → start_ok k (fi_first_cluster info) present s1 →
  let block := start_block s1 (fi_first_cluster info) in
  ∃ ok name83, fat_format_name (replicate 11 0) name namelen = Ok (ok, name83) ∧
  if negb (S_ISDIR (i_mode i)) then fatfs_lookup dir name namelen k = Ok ((- ENOTDIR, 0), k)
  else if ok =? 0 then fatfs_lookup dir name namelen k = Ok ((- EINVAL, 0), k)
  else if present =? 0 then fatfs_lookup dir name namelen k = Ok ((- ENOENT, 0), set_sd s1 k)
  else if block =? 0 then fatfs_lookup dir name namelen k = Ok ((- EIO, 0), set_sd s1 k)
  else ∃ status s2, Kern.sd_cache_read block s1 = Ok (status, s2) ∧ good s2 ∧ keeps_layout s1 s2 ∧
    if negb (status =? 0) then fatfs_lookup dir name namelen k = Ok ((- EIO, 0), set_sd s2 k)
    else ∃ r, dir_search 15 0 (contents block) name83 = Ok r ∧
         fatfs_lookup dir name namelen k = lookup_result r F (set_sd s2 k).
Proof.
  intros Hk Hi Hu0 Hinfo Hn [Hstart Hgood] block.
  destruct (fat_format_name_total (replicate 11 0) name namelen) as (ok & name83 & Efmt & _); [done|done|].
  exists ok, name83. split; [exact Efmt|].
  rewrite (fatfs_lookup_eq k dir i info name namelen ok name83 present s1) by done.
  destruct (negb (S_ISDIR (i_mode i))); [done|]. destruct (ok =? 0); [done|].
  destruct (Z.eqb_spec present 0) as [|Hp]; [done|]. destruct (Hgood Hp) as [Hg Hc]. fold block in Hc |- *.
  destruct (Z.eqb_spec block 0) as [|Hb]; [done|].
  set (reader := FatfsInfo _ _ _ _ _ _).
  destruct (fatfs_lookup_loop_spec good on_card contents (set_sd s1 k) reader dir name83 block (Z.to_nat 65535))
    as (status & s2 & E & Hs2 & Hl & Hrun); [done|by apply Hc|done|done|done|lia|].
  exists status, s2. split; [exact E|]. split; [done|]. split; [done|].
  destruct (negb (status =? 0)); [by destruct k|]. destruct Hrun as (r & Er & Erun).
  exists r. split; [exact Er|]. rewrite Erun. change (set_sd s2 (set_sd s1 k)) with (set_sd s2 k).
  apply search_result_eq. by eapply bufs_ok_frame; [| |exact Hk].
Qed.
End Lookup.

(** ** Opening *)

Section Open.
Context {SD : sdcard}.
Implicit Types (s : sd_state) (k : kern) (F : list Z) (f : nat) (x : file) (i : inode).

(** The open file, and the kernel, after fatfs_open() has taken the buffer [p]. *)
Definition opened_file x (ops : fop) (p : Z) : file := fset_op ops (fset_info p x).
Definition opened k f x (ops : fop) (p cluster block : Z) F s : kern :=
  set_files (<[f := opened_file x ops p]> (k_files k))
    (set_free (hd 0 F) (set_bufs (<[p := BFatInfo (FatfsInfo cluster 0 cluster block 0 (sd_cluster_size s mod 128))]> (k_bufs k))
       (set_sd s k))).

(** Releasing a buffer forgets what was written to it. *)
Lemma free_state_write k p b : free_state p (set_bufs (<[p := b]> (k_bufs k)) k) = free_state p k.
Proof. unfold free_state. simpl. rewrite insert_insert_eq. by destruct k. Qed.
Lemma free_state_files k p fs : free_state p (set_files fs k) = set_files fs (free_state p k).
Proof. by destruct k. Qed.

Lemma fatfs_open_at_spec k F f x cluster size ops :
  k_files k !! f = Some x → bufs_ok k F → size fatfs_info_zero = 0 →
  let block := Kern.sd_cluster_to_block cluster (k_sd k) in
  match F with
  | [] => fatfs_open_at f cluster size ops k = Ok (- ENOMEM, k)
  | p :: F =>
      if block =? 0
      then fatfs_open_at f cluster size ops k = Ok (- EIO, set_files (<[f := fset_info p x]> (k_files k)) k)
      else fatfs_open_at f cluster size ops k = Ok (0, opened k f x ops p cluster block F (k_sd k))
  end.
Proof.
  intros Hx Hk Hsize block. destruct F as [|p F]; [unfold fatfs_open_at; by mstep by (by apply kmalloc_buf_alloc_nil)|].
  destruct (kmalloc_buf_alloc_cons _ _ _ Hk) as [E1 Hk1].
  assert (p ≠ 0) as Hp by (by destruct Hk as [(_ & ? & _) _ _ _]).
  set (k2 := set_files (<[f := fset_info p x]> (k_files k)) (alloc_state p F k)).
  assert (k_bufs k2 !! p = Some BZero) as Hb2 by (simpl; by rewrite lookup_insert_eq).
  assert (get_info p k2 = Ok (fatfs_info_zero, k2)) as Hget by (unfold get_info; by mstep by (by apply get_buf_ok)).
  assert (∀ info, set_info p info k2 = Ok ((), set_bufs (<[p := BFatInfo info]> (k_bufs k2)) k2)) as Hset.
  { intros info. unfold set_info. by mstep by exact Hget. }
  assert (∀ info, bufs_ok (set_bufs (<[p := BFatInfo info]> (k_bufs k2)) k2) F) as Hk3.
  { intros info. eapply bufs_ok_write; [|exact Hb2|done..]. by eapply bufs_ok_frame; [| |exact Hk1]. }
  destruct (Z.eqb_spec block 0) as [Hb|Hb]; unfold fatfs_open_at; mstep by exact E1; rewrite (proj2 (Z.eqb_neq p 0) Hp).
  all: mstep by (by apply (upd_file_ok (alloc_state p F k) f x)); fold k2; mstep by exact Hget.
  all: mstep by (apply on_sd_ok, info_new_ok); rewrite Hsize.
  all: change (Kern.sd_cluster_to_block cluster (k_sd k2)) with block; change (set_sd (k_sd k2) k2) with k2.
  - rewrite (proj2 (Z.eqb_eq block 0) Hb). mstep by apply Hset. cbn [Z.eqb].
    mstep by (eapply kmalloc_buf_free_spec; [apply Hk3|simpl; by rewrite lookup_insert_eq|done]).
    rewrite free_state_write. unfold k2. rewrite free_state_files. by rewrite (free_alloc_state _ _ _ Hk).
  - rewrite (proj2 (Z.eqb_neq block 0) Hb). mstep by apply Hset. cbn [Z.eqb].
    mstep by (apply (upd_file_ok _ f (fset_info p x)); simpl; apply list_lookup_insert_eq; by apply lookup_lt_Some in Hx).
    unfold mret, M_ret, opened. simpl. rewrite insert_insert_eq, list_insert_insert_eq. by destruct k.
Qed.

(** A file that is open with size 0 and at its start reads as empty. *)
Lemma fatfs_file_read_empty k f x (i : fatfs_inode_info) data size :
  fat_file_at k f x i → fi_size i = 0 → f_posn x = 0 → 0 ≤ size → fatfs_file_read f data size k = Ok ((0, data), k).
Proof.
  intros [Hf Hp Hi] Hs Hx Hz. unfold fatfs_file_read. cbn [fatfs_file_read_loop].
  destruct (Z.eqb_spec size 0) as [|Hn]; [done|].
  mstep by (by apply get_file_ok). mstep by (by apply (get_info_ok k _ i)).
  rewrite Hs, Hx. change (u32 (0 - 0)) with 0. by rewrite (proj2 (Z.ltb_lt 0 size)) by lia.
Qed.

(** Reading copies a whole block: a buffer that is shorter is overrun. *)
Lemma fatfs_file_read_overruns k f x (i : fatfs_inode_info) s' data size :
  fat_file_at k f x i → Kern.sd_cache_read (fi_block i) (k_sd k) = Ok (0, s') → zlen (sd_block s') = SD_BLKSIZE →
  fi_block i ≠ 0 → 0 ≤ fi_offset i < 512 → 0 < size ≤ zlen data → zlen data < 512 - fi_offset i →
  0 < u32 (fi_size i - f_posn x) < 65536 →
  fatfs_file_read f data size k = Err FBounds.
Proof.
  intros [Hf Hp Hi] E Hl Hb Ho Hs Hd Hr. unfold fatfs_file_read. cbn [fatfs_file_read_loop].
  rewrite (proj2 (Z.eqb_neq size 0)) by lia.
  mstep by (by apply get_file_ok). mstep by (by apply (get_info_ok k _ i)). cbv zeta.
  rewrite (u16_small (u32 (fi_size i - f_posn x))) by lia. set (size' := if _ <? _ then _ else _).
  assert (0 < size') by (unfold size'; case_match; lia). rewrite (proj2 (Z.eqb_neq size' 0)) by lia.
  pose proof (read_prepare_at (k_sd k) s' i 0 Hb Ho E) as Er. cbn [Z.eqb negb] in Er.
  mstep by exact (on_sd_ok _ k _ _ Er). mstep by (by apply (set_info_ok (set_sd s' k) _ i)).
  rewrite (proj2 (Z.ltb_ge _ 0)), (proj2 (Z.eqb_neq _ 0)) by lia. mstep by reflexivity.
  apply bind_err. unfold lift, memcpy. by rewrite (proj2 (andb_false_iff _ _)) by (right; lia).
Qed.

(** C31: fatfs_open() gives an open file or directory of the card an information
    block at its first cluster: anything else is -EPERM; for the root directory
    the card is detected first, and without one, or when the cluster has no place
    on the card, the result is -EIO; without a buffer it is -ENOMEM.  The size
    that the information block records is always 0, since it is taken from the
    new block and not from that of the inode: every read of a file that was
    opened returns 0 bytes, whatever the size in its directory entry. *)
Theorem fatfs_open_reads_empty k F f x i info present s1 :
  k_files k !! f = Some x → inode_at k (f_inode x) i → i_u0 i ≠ 0 → k_bufs k !! i_u0 i = Some (BFatInfo info) →
  bufs_ok k F → f_posn x = 0 →
  (if S_ISDIR (f_mode x) then dir_start k (fi_first_cluster info) present s1 else present = 1 ∧ s1 = k_sd k) →
  let cluster := if S_ISDIR (f_mode x) then start_cluster s1 (fi_first_cluster info) else fi_first_cluster info in
  let block := Kern.sd_cluster_to_block cluster s1 in
  if negb (S_ISDIR (f_mode x) || S_ISREG (f_mode x)) then fatfs_open f k = Ok (- EPERM, k)
  else if present =? 0 then fatfs_open f k = Ok (- EIO, set_sd s1 k)
  else match F with
  | [] => fatfs_open f k = Ok (- ENOMEM, set_sd s1 k)
  | p :: F =>
      if block =? 0 then fatfs_open f k = Ok (- EIO, set_files (<[f := fset_info p x]> (k_files k)) (set_sd s1 k))
      else
        let ops := if S_ISDIR (f_mode x) then FopFatDir else FopFatFile in
        let k' := opened k f x ops p cluster block F s1 in
        fatfs_open f k = Ok (0, k') ∧
        fat_file_at k' f (opened_file x ops p) (FatfsInfo cluster 0 cluster block 0 (sd_cluster_size s1 mod 128)) ∧
        ∀ data size, 0 ≤ size → fatfs_file_read f data size k' = Ok ((0, data), k')
  end.
Proof.
  intros Hx Hi Hu0 Hinfo Hk Hposn Hstart cluster block.
  assert (bufs_ok (set_sd s1 k) F) as Hk1 by (by eapply bufs_ok_frame; [| |exact Hk]).
  assert (∀ ops size, size fatfs_info_zero = 0 → fatfs_open_at f cluster size ops (set_sd s1 k) =
     match F with
     | [] => Ok (- ENOMEM, set_sd s1 k)
     | p :: F => if block =? 0 then Ok (- EIO, set_files (<[f := fset_info p x]> (k_files k)) (set_sd s1 k))
                 else Ok (0, opened k f x ops p cluster block F s1)
     end) as Hopen.
  { intros ops size Hs. pose proof (fatfs_open_at_spec (set_sd s1 k) F f x cluster size ops Hx Hk1 Hs) as H.
    cbv zeta in H. change (k_sd (set_sd s1 k)) with s1 in H. fold block in H. destruct F as [|p F]; [exact H|].
    destruct (block =? 0); exact H. }
  set (ops := if S_ISDIR (f_mode x) then FopFatDir else FopFatFile).
  assert (fatfs_open f k = if negb (S_ISDIR (f_mode x) || S_ISREG (f_mode x)) then Ok (- EPERM, k)
    else if present =? 0 then Ok (- EIO, set_sd s1 k)
    else fatfs_open_at f cluster (if S_ISDIR (f_mode x) then λ _, 0 else fi_size) ops (set_sd s1 k)) as ->.
  { clear Hopen. subst cluster block ops. unfold fatfs_open. mstep by (by apply get_file_ok).
    mstep by (by apply (get_inode_ok _ _ i)). destruct (S_ISDIR (f_mode x)); cbn [orb negb].
    - mstep by (by apply (get_info_ok k _ info)).
      mstep by (apply (detect_start_ok _ _ _ _ Hstart)). destruct (present =? 0); [done|]. by mstep by reflexivity.
    - destruct (S_ISREG (f_mode x)); cbn [negb]; [|done]. mstep by (by apply (get_info_ok k _ info)).
      destruct Hstart as [-> ->]. by destruct k. }
  destruct (negb _); [done|]. destruct (present =? 0); [done|]. rewrite Hopen by (by destruct (S_ISDIR (f_mode x))).
  destruct F as [|p F]; [done|]. destruct (block =? 0); [done|].
  assert (fat_file_at (opened k f x ops p cluster block F s1) f (opened_file x ops p)
    (FatfsInfo cluster 0 cluster block 0 (sd_cluster_size s1 mod 128))) as Hat.
  { split; simpl; [|by destruct Hk as [(_ & ? & _) _ _ _]|by rewrite lookup_insert_eq].
    apply list_lookup_insert_eq. by apply lookup_lt_Some in Hx. }
  split; [done|]. split; [exact Hat|]. intros data size Hs. by eapply fatfs_file_read_empty.
Qed.
End Open.

(** ** Witnesses: files on the simulated card *)

#[local] Existing Instance w_device.
#[local] Existing Instance w_reads.

(** A kernel with an empty buffer cache and the card of [FatDir]. *)
Definition w_zeroes : gmap Z buffer := list_to_map ((λ p, (p, BZero)) <$> seqZ 1 CONFIG_NUM_BUFFERS).
Definition w_bare : kern := set_bufs w_zeroes w_kern.
Definition w_buffers : kern := match kmalloc_init_bufs w_bare with Ok (_, k) => k | Err _ => w_bare end.

Lemma w_zeroes_dom p : is_Some (w_zeroes !! p) ↔ 1 ≤ p ≤ CONFIG_NUM_BUFFERS.
Proof.
  unfold w_zeroes. split.
  - intros [b Hb]. apply elem_of_list_to_map_2, list_elem_of_fmap in Hb as (q & [= -> ->] & Hq).
    apply elem_of_seqZ in Hq. lia.
  - intros Hp. destruct (list_to_map _ !! p) eqn:E; [done|]. apply not_elem_of_list_to_map in E. destruct E.
    rewrite <- list_fmap_compose. apply list_elem_of_fmap. exists p. split; [done|]. apply elem_of_seqZ. lia.
Qed.

Lemma w_buffers_ok : bufs_ok w_buffers (rev (seqZ 1 CONFIG_NUM_BUFFERS)).
Proof.
  destruct (kmalloc_init_bufs_spec w_bare w_zeroes_dom) as (k' & E & Hk & _).
  unfold w_buffers. rewrite E. exact Hk.
Qed.

Lemma w_buffers_sd : k_sd w_buffers = w_card.
Proof.
  destruct (kmalloc_init_bufs_spec w_bare w_zeroes_dom) as (k' & E & _ & Es).
  unfold w_buffers. rewrite E, Es. reflexivity.
Qed.

Definition w_free : list Z := rev (seqZ 1 98).
(** An inode of the card in buffer 100, with its information in buffer 99. *)
Definition w_inode (n : inode) (info : fatfs_inode_info) : kern := new_pair 100 99 n info w_free w_buffers.
Lemma w_inode_ok n info : bufs_ok (w_inode n info) w_free.
Proof.
  pose proof w_buffers_ok as H.
  replace (rev (seqZ 1 CONFIG_NUM_BUFFERS)) with (100 :: 99 :: w_free) in H by (vm_compute; reflexivity).
  exact (new_pair_ok w_buffers 100 99 n info w_free H).
Qed.

Definition w_dir_inode : inode := Inode IopFat 1 (Z.lor S_IFDIR MODE_0755) 0 99 0.
Definition w_dir_info : fatfs_inode_info := FatfsInfo 2 0 0 0 0 0.
Definition w_directory : kern := w_inode w_dir_inode w_dir_info.

Lemma w_pair_inode n info : inode_at (w_inode n info) 100 n.
Proof. unfold w_inode, new_pair. apply pair_inode. discriminate. Qed.
Lemma w_pair_info n info : k_bufs (w_inode n info) !! 99 = Some (BFatInfo info).
Proof. unfold w_inode. apply pair_info. discriminate. Qed.

Lemma pair_sd k c p n b F : k_sd (pair_state c n p b F k) = k_sd k.
Proof. done. Qed.
Lemma w_inode_sd n info : k_sd (w_inode n info) = w_card.
Proof. unfold w_inode, new_pair. rewrite pair_sd. apply w_buffers_sd. Qed.

(** The card can be read: reading the block of the directory succeeds. *)
Lemma w_reads_ok status s :
  Kern.sd_cache_read 65 (w_card : sd_state) = Ok (status, s) → status = 0.
Proof.
  intros E. assert (match Kern.sd_cache_read 65 (w_card : sd_state) with Ok (r, _) => r | Err _ => 1 end = 0) as H
    by (vm_compute; reflexivity).
  by rewrite E in H.
Qed.

Lemma w_start : start_ok (consistent (sim_idle w_disk) true (sim_block w_disk)) sim_has w_directory 2 1 (w_card : sd_state).
Proof.
  split; [split; [reflexivity|symmetry; apply w_inode_sd]|]. intros _. split; [exact w_card_consistent|]. intros _.
  assert (start_block (w_card : sd_state) 2 = 65) as -> by (vm_compute; reflexivity). by apply w_has.
Qed.

(** The name kernel is found as KERNEL, and gets the inode 98. *)
Lemma fatfs_lookup_refines_witness : ∃ k', fatfs_lookup 100 (chars "kernel") 6 w_directory = Ok ((0, 98), k').
Proof.
  destruct (fatfs_lookup_refines _ _ _ w_directory w_free 100 w_dir_inode w_dir_info (chars "kernel") 6 1 w_card)
    as (ok & name83 & Efmt & H); [apply w_inode_ok|apply w_pair_inode|discriminate|apply w_pair_info|by compute_decide|exact w_start|].
  assert (fat_format_name (replicate 11 0) (chars "kernel") 6 = Ok (1, chars "KERNEL     ")) as E by (vm_compute; reflexivity).
  rewrite E in Efmt. injection Efmt as <- <-. change (negb (S_ISDIR (i_mode w_dir_inode))) with false in H.
  change (1 =? 0) with false in H. cbv iota in H.
  assert (start_block (w_card : sd_state) (fi_first_cluster w_dir_info) = 65) as Eb by (vm_compute; reflexivity).
  rewrite Eb in H. change (65 =? 0) with false in H. cbv iota in H. destruct H as (status & s2 & Er & _ & _ & H).
  pose proof (w_reads_ok _ _ Er) as ->. change (negb (0 =? 0)) with false in H. cbv iota in H.
  destruct H as (r & Es & Erun).
  assert (match dir_search 15 0 (sim_block w_disk 65) (chars "KERNEL     ") with Ok (SFound _) => true | _ => false end = true)
    as Hf by (vm_compute; reflexivity).
  rewrite Es in Hf. destruct r as [e| |]; [|discriminate Hf..].
  assert (w_free = 98 :: 97 :: rev (seqZ 1 96)) as Ef by (vm_compute; reflexivity).
  rewrite Erun, Ef. by eexists.
Defined.

(** The open directory, in buffer 98. *)
Definition w_dir_file : file := File 1 0 (Z.lor S_IFDIR MODE_0755) FopFatDir 100 98 0.
Definition w_reader : fatfs_inode_info := FatfsInfo 2 0 2 65 0 8.
Definition w_reading : kern := set_files [w_dir_file] (set_bufs {[98 := BFatInfo w_reader]} w_kern).

Lemma w_reading_sd : k_sd w_reading = w_card.
Proof. unfold w_reading, w_kern. cbn [k_sd set_files set_bufs]. reflexivity. Qed.

(** The whole directory: the deleted entry is passed over, and KERNEL is shown. *)
Lemma fatfs_dir_read_refines_witness :
  ∃ data k', fatfs_dir_read 0 (replicate 54 1) 54 w_reading = Ok ((27, data), k') ∧
    take 7 (drop 11 data) = chars "kernel" ++ [NUL].
Proof.
  pose proof (fatfs_dir_read_refines _ _ _ w_reading 0 w_dir_file w_reader (replicate 54 1) 54) as H.
  change (54 <? sizeof_dirent) with false in H. cbv iota in H.
  rewrite w_reading_sd in H. cbn [fi_block w_reader] in H.
  destruct H as (status & s' & Er & _ & _ & H).
  - by split.
  - exact w_card_consistent.
  - by apply w_has.
  - discriminate.
  - by compute_decide.
  - by exists 0.
  - done.
  - done.
  - done.
  - pose proof (w_reads_ok _ _ Er) as ->. change (negb (0 =? 0)) with false in H. cbv iota in H.
    destruct H as (es & c & st & ds & El & Hds & Erun).
    assert (dir_listing (15 - Z.to_nat (fi_offset w_reader / 32)) (Z.to_nat (54 / sizeof_dirent)) (fi_offset w_reader)
      (sim_block w_disk 65) = Ok ([FatDirEntry (chars "KERNEL     ") 0x21 0 5 9], 2, LEnd)) as El'
      by (vm_compute; reflexivity).
    rewrite El' in El. injection El as <- <- <-.
    apply Forall2_cons_inv_l in Hds as (d & ds' & Hd & Hds & ->). apply Forall2_nil_inv_l in Hds as ->.
    eexists _, _. split; [exact Erun|].
    destruct (sh_name _ _ Hd) as (junk & En).
    assert (shown_name (chars "KERNEL     ") = chars "kernel") as E by (vm_compute; reflexivity).
    cbn [fe_name] in En. rewrite E in En. unfold dirents, dirent_bytes. cbn [fmap list_fmap concat]. by rewrite En.
Defined.

(** Mounting the card on the inode 100, a directory of the RAM filesystem. *)
Definition w_mount_dir : inode := Inode IopRam 3 (Z.lor S_IFDIR MODE_0755) 0 0 0.

Lemma fatfs_mount_sd_refines_witness :
  ∃ k', fatfs_mount_sd 100 (w_inode w_mount_dir fatfs_info_zero) = Ok (0, k').
Proof.
  set (k := w_inode w_mount_dir fatfs_info_zero).
  set (s' := match Kern.sd_detect (w_card : @sd_state w_device) with Ok (_, s) => s | Err _ => w_card end : @sd_state w_device).
  assert (Kern.sd_detect (w_card : @sd_state w_device) = Ok (2, s')) as Ed.
  { apply (run_result _ 0 2 (w_card : @sd_state w_device)); [vm_compute; reflexivity|done]. }
  destruct (fatfs_mount_sd_refines k (98 :: 97 :: rev (seqZ 1 96)) 100 w_mount_dir 2 s') as (k' & E & _).
  - reflexivity.
  - assert (98 :: 97 :: rev (seqZ 1 96) = w_free) as -> by (vm_compute; reflexivity). apply w_inode_ok.
  - apply w_pair_inode.
  - unfold k. rewrite w_inode_sd. exact Ed.
  - exists k'. exact E.
Defined.

(** Opening KERNEL, a file of 9 bytes, and reading it. *)
Definition w_file_inode : inode := Inode IopFat 1 (Z.lor S_IFREG MODE_0555) 0 99 0.
Definition w_file_info : fatfs_inode_info := FatfsInfo 5 9 0 0 0 0.
Definition w_new_file : file := File 1 0 (Z.lor S_IFREG MODE_0555) FopNull 100 0 0.
Definition w_opening : kern := set_files [w_new_file] (w_inode w_file_inode w_file_info).

Lemma w_opening_ok : ∃ k, w_opening = k ∧ k_files k !! 0%nat = Some w_new_file ∧ inode_at k 100 w_file_inode ∧
  k_bufs k !! 99 = Some (BFatInfo w_file_info) ∧ bufs_ok k (98 :: 97 :: rev (seqZ 1 96)) ∧ k_sd k = w_card.
Proof.
  unfold w_opening. pose proof (w_inode_ok w_file_inode w_file_info) as Hok.
  replace w_free with (98 :: 97 :: rev (seqZ 1 96)) in Hok by (vm_compute; reflexivity).
  pose proof (w_pair_inode w_file_inode w_file_info) as Hi. pose proof (w_pair_info w_file_inode w_file_info) as Hb.
  pose proof (w_inode_sd w_file_inode w_file_info) as Hs. generalize dependent (w_inode w_file_inode w_file_info).
  intros k Hok Hi Hb Hs. exists (set_files [w_new_file] k). split; [done|]. split; [done|]. split; [done|].
  split; [done|]. split; [by eapply bufs_ok_frame; [| |exact Hok]|done].
Qed.

Lemma fatfs_open_reads_empty_witness :
  ∃ k', fatfs_open 0 w_opening = Ok (0, k') ∧ fatfs_file_read 0 (replicate 16 1) 16 k' = Ok ((0, replicate 16 1), k').
Proof.
  destruct w_opening_ok as (k & -> & Hf & Hi & Hb & Hk & Hs).
  pose proof (fatfs_open_reads_empty k _ 0 w_new_file w_file_inode w_file_info 1 w_card Hf Hi ltac:(discriminate) Hb Hk) as H.
  change (S_ISDIR (f_mode w_new_file)) with false in H. change (S_ISREG (f_mode w_new_file)) with true in H.
  cbv zeta iota in H. cbn [orb negb Z.eqb fi_first_cluster w_file_info] in H.
  assert ((Kern.sd_cluster_to_block 5 (w_card : sd_state) =? 0) = false) as Eb by (vm_compute; reflexivity).
  rewrite Eb in H. destruct H as (E & _ & Er); [reflexivity|split; [reflexivity|symmetry; exact Hs]|].
  eexists. split; [exact E|]. by apply Er.
Defined.
