(* ===== verification/System.v ===== *)
(** The system calls on files as one system: every call of os/file.c, os/dir.c
    and os/mount.c, and sequences of them.

    With NULL or a valid string for each path, and NULL or a buffer that has
    the stated size, of at most 32767 bytes (SSIZE_MAX, what the int result
    can count), each call other than open() returns and keeps the invariant.
    Open() returns an error and keeps the invariant too, or it jumps through
    the NULL operation table that [sys_open_never_succeeds] is about. Mount()
    is covered on a target without an SD card, where it fails; Mount.v covers
    the mount of a card. *)
From S2P Require Import Prelude CDefs Util PathRes Sched Kern BufCache Inode Fat.
From S2P Require Import Devices Ramfs Vfs File FsCalls FileSpec DirSpec.

(** ** The calls *)

Inductive call :=
  | CMkdir (path : option (list Z)) (mode : Z)
  | CMknod (path : option (list Z)) (mode dev : Z)
  | CChdir (path : option (list Z))
  | CGetcwd (buf : option (list Z)) (size : Z)
  | COpendir (path : option (list Z))
  | CClose (fd : Z)
  | CRead (fd : Z) (buf : option (list Z)) (size : Z)
  | CWrite (fd : Z) (buf : option (list Z)) (size : Z)
  | CDup (fd : Z)
  | CDup2 (oldfd newfd : Z)
  | CFcntl (fd cmd value : Z)
  | CUmask (mask : Z)
  | COpen (path : option (list Z)) (flags mode : Z)
  | CMount (source target fstype : option (list Z)) (flags : Z)
  | CLseek | CRmdir | CUnlink | CStat | CLstat | CUmount.

(** A pathname is NULL or a string; a buffer is NULL or has [size] bytes, and
    [size] is representable in the result. *)
Definition valid_path (path : option (list Z)) : Prop :=
  match path with None => True | Some s => ∃ p, cstring s p end.
Definition valid_buf (buf : option (list Z)) (size : Z) : Prop :=
  0 ≤ size < 32768 ∧ match buf with None => True | Some b => size ≤ zlen b end.

Section System.
Context {SD : sdcard} {CC : console_config}.
Implicit Types (k : kern) (A : afs) (D : gmap Z (list Z)) (F : list Z) (R : gmap Z Z) (oth : nat → Z).

(** The arguments that a call may have: the operations without arguments are
    the calls that look at none. *)
Definition valid_call (c : call) : Prop :=
  match c with
  | CMkdir path _ | CMknod path _ _ | CChdir path | COpendir path | COpen path _ _ => valid_path path
  | CGetcwd buf size | CRead _ buf size | CWrite _ buf size => valid_buf buf size
  | CMount source target fstype _ =>
      have_sd = false ∧ valid_path source ∧ valid_path target ∧ valid_path fstype
  | _ => True
  end.

Definition run_call (c : call) : M kern Z :=
  match c with
  | CMkdir path mode => sys_mkdir path mode
  | CMknod path mode dev => sys_mknod path mode dev
  | CChdir path => sys_chdir path
  | CGetcwd buf size => '(r, _) ← sys_getcwd buf size false; mret r
  | COpendir path => sys_opendir path
  | CClose fd => sys_close fd
  | CRead fd buf size => '(r, _) ← sys_read fd buf size; mret r
  | CWrite fd buf size => sys_write fd buf size
  | CDup fd => sys_dup fd
  | CDup2 oldfd newfd => sys_dup2 oldfd newfd
  | CFcntl fd cmd value => sys_fcntl fd cmd value
  | CUmask mask => sys_umask mask
  | COpen path flags mode => sys_open path flags mode
  | CMount source target fstype flags => sys_mount source target fstype flags
  | CLseek => sys_lseek
  | CRmdir => sys_rmdir
  | CUnlink => sys_unlink
  | CStat => sys_stat
  | CLstat => sys_lstat
  | CUmount => sys_umount
  end.

Fixpoint run_calls (cs : list call) : M kern (list Z) :=
  match cs with
  | [] => mret []
  | c :: cs => r ← run_call c; rs ← run_calls cs; mret (r :: rs)
  end.

(** The invariant, for some tree. *)
Definition sys_ok k oth : Prop := ∃ A D F, proc_ok k A D F oth.

(** [m] runs without a fault and keeps the invariant. *)
Definition safe {X} (m : M kern X) k oth : Prop :=
  ∃ x k', m k = Ok (x, k') ∧ sys_ok k' oth.

Lemma safe_bind {X Y} (m : M kern X) (f : X → M kern Y) x k k1 oth :
  m k = Ok (x, k1) → safe (f x) k1 oth → safe (x ← m; f x) k oth.
Proof. intros E (y & k' & E' & Hk). exists y, k'. split; [|done]. by mstep by exact E. Qed.

Lemma safe_ret {X} (x : X) k oth : sys_ok k oth → safe (mret x) k oth.
Proof. intros Hk. by exists x, k. Qed.

Lemma safe_map {X Y} (m : M kern X) (f : X → M kern Y) k oth :
  safe m k oth → (∀ x k', sys_ok k' oth → safe (f x) k' oth) → safe (x ← m; f x) k oth.
Proof. intros (x & k' & E & Hk) Hf. eapply safe_bind; [exact E|auto]. Qed.

(** ** Bad pathnames *)

Lemma inode_lookup_path_bad_small k path want oflag mode :
  (path = None ∨ ∃ s, path = Some s ∧ cstring s []) →
  ∃ e, inode_lookup_path want path oflag mode k = Ok ((e, 0), k) ∧ -100 ≤ e < 0.
Proof.
  intros Hp. unfold inode_lookup_path.
  assert (∃ e, inode_path_to_abs (p_cwd (k_proc k)) (k_temp k) CONFIG_PATH_MAX path = Ok (e, k_temp k) ∧ -100 ≤ e < 0)
    as (e & E & He).
  { destruct Hp as [->|(s & -> & _ & junk & ->)]; eexists; done. }
  exists e. split; [|done]. do 2 (mstep by done). mstep by (unfold lift; rewrite E; reflexivity).
  cbv beta iota. mstep by done. rewrite (proj2 (Z.ltb_lt e 0)) by lia. by destruct k.
Qed.

Lemma inode_lookup_path_bad k path want oflag mode :
  (path = None ∨ ∃ s, path = Some s ∧ cstring s []) →
  ∃ e, inode_lookup_path want path oflag mode k = Ok ((e, 0), k) ∧ e < 0.
Proof.
  intros Hp. destruct (inode_lookup_path_bad_small k path want oflag mode Hp) as (e & E & He).
  exists e. split; [done|lia].
Qed.

Lemma path_cases path :
  valid_path path →
  (path = None ∨ ∃ s, path = Some s ∧ cstring s []) ∨ ∃ s p, path = Some s ∧ cstring s p ∧ p ≠ [].
Proof.
  destruct path as [s|]; [|by left; left]. intros [p Hp]. destruct (decide (p = [])) as [->|]; eauto 10.
Qed.

(** ** Creation *)

(** An open file stays what it is when inodes are added. *)
Lemma live_file_mono A A' x :
  (∀ p n, A !! p = Some n → ∃ n', A' !! p = Some n' ∧ a_mode n' = a_mode n) →
  live_file A x → live_file A' x.
Proof.
  intros HA [(Hop & n & Hn & Hd)|H]; [left|by right]. split; [done|].
  destruct (HA _ _ Hn) as (n' & Hn' & Hm). exists n'. by rewrite Hm.
Qed.

Lemma files_ok_mono k k' A A' T oth :
  (∀ p n, A !! p = Some n → ∃ n', A' !! p = Some n' ∧ a_mode n' = a_mode n) →
  k_files k' = k_files k → k_proc k' = k_proc k → files_ok k A T oth → files_ok k' A' T oth.
Proof.
  intros HA Ef Ep Hf. split; rewrite ?Ef, ?Ep; try apply Hf. intros f x Hx Hpos.
  eapply live_file_mono; [exact HA|]. by eapply fo_live.
Qed.

(** No open file refers to an inode that is not in the tree. *)
Lemma open_refs_fresh k A D F R T oth c :
  vfs_ok k A D F R → files_ok k A T oth → A !! c = None → c ≠ 0 → open_refs c (k_files k) = 0.
Proof.
  intros Hv Hf Hc Hc0. unfold open_refs. assert (∀ x, x ∈ k_files k → open_ind c x = 0) as H.
  { intros x [f Hx]%list_elem_of_lookup. unfold open_ind. rewrite decide_False; [done|].
    intros [Hpos Hi]. destruct (fo_live _ _ _ _ Hf f x Hx Hpos) as [(_ & n & Hn & _)|[_ H0]]; congruence. }
  induction (k_files k) as [|x fs IH]; [done|]. rewrite sumZ_cons, H by by left.
  rewrite IH; [done|]. intros y Hy. apply H. by right.
Qed.

Lemma cwd_ok_same k k' temp base :
  same_but_bufs (set_temp temp k) k' → zlen temp = CONFIG_PATH_MAX → cwd_ok k base → cwd_ok k' base.
Proof. intros -> Ht (?&?&?&?&?). by destruct k. Qed.

Lemma scratch_ok k k' A D F oth : scratch k k' → proc_ok k A D F oth → proc_ok k' A D F oth.
Proof. intros (temp & Ht & ->) Hk. by apply kern_ok_temp. Qed.

(** The state after a creation that succeeded. *)
Lemma create_made_ok k A D x c F R base oth mode data p n nm k' :
  proc_ok k A D (x :: c :: F) oth → vfs_ok k A D (x :: c :: F) R → refs_slack R →
  (∀ p, is_Some (A !! p) → R !!! p = open_refs p (k_files k)) → cwd_ok k base →
  A !! p = Some n → A !! c = None →
  let A' := <[c := ANode mode (mtime_now k) data []]> (a_create mode (mtime_now k) p n nm c A) in
  vfs_ok k' A' (<[p := D !!! p ++ [x]]> D) F (<[c := 0]> R) →
  (∃ temp, zlen temp = CONFIG_PATH_MAX ∧ same_but_bufs (set_temp temp k) k') →
  proc_ok k' A' (<[p := D !!! p ++ [x]]> D) F oth.
Proof.
  intros Hk Hv Hs HR Hc Hn HAc A' Hv' (temp & Ht & Hsame). pose proof (ko_files _ _ _ _ _ _ Hk) as Hf.
  pose proof (cwd_ok_same _ _ _ _ Hsame Ht Hc) as Hc'.
  assert (k_files k' = k_files k ∧ k_proc k' = k_proc k) as [Ef Ep] by (rewrite Hsame; by destruct k).
  assert (c ≠ 0) as Hc0.
  { eapply node_ne0; [exact Hv'|]. unfold A'. rewrite lookup_insert_eq. eauto. }
  split; [|exists (<[c:=0]> R); split_and!; [exact Hv'|..]|by exists base].
  - rewrite Ep. eapply files_ok_mono; [|done..|exact Hf]. intros q m Hq. unfold A'.
    rewrite lookup_insert_ne by congruence.
    destruct (create_old A mode (mtime_now k) p n nm c Hn HAc q m Hq) as (m' & ? & ? & _). eauto.
  - intros q. destruct (decide (c = q)) as [<-|]; [by rewrite lookup_total_insert_eq|].
    rewrite lookup_total_insert_ne by done. apply Hs.
  - intros q Hq. rewrite Ef. destruct (decide (c = q)) as [<-|Hcq].
    + rewrite lookup_total_insert_eq. symmetry. by eapply open_refs_fresh.
    + rewrite lookup_total_insert_ne by done. apply HR. unfold A' in Hq. rewrite lookup_insert_ne in Hq by done.
      unfold a_create in Hq. rewrite lookup_insert_ne in Hq by done.
      apply lookup_insert_is_Some' in Hq as [<-|]; [by exists n|done].
Qed.

Lemma create_post_ok k A D F R base oth mode data spec e k' :
  proc_ok k A D F oth → vfs_ok k A D F R → refs_slack R →
  (∀ p, is_Some (A !! p) → R !!! p = open_refs p (k_files k)) → cwd_ok k base →
  create_post k A D F R mode data spec e k' → sys_ok k' oth.
Proof.
  intros Hk Hv Hs HR Hc Hpost. unfold create_post in Hpost.
  assert (scratch k k' → sys_ok k' oth) as Hscr.
  { intros H. exists A, D, F. by eapply scratch_ok. }
  destruct spec as [cs|]; [|by destruct Hpost; auto].
  destruct (a_walk _ _ _ _ _) as [e'|q|p nm]; [by destruct Hpost; auto|done|].
  destruct Hpost as (n & Hn & _ & Hfind & Hpost). destruct (_ <? _); [by destruct Hpost; auto|].
  destruct F as [|x [|c F]]; [by destruct Hpost; auto..|].
  destruct Hpost as (-> & HAc & Hv' & Hsame). eexists _, _, _. by eapply (create_made_ok k).
Qed.

(** ** Reading and writing through an open file *)

Lemma kern_ok_same k k' A D F T oth :
  k_bufs k' = k_bufs k → k_free k' = k_free k → k_root k' = k_root k → k_files k' = k_files k →
  k_proc k' = k_proc k → k_temp k' = k_temp k → kern_ok k A D F T oth → kern_ok k' A D F T oth.
Proof.
  intros E1 E2 E3 E4 E5 E6 [Hf (R & Hv & Hs & HR) [base Hc]]. split.
  - eapply files_ok_mono; [|done..|exact Hf]. eauto.
  - exists R. rewrite E4. split_and!; [by apply (vfs_ok_frame k)|done..].
  - exists base. unfold cwd_ok. by rewrite E5, E6.
Qed.

(** [k'] differs from [k] in the console only. *)
Definition console_only k k' : Prop := k' = set_in (k_in k') (set_out (k_out k') k).

Lemma console_only_refl k : console_only k k.
Proof. by destruct k. Qed.
Lemma console_only_trans k k' k'' : console_only k k' → console_only k' k'' → console_only k k''.
Proof. unfold console_only. intros -> ->. by destruct k. Qed.
Lemma console_only_ok k k' A D F T oth : console_only k k' → kern_ok k A D F T oth → kern_ok k' A D F T oth.
Proof. intros ->. by apply kern_ok_same. Qed.

(** A console operation returns and changes nothing else. *)
Definition console_op {X} (m : M kern X) (Q : X → Prop) : Prop :=
  ∀ k, ∃ x k', m k = Ok (x, k') ∧ console_only k k' ∧ Q x.

Lemma console_bind {X Y} (m : M kern X) (f : X → M kern Y) P Q :
  console_op m P → (∀ x, P x → console_op (f x) Q) → console_op (x ← m; f x) Q.
Proof.
  intros Hm Hf k. destruct (Hm k) as (x & k1 & E1 & H1 & Hx).
  destruct (Hf x Hx k1) as (y & k2 & E2 & H2 & Hy). exists y, k2. split_and!; [|by eapply console_only_trans|done].
  by mstep by exact E1.
Qed.
Lemma console_ret {X} (x : X) (Q : X → Prop) : Q x → console_op (mret x) Q.
Proof. intros HQ k. exists x, k. split_and!; [done|apply console_only_refl|done]. Qed.
Lemma console_lift {X} (r : res X) (Q : X → Prop) : (∃ x, r = Ok x ∧ Q x) → console_op (lift r) Q.
Proof. intros (x & -> & HQ). by apply (console_ret x). Qed.

Lemma chrout_op c : console_op (chrout c) (λ _, True).
Proof. intros k. eexists _, _. split; [done|]. by destruct k. Qed.
Lemma chrin_op : console_op chrin (λ _, True).
Proof.
  intros k. unfold chrin. destruct (k_in k) as [|c l] eqn:E; eexists _, _.
  - split; [by mstep by done; rewrite E|]. by destruct k.
  - split; [by mstep by done; rewrite E|]. by destruct k.
Qed.

(** Output whose result is not used. *)
Ltac output :=
  repeat first
    [ apply chrout_op
    | apply console_ret; exact I
    | case_match
    | eapply console_bind; [|intros ? _] ].

Lemma wr_op (data : list Z) i v :
  0 ≤ i < zlen data → ∃ d, wr data i v = Ok d ∧ zlen d = zlen data.
Proof. intros Hi. rewrite wr_ok by done. eexists. split; [done|]. unfold zlen. by rewrite length_insert. Qed.

Lemma basic_tty_read_op n data result :
  0 ≤ result → result + Z.of_nat n ≤ zlen data → result + Z.of_nat n < 32768 →
  console_op (basic_tty_read_loop n data result) (λ r, zlen r.2 = zlen data).
Proof.
  revert data result. induction n as [|n IH]; intros data result H0 Hl Hr; cbn [basic_tty_read_loop].
  { by apply console_ret. }
  eapply console_bind; [apply chrin_op|intros c _].
  case_match; [by apply console_ret|]. case_match.
  - eapply console_bind; [apply console_lift, wr_op; lia|intros d Hd].
    eapply (console_bind _ _ (λ _, True)); [unfold chrout_newline; output|intros _ _]. by apply console_ret.
  - eapply console_bind; [apply console_lift, wr_op; lia|intros d Hd].
    eapply (console_bind _ _ (λ _, True)); [output|intros _ _].
    cbv beta in Hd. rewrite <- Hd in Hl |- *. rewrite s16_small by lia. apply IH; lia.
Qed.

Lemma basic_tty_write_op n d result :
  Z.of_nat n ≤ zlen d → console_op (basic_tty_write_loop n d result) (λ _, True).
Proof.
  revert d result. induction n as [|n IH]; intros d result Hl; cbn [basic_tty_write_loop].
  { by apply console_ret. }
  destruct d as [|c d]; [unfold zlen in Hl; simpl in Hl; lia|].
  eapply (console_bind _ _ (λ _, True)); [output|intros _ _]. apply IH. unfold zlen in *. simpl in Hl. lia.
Qed.

Lemma raw_tty_write_op n d : Z.of_nat n ≤ zlen d → console_op (raw_tty_write_loop n d) (λ _, True).
Proof.
  revert d. induction n as [|n IH]; intros d Hl; cbn [raw_tty_write_loop]; [by apply console_ret|].
  destruct d as [|c d]; [unfold zlen in Hl; simpl in Hl; lia|].
  eapply console_bind; [apply chrout_op|intros _ _]. apply IH. unfold zlen in *. simpl in Hl. lia.
Qed.

Lemma memcpy_op (data src : list Z) n :
  0 ≤ n → n ≤ zlen data → n ≤ zlen src → ∃ d, memcpy data 0 src n = Ok d ∧ zlen d = zlen data.
Proof.
  intros H0 Hd Hs. destruct (memcpy data 0 src n) as [d|] eqn:E.
  - exists d. split; [done|]. apply memcpy_length in E. unfold zlen. lia.
  - exfalso. unfold memcpy in E. rewrite !(proj2 (Z.leb_le _ _)) in E by lia. done.
Qed.

(** ** Open files *)

(** The file keeps its count and [m] its result in the buffer. *)
Definition file_safe {X} (m : M kern X) k A D F T oth f : Prop :=
  ∃ r k', m k = Ok (r, k') ∧ kern_ok k' A D F T oth ∧ k_proc k' = k_proc k ∧
    ∃ x x', k_files k !! f = Some x ∧ k_files k' !! f = Some x' ∧ f_count x' = f_count x.

Lemma console_file_safe {X} (m : M kern X) Q k A D F T oth f :
  console_op m Q → kern_ok k A D F T oth → is_Some (k_files k !! f) → file_safe m k A D F T oth f.
Proof.
  intros Hm Hk [x Hx]. destruct (Hm k) as (r & k' & E & Hc & _). exists r, k'.
  split_and!; [done|by eapply console_only_ok|by rewrite Hc|].
  exists x, x. rewrite Hc. done.
Qed.

Lemma fop_write_safe k A D F T oth f x data size :
  kern_ok k A D F T oth → k_files k !! f = Some x → 0 < f_count x →
  0 ≤ size → size ≤ zlen data → file_safe (fop_write f data size) k A D F T oth f.
Proof.
  intros Hk Hx Hpos H0 Hs.
  assert (∀ m : M kern Z, console_op m (λ _, True) → fop_write f data size k = m k →
            file_safe (fop_write f data size) k A D F T oth f) as H.
  { intros m Hm E. destruct (console_file_safe m _ k A D F T oth f Hm Hk ltac:(eauto)) as (r & k' & E' & H').
    exists r, k'. split; [by rewrite E|done]. }
  pose proof (get_file_ok _ _ _ Hx) as Ef.
  destruct (fo_live _ _ _ _ (ko_files _ _ _ _ _ _ Hk) f x Hx Hpos) as [[Hop _]|[Hop _]].
  - apply (H file_write_default); [by apply console_ret|]. unfold fop_write. mstep by exact Ef. by rewrite Hop.
  - unfold fop_write in *. repeat (apply elem_of_cons in Hop as [Hop|Hop]); [..|by apply elem_of_nil in Hop].
    + apply (H (dev_null_write data size)); [by apply console_ret|]. mstep by exact Ef. by rewrite Hop.
    + apply (H (dev_null_write data size)); [by apply console_ret|]. mstep by exact Ef. by rewrite Hop.
    + apply (H (dev_full_write data size)); [by apply console_ret|]. mstep by exact Ef. by rewrite Hop.
    + apply (H (basic_tty_write data size)); [apply basic_tty_write_op; lia|]. mstep by exact Ef. by rewrite Hop.
    + apply (H (raw_tty_write data size)); [|mstep by exact Ef; by rewrite Hop].
      eapply console_bind; [apply raw_tty_write_op; lia|intros _ _]. by apply console_ret.
Qed.

(** Replacing an open file by one with the same references. *)
Lemma kern_ok_file k A D F T oth f x y :
  kern_ok k A D F T oth → k_files k !! f = Some x →
  f_count y = f_count x → f_op y = f_op x → f_inode y = f_inode x →
  kern_ok (set_files (<[f := y]> (k_files k)) k) A D F T oth.
Proof.
  intros [Hf (R & Hv & Hs & HR) [base Hc]] Hx Ec Eo Ei. split.
  - split; simpl; try apply Hf.
    + unfold zlen. rewrite length_insert. apply Hf.
    + intros g z. rewrite list_lookup_insert_Some. intros [(<- & <- & _)|[_ Hz]]; [|by apply Hf].
      rewrite Ec. apply (fo_count _ _ _ _ Hf f x Hx).
    + intros g z. rewrite list_lookup_insert_Some. intros [(<- & <- & _)|[_ Hz]]; [|by eapply fo_live].
      unfold live_file. rewrite Ec, Eo, Ei. apply (fo_live _ _ _ _ Hf f x Hx).
    + intros i g Hg. destruct (fo_fd _ _ _ _ Hf i g Hg) as [z Hz].
      rewrite list_lookup_insert_is_Some. eauto.
  - exists R. split_and!; [by apply (vfs_ok_frame k)|done|]. intros p Hp. simpl. rewrite HR by done.
    rewrite (open_refs_insert _ _ _ x) by done. unfold open_ind. rewrite Ec, Ei. lia.
  - by exists base.
Qed.

Lemma fop_read_safe k A D F T oth f x data size :
  kern_ok k A D F T oth → k_files k !! f = Some x → 0 < f_count x →
  0 ≤ size < 32768 → size ≤ zlen data → file_safe (fop_read f data size) k A D F T oth f.
Proof.
  intros Hk Hx Hpos H0 Hs.
  assert (∀ m : M kern (Z * list Z), console_op m (λ _, True) → fop_read f data size k = m k →
            file_safe (fop_read f data size) k A D F T oth f) as H.
  { intros m Hm E. destruct (console_file_safe m _ k A D F T oth f Hm Hk ltac:(eauto)) as (r & k' & E' & H').
    exists r, k'. split; [by rewrite E|done]. }
  pose proof (get_file_ok _ _ _ Hx) as Ef.
  assert (console_op (dev_zero_read data size) (λ _, True)) as Hz.
  { eapply console_bind; [apply console_lift, memcpy_op; try lia|intros d _; by apply console_ret].
    unfold zlen. rewrite length_replicate. lia. }
  destruct (fo_live _ _ _ _ (ko_files _ _ _ _ _ _ Hk) f x Hx Hpos) as [(Hop & n & Hn & Hd)|[Hop _]].
  - pose proof Hk as [_ (R & Hv & _) _].
    pose proof (ramfs_dir_read_spec k A D F R f x n data size Hv Hx Hn Hd ltac:(lia) Hs) as E.
    eexists _, _. split; [unfold fop_read; mstep by exact Ef; rewrite Hop; exact E|].
    split_and!; [by eapply kern_ok_file|done|]. eexists x, _. split; [done|].
    split; [simpl; apply list_lookup_insert_eq; by eapply lookup_lt_Some|done].
  - unfold fop_read in *. repeat (apply elem_of_cons in Hop as [Hop|Hop]); [..|by apply elem_of_nil in Hop].
    + apply (H (dev_null_read data size)); [by apply console_ret|]. mstep by exact Ef. by rewrite Hop.
    + apply (H (dev_zero_read data size)); [done|]. mstep by exact Ef. by rewrite Hop.
    + apply (H (dev_zero_read data size)); [done|]. mstep by exact Ef. by rewrite Hop.
    + apply (H (basic_tty_read data size)); [|mstep by exact Ef; by rewrite Hop].
      intros k0. destruct (basic_tty_read_op (Z.to_nat size) data 0 ltac:(lia) ltac:(lia) ltac:(lia) k0)
        as (r & k' & E & Hc & _). by exists r, k'.
    + (* the flags of the file are read *)
      assert (∀ k0 : kern, raw_tty_read f data size k = (if size =? 0 then mret (0, data) else
                ch ← chrin;
                if CONFIG_CHROUT_NO_WAIT && has_bits (f_flags x) O_NONBLOCK && (ch <? 0) then mret (0, data)
                else data ← lift (wr data 0 (u8 ch)); mret (1, data)) k) as E.
      { intros _. unfold raw_tty_read. case_match; [done|]. by mstep by exact Ef. }
      eapply H; [|mstep by exact Ef; rewrite Hop; by apply E].
      case_match; [by apply console_ret|]. eapply console_bind; [apply chrin_op|intros c _].
      case_match; [by apply console_ret|].
      eapply console_bind; [apply console_lift, wr_op; lia|intros d _]. by apply console_ret.
Qed.

(** Taking a reference around an operation on an open file. *)
Lemma with_file_safe {X} k oth A D F fd f (m : M kern X) :
  proc_ok k A D F oth → oth_slack oth → fd_at (p_fd (k_proc k)) fd = Some f →
  (∀ k1 x T oth', kern_ok k1 A D F T oth' → k_files k1 !! f = Some x → 0 < f_count x →
     file_safe m k1 A D F T oth' f) →
  safe (_ ← file_ref f; r ← m; _ ← file_deref f; mret r) k oth.
Proof.
  intros Hk Hs Hfd Hm. destruct (fd_at_Some _ _ _ Hfd) as [_ Hslot].
  destruct (slot_count _ _ _ _ _ _ _ _ Hk Hs Hslot) as (x & Hx & Hc).
  destruct (file_ref_spec _ _ _ _ _ _ f x Hk Hs Hx) as [Er Hk1]; [lia|]. set (k1 := set_files _ k) in *.
  assert (k_files k1 !! f = Some (fset_count (f_count x + 1) x)) as Hx1.
  { simpl. apply list_lookup_insert_eq. by eapply lookup_lt_Some. }
  destruct (Hm k1 _ _ _ Hk1 Hx1) as (r & k2 & E2 & Hk2 & Ep & y & x2 & Hy & Hx2 & Hc2); [simpl; lia|].
  rewrite Hx1 in Hy. injection Hy as <-. simpl in Hc2.
  destruct (file_deref_spec _ _ _ _ _ _ f x2 Hk2 Hx2) as (k3 & E3 & Hk3 & Hsame & _); [lia| |].
  { unfold oadd. rewrite decide_True by done. pose proof (fo_oth _ _ _ _ (ko_files _ _ _ _ _ _ Hk) f). lia. }
  exists r, k3. split; [mstep by exact Er; mstep by exact E2; mstep by exact E3; done|].
  exists A, D, F. unfold proc_ok. rewrite (same_proc _ _ Hsame), Ep. eapply kern_ok_ext, Hk3.
  intros g. unfold oadd. case_decide; lia.
Qed.

(** ** Each call is safe *)

Abbreviation table k := (p_fd (k_proc k)).
Lemma sys_read_safe k oth fd buf size :
  sys_ok k oth → oth_slack oth → valid_buf buf size → safe ('(r, _) ← sys_read fd buf size; mret r) k oth.
Proof.
  intros Hk Ho [Hsz Hb]. apply safe_map; [|by intros [r ?] k' ?; apply safe_ret].
  pose proof Hk as (A & D & F & Hp). pose proof (fo_fdlen _ _ _ _ (ko_files _ _ _ _ _ _ Hp)) as Hl.
  unfold sys_read. eapply safe_bind; [by apply file_get_spec|].
  destruct (fd_at (table k) fd) as [f|] eqn:Hfd; [|by apply safe_ret].
  destruct buf as [b|].
  - destruct (with_file_safe k oth A D F fd f (fop_read f b size) Hp Ho Hfd) as ([r d] & k' & E & Hk').
    { intros. eapply fop_read_safe; try done; lia. }
    exists (r, Some d), k'. split; [|done].
    apply bind_inv in E as ([] & k1 & E1 & E). mstep by exact E1.
    apply bind_inv in E as ([r1 d1] & k2 & E2 & E). mstep by exact E2. cbv beta iota.
    apply bind_inv in E as (z & k3 & E3 & [= -> -> ->]). by mstep by exact E3.
  - case_match; [by apply safe_ret|]. apply Z.ltb_ge in H.
    destruct (with_file_safe k oth A D F fd f (fop_read f [] size) Hp Ho Hfd) as ([r d] & k' & E & Hk').
    { intros. eapply fop_read_safe; [done|done|done|lia|change (zlen []) with 0; lia]. }
    exists (r, None), k'. split; [|done].
    apply bind_inv in E as ([] & k1 & E1 & E). mstep by exact E1.
    apply bind_inv in E as ([r1 d1] & k2 & E2 & E). mstep by exact E2. cbv beta iota.
    apply bind_inv in E as (z & k3 & E3 & [= -> -> ->]). by mstep by exact E3.
Qed.

Lemma sys_write_safe k oth fd buf size :
  sys_ok k oth → oth_slack oth → valid_buf buf size → safe (sys_write fd buf size) k oth.
Proof.
  intros Hk Ho [Hsz Hb].
  pose proof Hk as (A & D & F & Hp). pose proof (fo_fdlen _ _ _ _ (ko_files _ _ _ _ _ _ Hp)) as Hl.
  unfold sys_write. eapply safe_bind; [by apply file_get_spec|].
  destruct (fd_at (table k) fd) as [f|] eqn:Hfd; [|by apply safe_ret].
  destruct (bool_decide (buf = None) && (0 <? size)) eqn:Hnull; [by apply safe_ret|].
  apply (with_file_safe k oth A D F fd f (fop_write f (default [] buf) size) Hp Ho Hfd).
  intros. eapply fop_write_safe; try done; [lia|]. destruct buf as [b|]; [done|].
  simpl in Hnull. apply Z.ltb_ge in Hnull. unfold zlen. simpl. lia.
Qed.

Lemma sys_close_safe k oth fd : sys_ok k oth → oth_slack oth → safe (sys_close fd) k oth.
Proof.
  intros Hk Ho. pose proof Hk as (A & D & F & Hp).
  pose proof (sys_close_spec k A D F oth fd Hp (Ho)) as H.
  destruct (fd_at _ _) as [f|]; [destruct H as (k' & E & Hk' & _)|]; eexists _, _; (split; [done|]); [|done].
  by exists A, D, F.
Qed.

Lemma dup_post_ok k A D F oth f newfd e k' :
  proc_ok k A D F oth → dup_post k A D F oth f newfd e k' → sys_ok k' oth.
Proof.
  intros Hk [(_ & -> & _)|(_ & _ & _ & Hk' & _)]; by exists A, D, F.
Qed.

Lemma sys_dup_scan_safe k oth fd m : sys_ok k oth → oth_slack oth → safe (sys_dup_scan fd m) k oth.
Proof.
  intros Hk Ho. pose proof Hk as (A & D & F & Hp).
  pose proof (sys_dup_scan_spec k A D F oth fd m Hp (Ho)) as H.
  destruct (fd_at _ _) as [f|]; [destruct (_ || _); [|destruct H as (e & k' & E & Hd)]|];
    eexists _, _; (split; [done|]); try done. by eapply dup_post_ok.
Qed.

Lemma sys_dup2_safe k oth fd m : sys_ok k oth → oth_slack oth → safe (sys_dup2 fd m) k oth.
Proof.
  intros Hk Ho. pose proof Hk as (A & D & F & Hp).
  pose proof (sys_dup2_spec k A D F oth fd m Hp (Ho)) as H.
  destruct (fd_at _ _) as [f|]; [destruct (_ || _); [|destruct (_ =? _); [|destruct H as (k' & E & Hk' & _)]]|];
    eexists _, _; (split; [done|]); try done. by exists A, D, F.
Qed.

Lemma sys_fcntl_safe k oth fd cmd value : sys_ok k oth → oth_slack oth → safe (sys_fcntl fd cmd value) k oth.
Proof.
  intros Hk Ho. pose proof Hk as (A & D & F & Hp).
  pose proof (fo_fdlen _ _ _ _ (ko_files _ _ _ _ _ _ Hp)) as Hl.
  pose proof (fo_cloexec _ _ _ _ (ko_files _ _ _ _ _ _ Hp)) as Hlc.
  unfold sys_fcntl. eapply safe_bind; [by apply file_get_spec|].
  destruct (fd_at (table k) fd) as [f|] eqn:Hfd; [|by apply safe_ret].
  destruct (fd_at_Some _ _ _ Hfd) as [Hr Hslot].
  destruct (fd_slot_refs _ _ _ _ _ _ (ko_files _ _ _ _ _ _ Hp) Hslot) as (x & Hx & Hc & _).
  destruct (cmd =? F_DUPFD); [by apply sys_dup_scan_safe|].
  destruct (cmd =? F_GETFD).
  { destruct (rd_ok (p_cloexec (k_proc k)) fd) as (v & E & _); [lia|]. exists v, k. split; [|done].
    unfold cloexec_read. mstep by done. unfold lift. by rewrite E. }
  destruct (cmd =? F_SETFD).
  { destruct (cloexec_write_spec k A D F _ oth fd (Z.land value FD_CLOEXEC) Hp Hr) as [E Hk'].
    eapply safe_bind; [exact E|]. apply safe_ret. by exists A, D, F. }
  destruct (cmd =? F_GETFL).
  { eapply safe_bind; [by apply get_file_ok|]. by apply safe_ret. }
  destruct (cmd =? F_SETFL); [|by apply safe_ret].
  destruct (has_bits value O_NONBLOCK); (eapply safe_bind; [by apply upd_file_ok|]); apply safe_ret;
    exists A, D, F; by eapply (kern_ok_file _ _ _ _ _ _ f x).
Qed.

Lemma sys_mkdir_safe k oth path mode : sys_ok k oth → valid_path path → safe (sys_mkdir path mode) k oth.
Proof.
  intros Hk Hv. pose proof Hk as (A & D & F & Hp). pose proof Hp as [_ (R & Hvfs & Hs & HR) [base Hc]].
  destruct (path_cases _ Hv) as [Hbad|(s & p & -> & Hstr & Hne)].
  - unfold sys_mkdir, umasked. eapply safe_bind; [by mstep by done|].
    destruct (inode_lookup_path_bad k path true (Z.lor O_CREAT O_EXCL) (mkdir_mode k mode) Hbad) as (e & E & He).
    eapply safe_bind; [exact E|]. cbv beta iota. rewrite (proj2 (Z.leb_gt 0 e)) by done. by apply safe_ret.
  - destruct (sys_mkdir_spec k A D F R base s p mode Hvfs Hs Hc Hstr Hne) as (e & k' & E & Hpost).
    exists e, k'. split; [done|]. by eapply create_post_ok.
Qed.

Lemma sys_mknod_safe k oth path mode dev :
  sys_ok k oth → valid_path path → safe (sys_mknod path mode dev) k oth.
Proof.
  intros Hk Hv. pose proof Hk as (A & D & F & Hp). pose proof Hp as [_ (R & Hvfs & Hs & HR) [base Hc]].
  destruct (path_cases _ Hv) as [Hbad|(s & p & -> & Hstr & Hne)].
  - unfold sys_mknod, umasked. eapply safe_bind; [by mstep by done|].
    case_match; [by apply safe_ret|]. case_match; [by apply safe_ret|].
    destruct (inode_lookup_path_bad k path true (Z.lor O_CREAT O_EXCL) (mknod_mode k mode) Hbad) as (e & E & He).
    eapply safe_bind; [exact E|]. cbv beta iota. rewrite (proj2 (Z.leb_gt 0 e)) by done. by apply safe_ret.
  - pose proof (sys_mknod_spec k A D F R base s p mode dev Hvfs Hs Hc Hstr Hne) as H. cbv zeta in H.
    case_match; [|by eexists _, _].
    destruct H as (e & k' & E & Hpost). exists e, k'. split; [done|]. by eapply create_post_ok.
Qed.

Lemma kern_ok_cwd k A D F T oth cwd cs :
  kern_ok k A D F T oth → cwd_ok (set_cur (set_cwd cwd (k_proc k)) k) cs →
  kern_ok (set_cur (set_cwd cwd (k_proc k)) k) A D F T oth.
Proof.
  intros [Hf (R & Hv & Hs & HR) _] Hc. split.
  - split; simpl; apply Hf.
  - exists R. split_and!; [by apply (vfs_ok_frame k)|done..].
  - by exists cs.
Qed.

(** chdir() touches the working directory and the path buffer only. *)
Lemma sys_chdir_quiet k A D F oth path :
  proc_ok k A D F oth → valid_path path →
  ∃ e k', sys_chdir path k = Ok (e, k') ∧ proc_ok k' A D F oth ∧ frame k k' ∧ table k' = table k.
Proof.
  intros Hp Hv. pose proof Hp as [_ (R & Hvfs & Hs & HR) [base Hc]].
  destruct (path_cases _ Hv) as [Hbad|(s & p & -> & Hstr & Hne)].
  - unfold sys_chdir. destruct (inode_lookup_path_bad k path false O_EXEC S_IFDIR Hbad) as (e & E & He).
    exists e, k. split; [|split; [done|split; [apply frame_refl|done]]].
    mstep by exact E. cbv beta iota. by rewrite (proj2 (Z.leb_gt 0 e)).
  - destruct (sys_chdir_spec k A D F R base s p Hvfs Hs Hc Hstr Hne) as (e & k' & E & temp & Ht & Hpost).
    exists e, k'. split; [done|].
    assert (proc_ok (set_temp temp k) A D F oth) as Hkt by by apply kern_ok_temp.
    assert (∀ kt, kt = set_temp temp k → proc_ok kt A D F oth ∧ frame k kt ∧ table kt = table k) as Hscr
      by (intros ? ->; split; [done|split; [by apply frame_scratch; destruct k|done]]).
    destruct (path_spec _ _ _) as [cs|]; [|by apply Hscr, Hpost].
    destruct (a_walk _ _ _ _ _) as [e'|q|d nm]; [by apply Hscr, Hpost| |done].
    destruct Hpost as (_ & Hc' & cwd & ->). split; [|split; [by apply frame_scratch; destruct k|done]].
    change (k_proc k) with (k_proc (set_temp temp k)) in Hc' |- *. by eapply kern_ok_cwd.
Qed.

Lemma sys_chdir_safe k oth path : sys_ok k oth → valid_path path → safe (sys_chdir path) k oth.
Proof.
  intros (A & D & F & Hk) Hv. destruct (sys_chdir_quiet k A D F oth path Hk Hv) as (e & k' & E & Hk' & _).
  exists e, k'. split; [done|]. by exists A, D, F.
Qed.

Lemma sys_opendir_safe k oth path :
  sys_ok k oth → oth_slack oth → valid_path path → safe (sys_opendir path) k oth.
Proof.
  intros Hk Ho Hv. pose proof Hk as (A & D & F & Hp). pose proof Hp as [_ _ [base Hc]].
  destruct (path_cases _ Hv) as [Hbad|(s & p & -> & Hstr & Hne)].
  - unfold sys_opendir, file_open.
    destruct (inode_lookup_path_bad k path true O_RDONLY S_IFDIR Hbad) as (e & E & He).
    eapply safe_bind; [exact E|]. cbv beta iota. rewrite (proj2 (Z.ltb_lt e 0)) by done. by apply safe_ret.
  - destruct (sys_opendir_spec k A D F oth base s p Hp (Ho) Hc Hstr Hne) as (e & k' & E & Hpost).
    exists e, k'. split; [done|]. exists A, D, F. unfold opendir_post in Hpost.
    destruct (path_spec _ _ _) as [cs|]; [|by destruct Hpost as (_ & ? & _)].
    destruct (a_walk _ _ _ _ _) as [e'|q|d nm]; [by destruct Hpost as (_ & ? & _)|by destruct Hpost|done].
Qed.

Lemma sys_getcwd_safe k oth buf size :
  sys_ok k oth → valid_buf buf size → safe ('(r, _) ← sys_getcwd buf size false; mret r) k oth.
Proof.
  intros Hk [Hsz Hb]. apply safe_map; [|by intros [r ?] k' ?; apply safe_ret].
  destruct buf as [b|]; [|by apply safe_ret]. unfold sys_getcwd.
  destruct (Z.eqb_spec size 0); [by apply safe_ret|].
  pose proof Hk as (A & D & F & [_ _ (base & Hc & _)]).
  destruct (strcpy_constrained_loop_spec (Z.to_nat (size - 1)) [] b _ _ Hc) as (d3 & E & _);
    [unfold zlen in Hb; lia|].
  eexists _, _. split; [|exact Hk]. mstep by done.
  mstep by (unfold lift, strcpy_constrained; change 0 with (zlen (A:=Z) []); cbn [app] in E; rewrite E; reflexivity).
  done.
Qed.

Lemma sys_umask_quiet k A D F oth mask :
  proc_ok k A D F oth → let k' := set_cur (set_umask (Z.land mask MODE_0777) (k_proc k)) k in
  sys_umask mask k = Ok (p_umask (k_proc k), k') ∧ proc_ok k' A D F oth ∧ frame k k'.
Proof.
  intros [Hf (R & Hv & Hs & HR) [base Hc]] k'. split; [done|]. split; [|apply frame_scratch; by destruct k].
  split; [|exists R; split_and!; [by apply (vfs_ok_frame k)|done..]|by exists base].
  split; simpl; apply Hf.
Qed.

Lemma sys_umask_safe k oth mask : sys_ok k oth → safe (sys_umask mask) k oth.
Proof.
  intros (A & D & F & Hk). destruct (sys_umask_quiet k A D F oth mask Hk) as (E & Hk' & _).
  eexists _, _. split; [exact E|]. by exists A, D, F.
Qed.

(** ** open() *)

(** The mode that open() looks for, and creates, has no file type. *)
Definition open_mode k (mode : Z) : Z := Z.land (Z.ldiff mode (p_umask (k_proc k))) MODE_0777.

Lemma open_mode_type k mode : Z.land (open_mode k mode) S_IFMT = 0.
Proof. unfold open_mode. rewrite <- Z.land_assoc. apply Z.land_0_r. Qed.

(** Opening an inode without a type: ramfs_open() refuses it, and the release
    of the file calls through the NULL operation table; when no open file is
    left, the reference to the inode is released. *)
Lemma open_tail_typeless k flags p i :
  zlen (k_files k) = CONFIG_FD_MAX → inode_at k p i → i_op i = IopRam → Z.land (i_mode i) S_IFMT = 0 →
  2 ≤ i_count i < 32768 →
  open_tail flags p k = Ok (- ENFILE, bump p (-1) k) ∨ open_tail flags p k = Err FNull.
Proof.
  intros Hl Hi Hop Ht Hc. pose proof (get_inode_ok _ _ _ Hi) as Ei. unfold open_tail.
  rewrite (bind_ok _ _ _ _ _ Ei). unfold file_new.
  destruct (file_new_loop_spec (Z.to_nat CONFIG_FD_MAX) k 0 (u16 flags) (i_mode i))
    as [(f & x & _ & Hx & _ & E)|[_ E]]; [rewrite Hl; done|..]; rewrite (bind_ok _ _ _ _ _ E).
  - right. pose proof (lookup_lt_Some _ _ _ Hx) as Hlt. set (k1 := set_files _ k).
    assert (k_files k1 !! f = Some (File 1 (u16 flags) (i_mode i) FopNull 0 0 0)) as Hx1
      by by apply list_lookup_insert_eq.
    mstep by (by apply upd_file_ok). set (k2 := set_files _ k1).
    assert (k_files k2 !! f = Some (File 1 (u16 flags) (i_mode i) FopNull p 0 0)) as Hx2.
    { simpl. rewrite list_lookup_insert_eq; [done|]. by rewrite length_insert. }
    mstep by (unfold op_open; mstep by (apply (get_inode_ok k2); exact Hi); rewrite Hop;
              unfold ramfs_open; mstep by (by apply get_file_ok); cbn [f_mode]; rewrite Ht; reflexivity).
    change (- EACCES <? 0) with true. cbv iota.
    rewrite (bind_err _ _ _ FNull); [done|]. unfold file_deref.
    mstep by (by apply upd_file_ok). set (k3 := set_files _ k2).
    assert (k_files k3 !! f = Some (File 0 (u16 flags) (i_mode i) FopNull p 0 0)) as Hx3.
    { simpl. rewrite list_lookup_insert_eq; [done|]. by rewrite !length_insert. }
    mstep by (by apply get_file_ok). simpl. unfold fop_close. by mstep by (by apply get_file_ok).
  - left. by mstep by (eapply inode_deref_ok; [exact Hi|done]).
Qed.

Lemma open_tail_fails k A D F R flags p n :
  zlen (k_files k) = CONFIG_FD_MAX → vfs_ok k A D F R → 1 ≤ R !!! p → A !! p = Some n →
  Z.land (a_mode n) S_IFMT = 0 →
  (open_tail flags p k = Ok (- ENFILE, bump p (-1) k) ∧ vfs_ok (bump p (-1) k) A D F (add_ref p (-1) R)) ∨
  open_tail flags p k = Err FNull.
Proof.
  intros Hl Hv Hr Hn Ht. destruct (node_inode _ _ _ _ _ _ _ Hv Hn) as (u0 & Hi & _).
  destruct (node_drop_ok _ _ _ _ _ p Hv ltac:(eauto) Hr) as [_ Hv'].
  destruct (open_tail_typeless _ flags _ _ Hl Hi eq_refl Ht) as [E|E]; [|by left|by right].
  simpl. pose proof (vo_refs _ _ _ _ _ Hv p). unfold base_refs. case_match; lia.
Qed.

(** Open() fails and keeps the invariant, or goes through the NULL table. *)
Lemma sys_open_outcome k A D F oth path flags mode :
  proc_ok k A D F oth → valid_path path →
  (∃ e k', sys_open path flags mode k = Ok (e, k') ∧ e < 0 ∧ sys_ok k' oth) ∨
  sys_open path flags mode k = Err FNull.
Proof.
  intros Hk Hpath. pose proof Hk as [Hf (R & Hv & Hs & HR) [base Hc]].
  unfold sys_open, umasked. erewrite bind_ok by (by mstep by done). fold (open_mode k mode).
  change (file_open path flags (open_mode k mode)) with
    ('(error, inode) ← inode_lookup_path true path flags (open_mode k mode);
     if error <? 0 then mret error else open_tail flags inode).
  destruct (path_cases _ Hpath) as [Hbad|(s & p & -> & Hstr & Hne)].
  { destruct (inode_lookup_path_bad k path true flags (open_mode k mode) Hbad) as (e & E & He).
    rewrite (bind_ok _ _ _ _ _ E). rewrite (proj2 (Z.ltb_lt e 0)) by done. left. exists e, k.
    split_and!; [done..|]. by exists A, D, F. }
  assert (has_bits (open_mode k mode) S_ISVTX = false) as Hvtx.
  { unfold has_bits, open_mode. by rewrite <- Z.land_assoc, Z.land_0_r. }
  destruct (inode_lookup_path_spec k A D F R base true flags _ s p Hv Hs Hc Hstr Hne Hvtx)
    as ([e q] & k1 & E & temp & Ht & Hpost).
  rewrite (bind_ok _ _ _ _ _ E). cbv beta iota.
  assert (sys_ok (set_temp temp k) oth) as Hkt by (exists A, D, F; by apply kern_ok_temp).
  assert (k1 = set_temp temp k → e < 0 → ∃ e' k', (if e <? 0 then mret e else open_tail flags q) k1 = Ok (e', k')
            ∧ e' < 0 ∧ sys_ok k' oth) as Herr.
  { intros -> He. rewrite (proj2 (Z.ltb_lt e 0)) by done. by eexists _, _. }
  destruct (path_spec _ _ _) as [cs|]; [|destruct Hpost as [[= -> ->] ->]; by left; apply Herr].
  destruct Hpost as (_ & _ & [e1 q1] & Hw & [= Ee ->]). unfold walk_post in Hw. simpl in Ee.
  assert (vfs_ok (set_temp temp k) A D F R) as Hvt by by apply (vfs_ok_frame k).
  destruct (a_walk A flags (open_mode k mode) _ cs) as [e'|r|d nm] eqn:Hwalk.
  - apply a_walk_WErr in Hwalk. destruct Hw as [[= -> ->] ->]. left. apply Herr; [done|lia].
  - destruct Hw as [[= -> ->] ->]. destruct (a_walk_found _ _ _ _ _ _ Hwalk) as (n & Hn & Htype).
    rewrite open_mode_type in Htype. subst e. change (0 `min` 0 <? 0) with false. cbv iota.
    destruct (open_tail_fails (bump r 1 (set_temp temp k)) A D F (add_ref r 1 R) flags r n) as [[E' _]|E'];
      try done; [apply Hf|by apply vfs_ok_ref| |left|by right].
    + unfold add_ref. rewrite lookup_total_insert_eq. pose proof (vo_refs _ _ _ _ _ Hv r). lia.
    + eexists _, _. split; [exact E'|]. split; [done|]. rewrite bump_bump. simpl. by rewrite bump_0.
  - destruct Hw as (n & Hn & _ & _ & Hw).
    destruct (_ <? zlen nm); [destruct Hw as [[= -> ->] ->]; subst e; by left; apply Herr|].
    destruct F as [|x [|c F]]; [destruct Hw as [[= -> ->] ->]; subst e; by left; apply Herr..|].
    destruct Hw as ([= -> ->] & Hv1 & Hsame). subst e. change (1 `min` 0 <? 0) with false. cbv iota.
    edestruct (open_tail_fails k1) as [[E' Hv2]|E'];
      [rewrite Hsame; apply Hf|exact Hv1|by rewrite lookup_total_insert_eq|by apply lookup_insert_eq|
       apply open_mode_type|left; eexists _, _; split; [exact E'|split; [done|]]|by right].
    destruct (free_fresh _ _ _ _ _ c Hv) as (HAc & _); [right; left|].
    eexists _, _, _. eapply (create_made_ok k A D x c F R base oth (open_mode k mode) 0 d n nm _ Hk Hv Hs HR Hc Hn HAc).
    + rewrite insert_id by (unfold a_create; by rewrite lookup_insert_eq).
      eapply vfs_ok_refs_ext, Hv2. intros y. unfold add_ref. by rewrite insert_insert_eq, lookup_total_insert_eq.
    + exists temp. split; [done|]. by apply same_but_bufs_bump.
Qed.

(** C12: open() never returns a descriptor: the mode it passes to the lookup has
    no file type, so every existing file, device and directory is refused, and
    a file that it creates has no type, is refused by ramfs_open(), and the
    release of the half-open file jumps through the NULL operation table. *)
Theorem sys_open_never_succeeds k A D F oth path flags mode :
  proc_ok k A D F oth → valid_path path →
  (∃ e k', sys_open path flags mode k = Ok (e, k') ∧ e < 0) ∨ sys_open path flags mode k = Err FNull.
Proof.
  intros Hk Hpath. destruct (sys_open_outcome k A D F oth path flags mode Hk Hpath) as [(e & k' & E & He & _)|E];
    [left; eauto|by right].
Qed.

(** ** Sequences of calls *)

(** [c] is the open() of [path] in the state [k], and it jumps through NULL. *)
Definition open_faults (c : call) k : Prop :=
  ∃ path flags mode, c = COpen path flags mode ∧ sys_open path flags mode k = Err FNull.

Lemma lift_streq_ok (s p t : list Z) k : cstring s p → nonul t → ∃ b, lift (streq s t) k = Ok (b, k).
Proof.
  intros [_ [junk ->]] Ht. assert (∃ b, streq (p ++ NUL :: junk) t = Ok b) as [b E].
  { revert t Ht. induction p as [|c p IH]; intros [|d t] Ht; cbn [app streq]; eauto;
      apply Forall_cons in Ht as [Hd Ht].
    - rewrite (proj2 (Z.eqb_neq NUL d)) by done. eauto.
    - destruct (c =? d); eauto. }
  exists b. unfold lift. by rewrite E.
Qed.

(** Without an SD card, mount() fails before it looks at the target. *)
Lemma sys_mount_safe k oth source target fstype flags :
  have_sd = false → sys_ok k oth → valid_path source → safe (sys_mount source target fstype flags) k oth.
Proof.
  intros Hsd Hk Hs. unfold sys_mount.
  destruct source as [s|]; [|by apply safe_ret]. destruct fstype as [t|]; [|by apply safe_ret].
  destruct Hs as [p Hp]. destruct (lift_streq_ok s p (chars "/dev/mmcblk0") k Hp) as [b E];
    [by apply (bool_decide_unpack _)|].
  eapply safe_bind; [exact E|]. unfold fatfs_have_sd. rewrite Hsd, orb_true_r. by apply safe_ret.
Qed.

Lemma run_call_outcome k oth c :
  sys_ok k oth → oth_slack oth → valid_call c → safe (run_call c) k oth ∨ open_faults c k.
Proof.
  intros Hk Ho Hc. destruct c as [ | | | | | | | | | | | |path flags mode| | | | | | | ]; simpl in Hc;
    try (left; by apply safe_ret).
  - left. by apply sys_mkdir_safe.
  - left. by apply sys_mknod_safe.
  - left. by apply sys_chdir_safe.
  - left. by apply sys_getcwd_safe.
  - left. by apply sys_opendir_safe.
  - left. by apply sys_close_safe.
  - left. by apply sys_read_safe.
  - left. by apply sys_write_safe.
  - left. by apply sys_dup_scan_safe.
  - left. by apply sys_dup2_safe.
  - left. by apply sys_fcntl_safe.
  - left. by apply sys_umask_safe.
  - destruct Hk as (A & D & F & Hk).
    destruct (sys_open_outcome k A D F oth path flags mode Hk Hc) as [(e & k' & E & _ & Hk')|E].
    + left. by exists e, k'.
    + right. by exists path, flags, mode.
  - left. destruct Hc as (? & ? & _). by apply sys_mount_safe.
Qed.

(** A sequence of calls returns a result for each, or stops at an open(). *)
Definition runs_all cs k oth : Prop :=
  ∃ rs k', run_calls cs k = Ok (rs, k') ∧ length rs = length cs ∧ sys_ok k' oth.
Definition stops_at_open cs k oth : Prop :=
  ∃ cs1 c cs2 rs k1, cs = cs1 ++ c :: cs2 ∧ run_calls cs1 k = Ok (rs, k1) ∧ length rs = length cs1 ∧
    sys_ok k1 oth ∧ open_faults c k1 ∧ run_calls cs k = Err FNull.

Lemma run_calls_outcome cs k oth :
  sys_ok k oth → oth_slack oth → Forall valid_call cs → runs_all cs k oth ∨ stops_at_open cs k oth.
Proof.
  intros Hk Ho Hcs. revert k Hk. induction Hcs as [|c cs Hc _ IH]; intros k Hk; [by left; exists [], k|].
  destruct (run_call_outcome k oth c Hk Ho Hc) as [(r & k1 & E1 & Hk1)|Hbad].
  - destruct (IH k1 Hk1) as [(rs & k2 & E2 & Hl & Hk2)|(cs1 & d & cs2 & rs & k2 & -> & E2 & Hl & Hk2 & Hbad & E)].
    + left. exists (r :: rs), k2. split_and!; [|simpl; by rewrite Hl|done].
      cbn [run_calls]. mstep by exact E1. by mstep by exact E2.
    + right. exists (c :: cs1), d, cs2, (r :: rs), k2. split_and!; [done| |simpl; by rewrite Hl|done..|].
      * cbn [run_calls]. mstep by exact E1. by mstep by exact E2.
      * cbn [run_calls]. mstep by exact E1. by apply bind_err.
  - right. exists [], c, cs, [], k. split_and!; [done..|].
    destruct Hbad as (path & flags & mode & -> & E). cbn [run_calls run_call]. by apply bind_err.
Qed.

(** Without open(), a sequence returns. *)
Definition is_open (c : call) : bool := match c with COpen _ _ _ => true | _ => false end.

Lemma run_calls_spec cs k oth :
  sys_ok k oth → oth_slack oth → Forall valid_call cs → Forall (λ c, is_open c = false) cs → runs_all cs k oth.
Proof.
  intros Hk Ho Hcs Hopen.
  destruct (run_calls_outcome cs k oth Hk Ho Hcs) as [H|(cs1 & c & cs2 & rs & k1 & -> & _ & _ & _ & Hbad & _)]; [done|].
  destruct Hbad as (? & ? & ? & -> & _). by apply Forall_app in Hopen as [_ [? _]%Forall_cons].
Qed.

(** C1: every sequence of the calls of os/file.c, os/dir.c and os/mount.c (any
    descriptors, modes and flags; paths that are NULL or strings; buffers that
    are NULL or have the stated size, below 32768 bytes; mount() on a target
    without an SD card), from a state that keeps the invariant and in which
    other processes hold at most 100 references to each open file, either runs to its end, with a result for each call
    and the invariant of the buffer cache, the inode tree, the file table and
    the reference counts kept, or stops at an open() that jumps through the
    NULL operation table, with every call before it completed and the
    invariant kept up to there. In particular there is no other fault: no
    wild pointer, no access out of bounds, no buffer used after it was freed,
    no endless loop, and a sequence without open() always completes. *)
Theorem run_calls_safe cs k oth :
  sys_ok k oth → oth_slack oth → Forall valid_call cs →
  (runs_all cs k oth ∨ stops_at_open cs k oth) ∧
  (Forall (λ c, is_open c = false) cs → runs_all cs k oth).
Proof. intros Hk Ho Hcs. split; [by apply run_calls_outcome|by apply run_calls_spec]. Qed.
End System.
