(* ===== verification/Boot.v ===== *)
(** Start of the file system layers, from os/main.c and proc_start_shell() of
    os/proc.c: the buffer cache, the root directory, the file table and the
    descriptors of the first process.  The state after the start satisfies the
    invariants that the theorems on the system calls assume; a concrete instance
    of it, a machine without a card, is the input of their witnesses. *)
From S2P Require Import Prelude CDefs Util PathRes Sched Kern BufCache Inode Fat.
From S2P Require Import Devices Ramfs Vfs File FsCalls FileSpec.

Section Code.
Context {SD : sdcard} {CC : console_config}.

(** What proc_create() gives to a process without a parent. *)
Definition proc_defaults : M kern () :=
  cwd ← gets (λ k, p_cwd (k_proc k));
  cwd ← lift (memcpy cwd 0 (chars "/root" ++ [NUL]) 6);
  modify (λ k, set_cur (set_umask (Z.lor S_IWGRP S_IWOTH) (set_cwd cwd (k_proc k))) k).

(** The descriptors that proc_start_shell() gives to the shell. *)
Definition shell_console : M kern () :=
  console ← file_new O_RDWR MODE_0660;
  match console with
  | None => fail FNull
  | Some console =>
      _ ← open_dev_tty0 console;
      _ ← fd_write 0 (Some console);
      _ ← file_ref console;
      _ ← fd_write 1 (Some console);
      _ ← file_ref console;
      fd_write 2 (Some console)
  end.

(** The parts of main() that set up the state of the file system layers. *)
Definition kernel_boot : M kern () :=
  _ ← kmalloc_init_bufs;
  _ ← ramfs_init;
  _ ← fatfs_init;
  _ ← file_init;
  _ ← proc_defaults;
  shell_console.
End Code.

Section Spec.
Context {SD : sdcard} {CC : console_config}.
Implicit Types (k : kern).

(** The memory that the start finds: arrays of the right sizes, and a process
    without descriptors. *)
Record fresh k : Prop := {
  fr_bufs : ∀ p, is_Some (k_bufs k !! p) ↔ 1 ≤ p ≤ CONFIG_NUM_BUFFERS;
  fr_files : zlen (k_files k) = CONFIG_FD_MAX;
  fr_temp : zlen (k_temp k) = CONFIG_PATH_MAX;
  fr_cwd : zlen (p_cwd (k_proc k)) = CONFIG_PATH_MAX;
  fr_fd : p_fd (k_proc k) = replicate (Z.to_nat CONFIG_PROC_FD_MAX) None;
  fr_cloexec : zlen (p_cloexec (k_proc k)) = CONFIG_PROC_FD_MAX;
  fr_sd : have_sd = true → ∃ s, sd_init (k_sd k) = Ok ((), s);
}.

(** The tree that the start creates: the root directory alone, in the last
    buffer of the cache; the other buffers are free. *)
Definition boot_root : Z := CONFIG_NUM_BUFFERS.
Definition boot_tree : afs := {[boot_root := ANode ROOT_MODE 0 0 []]}.
Definition boot_free : list Z := rev (seqZ 1 (CONFIG_NUM_BUFFERS - 1)).

Lemma vfs_ok_root k k' F c :
  bufs_ok k (c :: F) →
  k_bufs k' = <[c := BInode (Inode IopRam 3 ROOT_MODE 0 0 0)]> (k_bufs k) →
  k_free k' = hd 0 F → k_root k' = c →
  vfs_ok k' {[c := ANode ROOT_MODE 0 0 []]} ∅ F {[c := 0]}.
Proof.
  intros Hk EB EF ER. destruct (inode_alloc_spec _ IopRam _ _ Hk) as [_ Hb].
  eapply (bufs_ok_write _ _ c (BInode (Inode IopRam 1 0 0 0 0)) (BInode (Inode IopRam 3 ROOT_MODE 0 0 0))) in Hb;
    [|simpl; by rewrite lookup_insert_eq|done..].
  simpl in Hb. rewrite insert_insert_eq in Hb.
  split; rewrite ?EB, ?ER.
  - eapply bufs_ok_frame, Hb; [by rewrite EB|by rewrite EF].
  - intros p n [<- <-]%lookup_singleton_Some. exists 0. rewrite lookup_insert_eq.
    unfold base_refs. rewrite Z.eqb_refl, lookup_total_empty, lookup_total_singleton_eq. done.
  - intros p. destruct (decide (c = p)) as [->|]; [by rewrite lookup_total_singleton_eq|].
    by rewrite lookup_total_singleton_ne.
  - eexists. by rewrite lookup_singleton_eq.
  - intros p n nm q [<- <-]%lookup_singleton_Some Hq. by apply elem_of_nil in Hq.
  - intros p n [<- <-]%lookup_singleton_Some. constructor.
  - intros p q d Hd. rewrite lookup_total_empty in Hd. by apply elem_of_nil in Hd.
  - intros p. rewrite lookup_total_empty. constructor.
  - intros p. by rewrite lookup_total_empty.
Qed.

Lemma ramfs_init_spec k c F :
  bufs_ok k (c :: F) →
  ∃ k', ramfs_init k = Ok ((), k') ∧ vfs_ok k' {[c := ANode ROOT_MODE 0 0 []]} ∅ F {[c := 0]} ∧
    k' = set_free (k_free k') (set_bufs (k_bufs k') (set_root c k)).
Proof.
  intros Hk. destruct (inode_alloc_spec _ IopRam _ _ Hk) as [E _].
  assert (c ≠ 0) as Hc by (destruct Hk as [(_ & ? & _) _ _ _]; done).
  eexists. split.
  - unfold ramfs_init. mstep by exact E. mstep by done.
    mstep by (eapply upd_inode_ok; split; [done|]; simpl; by rewrite lookup_insert_eq).
    mstep by (eapply upd_inode_ok; split; [done|]; simpl; by rewrite lookup_insert_eq).
    eapply upd_inode_ok. split; [done|]. simpl. by rewrite lookup_insert_eq.
  - simpl. rewrite !insert_insert_eq. split; [|by destruct k].
    by eapply vfs_ok_root.
Qed.

(** The file table after file_init(). *)
Definition closed_file (x : file) : Prop := f_count x = 0.

Lemma closed_open_refs p fs : Forall closed_file fs → open_refs p fs = 0.
Proof.
  unfold open_refs. induction 1 as [|x fs Hx _ IH]; [done|]. rewrite sumZ_cons, IH.
  unfold open_ind. rewrite decide_False; [done|]. unfold closed_file in Hx. lia.
Qed.

Lemma fd_refs_none n f : fd_refs f (replicate n None) = 0.
Proof. unfold fd_refs. induction n as [|n IH]; [done|]. rewrite replicate_S, sumZ_cons, IH. done. Qed.

(** Before the console is opened nothing refers to anything. *)
Lemma kern_ok_closed k A D F R base :
  vfs_ok k A D F R → refs_slack R → cwd_ok k base → (∀ p, is_Some (A !! p) → R !!! p = 0) →
  zlen (k_files k) = CONFIG_FD_MAX → Forall closed_file (k_files k) →
  p_fd (k_proc k) = replicate (Z.to_nat CONFIG_PROC_FD_MAX) None →
  zlen (p_cloexec (k_proc k)) = CONFIG_PROC_FD_MAX →
  proc_ok k A D F (λ _, 0).
Proof.
  intros Hv Hs Hc HR Hl Hcl Hfd Hce. unfold proc_ok. rewrite Hfd. split.
  - split; try done.
    + intros f x Hx. rewrite fd_refs_none. by apply (Forall_lookup_1 _ _ _ _ Hcl Hx).
    + intros f x Hx Hpos. pose proof (Forall_lookup_1 _ _ _ _ Hcl Hx) as H0.
      unfold closed_file in H0. simpl in H0. lia.
    + intros i f [Hi _]%lookup_replicate. done.
    + by rewrite Hfd.
  - exists R. split_and!; [done..|]. intros p Hp. rewrite closed_open_refs by done. by apply HR.
  - by exists base.
Qed.

Lemma fmap_closed fs : Forall closed_file (fset_count 0 <$> fs).
Proof. induction fs; by constructor. Qed.

(** A new console file for a reference that the caller holds. *)
Lemma console_spec k A D F oth :
  proc_ok k A D F oth → oth 0%nat = 0 →
  (∃ x, k_files k !! 0%nat = Some x ∧ f_count x = 0) → fd_refs 0 (p_fd (k_proc k)) = 0 →
  let k1 := set_files (<[0%nat := File 1 O_RDWR MODE_0660 FopNull 0 0 0]> (k_files k)) k in
  let k2 := set_files (<[0%nat := File 1 O_RDWR MODE_0660 FopBasicTty 0 0 0]> (k_files k)) k in
  file_new O_RDWR MODE_0660 k = Ok (Some 0%nat, k1) ∧ open_dev_tty0 0 k1 = Ok (0, k2) ∧
  proc_ok k2 A D F (oadd 0 1 oth).
Proof.
  intros [Hf (R & Hv & Hs & HR) [base Hc]] Ho (x & Hx & H0) Hr k1 k2.
  pose proof (lookup_lt_Some _ _ _ Hx) as Hlt. split_and!.
  - unfold file_new. change (u16 O_RDWR) with O_RDWR. change (Z.to_nat CONFIG_FD_MAX) with 32%nat.
    cbn [file_new_loop]. mstep by (by apply get_file_ok). rewrite H0. change (0 =? 0) with true. cbv iota.
    by mstep by (by apply (upd_file_ok _ _ x)).
  - unfold open_dev_tty0, open_dev.
    mstep by (apply upd_file_ok; simpl; by rewrite list_lookup_insert_eq).
    simpl. by rewrite list_insert_insert_eq.
  - split; [| |by exists base].
    + eapply files_ok_open; try done. right. split; [|done]. simpl. by repeat constructor.
    + exists R. split_and!; [by apply (vfs_ok_frame k)|done|]. intros p Hp. simpl.
      rewrite (open_refs_insert _ _ _ x) by done. unfold open_ind. simpl. rewrite H0, HR by done.
      rewrite (decide_False (P := 0 < 0 ∧ _)) by lia.
      rewrite decide_False; [lia|]. intros [_ <-]. by eapply node_ne0.
Qed.

(** Handing the reference of the caller to a free slot. *)
Lemma hand_over k A D F oth fd f :
  proc_ok k A D F (oadd f 1 oth) → (∀ g, 0 ≤ oth g) → is_Some (k_files k !! f) →
  0 ≤ fd < CONFIG_PROC_FD_MAX → p_fd (k_proc k) !! Z.to_nat fd = Some None →
  ∃ k', fd_write fd (Some f) k = Ok ((), k') ∧ proc_ok k' A D F oth ∧
    k' = set_cur (set_fd (<[Z.to_nat fd := Some f]> (p_fd (k_proc k))) (k_proc k)) k.
Proof.
  intros Hk Ho Hx Hfd Hfree. destruct (fd_write_spec _ _ _ _ _ _ fd (Some f) Hk Hfd) as [E Hk1].
  set (k1 := set_cur _ k) in *. exists k1. split_and!; [done| |done].
  assert (kern_ok k1 A D F (<[Z.to_nat fd := Some f]> (p_fd (k_proc k))) (owrite None (Some f) (oadd f 1 oth))) as Hk2.
  { apply table_write; [done..| |apply owrite_nonneg].
    - intros g [= <-]. done.
    - apply (fo_oth _ _ _ _ (ko_files _ _ _ _ _ _ Hk)).
    - intros g [= <-]. unfold oadd. rewrite decide_True by done. pose proof (Ho f). lia. }
  eapply kern_ok_ext, Hk2. intros g. by rewrite owrite_oadd_open.
Qed.

(** The first file is the console's terminal. *)
Definition console_file k : Prop := ∃ x, k_files k !! 0%nat = Some x ∧ f_op x = FopBasicTty.

Definition shell_fds : list (option nat) :=
  replicate 3 (Some 0%nat) ++ replicate 5 None.

(** One more descriptor for the console. *)
Lemma console_again k A D F fd x :
  proc_ok k A D F (λ _, 0) → k_files k !! 0%nat = Some x → 0 < f_count x →
  0 ≤ fd < CONFIG_PROC_FD_MAX → p_fd (k_proc k) !! Z.to_nat fd = Some None →
  ∃ k', (_ ← file_ref 0; fd_write fd (Some 0%nat)) k = Ok ((), k') ∧ proc_ok k' A D F (λ _, 0) ∧
    p_fd (k_proc k') = <[Z.to_nat fd := Some 0%nat]> (p_fd (k_proc k)) ∧
    k_files k' !! 0%nat = Some (fset_count (f_count x + 1) x) ∧
    p_cwd (k_proc k') = p_cwd (k_proc k) ∧ k_temp k' = k_temp k ∧ k_root k' = k_root k.
Proof.
  intros Hk Hx Hpos Hfd Hfree. pose proof (lookup_lt_Some _ _ _ Hx) as Hlt.
  destruct (file_ref_spec _ _ _ _ _ _ 0 x Hk) as [E1 Hk1]; [intros ?; lia|done..|].
  set (k1 := set_files _ k) in *.
  assert (k_files k1 !! 0%nat = Some (fset_count (f_count x + 1) x)) as Hx1
    by (simpl; by rewrite list_lookup_insert_eq).
  destruct (hand_over k1 A D F (λ _, 0) fd 0 Hk1) as (k2 & E2 & Hk2 & ->); [done|eauto|done|done|].
  eexists. split; [by mstep by exact E1|]. done.
Qed.

Lemma shell_console_spec k A D F :
  proc_ok k A D F (λ _, 0) → Forall closed_file (k_files k) →
  p_fd (k_proc k) = replicate (Z.to_nat CONFIG_PROC_FD_MAX) None →
  ∃ k', shell_console k = Ok ((), k') ∧ proc_ok k' A D F (λ _, 0) ∧ p_fd (k_proc k') = shell_fds ∧
    p_cwd (k_proc k') = p_cwd (k_proc k) ∧ k_temp k' = k_temp k ∧ k_root k' = k_root k ∧ console_file k'.
Proof.
  intros Hk Hcl Hfd. pose proof (fo_len _ _ _ _ (ko_files _ _ _ _ _ _ Hk)) as Hl.
  destruct (lookup_lt_is_Some_2 (k_files k) 0) as [x Hx]; [unfold zlen, CONFIG_FD_MAX in Hl; lia|].
  pose proof (Forall_lookup_1 _ _ _ _ Hcl Hx) as H0.
  destruct (console_spec k A D F (λ _, 0) Hk) as (E1 & E2 & Hk2); [done|eauto|by rewrite Hfd, fd_refs_none|].
  set (k1 := set_files _ k) in E1, E2. set (k2 := set_files _ k) in E2, Hk2.
  assert (k_files k2 !! 0%nat = Some (File 1 O_RDWR MODE_0660 FopBasicTty 0 0 0)) as Hx2.
  { simpl. apply list_lookup_insert_eq. by eapply lookup_lt_Some. }
  destruct (hand_over k2 A D F (λ _, 0) 0 0 Hk2) as (k3 & E3 & Hk3 & Eq3); [done|eauto|done|unfold k2; simpl; by rewrite Hfd|].
  destruct (console_again k3 A D F 1 (File 1 O_RDWR MODE_0660 FopBasicTty 0 0 0) Hk3)
    as (k4 & E4 & Hk4 & Hfd4 & Hx4 & Hc4 & Ht4 & Hr4); [rewrite Eq3; exact Hx2|done|done|rewrite Eq3; simpl; by rewrite Hfd|].
  destruct (console_again k4 A D F 2 _ Hk4 Hx4) as (k5 & E5 & Hk5 & Hfd5 & Hx5 & Hc5 & Ht5 & Hr5); [simpl; lia|done| |].
  { rewrite Hfd4, Eq3. simpl. by rewrite Hfd. }
  exists k5. split_and!; try done.
  - unfold shell_console. mstep by exact E1. cbv beta iota. mstep by exact E2. mstep by exact E3.
    apply bind_inv in E4 as ([] & ka & Ea & Eb). mstep by exact Ea. mstep by exact Eb. exact E5.
  - rewrite Hfd5, Hfd4, Eq3. simpl. by rewrite Hfd.
  - by rewrite Hc5, Hc4, Eq3.
  - by rewrite Ht5, Ht4, Eq3.
  - by rewrite Hr5, Hr4, Eq3.
  - eexists. split; [exact Hx5|done].
Qed.

Lemma proc_defaults_spec k :
  zlen (p_cwd (k_proc k)) = CONFIG_PATH_MAX → zlen (k_temp k) = CONFIG_PATH_MAX →
  ∃ k' cwd, proc_defaults k = Ok ((), k') ∧ cwd_ok k' [chars "root"] ∧
    k' = set_cur (set_umask (Z.lor S_IWGRP S_IWOTH) (set_cwd cwd (k_proc k))) k.
Proof.
  intros Hc Ht. set (s := chars "/root" ++ [NUL]).
  pose proof (memcpy_app_at [] (take 6 (p_cwd (k_proc k))) (drop 6 (p_cwd (k_proc k))) s []) as Hcp.
  rewrite app_nil_r in Hcp. cbn [app] in Hcp. rewrite take_drop in Hcp.
  change (zlen []) with 0 in Hcp. change (zlen s) with 6 in Hcp.
  unfold zlen, CONFIG_PATH_MAX in Hc. eexists _, _. split; [|split].
  - unfold proc_defaults. change (chars "/root" ++ [NUL]) with s. mstep by done.
    mstep by (unfold lift; rewrite Hcp by (rewrite length_take; change (length s) with 6%nat; lia); reflexivity).
    done.
  - unfold cwd_ok. cbn [k_proc set_cur set_umask p_cwd set_cwd k_temp]. split_and!; try done.
    + unfold s. rewrite <- app_assoc. apply (cstring_intro (render [chars "root"])).
      apply render_nonul. compute_decide.
    + compute_decide.
    + unfold zlen, CONFIG_PATH_MAX. rewrite length_app, length_drop. change (length s) with 6%nat. lia.
  - done.
Qed.

Lemma kernel_boot_spec k :
  fresh k →
  ∃ k', kernel_boot k = Ok ((), k') ∧ proc_ok k' boot_tree ∅ boot_free (λ _, 0) ∧
    cwd_ok k' [chars "root"] ∧ p_fd (k_proc k') = shell_fds ∧ k_root k' = boot_root ∧ console_file k'.
Proof.
  intros [Hb Hf Ht Hc Hfd Hce Hsd].
  destruct (kmalloc_init_bufs_spec k Hb) as (k1 & E1 & Hk1 & S1).
  change (rev (seqZ 1 CONFIG_NUM_BUFFERS)) with (boot_root :: boot_free) in Hk1.
  destruct (ramfs_init_spec k1 boot_root boot_free Hk1) as (k2 & E2 & Hv2 & S2).
  assert (∃ sd, fatfs_init k2 = Ok ((), set_sd sd k2)) as [sd E3].
  { unfold fatfs_init. destruct have_sd.
    - destruct (Hsd eq_refl) as [sd E]. exists sd. unfold on_sd. rewrite S2, S1. simpl. by rewrite E.
    - exists (k_sd k2). by destruct k2. }
  set (k3 := set_sd sd k2) in *. set (k4 := set_files (fset_count 0 <$> k_files k3) k3).
  destruct (proc_defaults_spec k4) as (k5 & cwd & E5 & Hc5 & S5); [simpl; by rewrite S2, S1..|].
  assert (k_proc k4 = k_proc k) as Ep by (simpl; by rewrite S2, S1).
  assert (k_files k5 = fset_count 0 <$> k_files k) as Ef by (rewrite S5; simpl; by rewrite S2, S1).
  assert (proc_ok k5 boot_tree ∅ boot_free (λ _, 0)) as Hk5.
  { apply (kern_ok_closed k5 _ _ _ {[boot_root := 0]} [chars "root"]); try done.
    - apply (vfs_ok_frame k2); [by rewrite S5..|done].
    - intros p. destruct (decide (boot_root = p)) as [<-|]; [by rewrite lookup_total_singleton_eq|].
      by rewrite lookup_total_singleton_ne.
    - unfold boot_tree. intros p [n [<- _]%lookup_singleton_Some]. by rewrite lookup_total_singleton_eq.
    - rewrite Ef. unfold zlen. by rewrite length_fmap.
    - rewrite Ef. apply fmap_closed.
    - rewrite S5. simpl. by rewrite S2, S1.
    - rewrite S5. simpl. by rewrite S2, S1. }
  destruct (shell_console_spec k5 _ _ _ Hk5) as (k6 & E6 & Hk6 & Hfd6 & Hc6 & Ht6 & Hr6 & Hcon6).
  { rewrite Ef. apply fmap_closed. }
  { rewrite S5. simpl. by rewrite S2, S1. }
  exists k6. split_and!; try done.
  - unfold kernel_boot. mstep by exact E1. mstep by exact E2. mstep by exact E3.
    mstep by (unfold file_init; reflexivity). mstep by exact E5. exact E6.
  - destruct Hc5 as (? & ? & ? & ? & ?). unfold cwd_ok. by rewrite Hc6, Ht6.
  - rewrite Hr6, S5. simpl. by rewrite S2.
Qed.

(** C3: starting the kernel establishes the invariant of the file system
    layers, whatever the memory held before: the tree is the empty root
    directory, all other buffers are free, the descriptors 0, 1 and 2 of the
    first process are the console's terminal, every reference is counted, and the working
    directory is /root. *)
Theorem kernel_boot_establishes k :
  fresh k →
  ∃ k', kernel_boot k = Ok ((), k') ∧ proc_ok k' boot_tree ∅ boot_free (λ _, 0) ∧
    cwd_ok k' [chars "root"] ∧ p_fd (k_proc k') = shell_fds ∧ k_root k' = boot_root ∧ console_file k'.
Proof. apply kernel_boot_spec. Qed.
End Spec.

(** ** A concrete machine: no card, a terminal that echoes *)

Definition no_card : sdcard := {|
  sd_state := ();
  sd_init := mret ();
  sd_detect := mret 0;
  sd_cache_read := λ _, mret 0;
  sd_cluster_to_block := λ _ _, 0;
  sd_block := λ _, replicate 512 0;
  sd_fat1 := λ _, 0;
  sd_root := λ _, 0;
  sd_cluster_size := λ _, 0;
  sd_cluster_count := λ _, 0;
  have_sd := false;
|}.

Definition sim_console : console_config :=
  {| CONFIG_CHRIN_ECHO := true; CONFIG_CHROUT_LF_HANDLING := true; CONFIG_CHROUT_NO_WAIT := false |}.

#[local] Existing Instances no_card sim_console.

Definition sim_proc : proc :=
  Proc (ProcContext 0 0 [] 0 []) 1 0 PROC_RUNNING None 64
    (replicate 8 None) (replicate 8 0) 0 (replicate 64 0) 0.

Definition buffer_array (n : Z) : gmap Z buffer := list_to_map ((λ p, (p, BZero)) <$> seqZ 1 n).

Lemma buffer_array_dom n p : is_Some (buffer_array n !! p) ↔ 1 ≤ p ≤ n.
Proof.
  unfold buffer_array. set (l := (λ p, (p, BZero)) <$> seqZ 1 n).
  assert (p ∈ l.*1 ↔ 1 ≤ p ≤ n) as Hl.
  { unfold l. rewrite <- list_fmap_compose. rewrite (list_fmap_ext _ id), list_fmap_id, elem_of_seqZ by done. lia. }
  destruct (list_to_map l !! p) as [b|] eqn:E.
  - split; [|eauto]. intros _. apply elem_of_list_to_map_2, (list_elem_of_fmap_2 fst) in E. by apply Hl.
  - split; [by intros []|]. intros Hp. apply not_elem_of_list_to_map_2 in E. by apply Hl in Hp.
Qed.

Definition sim_memory : kern :=
  Kern no_card (buffer_array CONFIG_NUM_BUFFERS) 0
    (replicate 32 (File 0 0 0 FopNull 0 0 0)) 0 (replicate 64 0) sim_proc 0 0 [] [] ().

Lemma sim_fresh : fresh sim_memory.
Proof.
  split; [|reflexivity..|done]. intros p. apply buffer_array_dom.
Qed.

Definition sim_boot : kern :=
  match kernel_boot sim_memory with Ok (_, k) => k | Err _ => sim_memory end.

Lemma kernel_boot_establishes_witness :
  ∃ k', kernel_boot sim_memory = Ok ((), k') ∧
    proc_ok k' boot_tree ∅ boot_free (λ _, 0) ∧
    cwd_ok k' [chars "root"] ∧ p_fd (k_proc k') = shell_fds ∧ k_root k' = boot_root ∧ console_file k'.
Proof. exact (kernel_boot_establishes sim_memory sim_fresh). Defined.

(** The state that the other files start their witnesses from. *)
Lemma sim_boot_ok :
  proc_ok sim_boot boot_tree ∅ boot_free (λ _, 0) ∧ cwd_ok sim_boot [chars "root"].
Proof.
  destruct (kernel_boot_spec sim_memory sim_fresh) as (k' & E & Hk & Hc & _).
  unfold sim_boot. rewrite E. exact (conj Hk Hc).
Qed.
