(* ===== verification/Witness.v ===== *)
(** The theorems on the file system calls applied to concrete states: the machine
    of [Boot] after its start, and after it made directories and opened one. *)
From S2P Require Import Prelude CDefs Util PathRes Sched Kern BufCache Inode Fat.
From S2P Require Import Devices Ramfs Vfs File FsCalls FileSpec DirSpec System Boot.

#[local] Existing Instances no_card sim_console.

(** The result of an operation, and the state after it. *)
Definition val_of {X} (m : M kern X) (k : kern) : option X :=
  match m k with Ok (x, _) => Some x | Err _ => None end.
Definition state_of {X} (m : M kern X) (k : kern) : kern :=
  match m k with Ok (_, k') => k' | Err _ => k end.

Lemma run_eq {X} (m : M kern X) k x : val_of m k = Some x → m k = Ok (x, state_of m k).
Proof. unfold val_of, state_of. destruct (m k) as [[y k']|]; [|done]. by intros [= ->]. Qed.

Definition cstr (s : String.string) : list Z := chars s ++ [NUL].
Arguments cstr s%_string_scope.

Lemma cstr_ok s : bool_decide (nonul (chars s)) = true → cstring (cstr s) (chars s).
Proof. intros H%bool_decide_eq_true. by apply cstring_intro. Qed.
Arguments cstr_ok s%_string_scope _.

Lemma sim_vfs : ∃ R, vfs_ok sim_boot boot_tree ∅ boot_free R ∧ refs_slack R.
Proof. destruct sim_boot_ok as [[_ (R & Hv & Hs & _) _] _]. by exists R. Qed.

Lemma zero_slack : oth_slack (λ _, 0).
Proof. intros f. lia. Qed.

(** ** The buffer cache *)

Lemma sim_bufs : bufs_ok sim_boot boot_free.
Proof. destruct sim_vfs as (R & Hv & _). apply Hv. Qed.

Lemma kmalloc_buf_alloc_refines_witness :
  kmalloc_buf_alloc sim_boot = Ok (99, alloc_state 99 (rev (seqZ 1 98)) sim_boot) ∧
  bufs_ok (alloc_state 99 (rev (seqZ 1 98)) sim_boot) (rev (seqZ 1 98)).
Proof. exact (kmalloc_buf_alloc_refines sim_boot boot_free sim_bufs). Defined.

Lemma sim_root_buf : k_bufs sim_boot !! 100 = Some (BInode (Inode IopRam 3 ROOT_MODE 0 0 0)).
Proof. vm_compute. reflexivity. Qed.

Lemma kmalloc_buf_free_refines_witness :
  kmalloc_buf_free 100 sim_boot = Ok ((), free_state 100 sim_boot) ∧
  bufs_ok (free_state 100 sim_boot) (100 :: boot_free).
Proof.
  destruct (kmalloc_buf_free_refines sim_boot boot_free 100 _ sim_bufs sim_root_buf ltac:(discriminate))
    as (E & H & _). exact (conj E H).
Defined.

(** ** Paths *)

Lemma inode_lookup_path_refines_witness :
  ∃ R r k', inode_lookup_path true (Some (cstr "..")) O_EXEC S_IFDIR sim_boot = Ok (r, k') ∧
    lookup_post sim_boot boot_tree ∅ boot_free R true O_EXEC S_IFDIR
      (path_spec CONFIG_PATH_MAX [chars "root"] (chars "..")) r k'.
Proof.
  destruct sim_vfs as (R & Hv & Hs). exists R.
  apply (inode_lookup_path_refines sim_boot boot_tree ∅ boot_free R [chars "root"]);
    [exact Hv|exact Hs|exact (proj2 sim_boot_ok)|apply cstr_ok; reflexivity|discriminate|reflexivity].
Defined.

Lemma sys_mkdir_refines_witness :
  ∃ R e k', sys_mkdir (Some (cstr "/bin")) 511 sim_boot = Ok (e, k') ∧
    create_post sim_boot boot_tree ∅ boot_free R (mkdir_mode sim_boot 511) 0
      (path_spec CONFIG_PATH_MAX [chars "root"] (chars "/bin")) e k'.
Proof.
  destruct sim_vfs as (R & Hv & Hs). exists R.
  apply (sys_mkdir_refines sim_boot boot_tree ∅ boot_free R [chars "root"]);
    [exact Hv|exact Hs|exact (proj2 sim_boot_ok)|apply cstr_ok; reflexivity|discriminate].
Defined.

Lemma sys_mknod_refines_witness :
  ∃ R e k', sys_mknod (Some (cstr "/null")) (Z.lor S_IFCHR MODE_0660) DEV_NULL sim_boot = Ok (e, k') ∧
    create_post sim_boot boot_tree ∅ boot_free R (mknod_mode sim_boot (Z.lor S_IFCHR MODE_0660)) DEV_NULL
      (path_spec CONFIG_PATH_MAX [chars "root"] (chars "/null")) e k'.
Proof.
  destruct sim_vfs as (R & Hv & Hs). exists R.
  pose proof (sys_mknod_refines sim_boot boot_tree ∅ boot_free R [chars "root"] (cstr "/null") (chars "/null")
    (Z.lor S_IFCHR MODE_0660) DEV_NULL Hv Hs (proj2 sim_boot_ok) (cstr_ok "/null" eq_refl) ltac:(discriminate)) as H.
  cbv zeta in H.
  replace ((S_ISCHR _ || S_ISBLK _) && _) with true in H by (vm_compute; reflexivity). exact H.
Defined.

Lemma sys_chdir_refines_witness :
  ∃ R e k', sys_chdir (Some (cstr "/")) sim_boot = Ok (e, k') ∧
    chdir_post sim_boot boot_tree (path_spec CONFIG_PATH_MAX [chars "root"] (chars "/")) e k' ∧
    vfs_ok sim_boot boot_tree ∅ boot_free R.
Proof.
  destruct sim_vfs as (R & Hv & Hs). exists R.
  destruct (sys_chdir_refines sim_boot boot_tree ∅ boot_free R [chars "root"] (cstr "/") (chars "/")
    Hv Hs (proj2 sim_boot_ok) (cstr_ok "/" eq_refl) ltac:(discriminate)) as (e & k' & E & H).
  exists e, k'. exact (conj E (conj H Hv)).
Defined.

Lemma sys_chdir_getcwd_witness :
  ∃ cs buf', path_spec CONFIG_PATH_MAX [chars "root"] (chars "..") = Some cs ∧
    sys_getcwd (Some (replicate 64 7)) CONFIG_PATH_MAX false (state_of (sys_chdir (Some (cstr ".."))) sim_boot)
    = Ok ((0, Some buf'), state_of (sys_chdir (Some (cstr ".."))) sim_boot) ∧ cstring buf' (render cs).
Proof.
  destruct sim_vfs as (R & Hv & Hs).
  apply (sys_chdir_getcwd sim_boot boot_tree ∅ boot_free R [chars "root"] (cstr "..") (chars ".."));
    [exact Hv|exact Hs|exact (proj2 sim_boot_ok)|apply cstr_ok; reflexivity|discriminate| |reflexivity].
  apply run_eq. vm_compute. reflexivity.
Defined.

Lemma sys_mkdir_chdir_witness :
  ∃ k2, sys_chdir (Some (cstr "/bin")) (state_of (sys_mkdir (Some (cstr "/bin")) 511) sim_boot)
        = Ok (if a_access (mkdir_mode sim_boot 511) X_OK then 0 else - EACCES, k2) ∧
    (a_access (mkdir_mode sim_boot 511) X_OK = true →
     ∃ cs, path_spec CONFIG_PATH_MAX [chars "root"] (chars "/bin") = Some cs ∧ cwd_ok k2 cs).
Proof.
  destruct sim_vfs as (R & Hv & Hs).
  apply (sys_mkdir_chdir sim_boot boot_tree ∅ boot_free R [chars "root"] (cstr "/bin") (chars "/bin") 511);
    [exact Hv|exact Hs|exact (proj2 sim_boot_ok)|apply cstr_ok; reflexivity|discriminate|].
  apply run_eq. vm_compute. reflexivity.
Defined.

(** ** Open files *)

(** After two directories were made and the root was opened, on descriptor 3. *)
Definition sim_calls : list call :=
  [CMkdir (Some (cstr "/bin")) 511; CMkdir (Some (cstr "/etc")) 511; COpendir (Some (cstr "/"))].
Definition sim_opened : kern := state_of (run_calls sim_calls) sim_boot.

Lemma sim_calls_valid : Forall valid_call sim_calls.
Proof. repeat constructor; eexists; apply cstr_ok; reflexivity. Qed.

Lemma sim_boot_sys : sys_ok sim_boot (λ _, 0).
Proof. destruct sim_boot_ok as [Hk _]. by exists boot_tree, ∅, boot_free. Qed.

(** The same with an open() that creates a file: the NULL call. *)
Definition sim_calls_open : list call :=
  sim_calls ++ [CStat; COpen (Some (cstr "/x")) O_CREAT 511; CClose 3].

Lemma sim_calls_open_valid : Forall valid_call sim_calls_open.
Proof. repeat constructor; eexists; apply cstr_ok; reflexivity. Qed.

Lemma run_calls_safe_witness :
  ((runs_all sim_calls sim_boot (λ _, 0) ∨ stops_at_open sim_calls sim_boot (λ _, 0)) ∧
   (Forall (λ c, is_open c = false) sim_calls → runs_all sim_calls sim_boot (λ _, 0))) ∧
  (runs_all sim_calls_open sim_boot (λ _, 0) ∨ stops_at_open sim_calls_open sim_boot (λ _, 0)).
Proof.
  exact (conj (run_calls_safe sim_calls sim_boot (λ _, 0) sim_boot_sys zero_slack sim_calls_valid)
    (proj1 (run_calls_safe sim_calls_open sim_boot (λ _, 0) sim_boot_sys zero_slack sim_calls_open_valid))).
Defined.

(** It stops. *)
Example sim_calls_open_stops : run_calls sim_calls_open sim_boot = Err FNull.
Proof. vm_compute. reflexivity. Qed.

(** The results: two successes, and the descriptor. *)
Lemma sim_calls_results : val_of (run_calls sim_calls) sim_boot = Some [0; 0; 3].
Proof. vm_compute. reflexivity. Qed.

Lemma sim_opened_sys : sys_ok sim_opened (λ _, 0).
Proof.
  destruct (run_calls_spec sim_calls sim_boot (λ _, 0) sim_boot_sys zero_slack sim_calls_valid)
    as (rs & k' & E & _ & Hk); [by repeat constructor|].
  unfold sim_opened, state_of. rewrite E. exact Hk.
Qed.

Lemma sys_open_never_succeeds_witness :
  (∃ e k', sys_open (Some (cstr "/x")) O_CREAT 511 sim_boot = Ok (e, k') ∧ e < 0) ∨
  sys_open (Some (cstr "/x")) O_CREAT 511 sim_boot = Err FNull.
Proof.
  apply (sys_open_never_succeeds sim_boot boot_tree ∅ boot_free (λ _, 0) (Some (cstr "/x")) O_CREAT 511).
  - exact (proj1 sim_boot_ok).
  - exists (chars "/x"). apply cstr_ok. reflexivity.
Defined.

(** Creating a file crashes; opening the root directory is refused. *)
Example open_creates_and_crashes : sys_open (Some (cstr "/x")) O_CREAT 511 sim_boot = Err FNull.
Proof. vm_compute. reflexivity. Qed.
Example open_directory_refused : val_of (sys_open (Some (cstr "/")) O_RDONLY 0) sim_boot = Some (- EISDIR).
Proof. vm_compute. reflexivity. Qed.

Lemma sys_close_refines_witness :
  ∃ A D F k', sys_close 3 sim_opened = Ok (0, k') ∧ proc_ok k' A D F (λ _, 0) ∧
    p_fd (k_proc k') = <[3%nat := None]> (p_fd (k_proc sim_opened)).
Proof.
  destruct sim_opened_sys as (A & D & F & Hk). exists A, D, F.
  pose proof (sys_close_refines sim_opened A D F (λ _, 0) 3 Hk zero_slack) as H.
  replace (fd_at _ 3) with (Some 1%nat) in H by (vm_compute; reflexivity). exact H.
Defined.

Lemma sys_dup_scan_refines_witness :
  ∃ A D F e k', sys_dup_scan 3 2 sim_opened = Ok (e, k') ∧ dup_post sim_opened A D F (λ _, 0) 1 2 e k'.
Proof.
  destruct sim_opened_sys as (A & D & F & Hk). exists A, D, F.
  pose proof (sys_dup_scan_refines sim_opened A D F (λ _, 0) 3 2 Hk zero_slack) as H.
  replace (fd_at _ 3) with (Some 1%nat) in H by (vm_compute; reflexivity). exact H.
Defined.

Lemma sys_dup2_refines_witness :
  ∃ A D F k', sys_dup2 3 0 sim_opened = Ok (0, k') ∧ proc_ok k' A D F (λ _, 0) ∧
    p_fd (k_proc k') = <[0%nat := Some 1%nat]> (p_fd (k_proc sim_opened)) ∧
    p_cloexec (k_proc k') = <[0%nat := 0]> (p_cloexec (k_proc sim_opened)).
Proof.
  destruct sim_opened_sys as (A & D & F & Hk). exists A, D, F.
  pose proof (sys_dup2_refines sim_opened A D F (λ _, 0) 3 0 Hk zero_slack) as H.
  replace (fd_at _ 3) with (Some 1%nat) in H by (vm_compute; reflexivity). exact H.
Defined.

Lemma sys_opendir_refines_witness :
  ∃ e k', sys_opendir (Some (cstr "/")) sim_boot = Ok (e, k') ∧
    opendir_post sim_boot boot_tree ∅ boot_free (λ _, 0) (path_spec CONFIG_PATH_MAX [chars "root"] (chars "/")) e k'.
Proof.
  apply (sys_opendir_refines sim_boot boot_tree ∅ boot_free (λ _, 0) [chars "root"] (cstr "/") (chars "/"));
    [exact (proj1 sim_boot_ok)|exact zero_slack|exact (proj2 sim_boot_ok)|apply cstr_ok; reflexivity|discriminate].
Defined.

(** ** Reading a directory *)

Definition sim_dir_file : file := File 1 O_RDONLY ROOT_MODE FopRamDir 100 0 0.

Lemma sim_file : k_files sim_opened !! 1%nat = Some sim_dir_file.
Proof. vm_compute. reflexivity. Qed.
Lemma sim_fd : fd_at (p_fd (k_proc sim_opened)) 3 = Some 1%nat.
Proof. vm_compute. reflexivity. Qed.

Lemma sim_node A D F :
  proc_ok sim_opened A D F (λ _, 0) → ∃ n, A !! f_inode sim_dir_file = Some n.
Proof.
  intros [Hf _ _]. destruct (fo_live _ _ _ _ Hf 1%nat _ sim_file) as [(_ & n & Hn & _)|[Hop _]];
    [reflexivity|eauto|].
  apply list_elem_of_In in Hop. simpl in Hop. intuition discriminate.
Qed.

Lemma sys_read_dir_refines_witness :
  ∃ A D F n, A !! f_inode sim_dir_file = Some n ∧
    let out := dir_window n 0 30 in
    let k' := at_posn sim_opened 1 sim_dir_file (s32 (0 + zlen out)) in
    sys_read 3 (Some (replicate 64 0)) 30 sim_opened
    = Ok ((sizeof_dirent * zlen out, Some (dirents_bytes A out ++
            drop (Z.to_nat (sizeof_dirent * zlen out)) (replicate 64 0))), k') ∧
    proc_ok k' A D F (λ _, 0).
Proof.
  destruct sim_opened_sys as (A & D & F & Hk). destruct (sim_node A D F Hk) as [n Hn].
  exists A, D, F, n. split; [exact Hn|].
  apply (sys_read_dir_refines sim_opened A D F (λ _, 0) 3 1 sim_dir_file n (replicate 64 0) 30 Hk zero_slack
    sim_fd sim_file eq_refl Hn); [lia|]. vm_compute. discriminate.
Defined.

Lemma sys_read_dir_complete_witness :
  ∃ A D F n k', A !! f_inode sim_dir_file = Some n ∧
    read_to_end list_fuel 3 (replicate 30 0) 30 sim_opened = Ok (dirents_bytes A (a_entries n), k') ∧
    proc_ok k' A D F (λ _, 0).
Proof.
  destruct sim_opened_sys as (A & D & F & Hk). destruct (sim_node A D F Hk) as [n Hn].
  destruct (sys_read_dir_complete sim_opened A D F (λ _, 0) 3 1 sim_dir_file n (replicate 30 0) 30 Hk zero_slack
    sim_fd sim_file eq_refl eq_refl Hn) as (k' & E & Hk').
  - unfold sizeof_dirent. lia.
  - vm_compute. discriminate.
  - exists A, D, F, n, k'. exact (conj Hn (conj E Hk')).
Defined.

(** The two entries, of 27 bytes each, with their names. *)
Example sim_listing :
  val_of (read_to_end list_fuel 3 (replicate 30 0) 30) sim_opened
  = Some (replicate 4 0 ++ replicate 4 0 ++ [237; 65; 4] ++ chars "bin" ++ replicate 13 0 ++
          replicate 4 0 ++ replicate 4 0 ++ [237; 65; 4] ++ chars "etc" ++ replicate 13 0).
Proof. vm_compute. reflexivity. Qed.
