(* ===== verification/Shell.v ===== *)
(** The command line of the shell (shell/command.c, shell/main.c,
    shell/print.c): parsing a line into arguments in place, the search of the
    builtin commands, reading a line with editing, and printing numbers.

    A [char *] into the line is an offset into its buffer. *)
From S2P Require Import Prelude CDefs.

Definition CH_QUOTE : Z := 39.
Definition CH_DQUOTE : Z := 34.
Definition CH_BACKSLASH : Z := 92.
Definition CH_HASH : Z := 35.

Definition cmd_isspace (ch : Z) : bool := (ch =? CH_SPACE) || ((9 <=? ch) && (ch <=? 13)).

(** ** Builtin commands *)

Inductive builtin_handler := CmdChdir | CmdLs | CmdMount | CmdPwd | CmdUname.

Definition builtins : list (list Z * builtin_handler) :=
  [(chars "cd", CmdChdir); (chars "ls", CmdLs); (chars "mount", CmdMount);
   (chars "pwd", CmdPwd); (chars "uname", CmdUname)].

(** strcmp() on the strings in memory, each up to its NUL. *)
Fixpoint strcmp (a b : list Z) : res Z :=
  match a, b with
  | x :: a, y :: b =>
      if x =? y then if x =? NUL then Ok 0 else strcmp a b else Ok (x - y)
  | _, _ => Err FBounds
  end.

Fixpoint find_builtin_loop (fuel : nat) (name : list Z) (left right : Z) : res (option builtin_handler) :=
  match fuel with
  | O => Err FFuel
  | S fuel =>
      if left <=? right then
        let middle := Z.quot (left + right) 2 in
        '(entry, handler) ← rd builtins middle;
        cmp ← strcmp name (entry ++ [NUL]);
        if cmp <? 0 then find_builtin_loop fuel name left (middle - 1)
        else if 0 <? cmp then find_builtin_loop fuel name (middle + 1) right
        else Ok (Some handler)
      else Ok None
  end.

(** The interval halves: three rounds probe the six places, a fourth sees the empty interval. *)
Definition cmd_find_builtin (name : list Z) : res (option builtin_handler) :=
  find_builtin_loop 5 name 0 (zlen builtins).

(** ** Parsing *)

Fixpoint skip_spaces (fuel : nat) (buf : list Z) (line : Z) : res (Z * Z) :=
  match fuel with
  | O => Err FFuel
  | S fuel =>
      ch ← rd buf line;
      if negb (ch =? NUL) && cmd_isspace ch then skip_spaces fuel buf (line + 1) else Ok (ch, line)
  end.

(** The loop that extracts an argument: the buffer, [line], [out] and [quote]. *)
Fixpoint arg_loop (fuel : nat) (buf : list Z) (line out quote : Z) : res (list Z * Z * Z * Z) :=
  match fuel with
  | O => Err FFuel
  | S fuel =>
      ch ← rd buf line;
      if ch =? NUL then Ok (buf, line, out, quote)
      else if cmd_isspace ch && (quote =? 0) then Ok (buf, line + 1, out, quote)
      else if (ch =? CH_QUOTE) || (ch =? CH_DQUOTE) then
        if quote =? 0 then arg_loop fuel buf (line + 1) out ch
        else if quote =? ch then arg_loop fuel buf (line + 1) out 0
        else buf ← wr buf out ch; arg_loop fuel buf (line + 1) (out + 1) quote
      else if (ch =? CH_BACKSLASH) && negb (quote =? CH_QUOTE) then
        next ← rd buf (line + 1);
        if next =? NUL then buf ← wr buf out ch; arg_loop fuel buf (line + 1) (out + 1) quote
        else buf ← wr buf out next; arg_loop fuel buf (line + 2) (out + 1) quote
      else buf ← wr buf out ch; arg_loop fuel buf (line + 1) (out + 1) quote
  end.

(** What a line comes to. *)
Inductive parsed :=
  | TooMany
  | Unterminated
  | Args (argv : list Z) (buf : list Z).   (* offsets of the arguments *)

Fixpoint parse_loop (fuel : nat) (buf : list Z) (line : Z) (argv : list Z) : res parsed :=
  match fuel with
  | O => Err FFuel
  | S fuel =>
      '(ch, line) ← skip_spaces (S (length buf)) buf line;
      if (ch =? NUL) || (ch =? CH_HASH) then Ok (Args argv buf)
      else if CONFIG_ARGC_MAX <=? zlen argv then Ok TooMany
      else
        '(buf, next, out, quote) ← arg_loop (S (length buf)) buf line line 0;
        if negb (quote =? 0) then Ok Unterminated
        else buf ← wr buf out NUL; parse_loop fuel buf next (argv ++ [line])
  end.

(** What cmd_exec() does with a line. *)
Inductive action :=
  | PrintTooMany
  | PrintUnterminated
  | DoNothing
  | RunBuiltin (handler : builtin_handler) (argv : list Z) (buf : list Z)
  | PrintNotFound (name : Z) (buf : list Z).

Definition cmd_exec (line : list Z) : res action :=
  p ← parse_loop (S (length line)) line 0 [];
  match p with
  | TooMany => Ok PrintTooMany
  | Unterminated => Ok PrintUnterminated
  | Args [] _ => Ok DoNothing
  | Args ((arg0 :: _) as argv) buf =>
      builtin ← cmd_find_builtin (drop (Z.to_nat arg0) buf);
      match builtin with
      | Some handler => Ok (RunBuiltin handler argv buf)
      | None => Ok (PrintNotFound arg0 buf)
      end
  end.

(** ** Reading a line

    getchar() is a parameter: the shell has it from the kernel.  A negative
    value is its failure. *)
Section GetLine.
Context {S : Type} (getchar : M S Z).

Fixpoint get_line_loop (fuel : nat) (buf : list Z) (size posn : Z) : M S (Z * list Z) :=
  match fuel with
  | O => fail FFuel
  | Datatypes.S fuel =>
      ch ← getchar;
      if ch <? 0 then mret (0, buf)
      else if (ch =? 13) || (ch =? 10) then buf ← lift (wr buf posn NUL); mret (1, buf)
      else if (ch =? 8) || (ch =? 0x7F) then
        get_line_loop fuel buf size (if 0 <? posn then posn - 1 else posn)
      else if ch =? 0x15 then get_line_loop fuel buf size 0
      else if (CH_SPACE <=? ch) && (posn <? u16 (size - 1)) then
        buf ← lift (wr buf posn (u8 ch)); get_line_loop fuel buf size (posn + 1)
      else get_line_loop fuel buf size posn
  end.

Definition get_line (fuel : nat) (buf : list Z) (size : Z) : M S (Z * list Z) :=
  get_line_loop fuel buf size 0.
End GetLine.

(** ** Printing a number *)

(** div10() of shell/div10.S, on the value in rc4..rc7 and the working byte A.
    A round rotates the 40 bits left and subtracts 10 from A when it can; the
    carry out of A is lost. *)
Definition div10_round (st : Z * Z) : Z * Z :=
  let '(v, a) := st in
  let v' := u32 (2 * v) in
  let a' := u8 (2 * a + Z.shiftr v 31) in
  if 10 <=? a' then (v' + 1, a' - 10) else (v', a').

(** The last [lda] of the copy leaves the top byte of the value in A. *)
Definition div10 (value : Z) : Z * Z := Nat.iter 32 div10_round (value, Z.shiftr value 24).

Fixpoint number_digits (fuel : nat) (buf : list Z) (value size count : Z) : res (list Z * Z) :=
  match fuel with
  | O => Err FFuel
  | S fuel =>
      if (count <? 10) && (count <? size) && negb (value =? 0) then
        let '(quotient, remainder) := div10 value in
        buf ← wr buf count (u8 (remainder + 48));
        number_digits fuel buf quotient size (count + 1)
      else Ok (buf, count)
  end.

Fixpoint number_pad (fuel : nat) (buf : list Z) (size count : Z) : res (list Z * Z) :=
  match fuel with
  | O => Err FFuel
  | S fuel =>
      if count <? size then buf ← wr buf count CH_SPACE; number_pad fuel buf size (count + 1)
      else Ok (buf, count)
  end.

(** The characters printed, the last of the buffer first; [buf] is the local
    array of [size] bytes. *)
Definition print_number (value size : Z) (buf : list Z) : res (list Z) :=
  '(buf, count) ← number_digits 11 buf value size 0;
  '(buf, count) ← (if count =? 0 then buf ← wr buf 0 48; Ok (buf, 1) else Ok (buf, count));
  '(buf, count) ← number_pad 257 buf size count;
  Ok (rev (take (Z.to_nat count) buf)).

(** ** The tokens of a line

    The specification: one pass over the characters, with the words so far
    and the word being read with its quote. *)
Inductive tokens := TMany | TQuote | TWords (ws : list (list Z)).

Fixpoint tokenize (ws : list (list Z)) (cur : option (list Z * Z)) (t : list Z) : tokens :=
  match t with
  | [] =>
      match cur with
      | None => TWords ws
      | Some (w, q) => if q =? 0 then TWords (ws ++ [w]) else TQuote
      end
  | c :: t' =>
      let in_word w q :=
        if cmd_isspace c && (q =? 0) then tokenize (ws ++ [w]) None t'
        else if (c =? CH_QUOTE) || (c =? CH_DQUOTE) then
          if q =? 0 then tokenize ws (Some (w, c)) t'
          else if q =? c then tokenize ws (Some (w, 0)) t'
          else tokenize ws (Some (w ++ [c], q)) t'
        else if (c =? CH_BACKSLASH) && negb (q =? CH_QUOTE) then
          match t' with
          | [] => tokenize ws (Some (w ++ [c], q)) t'
          | d :: t'' => tokenize ws (Some (w ++ [d], q)) t''
          end
        else tokenize ws (Some (w ++ [c], q)) t' in
      match cur with
      | None =>
          if cmd_isspace c then tokenize ws None t'
          else if c =? CH_HASH then TWords ws
          else if CONFIG_ARGC_MAX <=? zlen ws then TMany
          else in_word [] 0
      | Some (w, q) => in_word w q
      end
  end.

(** The string at an offset of a buffer. *)
Definition string_at (buf : list Z) (a : Z) (w : list Z) : Prop :=
  ∃ s1 s2, buf = s1 ++ w ++ NUL :: s2 ∧ a = zlen s1.

(** The order of strcmp(). *)
Fixpoint lex (a b : list Z) : comparison :=
  match a, b with
  | [], [] => Eq
  | [], _ :: _ => Lt
  | _ :: _, [] => Gt
  | x :: a, y :: b => match x ?= y with Eq => lex a b | c => c end
  end.

Definition assoc_builtin (name : list Z) : option builtin_handler :=
  snd <$> head (filter (λ p, p.1 = name) builtins).

(** A word with every character escaped. *)
Fixpoint escape_chars (w : list Z) : list Z :=
  match w with [] => [] | c :: w => CH_BACKSLASH :: c :: escape_chars w end.
Definition escape (w : list Z) : list Z :=
  match w with [] => [CH_QUOTE; CH_QUOTE] | _ => escape_chars w end.

(** The number that a field of digits shows. *)
Definition decimal (ds : list Z) : Z := foldl (λ n d, 10 * n + (d - 48)) 0 ds.

(** ** Parsing in place *)

Lemma rd_at b1 (v : Z) b2 i : i = zlen b1 → rd (b1 ++ v :: b2) i = Ok v.
Proof. intros ->. apply rd_app_at. Qed.

(** A write at the start of a nonempty gap takes its first byte. *)
Lemma wr_gap A J c t (v : Z) i :
  i = zlen A → ∃ J', length J' = length J ∧ wr (A ++ J ++ c :: t) i v = Ok (A ++ v :: J' ++ t).
Proof.
  intros ->. destruct J as [|x J].
  - exists []. split; [done|]. apply wr_app_at.
  - exists (J ++ [c]). split; [rewrite length_app; simpl; lia|].
    simpl. rewrite wr_app_at, <- app_assoc. done.
Qed.

Lemma cmd_isspace_nul c : cmd_isspace c = true → c ≠ NUL.
Proof. unfold cmd_isspace, NUL, CH_SPACE. lia. Qed.

(** The words that the tokenizer still finds once an argument has ended. *)
Definition after_word (ws : list (list Z)) (w : list Z) (q : Z) (t : list Z) : tokens :=
  if q =? 0 then tokenize (ws ++ [w]) None t else TQuote.

(** What arg_loop() leaves: the word, a gap, and the unread characters. *)
Definition arg_result (P w R : list Z) (q : Z) (t : list Z) (r : res (list Z * Z * Z * Z)) : Prop :=
  ∃ w' J' t' q',
    r = Ok (P ++ w' ++ J' ++ t' ++ NUL :: R, zlen (P ++ w' ++ J'), zlen (P ++ w'), q') ∧
    (t' = [] ∨ q' = 0 ∧ J' ≠ [] ∧ (length t' < length t)%nat) ∧ NUL ∉ t' ∧
    ∀ ws, tokenize ws (Some (w, q)) t = after_word ws w' q' t'.

(** A round that goes on hands over its result. *)
Lemma arg_result_step P w R q t w1 q1 t1 r :
  (length t1 ≤ length t)%nat →
  (∀ ws, tokenize ws (Some (w, q)) t = tokenize ws (Some (w1, q1)) t1) →
  arg_result P w1 R q1 t1 r → arg_result P w R q t r.
Proof.
  intros Hl Ht (w' & J' & t' & q' & -> & Hc & Hn & Hw).
  exists w', J', t', q'. split; [done|]. split; [|split; [done|]].
  - destruct Hc as [->|(? & ? & ?)]; [by left|right; split; [done|split; [done|lia]]].
  - intros ws. by rewrite Ht.
Qed.

(** A round that stores a character [v] of the word after reading [c]. *)
Lemma arg_store P w J c t R (v : Z) out :
  out = zlen (P ++ w) →
  ∃ J', length J' = length J ∧
    wr (P ++ w ++ J ++ c :: t ++ NUL :: R) out v = Ok (P ++ (w ++ [v]) ++ J' ++ t ++ NUL :: R).
Proof.
  intros ->. destruct (wr_gap (P ++ w) J c (t ++ NUL :: R) v _ eq_refl) as (J' & Hl & E).
  exists J'. split; [done|]. rewrite <- !app_assoc in *. exact E.
Qed.

Lemma rd_line P w J c t i : i = zlen (P ++ w ++ J) → rd (P ++ w ++ J ++ c :: t) i = Ok (c : Z).
Proof. intros ->. rewrite !app_assoc. apply rd_app_at. Qed.

(** Reading past a character widens the gap. *)
Lemma gap_snoc (P w J t : list Z) c : P ++ w ++ J ++ c :: t = P ++ w ++ (J ++ [c]) ++ t.
Proof. by rewrite <- (app_assoc J). Qed.

Ltac offsets := rewrite ?zlen_app, ?zlen_cons; unfold zlen in *; simpl; lia.

(** A space outside of quotes ends the word. *)
Lemma arg_space P w J c t R q line out :
  cmd_isspace c && (q =? 0) = true → NUL ∉ t → line = zlen (P ++ w ++ J) → out = zlen (P ++ w) →
  arg_result P w R q (c :: t) (Ok (P ++ w ++ J ++ c :: t ++ NUL :: R, line + 1, out, q)).
Proof.
  intros Esp Hn Hli Hout. exists w, (J ++ [c]), t, 0. rewrite gap_snoc. split; [|split; [|split]].
  - apply andb_true_iff in Esp as [_ ->%Z.eqb_eq]. subst out.
    replace (line + 1) with (zlen (P ++ w ++ J ++ [c])) by (subst; offsets). done.
  - right. split; [done|]. split; [by destruct J|simpl; lia].
  - done.
  - intros ws. cbn [tokenize]. by rewrite Esp.
Qed.

Lemma arg_loop_spec fuel P w J t R q :
  (length t < fuel)%nat → NUL ∉ t →
  ∀ line out, line = zlen (P ++ w ++ J) → out = zlen (P ++ w) →
  arg_result P w R q t (arg_loop fuel (P ++ w ++ J ++ t ++ NUL :: R) line out q).
Proof.
  revert w J t q. induction fuel as [|fuel IH]; intros w J t q Hf Hn line out Hli Hout; [lia|].
  destruct t as [|c t]; cbn [arg_loop app].
  { exists w, J, [], q. rewrite (rd_line _ _ _ _ _ line) by done. subst. split; [done|].
    split; [by left|]. by split. }
  rewrite (rd_line _ _ _ _ _ line) by done. apply not_elem_of_cons in Hn as [Hc Hn]. cbn [length] in Hf.
  simpl mbind. rewrite (proj2 (Z.eqb_neq c NUL)) by done.
  assert (Hskip : ∀ q1, (∀ ws, tokenize ws (Some (w, q)) (c :: t) = tokenize ws (Some (w, q1)) t) →
    arg_result P w R q (c :: t) (arg_loop fuel (P ++ w ++ J ++ c :: t ++ NUL :: R) (line + 1) out q1)).
  { intros q1 Ht. eapply arg_result_step; [|exact Ht|]; [simpl; lia|].
    rewrite gap_snoc. apply IH; [lia|done| |done]. subst. offsets. }
  assert (Hput : (∀ ws, tokenize ws (Some (w, q)) (c :: t) = tokenize ws (Some (w ++ [c], q)) t) →
    arg_result P w R q (c :: t) (buf ← wr (P ++ w ++ J ++ c :: t ++ NUL :: R) out c;
      arg_loop fuel buf (line + 1) (out + 1) q)).
  { intros Ht. destruct (arg_store P w J c t R c out Hout) as (J' & HJ & ->). simpl mbind.
    eapply arg_result_step; [|exact Ht|]; [simpl; lia|].
    apply IH; [lia|done| |]; subst; offsets. }
  destruct (cmd_isspace c && (q =? 0)) eqn:Esp.
  { by apply arg_space. }
  destruct ((c =? CH_QUOTE) || (c =? CH_DQUOTE)) eqn:Equ.
  { destruct (q =? 0) eqn:Eq0; [|destruct (q =? c) eqn:Eqc].
    - apply Hskip. intros ws. cbn [tokenize]. by rewrite Eq0, Esp, Equ.
    - apply Hskip. intros ws. cbn [tokenize]. by rewrite Eq0, Esp, Equ, Eqc.
    - apply Hput. intros ws. cbn [tokenize]. by rewrite Eq0, Esp, Equ, Eqc. }
  destruct ((c =? CH_BACKSLASH) && negb (q =? CH_QUOTE)) eqn:Ebs; [|].
  - destruct t as [|d t].
    + rewrite app_nil_l, gap_snoc, (rd_line _ _ _ _ _ (line + 1)) by (subst; offsets). simpl mbind.
      simpl. rewrite <- gap_snoc. apply Hput. intros ws. cbn [tokenize]. by rewrite Esp, Equ, Ebs.
    + apply not_elem_of_cons in Hn as [Hd Hn]. rewrite <- app_comm_cons.
      rewrite gap_snoc, (rd_line _ _ _ _ _ (line + 1)) by (subst; offsets). simpl mbind.
      rewrite (proj2 (Z.eqb_neq d NUL)) by done.
      destruct (arg_store P w (J ++ [c]) d t R d out Hout) as (J' & HJ & ->). simpl mbind.
      eapply (arg_result_step _ _ _ _ _ (w ++ [d]) q t); [simpl; lia| |].
      * intros ws. cbn [tokenize]. by rewrite Esp, Equ, Ebs.
      * cbn [length] in Hf. rewrite length_app in HJ. simpl in HJ.
        apply IH; [lia|done| |]; subst; offsets.
  - apply Hput. intros ws. cbn [tokenize]. by rewrite Esp, Equ, Ebs.
Qed.

Lemma skip_spaces_spec fuel P t R :
  (length t < fuel)%nat → NUL ∉ t →
  ∃ s t', t = s ++ t' ∧ (∀ ws, tokenize ws None t = tokenize ws None t') ∧
    skip_spaces fuel (P ++ t ++ NUL :: R) (zlen P) = Ok (default NUL (head t'), zlen (P ++ s)) ∧
    cmd_isspace (default NUL (head t')) = false.
Proof.
  revert P t. induction fuel as [|fuel IH]; intros P t Hf Hn; [lia|]. cbn [skip_spaces].
  destruct t as [|c t].
  - exists [], []. rewrite app_nil_l, (rd_at P NUL R), app_nil_r by done. by repeat split.
  - rewrite <- app_comm_cons, (rd_at P c (t ++ NUL :: R)) by done. apply not_elem_of_cons in Hn as [Hc Hn]. simpl mbind.
    rewrite (proj2 (Z.eqb_neq c NUL)) by done. destruct (cmd_isspace c) eqn:Ec; simpl negb; cbv beta iota.
    + destruct (IH (P ++ [c]) t) as (s & t' & -> & Ht & E & Hs); [simpl in Hf; lia|done|].
      exists (c :: s), t'. split; [done|]. split; [intros ws; cbn [tokenize]; by rewrite Ec|].
      split; [|done]. rewrite <- !app_assoc in E. simpl app in *. rewrite <- E, zlen_app, <- app_assoc. done.
    + exists [], (c :: t). rewrite app_nil_r. by repeat split.
Qed.

(** What parse_loop() comes to, against the tokens. *)
Definition parse_result (r : res parsed) (ts : tokens) : Prop :=
  match ts with
  | TMany => r = Ok TooMany
  | TQuote => r = Ok Unterminated
  | TWords ws => ∃ argv buf, r = Ok (Args argv buf) ∧ Forall2 (string_at buf) argv ws
  end.

Lemma tokenize_word ws c t :
  cmd_isspace c = false → (c =? CH_HASH) = false → (CONFIG_ARGC_MAX <=? zlen ws) = false →
  tokenize ws None (c :: t) = tokenize ws (Some ([], 0)) (c :: t).
Proof. intros E1 E2 E3. cbn [tokenize]. by rewrite E1, E2, E3. Qed.

Lemma string_at_mid buf s1 w s2 : buf = s1 ++ w ++ NUL :: s2 → string_at buf (zlen s1) w.
Proof. intros ->. by exists s1, s2. Qed.

(** The NUL that ends an argument goes into the gap, or stays where it was. *)
Lemma end_word P w J t R :
  t = [] ∨ J ≠ [] →
  ∃ P', wr (P ++ w ++ J ++ t ++ NUL :: R) (zlen (P ++ w)) NUL = Ok (P' ++ t ++ NUL :: R) ∧
    zlen P' = zlen (P ++ w ++ J) ∧
    ∀ X, (t = [] → X = NUL :: R) → ∃ Y, P' ++ X = P ++ w ++ NUL :: Y.
Proof.
  intros Hc. destruct J as [|x J].
  - destruct Hc as [->|]; [|done]. exists (P ++ w). split; [|split].
    + rewrite (app_assoc P w). apply wr_app_at.
    + by rewrite app_nil_r.
    + intros X ->; [|done]. exists R. by rewrite <- app_assoc.
  - exists (P ++ w ++ NUL :: J). split; [|split].
    + rewrite (app_assoc P w), <- (app_comm_cons J), wr_app_at, <- !app_assoc. done.
    + by rewrite !zlen_app, !zlen_cons.
    + intros X _. exists (J ++ X). by rewrite <- !app_assoc.
Qed.

Lemma parse_loop_spec fuel P t R argv ws :
  (length t < fuel)%nat → NUL ∉ t →
  (∀ X, (t = [] → X = NUL :: R) → Forall2 (string_at (P ++ X)) argv ws) →
  parse_result (parse_loop fuel (P ++ t ++ NUL :: R) (zlen P) argv) (tokenize ws None t).
Proof.
  revert P t argv ws. induction fuel as [|fuel IH]; intros P t argv ws Hf Hn Hold; [lia|].
  cbn [parse_loop].
  destruct (skip_spaces_spec (S (length (P ++ t ++ NUL :: R))) P t R)
    as (s & t1 & -> & Ht & -> & Hsp); [rewrite !length_app; lia|done|].
  rewrite Ht. cbn [mbind res_bind].
  destruct t1 as [|c t1]; simpl default.
  { exists argv, (P ++ (s ++ []) ++ NUL :: R). split; [done|].
    rewrite <- app_assoc. apply Hold. destruct s; [done|discriminate]. }
  simpl default in Hsp. assert (Hargs : zlen argv = zlen ws).
  { unfold zlen. f_equal. eapply Forall2_length, (Hold (NUL :: R)); done. }
  rewrite Hargs. apply not_elem_of_app in Hn as [_ Hn].
  rewrite (proj2 (Z.eqb_neq c NUL)) by (by intros ->; apply Hn; left). simpl orb.
  destruct (c =? CH_HASH) eqn:Ehash.
  { cbn [tokenize]. rewrite Hsp, Ehash. eexists _, _. split; [done|]. rewrite <- app_assoc. apply Hold. destruct s; discriminate. }
  destruct (CONFIG_ARGC_MAX <=? zlen ws) eqn:Emax.
  { cbn [tokenize]. by rewrite Hsp, Ehash, Emax. }
  assert (Eb : P ++ (s ++ c :: t1) ++ NUL :: R = (P ++ s) ++ [] ++ [] ++ (c :: t1) ++ NUL :: R)
    by (rewrite <- !app_assoc; done).
  destruct (arg_loop_spec (S (length (P ++ (s ++ c :: t1) ++ NUL :: R))) (P ++ s) [] [] (c :: t1) R 0)
    with (line := zlen (P ++ s)) (out := zlen (P ++ s)) as (w & J & t2 & q & E & Hc & Hn2 & Hw);
    [rewrite !length_app; simpl; lia|done|by rewrite !app_nil_r|by rewrite app_nil_r|].
  rewrite <- Eb in E. rewrite tokenize_word, Hw, E by done. cbn [mbind res_bind].
  unfold after_word. destruct (q =? 0) eqn:Eq; simpl negb; cbv beta iota; [|done].
  destruct (end_word (P ++ s) w J t2 R) as (P' & -> & HP' & HX).
  { destruct Hc as [->|(? & ? & ?)]; auto. }
  cbn [mbind res_bind]. rewrite <- HP'.
  apply IH; [|done|].
  - rewrite length_app in Hf. simpl in Hf. destruct Hc as [->|(_ & _ & Hc)]; simpl in *; lia.
  - intros X HX'. destruct (HX X HX') as [Y ->]. apply Forall2_app.
    + rewrite <- app_assoc. apply Hold. destruct s; discriminate.
    + constructor; [by eapply string_at_mid|done].
Qed.

(** ** The builtin commands *)

Lemma lex_trans a b c : lex a b = Lt → lex b c = Lt → lex a c = Lt.
Proof.
  revert b c. induction a as [|x a IH]; intros [|y b] [|z c]; simpl; try done.
  destruct (Z.compare_spec x y) as [->|Hxy|], (Z.compare_spec y z) as [->|Hyz|]; try done.
  - apply IH.
  - intros _ _. by rewrite (proj2 (Z.compare_lt_iff x z)).
  - intros _ _. by rewrite (proj2 (Z.compare_lt_iff x z)) by lia.
Qed.

(** strcmp() orders the strings by their unsigned characters. *)
Lemma strcmp_lex a b s r :
  Forall (λ c, 0 < c) a → Forall (λ c, 0 < c) b →
  ∃ d, strcmp (a ++ NUL :: s) (b ++ NUL :: r) = Ok d ∧ (d ?= 0) = lex a b.
Proof.
  intros Ha. revert b. induction Ha as [|x a Hx Ha IH]; intros b Hb; destruct Hb as [|y b Hy Hb]; cbn [strcmp lex app].
  - by exists 0.
  - rewrite (proj2 (Z.eqb_neq NUL y)) by (unfold NUL; lia). eexists. split; [done|].
    apply Z.compare_lt_iff. unfold NUL. lia.
  - rewrite (proj2 (Z.eqb_neq x NUL)) by (unfold NUL; lia). eexists. split; [done|].
    apply Z.compare_gt_iff. unfold NUL. lia.
  - destruct (Z.compare_spec x y) as [->|H|H].
    + rewrite Z.eqb_refl, (proj2 (Z.eqb_neq y NUL)) by (unfold NUL; lia). by apply IH.
    + rewrite (proj2 (Z.eqb_neq x y)) by lia. eexists. split; [done|]. apply Z.compare_lt_iff. lia.
    + rewrite (proj2 (Z.eqb_neq x y)) by lia. eexists. split; [done|]. apply Z.compare_gt_iff. lia.
Qed.


(** One probe of the search. *)
Lemma probe_builtin fuel name s left right entry h rest rest' :
  left ≤ right → Forall (λ c, 0 < c) name → Forall (λ c, 0 < c) entry →
  builtins = rest ++ (entry, h) :: rest' → Z.quot (left + right) 2 = zlen rest →
  find_builtin_loop (S fuel) (name ++ NUL :: s) left right =
  match lex name entry with
  | Lt => find_builtin_loop fuel (name ++ NUL :: s) left (zlen rest - 1)
  | Gt => find_builtin_loop fuel (name ++ NUL :: s) (zlen rest + 1) right
  | Eq => Ok (Some h)
  end.
Proof.
  intros Hle Hn He Hb Hm. cbn [find_builtin_loop]. rewrite (proj2 (Z.leb_le _ _)) by done.
  cbv zeta. rewrite Hm, Hb, rd_app_at. cbn [mbind res_bind].
  destruct (strcmp_lex name entry s [] Hn He) as (d & -> & <-). cbn [mbind res_bind].
  destruct (Z.compare_spec d 0) as [->|H|H]; [done|by rewrite (proj2 (Z.ltb_lt _ _))|].
  by rewrite (proj2 (Z.ltb_ge d 0)), (proj2 (Z.ltb_lt 0 d)) by lia.
Qed.

(** The last probe of a name above the table is past its end. *)
Lemma probe_past fuel name : find_builtin_loop (S fuel) name 5 5 = Err FBounds.
Proof. done. Qed.

Lemma probe_none fuel name left right : right < left → find_builtin_loop (S fuel) name left right = Ok None.
Proof. intros H. simpl. by rewrite (proj2 (Z.leb_gt _ _)). Qed.

Definition find_spec (name : list Z) : res (option builtin_handler) :=
  match lex name (chars "uname") with Gt => Err FBounds | _ => Ok (assoc_builtin name) end.

Lemma lex_eq a b : lex a b = Eq → a = b.
Proof.
  revert b. induction a as [|x a IH]; intros [|y b]; simpl; try done.
  destruct (Z.compare_spec x y) as [->|?|?]; try done. intros E. by rewrite (IH b).
Qed.

Lemma assoc_builtin_none name : name ∉ builtins.*1 → assoc_builtin name = None.
Proof.
  intros H. unfold assoc_builtin. destruct (filter _ _) as [|p l] eqn:E; [done|].
  destruct H. assert (Hp : p ∈ filter (λ p, p.1 = name) builtins) by (rewrite E; left).
  apply list_elem_of_filter in Hp as [<- Hp]. by apply list_elem_of_fmap_2.
Qed.

(** Compares the name with an entry; equality is out of the question. *)
Ltac probe Hne i entry h E :=
  rewrite (probe_builtin _ _ _ _ _ (chars entry) h (take i builtins) (drop (S i) builtins));
    [change (zlen (take i builtins)) with (Z.of_nat i);
     destruct (lex _ (chars entry)) eqn:E at 1;
       [exfalso; refine (Hne (chars entry) _ E); compute_decide| | ]
    |done|done|repeat constructor|reflexivity|reflexivity].

Lemma find_builtin_spec name s :
  Forall (λ c, 0 < c) name → cmd_find_builtin (name ++ NUL :: s) = find_spec name.
Proof.
  intros Hn. destruct (decide (name ∈ builtins.*1)) as [Hin|Hout].
  { change (builtins.*1) with [chars "cd"; chars "ls"; chars "mount"; chars "pwd"; chars "uname"] in Hin.
    repeat (apply elem_of_cons in Hin as [->|Hin]; [reflexivity|]). by apply elem_of_nil in Hin. }
  assert (Hne : ∀ e, e ∈ builtins.*1 → lex name e ≠ Eq) by (intros e He E; apply lex_eq in E; by subst).
  assert (Hu : lex name (chars "uname") = Lt → find_spec name = Ok None)
    by (intros E; unfold find_spec; by rewrite E, assoc_builtin_none).
  assert (Hlt : ∀ e, lex e (chars "uname") = Lt → lex name e = Lt → find_spec name = Ok None)
    by (intros e E1 E2; by apply Hu, (lex_trans _ e)).
  unfold cmd_find_builtin. change (zlen builtins) with 5.
  probe Hne 2%nat "mount"%string CmdMount E1.
  - rewrite (Hlt (chars "mount")) by done. probe Hne 0%nat "cd"%string CmdChdir E2; [by rewrite probe_none|].
    probe Hne 1%nat "ls"%string CmdLs E3; by rewrite probe_none.
  - probe Hne 4%nat "uname"%string CmdUname E2.
    + rewrite Hu by done. probe Hne 3%nat "pwd"%string CmdPwd E3; by rewrite probe_none.
    + rewrite probe_past. unfold find_spec. by rewrite E2.
Qed.

(** The words are made of the characters of the line. *)
Lemma tokenize_chars (P : Z → Prop) n t ws cur ws' :
  (length t ≤ n)%nat → Forall P t → Forall (Forall P) ws →
  match cur with Some (w, _) => Forall P w | None => True end →
  tokenize ws cur t = TWords ws' → Forall (Forall P) ws'.
Proof.
  revert t ws cur. induction n as [|n IH]; intros t ws cur Hn Ht Hws Hcur.
  all: destruct t as [|c t]; [|simpl in Hn; try lia].
  1,2: simpl; destruct cur as [[w q]|]; [destruct (q =? 0); [|done]|]; intros [= <-]; [|done].
  1,2: by apply Forall_app; repeat constructor.
  apply Forall_cons in Ht as [Hc Ht].
  assert (Hsnoc : ∀ w d, Forall P w → P d → Forall P (w ++ [d])) by (intros; apply Forall_app; auto).
  cbn [tokenize]. destruct cur as [[w q]|].
  all: repeat case_match; try done; try (by intros [= <-]); eapply IH; try done; simpl in *; try lia; auto.
  all: repeat match goal with
  | H : Forall _ (_ :: _) |- _ => apply Forall_cons in H as [??]
  | |- Forall _ (_ ++ [_]) => apply Forall_app; split
  end; try lia; auto.
Qed.

(** ** The execution of a line *)

(** What the words of a line lead to. *)
Definition exec_result (ts : tokens) (r : res action) : Prop :=
  match ts with
  | TMany => r = Ok PrintTooMany
  | TQuote => r = Ok PrintUnterminated
  | TWords [] => r = Ok DoNothing
  | TWords (name :: args) =>
      ∃ arg0 argv buf, Forall2 (string_at buf) (arg0 :: argv) (name :: args) ∧
        r = (builtin ← find_spec name;
             Ok (match builtin with
                 | Some handler => RunBuiltin handler (arg0 :: argv) buf
                 | None => PrintNotFound arg0 buf
                 end))
  end.

Lemma positive_no_nul t : Forall (λ c, 0 < c) t → NUL ∉ t.
Proof. rewrite Forall_forall. intros H Hin%H. unfold NUL in Hin. lia. Qed.

Lemma cmd_exec_tokens t R :
  Forall (λ c, 0 < c) t → exec_result (tokenize [] None t) (cmd_exec (t ++ NUL :: R)).
Proof.
  intros Ht. unfold cmd_exec.
  pose proof (parse_loop_spec (S (length (t ++ NUL :: R))) [] t R [] []) as Hp.
  specialize (Hp ltac:(rewrite length_app; lia) (positive_no_nul _ Ht) ltac:(by constructor)).
  pose proof (tokenize_chars (λ c, 0 < c) (length t) t [] None) as Hw. rewrite app_nil_l in Hp. change (zlen []) with 0 in Hp.
  destruct (tokenize [] None t) as [| |ws]; cbn [parse_result] in Hp; [by rewrite Hp..|].
  destruct Hp as (argv & buf & -> & Hargs). cbn [mbind res_bind exec_result].
  destruct Hargs as [|arg0 name argv args H0 Hargs]; [done|].
  exists arg0, argv, buf. split; [by constructor|].
  destruct H0 as (s1 & s2 & -> & ->). unfold zlen. rewrite Nat2Z.id, drop_app_length, find_builtin_spec.
  - by destruct (find_spec name) as [[h|]|].
  - eapply Forall_inv, Hw; eauto.
Qed.

(** Parsing writes within the line. *)
Lemma arg_loop_length fuel buf line out q buf' line' out' q' :
  arg_loop fuel buf line out q = Ok (buf', line', out', q') → length buf' = length buf.
Proof.
  revert buf line out q. induction fuel as [|fuel IH]; intros buf line out q; cbn [arg_loop]; [done|].
  destruct (rd buf line) as [ch|]; [|done]. cbn [mbind res_bind].
  assert (Hput : ∀ v line, (buf ← wr buf out v; arg_loop fuel buf line (out + 1) q) = Ok (buf', line', out', q') →
    length buf' = length buf).
  { intros v l. destruct (wr buf out v) as [b|] eqn:E; [|done]. cbn [mbind res_bind]. intros Hl%IH.
    by rewrite Hl, (wr_length _ _ _ _ E). }
  repeat case_match; try (by intros [= <- _ _ _]); try apply IH; try apply Hput.
  destruct (rd buf (line + 1)) as [next|]; [|done]. cbn [mbind res_bind]. case_match; apply Hput.
Qed.

Lemma parse_loop_length fuel buf line argv argv' buf' :
  parse_loop fuel buf line argv = Ok (Args argv' buf') → length buf' = length buf.
Proof.
  revert buf line argv. induction fuel as [|fuel IH]; intros buf line argv; cbn [parse_loop]; [done|].
  destruct (skip_spaces _ _ _) as [[ch l]|]; [|done]. cbn [mbind res_bind]. case_match; [by intros [= _ <-]|].
  case_match; [done|]. destruct (arg_loop _ _ _ _ _) as [[[[b nxt] out] q]|] eqn:E; [|done]. cbn [mbind res_bind].
  case_match; [done|]. destruct (wr b out NUL) as [b2|] eqn:E2; [|done]. cbn [mbind res_bind]. intros Hl%IH.
  by rewrite Hl, (wr_length _ _ _ _ E2), (arg_loop_length _ _ _ _ _ _ _ _ _ E).
Qed.

Lemma cmd_exec_length line r :
  cmd_exec line = Ok r →
  match r with RunBuiltin _ _ buf | PrintNotFound _ buf => length buf = length line | _ => True end.
Proof.
  unfold cmd_exec. destruct (parse_loop _ _ _ _) as [[| |argv buf]|] eqn:E; cbn [mbind res_bind]; try by intros [= <-].
  apply parse_loop_length in E. destruct argv as [|arg0 argv]; [by intros [= <-]|].
  destruct (cmd_find_builtin _) as [[h|]|]; cbn [mbind res_bind]; by intros [= <-].
Qed.

Lemma tokenize_escaped ws w0 w t :
  tokenize ws (Some (w0, 0)) (escape_chars w ++ t) = tokenize ws (Some (w0 ++ w, 0)) t.
Proof.
  revert w0. induction w as [|c w IH]; intros w0; [by rewrite app_nil_r|].
  transitivity (tokenize ws (Some (w0 ++ [c], 0)) (escape_chars w ++ t)); [done|].
  by rewrite IH, <- app_assoc.
Qed.

Lemma tokenize_escape ws w t :
  zlen ws < CONFIG_ARGC_MAX →
  tokenize ws None (escape w ++ CH_SPACE :: t) = tokenize (ws ++ [w]) None t.
Proof.
  intros Hl. transitivity (tokenize ws (Some ([], 0)) (escape w ++ CH_SPACE :: t)).
  { by destruct w; apply tokenize_word; try done; apply Z.leb_gt. }
  destruct w as [|c w]; [done|]. unfold escape. by rewrite tokenize_escaped.
Qed.

(** A line of escaped words, each followed by a space. *)
Definition escape_line (words : list (list Z)) : list Z := words ≫= λ w, escape w ++ [CH_SPACE].

Lemma tokenize_line ws words :
  zlen ws + zlen words ≤ CONFIG_ARGC_MAX →
  tokenize ws None (escape_line words) = TWords (ws ++ words).
Proof.
  revert ws. induction words as [|w words IH]; intros ws Hl; [by rewrite app_nil_r|].
  rewrite zlen_cons in Hl. pose proof (zlen_nonneg words).
  unfold escape_line. rewrite bind_cons, <- app_assoc. simpl app at 2.
  rewrite tokenize_escape by lia. change (w :: words) with ([w] ++ words). rewrite app_assoc. apply IH.
  rewrite zlen_app. change (zlen [w]) with 1. lia.
Qed.

Lemma escape_line_positive words :
  Forall (Forall (λ c, 0 < c)) words → Forall (λ c, 0 < c) (escape_line words).
Proof.
  induction 1 as [|w words Hw _ IH]; [constructor|]. unfold escape_line. rewrite bind_cons.
  apply Forall_app. split; [|done]. apply Forall_app. split; [|by repeat constructor].
  assert (Forall (λ c, 0 < c) (escape_chars w)) by (induction Hw; repeat constructor; done).
  destruct w; [by repeat constructor|done].
Qed.

(** C36: The shell never faults while it parses a line, whatever the quotes and
    escapes: taking the quotes out in place produces exactly the tokens of a
    one-pass tokenizer, every argument as a NUL-terminated string of the
    buffer; 64 arguments is the limit, an open quote is an error, an empty
    line does nothing.  The first word selects a builtin command or is
    reported as not found; a word that sorts after the last builtin makes the
    search read past the end of the table. *)
Theorem cmd_exec_refines (t R : list Z) :
  Forall (λ c, 0 < c) t → exec_result (tokenize [] None t) (cmd_exec (t ++ NUL :: R)).
Proof. apply cmd_exec_tokens. Qed.

Lemma cmd_exec_refines_witness :
  exec_result (TWords [chars "mount"; chars "a b"; chars "c d"]) (cmd_exec (chars "mount 'a b' c\ d # x" ++ [NUL])) ∧
  exec_result (TWords [chars "vi"]) (cmd_exec (chars "vi" ++ [NUL])) ∧ find_spec (chars "vi") = Err FBounds.
Proof.
  split; [|split; [|reflexivity]].
  - apply (cmd_exec_refines (chars "mount 'a b' c\ d # x") []). by repeat constructor.
  - apply (cmd_exec_refines (chars "vi") []). by repeat constructor.
Defined.

(** Escaping round-trips through the shell: up to 64 words, of any
    characters but NUL, each with a backslash before every character (two
    quotes for an empty word), are parsed back into the same words. *)
Theorem cmd_exec_roundtrip (name : list Z) (args : list (list Z)) (R : list Z) :
  zlen (name :: args) ≤ CONFIG_ARGC_MAX →
  Forall (Forall (λ c, 0 < c)) (name :: args) → lex name (chars "uname") ≠ Gt →
  ∃ arg0 argv buf, Forall2 (string_at buf) (arg0 :: argv) (name :: args) ∧
    cmd_exec (escape_line (name :: args) ++ NUL :: R) =
      Ok (match assoc_builtin name with
          | Some handler => RunBuiltin handler (arg0 :: argv) buf
          | None => PrintNotFound arg0 buf
          end).
Proof.
  intros Hl Hc Hu.
  pose proof (cmd_exec_tokens (escape_line (name :: args)) R (escape_line_positive _ Hc)) as H.
  rewrite tokenize_line in H by (change (zlen []) with 0; lia).
  destruct H as (arg0 & argv & buf & Hargs & E). exists arg0, argv, buf. split; [done|].
  rewrite E. unfold find_spec. by destruct (lex name _).
Qed.

Lemma cmd_exec_roundtrip_witness :
  zlen [chars "cd"; chars "it's #1"; []] ≤ CONFIG_ARGC_MAX ∧
  ∃ arg0 argv buf, Forall2 (string_at buf) (arg0 :: argv) [chars "cd"; chars "it's #1"; []] ∧
    cmd_exec (escape_line [chars "cd"; chars "it's #1"; []] ++ [NUL]) =
      Ok (RunBuiltin CmdChdir (arg0 :: argv) buf).
Proof.
  split; [done|]. apply (cmd_exec_roundtrip (chars "cd") [chars "it's #1"; []] []); [done| |done].
  by repeat constructor.
Defined.

(** ** Division by ten *)

(** One round of the long division: [x] has been divided, [r] remains, of
    which the top bit is next; [m] and [p] are the weights. *)
Lemma div10_round_spec m p x b r :
  0 < m → 0 < p → m * p = 2147483648 → 0 ≤ x → x / 10 < p → 0 ≤ b < 2 → 0 ≤ r < m →
  div10_round ((b * m + r) * p + x / 10, x mod 10) =
  (r * (2 * p) + (2 * x + b) / 10, (2 * x + b) mod 10).
Proof.
  intros Hm Hp Hmp Hx Hxp Hb Hr. unfold div10_round.
  pose proof (Z.div_pos x 10 Hx ltac:(lia)) as Hq.
  assert (Hv : (b * m + r) * p + x / 10 = b * 2147483648 + (r * p + x / 10)) by (rewrite <- Hmp; ring).
  assert (Hlow : 0 ≤ r * p + x / 10 < 2147483648).
  { rewrite <- Hmp. split; [nia|]. assert (r * p ≤ (m - 1) * p) by nia. lia. }
  rewrite Hv. replace (r * (2 * p)) with (2 * (r * p)) by ring. generalize dependent (r * p). intros y Hv Hlow.
  rewrite Z.shiftr_div_pow2 by lia. change (2 ^ 31) with 2147483648.
  rewrite Z.div_add_l, (Z.div_small (y + x / 10)), Z.add_0_r by lia.
  assert (Hmod := Z.mod_pos_bound x 10 ltac:(lia)).
  rewrite (u8_small (2 * (x mod 10) + b)) by lia.
  assert (Hu : u32 (2 * (b * 2147483648 + (y + x / 10))) = 2 * (y + x / 10)).
  { unfold u32. replace (2 * _) with (2 * (y + x / 10) + b * 4294967296) by ring.
    rewrite Z.mod_add by lia. apply Z.mod_small. lia. }
  rewrite Hu. clear Hv Hu Hmp Hxp. pose proof (Z.div_mod x 10 ltac:(lia)).
  destruct (Z.leb_spec 10 (2 * (x mod 10) + b)); f_equal; Z.to_euclidean_division_equations; lia.
Qed.

(** The state after [k] rounds on a value of [k + j] bits in all. *)
Lemma div10_rounds k j value :
  (k + j = 32)%nat → 0 ≤ value < 4294967296 →
  Nat.iter k div10_round (value, 0) =
  (value mod 2 ^ Z.of_nat j * 2 ^ Z.of_nat k + value / 2 ^ Z.of_nat j / 10,
   (value / 2 ^ Z.of_nat j) mod 10).
Proof.
  revert j. induction k as [|k IH]; intros j Hkj Hv.
  { replace j with 32%nat by lia. change (2 ^ Z.of_nat 32) with 4294967296.
    rewrite Z.mod_small, (Z.div_small value) by lia.
    change (2 ^ Z.of_nat 0) with 1. by rewrite Z.mul_1_r, Z.add_0_r. }
  rewrite Nat.iter_succ, (IH (S j)) by lia.
  assert (Hm : 0 < 2 ^ Z.of_nat j) by (apply Z.pow_pos_nonneg; lia).
  assert (Hp : 0 < 2 ^ Z.of_nat k) by (apply Z.pow_pos_nonneg; lia).
  assert (Hmp : 2 ^ Z.of_nat j * 2 ^ Z.of_nat k = 2147483648).
  { rewrite <- Z.pow_add_r by lia. by replace (Z.of_nat j + Z.of_nat k) with 31 by lia. }
  rewrite !Nat2Z.inj_succ, !Z.pow_succ_r by lia.
  set (m := 2 ^ Z.of_nat j) in *. set (p := 2 ^ Z.of_nat k) in *.
  set (x := value / (2 * m)). set (b := (value / m) mod 2).
  assert (Hx : value / m = 2 * x + b).
  { unfold x, b. rewrite (Z.mul_comm 2 m), <- Z.div_div by lia. apply Z.div_mod. lia. }
  assert (Hr : value mod (2 * m) = b * m + value mod m).
  { rewrite (Z.mul_comm 2 m), Z.rem_mul_r by lia. fold b. lia. }
  rewrite Hx, Hr. apply div10_round_spec; try lia.
  - apply Z.div_pos; lia.
  - assert (x < p) by (apply Z.div_lt_upper_bound; lia).
    assert (0 ≤ x) by (apply Z.div_pos; lia). apply Z.div_lt_upper_bound; lia.
  - apply Z.mod_pos_bound. lia.
  - by apply Z.mod_pos_bound.
Qed.

Lemma div10_spec value : 0 ≤ value < 16777216 → div10 value = (value / 10, value mod 10).
Proof.
  intros Hv. unfold div10. rewrite Z.shiftr_div_pow2, Z.div_small by lia.
  rewrite (div10_rounds 32 0) by lia. change (2 ^ Z.of_nat 0) with 1. by rewrite Z.mod_1_r, !Z.div_1_r.
Qed.

(** A value of 25 bits or more starts with a remainder: 16777216 is shown as
    431174451 tens and 2. *)
Lemma div10_top_byte : div10 16777216 = (431174451, 2) ∧ 16777216 / 10 = 1677721.
Proof. by vm_compute. Qed.

Definition is_digit (d : Z) : Prop := 48 ≤ d ≤ 57.

Lemma decimal_rev_cons d ds : decimal (rev (d :: ds)) = d - 48 + 10 * decimal (rev ds).
Proof. unfold decimal. simpl. rewrite foldl_app. simpl. lia. Qed.

Lemma decimal_rev_bound ds : Forall is_digit ds → 0 ≤ decimal (rev ds) < 10 ^ zlen ds.
Proof.
  induction 1 as [|d ds Hd _ IH]; [done|]. unfold is_digit in Hd.
  rewrite decimal_rev_cons, zlen_cons, Z.pow_add_r by (done || apply zlen_nonneg). lia.
Qed.

(** The digits that the loop stores, the lowest first. *)
Lemma number_digits_spec fuel ds rest value :
  0 ≤ value → value * 10 ^ zlen ds < 16777216 → 11 ≤ Z.of_nat fuel + zlen ds → zlen ds ≤ 10 →
  ∃ new rest' v, number_digits fuel (ds ++ rest) value (zlen (ds ++ rest)) (zlen ds) =
      Ok (ds ++ new ++ rest', zlen (ds ++ new)) ∧
    length rest = (length new + length rest')%nat ∧ Forall is_digit new ∧
    value = decimal (rev new) + 10 ^ zlen new * v ∧
    (v = 0 ∧ (value ≠ 0 → last new ≠ Some 48) ∨ rest' = []) ∧ (value = 0 → new = []) ∧
    (value ≠ 0 → rest ≠ [] → new ≠ []).
Proof.
  revert ds rest value. induction fuel as [|fuel IH]; intros ds rest value Hv Hb Hf Hl; [lia|].
  cbn [number_digits]. assert (Hp : 0 < 10 ^ zlen ds) by (apply Z.pow_pos_nonneg; [lia|apply zlen_nonneg]).
  destruct (Z.eqb_spec value 0) as [->|Hnz].
  { exists [], rest, 0. rewrite andb_false_r, app_nil_r. repeat split; try done. left. by split. }
  destruct rest as [|x rest].
  { exists [], [], value. rewrite !app_nil_r, Z.ltb_irrefl, andb_false_r. repeat split; try done; [|by right].
    change (10 ^ zlen []) with 1. change (decimal (rev [])) with 0. lia. }
  assert (Hc : zlen ds < 8).
  { destruct (Z.lt_ge_cases (zlen ds) 8) as [|Hge]; [done|]. pose proof (Z.pow_le_mono_r 10 8 (zlen ds)). nia. }
  rewrite (proj2 (Z.ltb_lt (zlen ds) 10)), (proj2 (Z.ltb_lt (zlen ds) _)) by (rewrite ?zlen_app, ?zlen_cons; pose proof (zlen_nonneg rest); lia).
  rewrite div10_spec by nia. pose proof (Z.mod_pos_bound value 10). pose proof (Z.div_mod value 10).
  simpl andb. cbv beta iota. rewrite wr_app_at, u8_small by lia. cbn [mbind res_bind].
  set (d := value mod 10 + 48) in *.
  destruct (IH (ds ++ [d]) rest (value / 10)) as (new & rest' & v & E & Hlen & Hd & Hval & Hend & Hzero & _).
  1,3,4: rewrite ?zlen_app; change (zlen [d]) with 1; try apply Z.div_pos; lia.
  { rewrite zlen_app, Z.pow_add_r by (done || apply zlen_nonneg). change (10 ^ zlen [d]) with 10.
    apply Z.le_lt_trans with (value * 10 ^ zlen ds); [|done]. nia. }
  rewrite <- !app_assoc in E. simpl app in E.
  replace (zlen (ds ++ x :: rest)) with (zlen (ds ++ d :: rest)) by (by rewrite !zlen_app, !zlen_cons).
  replace (zlen ds + 1) with (zlen (ds ++ [d])) by (by rewrite zlen_app).
  exists (d :: new), rest', v. split; [exact E|]. split; [simpl; lia|].
  split; [constructor; [unfold is_digit; lia|done]|]. split; [|split; [|split; [intros ->; done|done]]].
  - rewrite decimal_rev_cons, zlen_cons, Z.pow_add_r by (done || apply zlen_nonneg). subst d. lia.
  - destruct Hend as [[-> Hlast]|]; [left|by right]. split; [done|]. intros _.
    destruct (decide (value / 10 = 0)) as [Hz|Hz].
    + rewrite (Hzero Hz). intros [= Hd48]. lia.
    + rewrite last_cons. specialize (Hlast Hz). destruct (last new) eqn:El; [done|].
      apply last_None in El as ->. destruct Hz. by rewrite Hval.
Qed.

Lemma number_pad_spec fuel l rest :
  (length rest < fuel)%nat →
  number_pad fuel (l ++ rest) (zlen (l ++ rest)) (zlen l) =
  Ok (l ++ replicate (length rest) CH_SPACE, zlen (l ++ rest)).
Proof.
  revert l rest. induction fuel as [|fuel IH]; intros l rest Hf; [lia|]. cbn [number_pad].
  destruct rest as [|x rest]; [by rewrite !app_nil_r, Z.ltb_irrefl|].
  rewrite (proj2 (Z.ltb_lt _ _)) by (rewrite zlen_app, zlen_cons; pose proof (zlen_nonneg rest); lia).
  rewrite wr_app_at. cbn [mbind res_bind]. simpl in Hf.
  specialize (IH (l ++ [CH_SPACE]) rest ltac:(lia)). rewrite <- !app_assoc in IH. simpl app in IH.
  replace (zlen (l ++ x :: rest)) with (zlen (l ++ CH_SPACE :: rest)) by (by rewrite !zlen_app, !zlen_cons).
  replace (zlen l + 1) with (zlen (l ++ [CH_SPACE])) by (by rewrite zlen_app). exact IH.
Qed.

Lemma rev_replicate {A} n (x : A) : rev (replicate n x) = replicate n x.
Proof. induction n as [|n IH]; [done|]. simpl. rewrite IH. symmetry. apply replicate_cons_app. Qed.

(** The digits with the padding, once the loops are done. *)
Lemma print_number_field ds rest :
  zlen (ds ++ rest) ≤ 255 →
  ('(buf, count) ← number_pad 257 (ds ++ rest) (zlen (ds ++ rest)) (zlen ds);
   Ok (rev (take (Z.to_nat count) buf))) = Ok (replicate (length rest) CH_SPACE ++ rev ds).
Proof.
  intros Hl. rewrite number_pad_spec by (unfold zlen in Hl; rewrite length_app in Hl; lia).
  cbn [mbind res_bind]. unfold zlen. rewrite Nat2Z.id, take_ge by (rewrite !length_app, length_replicate; lia).
  by rewrite rev_app_distr, rev_replicate.
Qed.

(** Print_number() shows a value below 2^24 as a field of exactly [size]
    characters: spaces and then the decimal digits of the value, without
    leading zeros, or its lowest [size] digits when it does not fit.  The
    bytewise division by ten of div10() is right for such values. *)
Theorem print_number_decimal (value size : Z) (buf : list Z) :
  0 ≤ value < 16777216 → 1 ≤ size ≤ 255 → zlen buf = size →
  ∃ n ds, print_number value size buf = Ok (replicate n CH_SPACE ++ ds) ∧
    Z.of_nat n + zlen ds = size ∧ ds ≠ [] ∧ Forall is_digit ds ∧
    decimal ds = value mod 10 ^ size ∧
    (n ≠ 0%nat → value ≠ 0 → head ds ≠ Some 48).
Proof.
  intros Hv Hs Hb. unfold print_number.
  destruct (number_digits_spec 11 [] buf value) as (new & rest & v & E & Hlen & Hd & Hval & Hend & Hzero & Hne);
    [lia|change (10 ^ zlen []) with 1; lia|change (zlen []) with 0; lia|done|].
  rewrite app_nil_l, Hb in E. change (zlen []) with 0 in E. rewrite E. cbn [mbind res_bind]. rewrite !app_nil_l.
  assert (Hsz : size = zlen (new ++ rest)) by (rewrite <- Hb; unfold zlen; rewrite length_app; lia).
  destruct (Z.eqb_spec value 0) as [->|Hnz].
  { rewrite (Hzero eq_refl) in *. destruct rest as [|x rest]; [change (zlen ([] ++ [])) with 0 in Hsz; lia|].
    change (zlen [] =? 0) with true. cbv beta iota. rewrite (wr_app_at [] x 48 rest : wr ([] ++ x :: rest) 0 48 = _).
    cbn [mbind res_bind]. exists (length rest), [48]. split; [|split; [|repeat split]].
    - rewrite Hsz. apply (print_number_field [48] rest). change (zlen ([] ++ x :: rest) ≤ 255). rewrite <- Hsz. lia.
    - rewrite Hsz. unfold zlen. simpl. lia.
    - done.
    - repeat constructor; unfold is_digit; lia.
    - done. }
  assert (Hnew : new ≠ []) by (apply Hne; [done|]; intros ->; change (zlen []) with 0 in Hb; lia).
  rewrite (proj2 (Z.eqb_neq (zlen new) 0)) by (destruct new; [done|rewrite zlen_cons; pose proof (zlen_nonneg new); lia]).
  cbn [mbind res_bind]. exists (length rest), (rev new). split; [|split; [|split; [|split; [|split]]]].
  - rewrite Hsz. apply print_number_field. lia.
  - rewrite Hsz, zlen_app. unfold zlen. rewrite length_rev. lia.
  - intros Hr. apply Hnew. by rewrite <- (rev_involutive new), Hr.
  - by apply Forall_rev.
  - pose proof (decimal_rev_bound new Hd). rewrite Hval. destruct Hend as [[-> _]| ->].
    + rewrite Z.mul_0_r, Z.add_0_r. symmetry. apply Z.mod_small. split; [lia|].
      apply Z.lt_le_trans with (10 ^ zlen new); [lia|]. apply Z.pow_le_mono_r; [lia|].
      rewrite Hsz, zlen_app. pose proof (zlen_nonneg rest). lia.
    + rewrite Hsz, app_nil_r, (Z.mul_comm (10 ^ _)), Z.mod_add by (apply Z.pow_nonzero; [lia|apply zlen_nonneg]).
      by rewrite Z.mod_small.
  - intros Hn _. rewrite rev_alt. change (rev_append new []) with (reverse new). rewrite head_reverse. destruct Hend as [[_ Hend]| ->]; [by apply Hend|done].
Qed.

Lemma print_number_decimal_witness :
  print_number 40960 8 (replicate 8 0) = Ok (chars "   40960") ∧
  ∃ n ds, print_number 40960 8 (replicate 8 0) = Ok (replicate n CH_SPACE ++ ds) ∧
    Z.of_nat n + zlen ds = 8 ∧ ds ≠ [] ∧ Forall is_digit ds ∧ decimal ds = 40960 mod 10 ^ 8 ∧
    (n ≠ 0%nat → 40960 ≠ 0 → head ds ≠ Some 48).
Proof.
  split; [by vm_compute|].
  apply (print_number_decimal 40960 8 (replicate 8 0)); [lia|lia|done].
Defined.

(** ** Line editing *)

(** The specification of the editing keys on the text typed so far. *)
Definition edit (size : Z) (text : list Z) (ch : Z) : list Z :=
  if (ch =? 8) || (ch =? 0x7F) then take (length text - 1) text
  else if ch =? 0x15 then []
  else if (CH_SPACE <=? ch) && (zlen text <? size - 1) then text ++ [u8 ch]
  else text.

Definition ends_line (ch : Z) : bool := (ch =? 13) || (ch =? 10).

(** The text that the keys leave, and the input behind the key that ends the line. *)
Fixpoint typed (size : Z) (text input : list Z) : list Z * option (list Z) :=
  match input with
  | [] => (text, None)
  | ch :: input => if ends_line ch then (text, Some input) else typed size (edit size text ch) input
  end.

Section Source.
(** The source of the keys, in the states [I]. *)
Context {S : Type} (getchar : M S Z) (keys : S → list Z) (I : S → Prop).
Hypothesis getchar_end : ∀ s, I s → keys s = [] → ∃ s', getchar s = Ok (-1, s') ∧ keys s' = [] ∧ I s'.
Hypothesis getchar_key : ∀ s ch l, I s → keys s = ch :: l → ∃ s', getchar s = Ok (ch, s') ∧ keys s' = l ∧ I s'.

Lemma get_line_loop_spec fuel s text rest size :
  I s → 1 ≤ size ≤ 65535 → zlen (text ++ rest) = size → rest ≠ [] → (length (keys s) < fuel)%nat →
  Forall (λ c, 0 ≤ c) (keys s) →
  ∃ rest' s', get_line_loop getchar fuel (text ++ rest) size (zlen text) s =
      Ok (match (typed size text (keys s)).2 with Some _ => 1 | None => 0 end,
          (typed size text (keys s)).1 ++ rest', s') ∧
    keys s' = default [] (typed size text (keys s)).2 ∧ I s' ∧
    zlen ((typed size text (keys s)).1 ++ rest') = size ∧
    ((typed size text (keys s)).2 ≠ None → head rest' = Some NUL).
Proof.
  intros HI Hs. revert s text rest HI. induction fuel as [|fuel IH]; intros s text rest HI Hl Hr Hf Hk; [lia|].
  cbn [get_line_loop]. destruct (keys s) as [|ch input] eqn:Ek.
  { destruct (getchar_end s HI Ek) as (s' & E & Hk' & HR). mstep by exact E. exists rest, s'. by repeat split. }
  destruct (getchar_key s ch input HI Ek) as (s1 & E & Ek1 & HR1). mstep by exact E.
  apply Forall_cons in Hk as [Hch Hk]. cbn [typed]. rewrite (proj2 (Z.ltb_ge ch 0)) by done.
  destruct rest as [|x rest]; [done|]. cbn [length] in Hf.
  assert (Hgo : ∀ text' rest', zlen (text' ++ rest') = size → rest' ≠ [] →
    ∃ rest'' s', get_line_loop getchar fuel (text' ++ rest') size (zlen text') s1 =
      Ok (match (typed size text' input).2 with Some _ => 1 | None => 0 end,
          (typed size text' input).1 ++ rest'', s') ∧
    keys s' = default [] (typed size text' input).2 ∧ I s' ∧
    zlen ((typed size text' input).1 ++ rest'') = size ∧
    ((typed size text' input).2 ≠ None → head rest'' = Some NUL)).
  { intros text' rest' Hl' Hr'. specialize (IH s1 text' rest' HR1 Hl' Hr'). rewrite Ek1 in IH.
    destruct (IH ltac:(lia) Hk) as (r & s' & E' & Hk' & HR' & Hrest). exists r, s'.
    split; [exact E'|]. split; [exact Hk'|]. split; [exact HR'|exact Hrest]. }
  unfold ends_line. destruct ((ch =? 13) || (ch =? 10)); cbv beta iota.
  { mstep by (unfold lift; rewrite wr_app_at; reflexivity). exists (NUL :: rest), s1.
    split; [done|]. split; [done|]. split; [done|]. split; [|done].
    by rewrite <- Hl, !zlen_app, !zlen_cons. }
  unfold edit. destruct ((ch =? 8) || (ch =? 0x7F)); [|destruct (ch =? 0x15)]; cbv beta iota.
  - replace (if 0 <? zlen text then _ else _) with (zlen (take (length text - 1) text))
      by (unfold zlen; rewrite length_take; destruct (Z.ltb_spec 0 (Z.of_nat (length text))); lia).
    replace (text ++ x :: rest) with (take (length text - 1) text ++ (drop (length text - 1) text ++ x :: rest))
      by (by rewrite app_assoc, take_drop).
    apply Hgo; [by rewrite app_assoc, take_drop|]. by destruct (drop _ text).
  - apply (Hgo [] (text ++ x :: rest)); [done|]. by destruct text.
  - rewrite (u16_small (size - 1)) by lia. destruct ((CH_SPACE <=? ch) && (zlen text <? size - 1)) eqn:Ec.
    + mstep by (unfold lift; rewrite wr_app_at; reflexivity). apply andb_true_iff in Ec as [_ Ec%Z.ltb_lt].
      rewrite zlen_app, zlen_cons in Hl. specialize (Hgo (text ++ [u8 ch]) rest).
      rewrite <- !app_assoc in Hgo. simpl app in Hgo. rewrite !zlen_app in Hgo.
      apply Hgo; [rewrite zlen_cons; lia|]. intros ->. change (zlen []) with 0 in Hl. lia.
    + by apply Hgo.
Qed.

(** get_line() edits within its buffer: it never faults, ends with the input at
    the latest, keeps the length of the buffer, and when a line is ended by CR
    or LF it leaves exactly the edited text with its NUL. *)
Theorem get_line_refines fuel s buf size :
  I s → 1 ≤ size ≤ 65535 → zlen buf = size → (length (keys s) < fuel)%nat → Forall (λ c, 0 ≤ c) (keys s) →
  let '(text, more) := typed size [] (keys s) in
  ∃ rest s', get_line getchar fuel buf size s =
      Ok (match more with Some _ => 1 | None => 0 end, text ++ rest, s') ∧
    keys s' = default [] more ∧ I s' ∧ zlen (text ++ rest) = size ∧ (more ≠ None → head rest = Some NUL).
Proof.
  intros HI Hs Hb Hf Hk. destruct (get_line_loop_spec fuel s [] buf size) as (rest & s' & H); try done.
  { intros ->. change (zlen []) with 0 in Hb. lia. }
  destruct (typed size [] (keys s)) as [text more]. by exists rest, s'.
Qed.
End Source.

(** The characters of a list as the input. *)
Definition list_getchar : M (list Z) Z := λ l,
  match l with [] => Ok (-1, []) | ch :: l => Ok (ch, l) end.

Lemma get_line_refines_witness :
  ∃ rest, get_line list_getchar 20 (replicate 4 0) 4 (chars "pqd" ++ [8; 127] ++ chars "wdx" ++ [10; 65]) =
    Ok (1, chars "pwd" ++ rest, [65]) ∧ head rest = Some NUL.
Proof.
  destruct (get_line_refines list_getchar id (λ _, True) ltac:(intros s _ Hs; exists []; cbv [id] in Hs; by subst)
    ltac:(intros s ch l _ Hs; exists l; cbv [id] in Hs; by subst) 20%nat (chars "pqd" ++ [8; 127] ++ chars "wdx" ++ [10; 65])
    (replicate 4 0) 4) as (rest & s' & E & Hs & _ & _ & Hh); [done|lia|done|simpl; lia|by repeat constructor|].
  exists rest. cbn in Hs. subst s'. split; [exact E|by apply Hh].
Defined.
