(* ===== verification/Clock.v ===== *)
(** Clocks: the system calls of os/time.c and the functions of
    libc-mosnix/time.c over them.

    The kernel counts 1/256 seconds since its start and keeps an offset for real
    time.  A pointer argument is present or NULL; the two clocks that a call
    reads belong to one instant, since only the monotonic one advances. *)
From S2P Require Import Prelude CDefs Sched Kern Boot.

Section Clock.
Context {SD : sdcard}.
Implicit Types (k : kern) (clockid t : Z).

(** ** System calls: the result, and what is stored behind the pointer *)

Definition sys_getmonotime : M kern (Z * Z) := t ← gets k_mono; mret (0, t).
Definition sys_getrealtime : M kern (Z * Z) := t ← gets k_real; mret (0, t).
Definition sys_setrealtime t : M kern Z :=
  _ ← modify (set_real t); mret 0.

(** ** The C library *)

Definition CLOCK_REALTIME : Z := 0.
Definition CLOCK_MONOTONIC : Z := 1.

Record timespec := Timespec { tv_sec : Z; tv_nsec : Z }.

Definition time : M kern Z :=
  '(_, t1) ← sys_getmonotime;
  '(_, t2) ← sys_getrealtime;
  mret (s32 (Z.shiftr (s64 (t1 + t2)) 8)).

(** The time of a count of ticks, as clock_gettime() stores it. *)
Definition timespec_of t : timespec :=
  Timespec (s32 (Z.shiftr t 8)) (s32 (Z.shiftr (s64 (Z.land t 0xFF * 1000000000)) 8)).

(** The error number, or what is stored in [*ts]. *)
Definition clock_gettime clockid (has_ts : bool) : M kern (Z + timespec) :=
  if negb has_ts then mret (inl EFAULT)
  else if clockid =? CLOCK_MONOTONIC then
    '(_, t1) ← sys_getmonotime; mret (inr (timespec_of t1))
  else if clockid =? CLOCK_REALTIME then
    '(_, t1) ← sys_getmonotime;
    '(_, t2) ← sys_getrealtime;
    let t1 := s64 (t1 + t2) in
    mret (inr (timespec_of (if t1 <? 0 then 0 else t1)))
  else mret (inl EINVAL).

(** The error number, or the result of the system call. *)
Definition clock_settime clockid (ts : option timespec) : M kern (Z + Z) :=
  match ts with
  | None => mret (inl EFAULT)
  | Some ts =>
      if (clockid =? CLOCK_REALTIME) && (0 <=? tv_sec ts) && (0 <=? tv_nsec ts) then
        let t2 := s64 (Z.shiftl (tv_sec ts) 8) in
        let t2 := s64 (t2 + Z.quot (s64 (Z.shiftl (tv_nsec ts) 8)) 1000000000) in
        '(_, t1) ← sys_getmonotime;
        result ← sys_setrealtime (s64 (t2 - t1));
        mret (inr result)
      else mret (inl EINVAL)
  end.

(** ** Theorems *)

(** Nanoseconds since the epoch, and the length of a tick. *)
Definition nanos (ts : timespec) : Z := tv_sec ts * 1000000000 + tv_nsec ts.
Definition TICK : Z := 3906250.

Lemma s64_small x : -9223372036854775808 ≤ x < 9223372036854775808 → s64 x = x.
Proof. intros. unfold s64. rewrite Z.mod_small; lia. Qed.

(** A count of ticks loses nothing on its way into a timespec. *)
Lemma timespec_of_nanos t :
  0 ≤ t < 549755813888 → nanos (timespec_of t) = t * TICK ∧ 0 ≤ tv_nsec (timespec_of t) < 1000000000.
Proof.
  intros Ht. unfold timespec_of, nanos, TICK. cbn [tv_sec tv_nsec].
  change 0xFF with (Z.ones 8). rewrite Z.land_ones, !Z.shiftr_div_pow2 by lia. change (2 ^ 8) with 256.
  pose proof (Z.mod_pos_bound t 256 ltac:(lia)). rewrite (s64_small (t mod 256 * _)) by lia.
  replace (t mod 256 * 1000000000) with (t mod 256 * 3906250 * 256) by lia. rewrite Z.div_mul by lia.
  assert (0 ≤ t / 256 < 2147483648) by (split; [apply Z.div_pos; lia|apply Z.div_lt_upper_bound; lia]).
  rewrite !s32_small by lia. pose proof (Z.div_mod t 256 ltac:(lia)). lia.
Qed.

(** The ticks of a time since the epoch. *)
Definition ticks_of (ts : timespec) : Z := tv_sec ts * 256 + tv_nsec ts * 256 / 1000000000.

Lemma clock_settime_stores k ts :
  0 ≤ tv_sec ts < 2147483648 → 0 ≤ tv_nsec ts < 2147483648 → 0 ≤ k_mono k < 2 ^ 62 →
  ∃ k', clock_settime CLOCK_REALTIME (Some ts) k = Ok (inr 0, k') ∧
    k_mono k' = k_mono k ∧ k_real k' = ticks_of ts - k_mono k.
Proof.
  intros Hs Hn Hm. change (2 ^ 62) with 4611686018427387904 in Hm. unfold clock_settime. simpl Z.eqb.
  rewrite !(proj2 (Z.leb_le _ _)) by lia. cbn [andb].
  eexists. split; [reflexivity|]. cbn [k_mono k_real]. split; [done|].
  rewrite !Z.shiftl_mul_pow2 by lia. change (2 ^ 8) with 256. unfold ticks_of.
  rewrite Z.quot_div_nonneg by (try lia; rewrite s64_small; lia).
  rewrite !(s64_small (_ * 256)) by lia.
  assert (0 ≤ tv_nsec ts * 256 / 1000000000 < 550)
    by (split; [apply Z.div_pos; lia|apply Z.div_lt_upper_bound; lia]).
  rewrite (s64_small (_ + _)), s64_small by lia. done.
Qed.

Lemma clock_gettime_real k :
  clock_gettime CLOCK_REALTIME true k =
  Ok (inr (timespec_of (if s64 (k_mono k + k_real k) <? 0 then 0 else s64 (k_mono k + k_real k))), k).
Proof. done. Qed.

Lemma inode_get_mtime_real k :
  inode_get_mtime k = Ok (s32 (Z.shiftr (s64 (k_mono k + k_real k)) 8), k).
Proof. done. Qed.

Lemma time_is_mtime k : time k = inode_get_mtime k.
Proof. done. Qed.

(** C38: Setting and reading the clock round-trips: [d] ticks after
    clock_settime(), clock_gettime() returns the time that was set plus the
    [d] ticks, rounded down by less than one tick, with a proper fraction; and
    time() and the modification times of inodes show its seconds. *)
Theorem clock_roundtrip k k1 k2 ts d :
  0 ≤ tv_sec ts → 0 ≤ tv_nsec ts < 1000000000 → 0 ≤ d →
  (tv_sec ts + 1) * 256 + d < 549755813888 → 0 ≤ k_mono k < 2 ^ 62 →
  clock_settime CLOCK_REALTIME (Some ts) k = Ok (inr 0, k1) →
  k_mono k2 = k_mono k1 + d → k_real k2 = k_real k1 →
  ∃ ts', clock_gettime CLOCK_REALTIME true k2 = Ok (inr ts', k2) ∧
    nanos ts' ≤ nanos ts + d * TICK < nanos ts' + TICK ∧ 0 ≤ tv_nsec ts' < 1000000000 ∧
    time k2 = Ok (tv_sec ts', k2) ∧ inode_get_mtime k2 = Ok (tv_sec ts', k2).
Proof.
  intros Hs Hn Hd Hmax Hm Eset Hmono Hreal.
  destruct (clock_settime_stores k ts ltac:(lia) ltac:(lia) Hm) as (k1' & E & Hm1 & Hr1).
  rewrite E in Eset. injection Eset as <-.
  change (2 ^ 62) with 4611686018427387904 in Hm.
  assert (Hq : 0 ≤ tv_nsec ts * 256 / 1000000000 < 256)
    by (split; [apply Z.div_pos; lia|apply Z.div_lt_upper_bound; lia]).
  set (t := ticks_of ts + d).
  assert (Ht : s64 (k_mono k2 + k_real k2) = t).
  { rewrite Hmono, Hreal, Hm1, Hr1. unfold t, ticks_of. rewrite s64_small by lia. lia. }
  assert (Hrange : 0 ≤ t < 549755813888) by (unfold t, ticks_of; lia).
  destruct (timespec_of_nanos t Hrange) as [Hnanos Hfrac].
  exists (timespec_of t). split; [|split; [|split; [done|]]].
  - rewrite clock_gettime_real, Ht. by rewrite (proj2 (Z.ltb_ge t 0)) by lia.
  - rewrite Hnanos. unfold t, ticks_of, nanos, TICK.
    pose proof (Z.div_mod (tv_nsec ts * 256) 1000000000 ltac:(lia)).
    pose proof (Z.mod_pos_bound (tv_nsec ts * 256) 1000000000 ltac:(lia)). lia.
  - by rewrite time_is_mtime, inode_get_mtime_real, Ht.
Qed.
End Clock.

(** A kernel of which only the clocks matter. *)
Definition clock_at (mono real : Z) : @kern no_card :=
  Kern no_card ∅ 0 [] 0 [] sim_proc mono real [] [] ().

Lemma clock_roundtrip_witness :
  ∃ k1, clock_settime CLOCK_REALTIME (Some (Timespec 1700000000 999999999)) (clock_at 1000 0) = Ok (inr 0, k1) ∧
  ∃ ts', clock_gettime CLOCK_REALTIME true (clock_at 1300 (k_real k1)) = Ok (inr ts', clock_at 1300 (k_real k1)) ∧
    nanos ts' ≤ 1700000000999999999 + 300 * TICK < nanos ts' + TICK ∧ 0 ≤ tv_nsec ts' < 1000000000 ∧
    time (clock_at 1300 (k_real k1)) = Ok (tv_sec ts', clock_at 1300 (k_real k1)) ∧
    inode_get_mtime (clock_at 1300 (k_real k1)) = Ok (tv_sec ts', clock_at 1300 (k_real k1)).
Proof.
  exists (clock_at 1000 435199999255). split; [reflexivity|].
  apply (clock_roundtrip (clock_at 1000 0) (clock_at 1000 435199999255)
    (clock_at 1300 435199999255) (Timespec 1700000000 999999999) 300); try reflexivity; cbn; lia.
Defined.
