(* ===== verification/Getopt.v ===== *)
(** Option parsing: getopt() of libc-mosnix/getopt.c, and the loops of
    shell/ls.c and shell/uname.c that collect their options with it.

    An argument is the memory of its string; a [char *] into an argument is the
    index of the argument and an offset. *)
From S2P Require Import Prelude CDefs.

Definition CH_MINUS : Z := 45.
Definition CH_COLON : Z := 58.
Definition CH_QUESTION : Z := 63.

(** optind, nextind, nextchar, optarg, and what went to descriptor 2. *)
Record getopt_state := Getopt {
  g_optind : Z;
  g_nextind : Z;
  g_nextchar : option (Z * Z);
  g_optarg : option (Z * Z);
  g_err : list Z;
}.

Definition set_optind v g := Getopt v (g_nextind g) (g_nextchar g) (g_optarg g) (g_err g).
Definition set_nextind v g := Getopt (g_optind g) v (g_nextchar g) (g_optarg g) (g_err g).
Definition set_nextchar v g := Getopt (g_optind g) (g_nextind g) v (g_optarg g) (g_err g).
Definition set_optarg v g := Getopt (g_optind g) (g_nextind g) (g_nextchar g) v (g_err g).
Definition write_err s : M getopt_state () :=
  modify (λ g, Getopt (g_optind g) (g_nextind g) (g_nextchar g) (g_optarg g) (g_err g ++ s)).

(** strchr(): the first place of a character, which may be the NUL. *)
Fixpoint strchr (mem : list Z) (ch i : Z) : res (option Z) :=
  match mem with
  | [] => Err FBounds
  | c :: mem => if c =? ch then Ok (Some i) else if c =? NUL then Ok None else strchr mem ch (i + 1)
  end.

(** The characters of a string, for write (2, s, strlen (s)). *)
Fixpoint str_chars (mem : list Z) : res (list Z) :=
  match mem with
  | [] => Err FBounds
  | c :: mem => if c =? NUL then Ok [] else s ← str_chars mem; Ok (c :: s)
  end.

Definition unknown_option (name : option (list Z)) (chname : Z) : M getopt_state () :=
  _ ← write_err (chars "unknown option `");
  _ ← (if negb (chname =? NUL) then write_err [CH_MINUS; chname]
       else match name with
            | None => fail FNull
            | Some mem => s ← lift (str_chars mem); write_err s
            end);
  write_err (chars "'" ++ [10]).

(** Twenty-two characters are written, of twenty-three. *)
Definition missing_argument (chname : Z) : M getopt_state () :=
  _ ← write_err (take 22 (chars "missing argument for `-"));
  _ ← write_err [chname];
  write_err (chars "'" ++ [10]).

Section Getopt.
Context (argc : Z) (argv : list (option (list Z))) (options : list Z).

Definition next_is_optind : M getopt_state () := modify (λ g, set_optind (g_nextind g) g).
Definition incr_nextind : M getopt_state () := modify (λ g, set_nextind (g_nextind g + 1) g).

(** The part of getopt() that takes the next option character, at offset [i]
    of argument [a]. *)
Definition getopt_char (a i : Z) : M getopt_state Z :=
  arg ← lift (rd argv a);
  mem ← lift (of_option FNull arg);
  ch ← lift (rd mem i);
  _ ← modify (set_nextchar (Some (a, i + 1)));
  opt ← lift (strchr options ch 0);
  match opt with
  | None => _ ← unknown_option None ch; _ ← next_is_optind; mret CH_QUESTION
  | Some o =>
      colon ← lift (rd options (o + 1));
      if colon =? CH_COLON then
        _ ← next_is_optind;
        _ ← incr_nextind;
        next ← lift (rd mem (i + 1));
        if negb (next =? NUL) then
          _ ← modify (set_optarg (Some (a, i + 1)));
          _ ← modify (set_nextchar None);
          mret ch
        else
          nextind ← gets g_nextind;
          if nextind <? argc then
            _ ← modify (set_optarg (Some (nextind, 0)));
            _ ← incr_nextind;
            _ ← next_is_optind;
            mret ch
          else
            _ ← missing_argument ch;
            _ ← next_is_optind;
            _ ← incr_nextind;
            mret CH_QUESTION
      else
        _ ← next_is_optind;
        next ← lift (rd mem (i + 1));
        if next =? NUL then
          _ ← modify (set_nextchar None);
          _ ← incr_nextind;
          mret ch
        else mret ch
  end.

Definition getopt_end : M getopt_state Z := _ ← next_is_optind; _ ← incr_nextind; mret (-1).

(** The next argument: the end of the options, or the first of them in it. *)
Definition getopt_word (nextind : Z) (mem : list Z) : M getopt_state Z :=
  c0 ← lift (rd mem 0);
  if c0 =? CH_MINUS then
    c1 ← lift (rd mem 1);
    if c1 =? CH_MINUS then
      c2 ← lift (rd mem 2);
      if negb (c2 =? NUL) then
        _ ← unknown_option (Some mem) NUL; _ ← next_is_optind; mret CH_QUESTION
      else _ ← incr_nextind; _ ← next_is_optind; mret (-1)
    else if negb (c1 =? NUL) then
      _ ← modify (set_nextchar (Some (nextind, 1)));
      _ ← next_is_optind;
      getopt_char nextind 1
    else _ ← next_is_optind; mret (-1)
  else _ ← next_is_optind; mret (-1).

Definition getopt : M getopt_state Z :=
  optind ← gets g_optind;
  _ ← (if optind =? 0 then modify (λ g, set_nextchar None (set_nextind 1 (set_optind 1 g))) else mret ());
  _ ← modify (set_optarg None);
  nextchar ← gets g_nextchar;
  match nextchar with
  | Some (a, i) => getopt_char a i
  | None =>
      nextind ← gets g_nextind;
      if argc <=? nextind then getopt_end
      else
        arg ← lift (rd argv nextind);
        match arg with
        | None => getopt_end
        | Some mem => getopt_word nextind mem
        end
  end.

(** The loop of a command: [flag] is its switch, and [None] its default case,
    in which the command returns 1. *)
Fixpoint option_loop (flag : Z → option Z) (fuel : nat) (opts : Z) : M getopt_state (option Z) :=
  match fuel with
  | O => fail FFuel
  | S fuel =>
      opt ← getopt;
      if 0 <=? opt then
        match flag opt with
        | Some bits => option_loop flag fuel (Z.lor opts bits)
        | None => mret None
        end
      else mret (Some opts)
  end.
End Getopt.

Definition LS_BRIEF : Z := 0x01.
Definition LS_LONG : Z := 0x02.
Definition LS_HIDDEN : Z := 0x04.
Definition LS_CLASSIFY : Z := 0x08.

Definition UNAME_SYSNAME : Z := 0x01.
Definition UNAME_NODENAME : Z := 0x02.
Definition UNAME_RELEASE : Z := 0x04.
Definition UNAME_VERSION : Z := 0x08.
Definition UNAME_MACHINE : Z := 0x10.
Definition UNAME_ALL : Z := 0xFF.

(** A switch on option letters. *)
Definition switch (cases : list (Z * Z)) (opt : Z) : option Z :=
  snd <$> head (filter (λ c, c.1 = opt) cases).

(** 'l', 'a' and 'F'; the order of the cases is that of the option string. *)
Definition ls_cases : list (Z * Z) := [(108, LS_LONG); (97, LS_HIDDEN); (70, LS_CLASSIFY)].
Definition uname_cases : list (Z * Z) :=
  [(97, UNAME_ALL); (115, UNAME_SYSNAME); (110, UNAME_NODENAME); (114, UNAME_RELEASE);
   (118, UNAME_VERSION); (109, UNAME_MACHINE)].

(** The options of ls, with the default. *)
Definition ls_options (fuel : nat) (argc : Z) (argv : list (option (list Z))) : M getopt_state (option Z) :=
  opts ← option_loop argc argv (chars "laF" ++ [NUL]) (switch ls_cases) fuel 0;
  mret ((λ o, if Z.land o (Z.lor LS_BRIEF LS_LONG) =? 0 then Z.lor o LS_BRIEF else o) <$> opts).

Definition uname_options (fuel : nat) (argc : Z) (argv : list (option (list Z))) : M getopt_state (option Z) :=
  opts ← option_loop argc argv (chars "asnrvm" ++ [NUL]) (switch uname_cases) fuel 0;
  mret ((λ o, if o =? 0 then UNAME_SYSNAME else o) <$> opts).

(** ** What the options of a command line are *)

Fixpoint letters_spec (flag : Z → option Z) (opts : Z) (letters : list Z) : option Z :=
  match letters with
  | [] => Some opts
  | c :: letters => bits ← flag c; letters_spec flag (Z.lor opts bits) letters
  end.

(** The options and the index of the first operand; [None] is an error. *)
Fixpoint options_spec (flag : Z → option Z) (opts idx : Z) (args : list (list Z)) : option (Z * Z) :=
  match args with
  | [] => Some (opts, idx)
  | w :: args =>
      match w with
      | c0 :: (c1 :: r) as letters =>
          if negb (c0 =? CH_MINUS) then Some (opts, idx)
          else if c1 =? CH_MINUS then if decide (r = []) then Some (opts, idx + 1) else None
          else opts ← letters_spec flag opts letters; options_spec flag opts (idx + 1) args
      | _ => Some (opts, idx)
      end
  end.

(** ** Theorems *)

Section Loop.
Context (argc : Z) (argv : list (option (list Z))) (options : list Z) (flag : Z → option Z).

(** The option string has the letters of the switch, none with an argument. *)
Definition flags_ok : Prop :=
  flag CH_QUESTION = None ∧
  ∀ c, 0 < c → match flag c with
  | Some _ => ∃ o x, strchr options c 0 = Ok (Some o) ∧ rd options (o + 1) = Ok x ∧ x ≠ CH_COLON
  | None => strchr options c 0 = Ok None
  end.

Context (Hflags : flags_ok).

Definition arg_mem (w : list Z) : option (list Z) := Some (w ++ [NUL]).

Lemma rd_arg p c (r : list Z) : rd ((p ++ c :: r) ++ [NUL]) (zlen p) = Ok c.
Proof. rewrite <- app_assoc. apply rd_app_at. Qed.

Lemma rd_arg_next p c (r : list Z) : rd ((p ++ c :: r) ++ [NUL]) (zlen p + 1) = Ok (default NUL (head r)).
Proof.
  replace (zlen p + 1) with (zlen (p ++ [c])) by (by rewrite zlen_app).
  rewrite (cons_middle c p r), (app_assoc p), <- app_assoc. by destruct r; apply rd_app_at.
Qed.

Lemma getopt_char_flag g a p c r bits :
  rd argv a = Ok (arg_mem (p ++ c :: r)) → Forall (λ x, 0 < x) (c :: r) → flag c = Some bits →
  getopt_char argc argv options a (zlen p) (set_nextind a g) =
  Ok (c, match r with
         | [] => Getopt a (a + 1) None (g_optarg g) (g_err g)
         | _ => Getopt a a (Some (a, zlen p + 1)) (g_optarg g) (g_err g)
         end).
Proof.
  intros Ha [Hc Hr]%Forall_cons Hf. destruct Hflags as [_ H]. specialize (H c Hc). rewrite Hf in H.
  destruct H as (o & x & Eo & Ex & Hx). unfold getopt_char.
  mstep by (by rewrite Ha). mstep by reflexivity. mstep by (by rewrite rd_arg). mstep by reflexivity.
  mstep by (by rewrite Eo). mstep by (by rewrite Ex). rewrite (proj2 (Z.eqb_neq x CH_COLON)) by done.
  mstep by reflexivity. mstep by (by rewrite rd_arg_next).
  destruct r as [|d r]; [done|]. apply Forall_cons in Hr as [Hd _].
  change (default NUL (head (d :: r))) with d. by rewrite (proj2 (Z.eqb_neq d NUL)) by (unfold NUL; lia).
Qed.

Lemma getopt_char_unknown g a p c r :
  rd argv a = Ok (arg_mem (p ++ c :: r)) → 0 < c → flag c = None →
  ∃ g', getopt_char argc argv options a (zlen p) g = Ok (CH_QUESTION, g').
Proof.
  intros Ha Hc Hf. destruct Hflags as [_ H]. specialize (H c Hc). rewrite Hf in H.
  unfold getopt_char.
  mstep by (by rewrite Ha). mstep by reflexivity. mstep by (by rewrite rd_arg). mstep by reflexivity.
  mstep by (by rewrite H). unfold unknown_option. rewrite (proj2 (Z.eqb_neq c NUL)) by (unfold NUL; lia).
  eexists. reflexivity.
Qed.

(** From within an argument, the loop takes its letters and goes on at the
    next argument. *)
Definition in_word (a i opt : Z) (err : list Z) : getopt_state := Getopt opt a (Some (a, i)) None err.
Definition at_word (opt a : Z) (err : list Z) : getopt_state := Getopt opt a None None err.

Lemma getopt_in_word a i opt err :
  opt ≠ 0 → getopt argc argv options (in_word a i opt err) =
  getopt_char argc argv options a i (in_word a i opt err).
Proof. intros H. unfold getopt. mstep by reflexivity. simpl. by rewrite (proj2 (Z.eqb_neq opt 0)). Qed.

Lemma getopt_at_word opt a err :
  opt ≠ 0 → getopt argc argv options (at_word opt a err) =
  (if argc <=? a then getopt_end
   else arg ← lift (rd argv a);
        match arg with None => getopt_end | Some mem => getopt_word argc argv options a mem end)
    (at_word opt a err).
Proof. intros H. unfold getopt. mstep by reflexivity. simpl g_optind. by rewrite (proj2 (Z.eqb_neq opt 0)). Qed.

Lemma loop_flag fuel opts g c g' bits :
  getopt argc argv options g = Ok (c, g') → 0 < c → flag c = Some bits →
  option_loop argc argv options flag (S fuel) opts g =
  option_loop argc argv options flag fuel (Z.lor opts bits) g'.
Proof.
  intros E Hc Hf. cbn [option_loop]. mstep by exact E. by rewrite (proj2 (Z.leb_le 0 c)), Hf by lia.
Qed.

Lemma loop_unknown fuel opts g g' :
  getopt argc argv options g = Ok (CH_QUESTION, g') →
  option_loop argc argv options flag (S fuel) opts g = Ok (None, g').
Proof. intros E. cbn [option_loop]. mstep by exact E. simpl. by rewrite (proj1 Hflags). Qed.

Lemma loop_end fuel opts g g' :
  getopt argc argv options g = Ok (-1, g') →
  option_loop argc argv options flag (S fuel) opts g = Ok (Some opts, g').
Proof. intros E. cbn [option_loop]. by mstep by exact E. Qed.

(** The rest of a word, once getopt() has [Some] place in it. *)
Lemma letters_loop a p c r opts g err fuel opt :
  getopt argc argv options g = getopt_char argc argv options a (zlen p) (in_word a (zlen p) opt err) →
  0 < a → rd argv a = Ok (arg_mem (p ++ c :: r)) → Forall (λ x, 0 < x) (c :: r) →
  match letters_spec flag opts (c :: r) with
  | Some opts' => option_loop argc argv options flag (length (c :: r) + fuel) opts g =
                  option_loop argc argv options flag fuel opts' (at_word a (a + 1) err)
  | None => ∃ g', option_loop argc argv options flag (length (c :: r) + fuel) opts g = Ok (None, g')
  end.
Proof.
  revert p c opts g opt. induction r as [|d r IH]; intros p c opts g opt Hg Ha Hrd Hpos.
  all: pose proof (Forall_inv Hpos) as Hc; cbn [letters_spec length Nat.add].
  all: destruct (flag c) as [bits|] eqn:Ef; cbn [mbind option_bind].
  all: try (destruct (getopt_char_unknown (in_word a (zlen p) opt err) a p c _ Hrd Hc Ef) as [g' E];
    exists g'; apply loop_unknown; by rewrite Hg).
  all: pose proof (getopt_char_flag (in_word a (zlen p) opt err) a p c _ bits Hrd Hpos Ef) as E.
  - by erewrite (loop_flag _ _ _ c _ bits); [|rewrite Hg; exact E|..].
  - erewrite (loop_flag _ _ _ c _ bits); [|rewrite Hg; exact E|done|done].
    assert (Hp : zlen p + 1 = zlen (p ++ [c])) by (by rewrite zlen_app).
    refine (IH (p ++ [c]) d _ _ a _ Ha _ (Forall_inv_tail Hpos)).
    + cbn [g_optarg g_err in_word]. rewrite Hp. apply getopt_in_word. lia.
    + by rewrite Hrd, <- app_assoc.
Qed.

Lemma str_chars_string w : Forall (λ x, 0 < x) w → str_chars (w ++ [NUL]) = Ok w.
Proof.
  induction 1 as [|c w Hc _ IH]; [done|]. cbn [app str_chars].
  rewrite (proj2 (Z.eqb_neq c NUL)) by (unfold NUL; lia). by rewrite IH.
Qed.

(** A word that has no option letters. *)
Lemma getopt_plain a w opt err :
  Forall (λ x, 0 < x) w →
  match w with
  | c0 :: c1 :: r =>
      if negb (c0 =? CH_MINUS) then
        getopt_word argc argv options a (w ++ [NUL]) (at_word opt a err) = Ok (-1, at_word a a err)
      else if c1 =? CH_MINUS then
        if decide (r = []) then
          getopt_word argc argv options a (w ++ [NUL]) (at_word opt a err) = Ok (-1, at_word (a + 1) (a + 1) err)
        else ∃ g', getopt_word argc argv options a (w ++ [NUL]) (at_word opt a err) = Ok (CH_QUESTION, g')
      else getopt_word argc argv options a (w ++ [NUL]) (at_word opt a err) =
           getopt_char argc argv options a 1 (in_word a 1 a err)
  | _ => getopt_word argc argv options a (w ++ [NUL]) (at_word opt a err) = Ok (-1, at_word a a err)
  end.
Proof.
  intros Hpos. pose proof (str_chars_string w Hpos) as Hstr. unfold getopt_word.
  destruct w as [|c0 [|c1 r]]; [done|by destruct (c0 =? CH_MINUS) eqn:E; mstep by reflexivity; rewrite E|].
  mstep by reflexivity. destruct (c0 =? CH_MINUS); [|done]. simpl negb. cbv iota.
  mstep by reflexivity. destruct (c1 =? CH_MINUS).
  - destruct r as [|c2 r]; [done|]. rewrite decide_False by done. mstep by reflexivity.
    pose proof (Forall_inv (Forall_inv_tail (Forall_inv_tail Hpos))) as H2. cbv beta in H2.
    rewrite (proj2 (Z.eqb_neq c2 NUL)) by (unfold NUL; lia). unfold unknown_option. simpl negb. cbv iota.
    rewrite Hstr. eexists. reflexivity.
  - pose proof (Forall_inv (Forall_inv_tail Hpos)) as H1. cbv beta in H1.
    by rewrite (proj2 (Z.eqb_neq c1 NUL)) by (unfold NUL; lia).
Qed.

(** One round per letter and one more ends the loop. *)
Lemma option_loop_spec pre args opts opt err fuel :
  argv = pre ++ (arg_mem <$> args) ++ [None] → argc = zlen pre + zlen args → pre ≠ [] → opt ≠ 0 →
  Forall (Forall (λ x, 0 < x)) args → (length (concat args) < fuel)%nat →
  match options_spec flag opts (zlen pre) args with
  | Some (opts', n) => ∃ g', option_loop argc argv options flag fuel opts (at_word opt (zlen pre) err) =
      Ok (Some opts', g') ∧ g_optind g' = n ∧ g_err g' = err
  | None => ∃ g', option_loop argc argv options flag fuel opts (at_word opt (zlen pre) err) = Ok (None, g')
  end.
Proof.
  revert pre opts opt fuel. induction args as [|w args IH]; intros pre opts opt fuel Hv Hc Hp Ho Hpos Hf.
  all: destruct fuel as [|fuel]; [lia|]; cbn [options_spec].
  { eexists. split; [apply loop_end|].
    - rewrite getopt_at_word, (proj2 (Z.leb_le argc _)) by (done || (rewrite Hc; change (zlen []) with 0; lia)).
      reflexivity.
    - done. }
  apply Forall_cons in Hpos as [Hw Hpos].
  assert (Hrd : rd argv (zlen pre) = Ok (arg_mem w)) by (rewrite Hv; apply rd_app_at).
  assert (Hlt : argc <=? zlen pre = false) by (rewrite Hc, zlen_cons; pose proof (zlen_nonneg args); lia).
  assert (Hget : getopt argc argv options (at_word opt (zlen pre) err)
    = getopt_word argc argv options (zlen pre) (w ++ [NUL]) (at_word opt (zlen pre) err)).
  { rewrite getopt_at_word, Hlt by done. by mstep by (by rewrite Hrd). }
  pose proof (getopt_plain (zlen pre) w opt err Hw) as Hplain. rewrite <- Hget in Hplain.
  destruct w as [|c0 [|c1 r]]; [by eexists; split; [apply loop_end, Hplain|]..|].
  destruct (negb (c0 =? CH_MINUS)); [by eexists; split; [apply loop_end, Hplain|]|].
  destruct (c1 =? CH_MINUS).
  { destruct (decide (r = [])); [by eexists; split; [apply loop_end, Hplain|]|].
    destruct Hplain as [g' E]. eexists. by apply loop_unknown. }
  assert (Hlen : (length (c1 :: r) + length (concat args) < S fuel)%nat) by (simpl in *; rewrite length_app in Hf; lia).
  pose proof (letters_loop (zlen pre) [c0] c1 r opts _ err (S fuel - length (c1 :: r)) (zlen pre) Hplain) as Hl.
  replace (length (c1 :: r) + (S fuel - length (c1 :: r)))%nat with (S fuel) in Hl by lia.
  assert (Hpre : 0 < zlen pre) by (destruct pre; [done|rewrite zlen_cons; pose proof (zlen_nonneg pre); lia]).
  specialize (Hl Hpre Hrd (Forall_inv_tail Hw)).
  destruct (letters_spec flag opts (c1 :: r)) as [opts'|]; [|exact Hl]. rewrite Hl. cbn [mbind option_bind].
  assert (Hn : zlen pre + 1 = zlen (pre ++ [arg_mem (c0 :: c1 :: r)])) by (by rewrite zlen_app). rewrite Hn.
  apply IH; try done; [| |by destruct pre|lia..].
  - rewrite Hv, <- app_assoc. done.
  - rewrite <- Hn, Hc, zlen_cons. lia.
Qed.
End Loop.

(** A switch whose letters are those of the option string. *)
Lemma switch_cons c b cases x : switch ((c, b) :: cases) x = if decide (c = x) then Some b else switch cases x.
Proof. unfold switch. rewrite filter_cons. simpl. by case_decide. Qed.

Lemma strchr_cases cases c i :
  0 < c → Forall (λ p, 0 < p.1) cases →
  match switch cases c with
  | Some _ => ∃ l b r, cases = l ++ (c, b) :: r ∧ strchr ((fst <$> cases) ++ [NUL]) c i = Ok (Some (i + zlen l))
  | None => strchr ((fst <$> cases) ++ [NUL]) c i = Ok None
  end.
Proof.
  intros Hc. revert i. induction cases as [|[c' b] cases IH]; intros i Hpos; cbn [fmap list_fmap app strchr].
  - by rewrite (proj2 (Z.eqb_neq NUL c)) by (unfold NUL; lia).
  - apply Forall_cons in Hpos as [Hc' Hpos]. cbn [fst] in *. rewrite switch_cons.
    destruct (decide (c' = c)) as [->|Hne].
    + exists [], b, cases. by rewrite Z.eqb_refl, Z.add_0_r.
    + rewrite (proj2 (Z.eqb_neq c' c)), (proj2 (Z.eqb_neq c' NUL)) by (unfold NUL; lia).
      specialize (IH (i + 1) Hpos). destruct (switch cases c); [|done].
      destruct IH as (l & b' & r & -> & ->). exists ((c', b) :: l), b', r. split; [done|].
      rewrite zlen_cons. do 2 f_equal. lia.
Qed.

Lemma cases_flags_ok cases :
  Forall (λ p, 0 < p.1 ∧ p.1 ≠ CH_COLON ∧ p.1 ≠ CH_QUESTION) cases →
  flags_ok ((fst <$> cases) ++ [NUL]) (switch cases).
Proof.
  intros H. split.
  - induction H as [|[c b] cases (_ & _ & Hq) _ IH]; [done|]. rewrite switch_cons. by rewrite decide_False.
  - intros c Hc. assert (Hpos : Forall (λ p, 0 < p.1) cases) by (eapply Forall_impl; [exact H|naive_solver]).
    pose proof (strchr_cases cases c 0 Hc Hpos) as Hs. destruct (switch cases c); [|done].
    destruct Hs as (l & b & r & -> & E). rewrite E. exists (0 + zlen l), (default NUL (head (fst <$> r))).
    split; [done|]. split.
    + rewrite fmap_app, fmap_cons, Z.add_0_l. replace (zlen l) with (zlen (fst <$> l)) by (unfold zlen; by rewrite length_fmap).
      apply rd_arg_next.
    + apply Forall_app in H as [_ H]. apply Forall_inv_tail in H. destruct H as [|p r [_ [Hp _]] _]; done.
Qed.

(** The first call resets the parser, whatever an earlier command left. *)
Lemma option_loop_reset argc argv options flag fuel opts nextind nextchar optarg err :
  option_loop argc argv options flag fuel opts (Getopt 0 nextind nextchar optarg err) =
  option_loop argc argv options flag fuel opts (at_word 1 1 err).
Proof. by destruct fuel. Qed.

(** The options of a command line with the words [args] after the name. *)
Lemma command_options cases fuel name args nextind nextchar optarg err :
  Forall (λ p, 0 < p.1 ∧ p.1 ≠ CH_COLON ∧ p.1 ≠ CH_QUESTION) cases →
  Forall (Forall (λ x, 0 < x)) args → (length (concat args) < fuel)%nat →
  match options_spec (switch cases) 0 1 args with
  | Some (opts, n) => ∃ g', option_loop (1 + zlen args) (arg_mem name :: (arg_mem <$> args) ++ [None])
      ((fst <$> cases) ++ [NUL]) (switch cases) fuel 0 (Getopt 0 nextind nextchar optarg err) =
      Ok (Some opts, g') ∧ g_optind g' = n ∧ g_err g' = err
  | None => ∃ g', option_loop (1 + zlen args) (arg_mem name :: (arg_mem <$> args) ++ [None])
      ((fst <$> cases) ++ [NUL]) (switch cases) fuel 0 (Getopt 0 nextind nextchar optarg err) = Ok (None, g')
  end.
Proof.
  intros Hc Ha Hf. rewrite option_loop_reset.
  by apply (option_loop_spec _ _ _ _ (cases_flags_ok _ Hc) [arg_mem name] args 0 1 err fuel).
Qed.

(** The first operand comes after the name, and not after the end. *)
Lemma options_spec_bound flag opts idx args opts' n :
  options_spec flag opts idx args = Some (opts', n) → idx ≤ n ≤ idx + zlen args.
Proof.
  revert opts idx. induction args as [|w args IH]; intros opts idx; cbn [options_spec].
  { intros [= <- <-]. change (zlen []) with 0. lia. }
  rewrite zlen_cons. pose proof (zlen_nonneg args).
  repeat case_match; try (by intros [= <- <-]; lia); try done.
  all: destruct (letters_spec flag opts _) as [o|]; [|done]; cbn [mbind option_bind]; intros E%IH; lia.
Qed.

(** C37: The options of ls and uname: starting from a reset getopt() in any
    state, the loop of the command ends after at most one round per letter
    and one more, with the union of the flags of all letters of the leading
    option words, and optind at the first operand ("--" is skipped, "-" is
    an operand); an unknown letter or long option makes the command fail.
    Nothing is read outside of the arguments and the option string. *)
Theorem command_options_refine (name : list Z) (args : list (list Z)) (fuel : nat) g :
  Forall (Forall (λ x, 0 < x)) args → (length (concat args) < fuel)%nat → g_optind g = 0 →
  let argc := 1 + zlen args in
  let argv := arg_mem name :: (arg_mem <$> args) ++ [None] in
  match options_spec (switch ls_cases) 0 1 args with
  | Some (opts, n) => ∃ g', ls_options fuel argc argv g =
      Ok (Some (if Z.land opts (Z.lor LS_BRIEF LS_LONG) =? 0 then Z.lor opts LS_BRIEF else opts), g') ∧
      g_optind g' = n ∧ g_err g' = g_err g
  | None => ∃ g', ls_options fuel argc argv g = Ok (None, g')
  end ∧
  match options_spec (switch uname_cases) 0 1 args with
  | Some (opts, n) => ∃ g', uname_options fuel argc argv g =
      Ok (Some (if opts =? 0 then UNAME_SYSNAME else opts), g') ∧ g_optind g' = n ∧ g_err g' = g_err g
  | None => ∃ g', uname_options fuel argc argv g = Ok (None, g')
  end.
Proof.
  intros Ha Hf Hg argc argv. destruct g as [o nextind nextchar optarg err]. simpl in Hg. subst o.
  pose proof (command_options ls_cases fuel name args nextind nextchar optarg err) as Hls.
  pose proof (command_options uname_cases fuel name args nextind nextchar optarg err) as Hun.
  unfold ls_options, uname_options.
  split; [specialize (Hls ltac:(by repeat constructor) Ha Hf); revert Hls; clear Hun
         |specialize (Hun ltac:(by repeat constructor) Ha Hf); revert Hun; clear Hls].
  all: destruct (options_spec _ 0 1 args) as [[opts n]|]; [intros (g' & E & Hn & He)|intros (g' & E)].
  all: exists g'; mstep by exact E; done.
Qed.

Lemma command_options_refine_witness :
  options_spec (switch ls_cases) 0 1 [chars "-la"; chars "-F"; chars "--"; chars "-x"] = Some (0x0E, 4) ∧
  options_spec (switch uname_cases) 0 1 [chars "-la"; chars "-F"; chars "--"; chars "-x"] = None ∧
  ∃ g', ls_options 10 5 (arg_mem (chars "ls") :: (arg_mem <$> [chars "-la"; chars "-F"; chars "--"; chars "-x"]) ++ [None])
    (Getopt 0 7 (Some (3, 1)) None []) = Ok (Some 0x0E, g') ∧ g_optind g' = 4 ∧ g_err g' = [].
Proof.
  split; [reflexivity|]. split; [reflexivity|].
  destruct (command_options_refine (chars "ls") [chars "-la"; chars "-F"; chars "--"; chars "-x"] 10
    (Getopt 0 7 (Some (3, 1)) None [])) as [H _]; [by repeat constructor|simpl; lia|done|exact H].
Defined.

(** After an option with a separate argument, nextchar is left at the NUL of
    the option word, and the next call looks for a NUL among the options and
    reads behind the option string. *)
Lemma getopt_after_argument :
  let argv := [arg_mem (chars "cmd"); arg_mem (chars "-o"); arg_mem (chars "x"); arg_mem (chars "-v"); None] in
  ∃ g, getopt 4 argv (chars "vo:" ++ [NUL]) (Getopt 0 1 None None []) = Ok (111, g) ∧
    g_optarg g = Some (2, 0) ∧ getopt 4 argv (chars "vo:" ++ [NUL]) g = Err FBounds.
Proof. eexists. by repeat split. Qed.
