(* ===== verification/Info.v ===== *)
(** Information calls and kernel messages: user ids (os/ident.c), the names of
    the system (os/uname.c), error messages (os/strerror.c), and the output
    routines of the kernel (os/printk.c).

    What the build defines is the class [build_config]: the version of the
    project, the name of the target and its processor.  The output of the
    kernel is the list of the characters given to kputchar(). *)
From S2P Require Import Prelude CDefs.

Class build_config := {
  MOSNIX_VERSION : list Z;
  CONFIG_TARGET_NAME : list Z;
  CPU_65C02 : bool;
}.

(** ** os/ident.c, with CONFIG_ACCESS_UID off *)

Definition sys_getid : Z := 0.
Definition sys_setid : Z := - ENOSYS.

(** ** os/uname.c *)

Definition UTSNAME_LENGTH : Z := 9.

(** struct utsname: five arrays of nine characters. *)
Record utsname := Utsname {
  u_sysname : list Z;
  u_nodename : list Z;
  u_release : list Z;
  u_version : list Z;
  u_machine : list Z;
}.

(** A character array that a string initialises. *)
Definition char_array (s : list Z) : list Z :=
  take (Z.to_nat UTSNAME_LENGTH) (s ++ replicate (Z.to_nat UTSNAME_LENGTH) NUL).

Section Uname.
Context {BC : build_config}.

Definition uname_data : utsname :=
  Utsname (char_array (chars "MOSnix")) (char_array (chars "mosnix"))
    (char_array MOSNIX_VERSION) (char_array CONFIG_TARGET_NAME)
    (char_array (if CPU_65C02 then chars "mos65c02" else chars "mos6502")).

(** The structure that the pointer in [*buf] gives. *)
Definition sys_getuname : Z * utsname := (0, uname_data).
End Uname.

(** ** os/strerror.c *)

Definition errlist : list (list Z) := [
  chars "No error"; chars "Not permitted"; chars "No such file or directory";
  chars "No such process"; chars "EINTR"; chars "I/O error"; chars "No such device";
  chars "Arg list too long"; chars "Exec format error"; chars "Bad file number";
  chars "No child processes"; chars "Try again"; chars "Out of memory";
  chars "Permission denied"; chars "Bad address"; chars "Block device required";
  chars "Busy"; chars "File exists"; chars "EXDEV"; chars "No such device";
  chars "Not a directory"; chars "Is a directory"; chars "Invalid argument";
  chars "File table overflow"; chars "Too many open files"; chars "ENOTTY";
  chars "ETXTBSY"; chars "File too large"; chars "No space left"; chars "ESPIPE";
  chars "Read-only"; chars "EMLINK"; chars "EPIPE"; chars "EDOM"; chars "ERANGE";
  chars "EDEADLK"; chars "Name too long"; chars "ENOLCK"; chars "Bad syscall";
  chars "Directory not empty"; chars "ELOOP"].

Definition errno_count : Z := zlen errlist.

(** The result, and the memory of the string that [*result] points to. *)
Definition sys_strerror (errnum : Z) : res (Z * list Z) :=
  if (0 <=? errnum) && (errnum <? errno_count) then s ← rd errlist errnum; Ok (0, s ++ [NUL])
  else Ok (0, chars "Error" ++ [NUL]).

(** ** os/printk.c *)

Definition CH_DQUOTE : Z := 34.
Definition CH_BACKSLASH : Z := 92.
Definition CH_x : Z := 120.
Definition hexchars : list Z := chars "0123456789abcdef".

Fixpoint kputstr_loop (s : list Z) : res (list Z) :=
  match s with
  | [] => Err FBounds
  | c :: s => if c =? NUL then Ok [] else out ← kputstr_loop s; Ok (c :: out)
  end.
Definition kputstr (s : option (list Z)) : res (list Z) :=
  match s with None => Ok [] | Some s => kputstr_loop s end.

Definition hexdigit (value shift : Z) : res Z := rd hexchars (Z.land (Z.shiftr value shift) 0x0F).

(** The loop, with what is left of the limit and of the string.  A character
    from 128 on is outside of the printable range whatever the sign of [char]. *)
Fixpoint kputquoted_loop (s : list Z) (limit : Z) : res (list Z * Z * list Z) :=
  if negb (0 <? limit) then Ok ([], limit, s)
  else
    match s with
    | [] => Err FBounds
    | c :: s' =>
        if c =? NUL then Ok ([], limit, s)
        else if (0x20 <=? c) && (c <=? 0x7F) then
          '(out, limit, rest) ← kputquoted_loop s' (limit - 1); Ok (c :: out, limit, rest)
        else if limit <? 4 then Ok ([], limit, s)
        else
          hi ← hexdigit c 4;
          lo ← hexdigit c 0;
          '(out, limit, rest) ← kputquoted_loop s' (limit - 4);
          Ok ([CH_BACKSLASH; CH_x; hi; lo] ++ out, limit, rest)
    end.

Definition kputquoted (s : option (list Z)) (limit : Z) : res (list Z) :=
  match s with
  | None => kputstr (Some (chars "<null>" ++ [NUL]))
  | Some s =>
      '(out, limit, rest) ← kputquoted_loop s limit;
      more ← (if 0 <? limit then c ← rd rest 0; Ok (negb (c =? NUL)) else Ok false);
      Ok ([CH_DQUOTE] ++ out ++ (if more : bool then [CH_DOT; CH_DOT] else []) ++ [CH_DQUOTE])
  end.

Definition kputhexbyte (value : Z) : res (list Z) :=
  hi ← hexdigit value 4; lo ← hexdigit value 0; Ok [hi; lo; CH_SPACE].

Fixpoint hexdigits (value : Z) (shifts : list Z) : res (list Z) :=
  match shifts with
  | [] => Ok []
  | i :: shifts => d ← hexdigit value i; out ← hexdigits value shifts; Ok (d :: out)
  end.
Definition kputhex (value : Z) : res (list Z) :=
  out ← hexdigits value [28; 24; 20; 16; 12; 8; 4; 0]; Ok ([48; CH_x] ++ out).

Definition kputptr (value : Z) : res (list Z) := kputhex (u16 value).

(** ** Properties *)

(** Every error number has a message, a string that print_error() can print. *)
Lemma sys_strerror_string errnum :
  ∃ s, sys_strerror errnum = Ok (0, s ++ [NUL]) ∧ Forall (λ c, 0 < c < 256) s ∧ zlen s < 64.
Proof.
  unfold sys_strerror. destruct ((0 <=? errnum) && (errnum <? errno_count)) eqn:E.
  - apply andb_true_iff in E as [E1%Z.leb_le E2%Z.ltb_lt].
    destruct (rd_ok errlist errnum ltac:(done)) as (s & Es & Hs). rewrite Es. exists s. split; [done|].
    assert (Forall (λ s, Forall (λ c, 0 < c < 256) s ∧ zlen s < 64) errlist) as Hall by compute_decide.
    exact (Forall_lookup_1 _ _ _ _ Hall Hs).
  - exists (chars "Error"). split; [done|]. compute_decide.
Qed.

Lemma char_array_string s :
  Forall (λ c, 0 < c) s → zlen s < UTSNAME_LENGTH →
  ∃ junk, char_array s = s ++ NUL :: junk ∧ zlen (char_array s) = UTSNAME_LENGTH.
Proof.
  intros _ Hl. unfold char_array, UTSNAME_LENGTH, zlen in *. change (Z.to_nat 9) with 9%nat.
  exists (replicate (8 - length s) NUL).
  assert (take 9 (s ++ replicate 9 NUL) = s ++ NUL :: replicate (8 - length s) NUL) as ->.
  { rewrite take_app, (take_ge s) by lia. f_equal.
    replace (9 - length s)%nat with (S (8 - length s)) by lia. change (replicate 9 NUL) with (NUL :: replicate 8 NUL).
    cbn [take]. f_equal. rewrite take_replicate. f_equal. lia. }
  split; [done|]. rewrite length_app. simpl. rewrite length_replicate. lia.
Qed.

Lemma hexdigit_ok value i :
  0 ≤ i → ∃ d, hexdigit value i = Ok d ∧ d ∈ hexchars.
Proof.
  intros Hi. unfold hexdigit. change 0x0F with (Z.ones 4). rewrite Z.land_ones by lia.
  pose proof (Z.mod_pos_bound (Z.shiftr value i) (2 ^ 4) ltac:(lia)).
  destruct (rd_ok hexchars (Z.shiftr value i mod 2 ^ 4)) as (d & E & Hd); [change (zlen hexchars) with 16; lia|].
  exists d. split; [done|]. by eapply list_elem_of_lookup_2.
Qed.

(** kputquoted() reads no further than the NUL, and shows at most [limit]
    characters and six more around them. *)
Lemma kputquoted_loop_bound s rest limit :
  NUL ∉ s →
  ∃ out limit' left, kputquoted_loop (s ++ NUL :: rest) limit = Ok (out, limit', left ++ NUL :: rest) ∧
    limit' + zlen out = limit ∧ (0 ≤ limit → 0 ≤ limit') ∧ Forall (λ c, 0x20 ≤ c ≤ 0x7F) out.
Proof.
  revert limit. induction s as [|c s IH]; intros limit Hs; cbn [app kputquoted_loop].
  - destruct (0 <? limit) eqn:E; simpl negb; cbv iota.
    + exists [], limit, []. repeat split; try done. change (zlen []) with 0. lia.
    + exists [], limit, []. repeat split; try done. change (zlen []) with 0. lia.
  - apply not_elem_of_cons in Hs as [Hc Hs]. destruct (Z.ltb_spec 0 limit) as [Hpos|Hneg]; simpl negb; cbv iota.
    2: { exists [], limit, (c :: s). repeat split; try done. change (zlen []) with 0. lia. }
    rewrite (proj2 (Z.eqb_neq c NUL)) by done. destruct ((0x20 <=? c) && (c <=? 0x7F)) eqn:E.
    + destruct (IH (limit - 1) Hs) as (out & l' & left & -> & Hl & Hp & Ho).
      exists (c :: out), l', left. split; [done|]. rewrite zlen_cons. split; [lia|]. split; [lia|].
      constructor; [lia|done].
    + destruct (Z.ltb_spec limit 4) as [Hlt|Hge].
      { exists [], limit, (c :: s). repeat split; try done. change (zlen []) with 0. lia. }
      destruct (hexdigit_ok c 4) as (d1 & -> & H1); [lia|]. destruct (hexdigit_ok c 0) as (d0 & -> & H0); [lia|].
      destruct (IH (limit - 4) Hs) as (out & l' & left & E' & Hl & Hp & Ho). cbn [mbind res_bind]. rewrite E'.
      exists ([CH_BACKSLASH; CH_x; d1; d0] ++ out), l', left. split; [done|].
      rewrite zlen_app. change (zlen [CH_BACKSLASH; CH_x; d1; d0]) with 4. split; [lia|]. split; [lia|].
      assert (Forall (λ d, 0x20 ≤ d ≤ 0x7F) hexchars) as Hh by compute_decide. rewrite Forall_forall in Hh.
      apply Forall_app. split; [|done]. repeat constructor; unfold CH_BACKSLASH, CH_x; try lia.
      all: first [apply (Hh d1 H1)|apply (Hh d0 H0)].
Qed.

Theorem kputquoted_bounded s rest limit :
  NUL ∉ s → 0 ≤ limit →
  ∃ out, kputquoted (Some (s ++ NUL :: rest)) limit = Ok out ∧ zlen out ≤ limit + 4 ∧
    Forall (λ c, 0x20 ≤ c ≤ 0x7F) out.
Proof.
  intros Hs Hl. unfold kputquoted.
  destruct (kputquoted_loop_bound s rest limit Hs) as (out & l' & left & -> & Hsum & Hpos & Ho).
  cbn [mbind res_bind].
  assert (∃ c, rd (left ++ NUL :: rest) 0 = Ok c) as [c Ec] by (destruct left; eexists; done).
  destruct (Z.ltb_spec 0 l') as [Hp|Hp].
  - rewrite Ec. cbn [mbind res_bind]. eexists. split; [done|]. split.
    + rewrite !zlen_app. destruct (negb (c =? NUL)); change (zlen [CH_DQUOTE]) with 1;
        [change (zlen [CH_DOT; CH_DOT]) with 2|change (zlen []) with 0]; lia.
    + apply Forall_app. split; [by repeat constructor|]. apply Forall_app. split; [done|].
      apply Forall_app. split; [destruct (negb _); by repeat constructor|by repeat constructor].
  - cbn [mbind res_bind]. eexists. split; [done|]. split.
    + rewrite !zlen_app. change (zlen [CH_DQUOTE]) with 1. change (zlen []) with 0. specialize (Hpos Hl). lia.
    + apply Forall_app. split; [by repeat constructor|]. apply Forall_app. split; [done|by repeat constructor].
Qed.

(** The build of the simulated machine. *)
Definition sim_build : build_config :=
  {| MOSNIX_VERSION := chars "0.0.1"; CONFIG_TARGET_NAME := chars "sim"; CPU_65C02 := true |}.
