(* ===== verification/Cpu.v ===== *)
(** The 6502 processor, as far as the kernel's assembly needs it: the registers,
    the imaginary registers of the compiler in the zero page, the page of the
    hardware stack, and the process blocks behind [current_proc].  The compiler
    places the imaginary registers one after the other; the blocks are apart from
    both pages.

    Each program has imaginary registers of its own: [rc] are those of the code
    that is described, the kernel's at 0x00 in Switcher.v, Trap.v and Board.v.
    The registers of a program that calls the kernel are a second list, in the
    state [user] of Trap.v. *)
From S2P Require Import Prelude.

Record cpu := Cpu {
  rA : Z; rX : Z; rY : Z; rS : Z;
  flagC : bool; flagZ : bool;
  flagP : Z;                     (* the other flags, as php stores them *)
  rc : list Z;                   (* __rc0 to __rc31 *)
  current : Z;                   (* current_proc *)
  in_kernel : Z;
  page1 : list Z;                (* 0x0100 to 0x01FF *)
  blocks : gmap Z (list Z);      (* the bytes of each process block *)
}.

Definition set_A v s := Cpu v (rX s) (rY s) (rS s) (flagC s) (flagZ s) (flagP s) (rc s) (current s) (in_kernel s) (page1 s) (blocks s).
Definition set_X v s := Cpu (rA s) v (rY s) (rS s) (flagC s) (flagZ s) (flagP s) (rc s) (current s) (in_kernel s) (page1 s) (blocks s).
Definition set_Y v s := Cpu (rA s) (rX s) v (rS s) (flagC s) (flagZ s) (flagP s) (rc s) (current s) (in_kernel s) (page1 s) (blocks s).
Definition set_S v s := Cpu (rA s) (rX s) (rY s) v (flagC s) (flagZ s) (flagP s) (rc s) (current s) (in_kernel s) (page1 s) (blocks s).
Definition set_flags c z s := Cpu (rA s) (rX s) (rY s) (rS s) c z (flagP s) (rc s) (current s) (in_kernel s) (page1 s) (blocks s).
Definition set_P v s := Cpu (rA s) (rX s) (rY s) (rS s) (flagC s) (flagZ s) v (rc s) (current s) (in_kernel s) (page1 s) (blocks s).
Definition set_rc v s := Cpu (rA s) (rX s) (rY s) (rS s) (flagC s) (flagZ s) (flagP s) v (current s) (in_kernel s) (page1 s) (blocks s).
Definition set_current v s := Cpu (rA s) (rX s) (rY s) (rS s) (flagC s) (flagZ s) (flagP s) (rc s) v (in_kernel s) (page1 s) (blocks s).
Definition set_in_kernel v s := Cpu (rA s) (rX s) (rY s) (rS s) (flagC s) (flagZ s) (flagP s) (rc s) (current s) v (page1 s) (blocks s).
Definition set_page1 v s := Cpu (rA s) (rX s) (rY s) (rS s) (flagC s) (flagZ s) (flagP s) (rc s) (current s) (in_kernel s) v (blocks s).
Definition set_blocks v s := Cpu (rA s) (rX s) (rY s) (rS s) (flagC s) (flagZ s) (flagP s) (rc s) (current s) (in_kernel s) (page1 s) v.

(** ** Operands *)

Definition low (v : Z) : Z := u8 v.
Definition high (v : Z) : Z := u8 (Z.shiftr v 8).
Definition word_of (lo hi : Z) : Z := lo + 256 * hi.

(** __rc<n>, and __rc<n>,x *)
Definition get_rc (n : Z) : M cpu Z := r ← gets rc; lift (rd r n).
Definition put_rc (n v : Z) : M cpu () := r ← gets rc; r ← lift (wr r n v); modify (set_rc r).
(** CPU_STACK+d,x and CPU_STACK+d,y *)
Definition get_stack (i : Z) : M cpu Z := p ← gets page1; lift (rd p i).
Definition put_stack (i v : Z) : M cpu () := p ← gets page1; p ← lift (wr p i v); modify (set_page1 p).
(** (current_proc),y *)
Definition block : M cpu (list Z) :=
  p ← gets current; bs ← gets blocks; match bs !! p with Some b => mret b | None => fail FWild end.
Definition get_ind_y : M cpu Z := b ← block; y ← gets rY; lift (rd b y).
Definition put_ind_y (v : Z) : M cpu () :=
  b ← block; y ← gets rY; b ← lift (wr b y v);
  p ← gets current; modify (λ s, set_blocks (<[p := b]> (blocks s)) s).

(** ** Instructions *)

Definition zero (v : Z) : M cpu () := modify (λ s, set_flags (flagC s) (v =? 0) s).
Definition lda (v : Z) : M cpu () := _ ← modify (set_A v); zero v.
Definition ldx (v : Z) : M cpu () := _ ← modify (set_X v); zero v.
Definition ldy (v : Z) : M cpu () := _ ← modify (set_Y v); zero v.
Definition tax : M cpu () := a ← gets rA; ldx a.
Definition tay : M cpu () := a ← gets rA; ldy a.
Definition txa : M cpu () := x ← gets rX; lda x.
Definition tya : M cpu () := y ← gets rY; lda y.
Definition tsx : M cpu () := s ← gets rS; ldx s.
Definition txs : M cpu () := x ← gets rX; modify (set_S x).
Definition inx : M cpu () := x ← gets rX; ldx (u8 (x + 1)).
Definition iny : M cpu () := y ← gets rY; ldy (u8 (y + 1)).
Definition dey : M cpu () := y ← gets rY; ldy (u8 (y - 1)).
Definition sta (store : Z → M cpu ()) : M cpu () := a ← gets rA; store a.
Definition clc : M cpu () := modify (λ s, set_flags false (flagZ s) s).
Definition adc (v : Z) : M cpu () :=
  a ← gets rA; c ← gets flagC;
  let r := a + v + (if c : bool then 1 else 0) in
  _ ← modify (set_A (u8 r)); modify (set_flags (256 <=? r) (u8 r =? 0)).
Definition ora (v : Z) : M cpu () := a ← gets rA; lda (Z.lor a v).
Definition and_ (v : Z) : M cpu () := a ← gets rA; lda (Z.land a v).
Definition eor (v : Z) : M cpu () := a ← gets rA; lda (Z.lxor a v).
Definition asl : M cpu () :=
  a ← gets rA; _ ← modify (set_A (u8 (2 * a))); modify (set_flags (128 <=? a) (u8 (2 * a) =? 0)).
Definition compare (r v : Z) : M cpu () := modify (set_flags (v <=? r) (r =? v)).
Definition cmp (v : Z) : M cpu () := a ← gets rA; compare a v.
Definition cpx (v : Z) : M cpu () := x ← gets rX; compare x v.
Definition cpy (v : Z) : M cpu () := y ← gets rY; compare y v.

(** The flags as a byte. *)
Definition status (s : cpu) : Z := flagP s + (if flagC s then 1 else 0) + (if flagZ s then 2 else 0).
(** The processor has no bits 4 and 5; php stores them as ones. *)
Definition set_status (p : Z) (s : cpu) : cpu :=
  set_P (Z.lor (Z.ldiff p 3) 0x30) (set_flags (Z.testbit p 0) (Z.testbit p 1) s).

Definition push (v : Z) : M cpu () :=
  s ← gets rS; _ ← put_stack s v; modify (set_S (u8 (s - 1))).
Definition pull : M cpu Z :=
  s ← gets rS; let s := u8 (s + 1) in _ ← modify (set_S s); get_stack s.
Definition pha : M cpu () := a ← gets rA; push a.
Definition phx : M cpu () := x ← gets rX; push x.
Definition php : M cpu () := p ← gets status; push p.
Definition pla : M cpu () := v ← pull; lda v.
Definition plx : M cpu () := v ← pull; ldx v.
Definition ply : M cpu () := v ← pull; ldy v.

(** A subroutine call pushes the address of its last byte. *)
Definition jsr_push (return_address : Z) : M cpu () :=
  _ ← push (high (u16 (return_address - 1))); push (low (u16 (return_address - 1))).
(** The address where control goes on. *)
Definition rts : M cpu Z := lo ← pull; hi ← pull; mret (u16 (word_of lo hi + 1)).
Definition rti : M cpu Z :=
  p ← pull; _ ← modify (set_status p); lo ← pull; hi ← pull; mret (word_of lo hi).
(** brk pushes the address behind the byte that follows it, and the flags with
    the break bit, and blocks interrupts. *)
Definition brk (next : Z) : M cpu () :=
  _ ← push (high next); _ ← push (low next);
  p ← gets status; _ ← push (Z.lor p 0x10); modify (λ s, set_P (Z.lor (flagP s) 4) s).
(** An interrupt does the same with the break bit clear. *)
Definition interrupt (next : Z) : M cpu () :=
  _ ← push (high next); _ ← push (low next);
  p ← gets status; _ ← push (Z.ldiff p 0x10); modify (λ s, set_P (Z.lor (flagP s) 4) s).
Definition cli : M cpu () := modify (λ s, set_P (Z.ldiff (flagP s) 4) s).
Definition cld : M cpu () := modify (λ s, set_P (Z.ldiff (flagP s) 8) s).

Definition inc_in_kernel : M cpu () := k ← gets in_kernel; _ ← modify (set_in_kernel (u8 (k + 1))); zero (u8 (k + 1)).
Definition dec_in_kernel : M cpu () := k ← gets in_kernel; _ ← modify (set_in_kernel (u8 (k - 1))); zero (u8 (k - 1)).

(** ** Effects *)

Ltac cpu_simpl :=
  cbv beta iota delta [rA rX rY rS flagC flagZ flagP rc current in_kernel page1 blocks
       set_A set_X set_Y set_S set_flags set_P set_rc set_current set_in_kernel set_page1 set_blocks].

Section Effects.
Implicit Types (s : cpu).

Lemma gets_ok {X} (f : cpu → X) s : gets f s = Ok (f s, s).
Proof. done. Qed.
Lemma modify_ok (f : cpu → cpu) s : modify f s = Ok ((), f s).
Proof. done. Qed.
Lemma lda_ok v s : lda v s = Ok ((), set_flags (flagC s) (v =? 0) (set_A v s)).
Proof. done. Qed.
Lemma ldx_ok v s : ldx v s = Ok ((), set_flags (flagC s) (v =? 0) (set_X v s)).
Proof. done. Qed.
Lemma ldy_ok v s : ldy v s = Ok ((), set_flags (flagC s) (v =? 0) (set_Y v s)).
Proof. done. Qed.
Lemma adc_ok v s : adc v s =
  Ok ((), set_flags (256 <=? rA s + v + (if flagC s then 1 else 0)) (u8 (rA s + v + (if flagC s then 1 else 0)) =? 0)
            (set_A (u8 (rA s + v + (if flagC s then 1 else 0))) s)).
Proof. done. Qed.
Lemma adc_clear_ok v s : flagC s = false → 0 ≤ rA s + v < 256 →
  adc v s = Ok ((), set_flags false (rA s + v =? 0) (set_A (rA s + v) s)).
Proof.
  intros Hc Hv. rewrite adc_ok, Hc. rewrite Z.add_0_r, u8_small by lia. rewrite (proj2 (Z.leb_gt 256 _)) by lia. done.
Qed.
Lemma get_rc_ok n v s : rd (rc s) n = Ok v → get_rc n s = Ok (v, s).
Proof. intros E. unfold get_rc. mstep by reflexivity. unfold lift. by rewrite E. Qed.
Lemma put_rc_ok n v r s : wr (rc s) n v = Ok r → put_rc n v s = Ok ((), set_rc r s).
Proof. intros E. unfold put_rc. mstep by reflexivity. mstep by (unfold lift; rewrite E; reflexivity). done. Qed.
Lemma get_stack_ok i v s : rd (page1 s) i = Ok v → get_stack i s = Ok (v, s).
Proof. intros E. unfold get_stack. mstep by reflexivity. unfold lift. by rewrite E. Qed.
Lemma put_stack_ok i v p s : wr (page1 s) i v = Ok p → put_stack i v s = Ok ((), set_page1 p s).
Proof. intros E. unfold put_stack. mstep by reflexivity. mstep by (unfold lift; rewrite E; reflexivity). done. Qed.
Lemma get_ind_y_ok b v s : blocks s !! current s = Some b → rd b (rY s) = Ok v → get_ind_y s = Ok (v, s).
Proof.
  intros Hb E. unfold get_ind_y, block. mstep by (do 2 (mstep by reflexivity); rewrite Hb; reflexivity).
  mstep by reflexivity. unfold lift. by rewrite E.
Qed.
Lemma put_ind_y_ok b b' v s : blocks s !! current s = Some b → wr b (rY s) v = Ok b' →
  put_ind_y v s = Ok ((), set_blocks (<[current s := b']> (blocks s)) s).
Proof.
  intros Hb E. unfold put_ind_y, block. mstep by (do 2 (mstep by reflexivity); rewrite Hb; reflexivity).
  mstep by reflexivity. mstep by (unfold lift; rewrite E; reflexivity). mstep by reflexivity. done.
Qed.
Lemma cpu_push_ok v p s : wr (page1 s) (rS s) v = Ok p → push v s = Ok ((), set_S (u8 (rS s - 1)) (set_page1 p s)).
Proof. intros E. unfold push. mstep by reflexivity. mstep by (by apply put_stack_ok). done. Qed.
Lemma pull_ok v s : rd (page1 s) (u8 (rS s + 1)) = Ok v → pull s = Ok (v, set_S (u8 (rS s + 1)) s).
Proof. intros E. unfold pull. mstep by reflexivity. mstep by reflexivity. by apply get_stack_ok. Qed.

Lemma word_low_high v : 0 ≤ v < 65536 → word_of (low v) (high v) = v.
Proof. intros Hv. unfold word_of, low, high, u8. rewrite Z.shiftr_div_pow2 by lia. change (2 ^ 8) with 256. Z.div_mod_to_equations. lia. Qed.
Lemma low_range v : 0 ≤ low v < 256.
Proof. apply Z.mod_pos_bound. lia. Qed.
Lemma high_range v : 0 ≤ high v < 256.
Proof. apply Z.mod_pos_bound. lia. Qed.
End Effects.

(** One instruction of a sequence. *)
Ltac istep := erewrite bind_ok;
  [|first [apply lda_ok|apply ldx_ok|apply ldy_ok|apply modify_ok|apply gets_ok|reflexivity]]; cpu_simpl.

(** A state with pages of the right size, and bytes in the imaginary registers. *)
Record cpu_ok (s : cpu) : Prop := {
  co_page : zlen (page1 s) = 256;
  co_rc : zlen (rc s) = 32;
  co_bytes : Forall (λ v, 0 ≤ v < 256) (rc s);
}.

Lemma low_word lo hi : 0 ≤ lo < 256 → low (word_of lo hi) = lo.
Proof. intros H. unfold low, word_of, u8. rewrite Z.mul_comm, Z.mod_add by lia. by apply Z.mod_small. Qed.
Lemma high_word lo hi : 0 ≤ lo < 256 → 0 ≤ hi < 256 → high (word_of lo hi) = hi.
Proof.
  intros Hl Hh. unfold high, word_of, u8. rewrite Z.shiftr_div_pow2 by lia. change (2 ^ 8) with 256.
  rewrite Z.mul_comm, Z.div_add, (Z.div_small lo) by lia. by apply Z.mod_small.
Qed.

(** Splitting the stack page at the stack pointer. *)
Lemma page_split (pg : list Z) S :
  zlen pg = 256 → 3 ≤ S ≤ 63 →
  ∃ j0 j1 j2, pg = take (Z.to_nat (S - 2)) pg ++ j0 :: j1 :: j2 :: drop (Z.to_nat (S + 1)) (take 64 pg) ++ drop 64 pg.
Proof.
  intros Hl HS. unfold zlen in Hl.
  destruct (lookup_lt_is_Some_2 pg (Z.to_nat (S - 2))) as [j0 H0]; [lia|].
  destruct (lookup_lt_is_Some_2 pg (Datatypes.S (Z.to_nat (S - 2)))) as [j1 H1]; [lia|].
  destruct (lookup_lt_is_Some_2 pg (Datatypes.S (Datatypes.S (Z.to_nat (S - 2))))) as [j2 H2]; [lia|].
  exists j0, j1, j2. rewrite <- (take_drop (Z.to_nat (S - 2)) pg) at 1. f_equal.
  rewrite (drop_S _ j0), (drop_S _ j1), (drop_S _ j2) by done. do 3 f_equal.
  replace (Datatypes.S _) with (Z.to_nat (S + 1)) by lia.
  rewrite <- (take_drop 64 pg) at 1. rewrite drop_app_le; [done|]. rewrite length_take. lia.
Qed.
