(* ===== verification/Switcher.v ===== *)
(** The context switch and the entry of system calls (os/switcher.S,
    libc-mosnix/syscall.S, the break handler of target/*/reset.S), instruction
    by instruction.

    A definition runs from its label to the next one; a branch to a label is a
    call of its definition.  Where control leaves the code, the result is the
    address that it goes to. *)
From S2P Require Import Prelude CDefs Tailq Sched UserHeap ProcTable Info Cpu.

(** The address of .Lswap_in_return, where rti goes. *)
Class switch_addrs := {
  addr_swap_in_return : Z;
  addr_swap_in_return_range : 0 ≤ addr_swap_in_return < 65536;
}.

Section Code.
Context {BC : build_config} {SA : switch_addrs}.

(** ** proc_switch_to *)

(** sta (current_proc), which the 65C02 has without an index. *)
Definition sta_block_first : M cpu () :=
  if CPU_65C02 then
    b ← block; a ← gets rA; b ← lift (wr b 0 a);
    p ← gets current; modify (λ s, set_blocks (<[p := b]> (blocks s)) s)
  else _ ← ldy 0; sta put_ind_y.
Definition lda_block_first : M cpu () :=
  if CPU_65C02 then b ← block; v ← lift (rd b 0); lda v
  else _ ← ldy 0; v ← get_ind_y; lda v.

Fixpoint swap_out_ustack_loop (fuel : nat) : M cpu () :=
  match fuel with
  | O => fail FFuel
  | S fuel =>
      _ ← cpy (CONFIG_RETURN_STACK_SIZE + 3);
      c ← gets flagC;
      if c : bool then mret ()
      else
        y ← gets rY; v ← get_stack (y - 3); _ ← lda v;
        _ ← sta put_ind_y;
        _ ← iny;
        z ← gets flagZ;
        if z : bool then mret () else swap_out_ustack_loop fuel
  end.

(** The loads and stores are those of the code. *)
Fixpoint swap_imag_regs (fuel : nat) : M cpu () :=
  match fuel with
  | O => fail FFuel
  | S fuel =>
      _ ← iny;
      v ← get_ind_y; _ ← lda v;
      x ← gets rX; _ ← sta (put_rc (12 + x));
      _ ← inx;
      _ ← cpx 12;
      z ← gets flagZ;
      if z : bool then mret () else swap_imag_regs fuel
  end.

Definition swap_out : M cpu () :=
  _ ← lda (high addr_swap_in_return);
  _ ← pha;
  _ ← lda (low addr_swap_in_return);
  _ ← pha;
  _ ← php;
  _ ← tsx;
  _ ← txa;
  _ ← sta_block_first;
  _ ← clc;
  _ ← adc 4;
  _ ← tay;
  _ ← swap_out_ustack_loop 256;
  v ← get_rc 0; _ ← lda v;
  _ ← sta put_ind_y;
  _ ← iny;
  v ← get_rc 1; _ ← lda v;
  _ ← sta put_ind_y;
  _ ← ldx 0;
  swap_imag_regs 13.

Fixpoint swap_in_ustack_loop (fuel : nat) : M cpu () :=
  match fuel with
  | O => fail FFuel
  | S fuel =>
      _ ← cpy (CONFIG_RETURN_STACK_SIZE + 3);
      c ← gets flagC;
      if c : bool then mret ()
      else
        v ← get_ind_y; _ ← lda v;
        y ← gets rY; _ ← sta (put_stack (y - 3));
        _ ← iny;
        z ← gets flagZ;
        if z : bool then mret () else swap_in_ustack_loop fuel
  end.

Definition swap_in_set_kstack : M cpu () :=
  v ← get_rc 0; _ ← lda v;
  _ ← sta put_ind_y;
  _ ← iny;
  v ← get_rc 1; _ ← lda v;
  sta put_ind_y.

Definition swap_in_kstack : M cpu () :=
  _ ← iny;
  v ← get_ind_y; _ ← lda v;
  _ ← dey;
  v ← get_ind_y; _ ← ora v;
  z ← gets flagZ;
  if z : bool then swap_in_set_kstack
  else
    v ← get_ind_y; _ ← lda v;
    _ ← sta (put_rc 0);
    _ ← iny;
    v ← get_ind_y; _ ← lda v;
    _ ← sta (put_rc 1);
    _ ← ldx 0;
    swap_imag_regs 13.

Definition load_AX : M cpu () :=
  _ ← ldy 2;
  v ← get_ind_y; _ ← lda v;
  _ ← tax;
  _ ← dey;
  v ← get_ind_y; lda v.

Definition swap_in_switch_stack : M cpu Z :=
  _ ← lda_block_first;
  _ ← tax;
  _ ← txs;
  _ ← load_AX;
  _ ← dec_in_kernel;
  rti.

(** [current] is a word in the zero page. *)
Definition swap_in_new : M cpu Z :=
  lo ← get_rc 2; _ ← lda lo;
  hi ← get_rc 3; _ ← lda hi;
  _ ← modify (set_current (word_of lo hi));
  _ ← lda_block_first;
  _ ← clc;
  _ ← adc 4;
  _ ← tay;
  _ ← swap_in_ustack_loop 256;
  _ ← swap_in_kstack;
  swap_in_switch_stack.

Definition swap_in_return : M cpu Z := _ ← inc_in_kernel; rts.

Definition proc_switch_to : M cpu Z :=
  lo ← get_rc 2; _ ← lda lo;
  p ← gets current;
  _ ← cmp (low p);
  same_low ← gets flagZ;
  same ← (if same_low : bool then
            hi ← get_rc 3; _ ← lda hi; _ ← cmp (high p); gets flagZ
          else mret false);
  if same : bool then _ ← load_AX; rts
  else
    _ ← lda (low p);
    _ ← ora (high p);
    none ← gets flagZ;
    _ ← (if none : bool then mret () else swap_out);
    swap_in_new.

(** The kernel's thread calls schedule() for ever after this. *)
Definition sched_start : M cpu () :=
  _ ← ldx CONFIG_RETURN_STACK_SIZE;
  _ ← txs;
  inc_in_kernel.

(** What the caller sees: control goes on at .Lswap_in_return when a process
    was switched out there. *)
Definition resume (pc : Z) : M cpu Z :=
  if pc =? addr_swap_in_return then swap_in_return else mret pc.
End Code.

(** ** The copy loops *)

Section Loops.
Implicit Types (s : cpu).

Lemma rd_mid A (v : Z) B i : i = zlen A → rd (A ++ v :: B) i = Ok v.
Proof. intros ->. apply rd_app_at. Qed.
Lemma wr_mid A (v w : Z) B i : i = zlen A → wr (A ++ v :: B) i w = Ok (A ++ w :: B).
Proof. intros ->. apply wr_app_at. Qed.

Lemma swap_out_loop_ok fuel s A src B A' dst B' :
  page1 s = A ++ src ++ B → blocks s !! current s = Some (A' ++ dst ++ B') → length dst = length src →
  zlen A' = 3 + zlen A → zlen A + zlen src = 64 → rY s = zlen A' → (length src < fuel)%nat →
  ∃ a, swap_out_ustack_loop fuel s =
    Ok ((), set_A a (set_Y 67 (set_flags true true (set_blocks (<[current s := A' ++ src ++ B']> (blocks s)) s)))).
Proof.
  revert s A src A' dst. induction fuel as [|fuel IH]; intros s A src A' dst Hp Hb Hl HA Hlen Hy Hf; [lia|].
  cbn [swap_out_ustack_loop]. change (CONFIG_RETURN_STACK_SIZE + 3) with 67.
  destruct s as [a x y S c z P r cur ik pg bl]. cpu_simpl. cbn [page1 blocks current rY] in *. subst y pg.
  destruct src as [|v src]; destruct dst as [|d dst]; try done.
  - exists a. change (zlen []) with 0 in Hlen. assert (zlen A' = 67) as E by lia. rewrite E.
    do 2 istep. rewrite insert_id by done. reflexivity.
  - rewrite zlen_cons in Hlen. pose proof (zlen_nonneg src). pose proof (zlen_nonneg A).
    istep. istep. rewrite (proj2 (Z.leb_gt 67 (zlen A'))) by lia. istep.
    erewrite bind_ok; [|apply get_stack_ok; cpu_simpl; apply (rd_mid A); lia]. istep.
    erewrite bind_ok; [|unfold sta; istep; eapply put_ind_y_ok; cpu_simpl; [exact Hb|by apply (wr_mid A')]]. cpu_simpl.
    unfold iny. erewrite bind_ok; [|istep; apply ldy_ok]. cpu_simpl. istep.
    rewrite u8_small by lia. rewrite (proj2 (Z.eqb_neq (zlen A' + 1) 0)) by lia. cbv iota.
    destruct (IH (Cpu v x (zlen A' + 1) S false false P r cur ik (A ++ v :: src ++ B) (<[cur := A' ++ v :: dst ++ B']> bl))
      (A ++ [v]) src (A' ++ [v]) dst) as [a' E]; cpu_simpl; try (rewrite ?zlen_app; change (zlen [v]) with 1); try lia.
    + by rewrite <- app_assoc.
    + rewrite lookup_insert_eq, <- app_assoc. done.
    + by injection Hl.
    + simpl in Hf. lia.
    + exists a'. etrans; [exact E|]. cpu_simpl. rewrite insert_insert_eq, <- app_assoc. done.
Qed.

Lemma swap_in_loop_ok fuel s A dst B A' src B' :
  page1 s = A ++ dst ++ B → blocks s !! current s = Some (A' ++ src ++ B') → length dst = length src →
  zlen A' = 3 + zlen A → zlen A + zlen src = 64 → rY s = zlen A' → (length src < fuel)%nat →
  ∃ a, swap_in_ustack_loop fuel s = Ok ((), set_A a (set_Y 67 (set_flags true true (set_page1 (A ++ src ++ B) s)))).
Proof.
  revert s A dst A' src. induction fuel as [|fuel IH]; intros s A dst A' src Hp Hb Hl HA Hlen Hy Hf; [lia|].
  cbn [swap_in_ustack_loop]. change (CONFIG_RETURN_STACK_SIZE + 3) with 67.
  destruct s as [a x y S c z P r cur ik pg bl]. cpu_simpl. cbn [page1 blocks current rY] in *. subst y pg.
  destruct src as [|v src]; destruct dst as [|d dst]; try done.
  - exists a. change (zlen []) with 0 in Hlen. assert (zlen A' = 67) as E by lia. rewrite E.
    do 2 istep. reflexivity.
  - rewrite zlen_cons in Hlen. pose proof (zlen_nonneg src). pose proof (zlen_nonneg A).
    istep. istep. rewrite (proj2 (Z.leb_gt 67 (zlen A'))) by lia.
    erewrite bind_ok; [|eapply get_ind_y_ok; cpu_simpl; [exact Hb|by apply (rd_mid A')]]. istep. istep.
    erewrite bind_ok; [|unfold sta; istep; apply put_stack_ok; cpu_simpl; apply (wr_mid A); lia]. cpu_simpl.
    unfold iny. erewrite bind_ok; [|istep; apply ldy_ok]. cpu_simpl. istep.
    rewrite u8_small by lia. rewrite (proj2 (Z.eqb_neq (zlen A' + 1) 0)) by lia. cbv iota.
    destruct (IH (Cpu v x (zlen A' + 1) S false false P r cur ik (A ++ v :: dst ++ B) bl)
      (A ++ [v]) dst (A' ++ [v]) src) as [a' E]; cpu_simpl; try (rewrite ?zlen_app; change (zlen [v]) with 1); try lia.
    + by rewrite <- app_assoc.
    + rewrite <- app_assoc. done.
    + by injection Hl.
    + simpl in Hf. lia.
    + exists a'. etrans; [exact E|]. cpu_simpl. rewrite <- app_assoc. done.
Qed.

Lemma swap_imag_ok fuel s R dst R' A' src B' :
  rc s = R ++ dst ++ R' → blocks s !! current s = Some (A' ++ src ++ B') → length dst = length src → src ≠ [] →
  zlen R = 12 + rX s → 0 ≤ rX s → rX s + zlen src = 12 → rY s = zlen A' - 1 → 1 ≤ zlen A' → zlen A' + zlen src ≤ 200 → (length src ≤ fuel)%nat →
  ∃ a y, swap_imag_regs fuel s = Ok ((), set_A a (set_X 12 (set_Y y (set_flags true true (set_rc (R ++ src ++ R') s))))).
Proof.
  revert s R dst A' src. induction fuel as [|fuel IH]; intros s R dst A' src Hr Hb Hl Hne HR Hx0 Hx Hy HA HA2 Hf; [destruct src; simpl in Hf; [done|lia]|].
  cbn [swap_imag_regs]. destruct s as [a x y S c z P r cur ik pg bl]. cpu_simpl. cbn [rc blocks current rY rX] in *. subst y r.
  destruct src as [|v src]; destruct dst as [|d dst]; try done. rewrite zlen_cons in Hx, HA2. pose proof (zlen_nonneg src).
  unfold iny. erewrite bind_ok; [|istep; apply ldy_ok]. cpu_simpl. rewrite u8_small by lia. replace (zlen A' - 1 + 1) with (zlen A') by lia.
  erewrite bind_ok; [|eapply get_ind_y_ok; cpu_simpl; [exact Hb|by apply (rd_mid A')]]. istep. istep.
  erewrite bind_ok; [|unfold sta; istep; apply put_rc_ok; cpu_simpl; apply (wr_mid R); lia]. cpu_simpl.
  unfold inx. erewrite bind_ok; [|istep; apply ldx_ok]. cpu_simpl. rewrite u8_small by lia.
  istep. istep. destruct (Z.eqb_spec (x + 1) 12) as [E12|Hn].
  - assert (src = []) as -> by (destruct src; [done|rewrite zlen_cons in *; pose proof (zlen_nonneg src); lia]).
    destruct dst; [|done]. exists v, (zlen A'). rewrite E12. reflexivity.
  - destruct (IH (Cpu v (x + 1) (zlen A') S (12 <=? x + 1) false P (R ++ v :: dst ++ R') cur ik pg bl)
      (R ++ [v]) dst (A' ++ [v]) src) as (a' & y' & E); cpu_simpl; try (rewrite ?zlen_app; change (zlen [v]) with 1); try lia.
    + by rewrite <- app_assoc.
    + rewrite <- app_assoc. done.
    + by injection Hl.
    + intros ->. change (zlen []) with 0 in *. lia.
    + simpl in Hf. lia.
    + exists a', y'. etrans; [exact E|]. cpu_simpl. rewrite <- app_assoc. done.
Qed.
End Loops.

(** ** What a switch does *)

(** The bytes of struct proc_context. *)
Definition ctx_bytes (c : proc_context) : list Z :=
  ctx_S c :: low (ctx_AX c) :: high (ctx_AX c) :: ctx_stack c ++ low (ctx_kstack c) :: high (ctx_kstack c) :: ctx_kzp c.

Record ctx_ok (c : proc_context) : Prop := {
  cx_S : 0 ≤ ctx_S c ≤ 60;
  cx_stack : zlen (ctx_stack c) = CONFIG_RETURN_STACK_SIZE;
  cx_kstack : 0 ≤ ctx_kstack c < 65536;
  cx_kzp : zlen (ctx_kzp c) = 12;
}.

Definition rc_word (s : cpu) (n : nat) : Z := word_of (default 0 (rc s !! n)) (default 0 (rc s !! S n)).

Lemma stack_split (st : list Z) S :
  zlen st = 64 → 3 ≤ S ≤ 63 →
  ∃ lo hi, st = lo ++ hi ∧ lo = take (Z.to_nat (S - 2)) st ∧ zlen lo = S - 2 ∧ zlen hi = 66 - S.
Proof.
  intros Hl HS. exists (take (Z.to_nat (S - 2)) st), (drop (Z.to_nat (S - 2)) st). rewrite take_drop.
  unfold zlen in *. rewrite length_take, length_drop. split_and!; [done..|lia|lia].
Qed.

Lemma rc_split (r : list Z) :
  zlen r = 32 → ∃ r0 r1 R old R', r = r0 :: r1 :: R ++ old ++ R' ∧ zlen R = 10 ∧ zlen old = 12 ∧ zlen R' = 8.
Proof.
  intros Hl. destruct r as [|r0 [|r1 r]]; [done..|]. exists r0, r1, (take 10 r), (take 12 (drop 10 r)), (drop 22 r).
  rewrite !zlen_cons in Hl. unfold zlen in *. rewrite !length_take, !length_drop. split_and!; [|lia..].
  do 2 f_equal. rewrite <- (take_drop 10 r) at 1. f_equal. rewrite <- (take_drop 12 (drop 10 r)) at 1. by rewrite drop_drop.
Qed.

Lemma rc_pieces (r0 r1 : Z) R old R' (k0 k1 : Z) kzp :
  zlen R = 10 → zlen old = 12 →
  k0 :: k1 :: take 10 (drop 2 (r0 :: r1 :: R ++ old ++ R')) ++ kzp ++ drop 24 (r0 :: r1 :: R ++ old ++ R') =
  k0 :: k1 :: R ++ kzp ++ R'.
Proof.
  intros HR Hold. unfold zlen in *. change (drop 2 (r0 :: r1 :: ?l)) with l. change (drop 24 (r0 :: r1 :: ?l)) with (drop 22 l).
  rewrite take_app_le, take_ge by lia. do 3 f_equal.
  rewrite app_assoc, drop_app_length'; [done|]. rewrite length_app. lia.
Qed.

Section Switch.
Context {BC : build_config} {SA : switch_addrs}.
Implicit Types (s : cpu) (c : proc_context).

(** The frame that rti takes to come back to the process. *)
Definition return_frame (flags : Z) : list Z := [flags; low addr_swap_in_return; high addr_swap_in_return].

(** The context of a process that is switched out. *)
Definition switched_out (flags : Z) s c : proc_context :=
  ProcContext (rS s - 3) (ctx_AX c)
    (take (Z.to_nat (rS s - 2)) (ctx_stack c) ++ return_frame flags ++ drop (Z.to_nat (rS s + 1)) (take 64 (page1 s)))
    (rc_word s 0) (ctx_kzp c).

Lemma sta_block_first_ok b b' s :
  blocks s !! current s = Some b → wr b 0 (rA s) = Ok b' →
  ∃ y z, sta_block_first s = Ok ((), set_Y y (set_flags (flagC s) z (set_blocks (<[current s := b']> (blocks s)) s))).
Proof.
  intros Hb E. destruct s as [a x y sp fc fz fp r cur ik pg bl]. cbn [blocks current rA] in *.
  unfold sta_block_first. destruct CPU_65C02.
  - exists y, fz. unfold block. erewrite bind_ok; [|do 2 istep; rewrite Hb; reflexivity].
    istep. erewrite bind_ok; [|unfold lift; rewrite E; reflexivity]. istep. done.
  - exists 0, true. istep. unfold sta. istep. etrans; [eapply put_ind_y_ok; [exact Hb|exact E]|done].
Qed.

Lemma lda_block_first_ok b v s :
  blocks s !! current s = Some b → rd b 0 = Ok v →
  ∃ y, lda_block_first s = Ok ((), set_Y y (set_flags (flagC s) (v =? 0) (set_A v s))).
Proof.
  intros Hb E. destruct s as [a x y sp fc fz fp r cur ik pg bl]. cbn [blocks current rA] in *.
  unfold lda_block_first. destruct CPU_65C02.
  - exists y. unfold block. erewrite bind_ok; [|do 2 istep; rewrite Hb; reflexivity].
    erewrite bind_ok; [|unfold lift; rewrite E; reflexivity]. done.
  - exists 0. istep. erewrite bind_ok; [|eapply get_ind_y_ok; [exact Hb|exact E]]. done.
Qed.

(** The way back and the flags are pushed. *)
Lemma push_return_run {X} (k : M cpu X) a x y sp (fc fz : bool) fp r cur ik lo j0 j1 j2 up bl :
  zlen lo = sp - 2 → 3 ≤ sp ≤ 255 →
  let l := low addr_swap_in_return in let h := high addr_swap_in_return in
  (_ ← lda h; _ ← pha; _ ← lda l; _ ← pha; _ ← php; k) (Cpu a x y sp fc fz fp r cur ik (lo ++ j0 :: j1 :: j2 :: up) bl) =
  k (Cpu l x y (sp - 3) fc (l =? 0) fp r cur ik (lo ++ status (Cpu a x y sp fc (l =? 0) fp r cur ik [] bl) :: l :: h :: up) bl).
Proof.
  intros Hlo Hsp l h.
  assert (∀ v, wr (lo ++ j0 :: j1 :: j2 :: up) sp v = Ok (lo ++ j0 :: j1 :: v :: up)) as W2.
  { intros v. assert (∀ w : Z, lo ++ j0 :: j1 :: w :: up = (lo ++ [j0; j1]) ++ w :: up) as Ew by (intros w; by rewrite <- app_assoc).
    rewrite !Ew. apply wr_mid. rewrite zlen_app. change (zlen [j0; j1]) with 2. lia. }
  assert (∀ u v, wr (lo ++ j0 :: j1 :: u :: up) (sp - 1) v = Ok (lo ++ j0 :: v :: u :: up)) as W1.
  { intros u v. assert (∀ w : Z, lo ++ j0 :: w :: u :: up = (lo ++ [j0]) ++ w :: u :: up) as Ew by (intros w; by rewrite <- app_assoc).
    rewrite !Ew. apply wr_mid. rewrite zlen_app. change (zlen [j0]) with 1. lia. }
  istep. erewrite bind_ok; [|unfold pha; istep; apply cpu_push_ok; cpu_simpl; apply W2]. cpu_simpl. rewrite (u8_small (sp - 1)) by lia. istep.
  erewrite bind_ok; [|unfold pha; istep; apply cpu_push_ok; cpu_simpl; apply W1]. cpu_simpl. rewrite (u8_small (sp - 1 - 1)) by lia.
  erewrite bind_ok; [|unfold php; istep; apply cpu_push_ok; cpu_simpl; apply wr_mid; lia]. cpu_simpl.
  rewrite (u8_small (sp - 1 - 1 - 1)) by lia. by replace (sp - 1 - 1 - 1) with (sp - 3) by lia.
Qed.

(** RC0:RC1 go into the block. *)
Lemma save_kstack_run {X} (k : M cpu X) a x sp (fc fz : bool) fp r0 r1 R cur ik pg bl A k0 k1 t :
  bl !! cur = Some (A ++ k0 :: k1 :: t) → zlen A = 67 →
  (v ← get_rc 0; _ ← lda v; _ ← sta put_ind_y; _ ← iny; v ← get_rc 1; _ ← lda v; _ ← sta put_ind_y; k)
    (Cpu a x 67 sp fc fz fp (r0 :: r1 :: R) cur ik pg bl) =
  k (Cpu r1 x 68 sp fc (r1 =? 0) fp (r0 :: r1 :: R) cur ik pg (<[cur := A ++ r0 :: r1 :: t]> bl)).
Proof.
  intros Hb HA. assert (wr (A ++ k0 :: k1 :: t) 67 r0 = Ok (A ++ r0 :: k1 :: t)) as W0 by (by apply wr_mid).
  assert (wr (A ++ r0 :: k1 :: t) 68 r1 = Ok (A ++ r0 :: r1 :: t)) as W1.
  { assert (∀ w : Z, A ++ r0 :: w :: t = (A ++ [r0]) ++ w :: t) as Ew by (intros; by rewrite <- app_assoc).
    rewrite !Ew. apply wr_mid. by rewrite zlen_app, HA. }
  erewrite bind_ok; [|apply get_rc_ok; cpu_simpl; reflexivity]. istep.
  erewrite bind_ok; [|unfold sta; istep; eapply put_ind_y_ok; cpu_simpl; [exact Hb|exact W0]]. cpu_simpl.
  unfold iny. erewrite bind_ok; [|istep; apply ldy_ok]. cpu_simpl. change (u8 (67 + 1)) with 68.
  erewrite bind_ok; [|apply get_rc_ok; cpu_simpl; reflexivity]. istep.
  erewrite bind_ok; [|unfold sta; istep; eapply put_ind_y_ok; cpu_simpl; [apply lookup_insert_eq|exact W1]]. cpu_simpl.
  by rewrite insert_insert_eq.
Qed.

Lemma swap_out_ok s c rest :
  cpu_ok s → ctx_ok c → 3 ≤ rS s ≤ 63 → blocks s !! current s = Some (ctx_bytes c ++ rest) →
  let flags := status (set_flags (flagC s) (low addr_swap_in_return =? 0) s) in
  ∃ s', swap_out s = Ok ((), s') ∧
    blocks s' = <[current s := ctx_bytes (switched_out flags s c) ++ rest]> (blocks s) ∧
    page1 s' = take (Z.to_nat (rS s - 2)) (page1 s) ++ return_frame flags ++ drop (Z.to_nat (rS s + 1)) (page1 s) ∧
    rc s' = take 12 (rc s) ++ ctx_kzp c ++ drop 24 (rc s) ∧ current s' = current s ∧ in_kernel s' = in_kernel s.
Proof.
  intros [Hpg Hrc Hby] [_ Hst _ Hkz] HS Hb flags. subst flags. destruct (page_split _ _ Hpg HS) as (j0 & j1 & j2 & Epg).
  destruct s as [a x y sp fc fz fp r cur ik pg bl]. cbn [rc page1 rS blocks current] in *.
  unfold switched_out, return_frame, rc_word. cpu_simpl.
  set (lo := take (Z.to_nat (sp - 2)) pg) in *. set (above := drop (Z.to_nat (sp + 1)) (take 64 pg)) in *. set (hi := drop 64 pg) in *.
  assert (zlen lo = sp - 2) as Hlo by (unfold lo, zlen in *; rewrite length_take; lia).
  assert (zlen above = 63 - sp) as Hab by (unfold above, zlen in *; rewrite length_drop, length_take; lia).
  assert (drop (Z.to_nat (sp + 1)) pg = above ++ hi) as Eup.
  { rewrite Epg. replace (Z.to_nat (sp + 1)) with (length lo + 3)%nat by (unfold zlen in *; lia).
    by rewrite drop_app_add. }
  rewrite Eup. clear Eup. clearbody lo above hi. subst pg.
  destruct (stack_split (ctx_stack c) sp Hst HS) as (st_lo & st_hi & Est & Elo & Hst_lo & Hst_hi). rewrite <- Elo.
  destruct (rc_split r Hrc) as (r0 & r1 & R & old & R' & -> & HR & Hold & HR'). cbn [lookup list_lookup nth default] in *.
  set (l := low addr_swap_in_return). set (h := high addr_swap_in_return).
  set (P := status _). pose proof (zlen_nonneg lo). pose proof (zlen_nonneg above).
  set (bl' := <[cur := (sp - 3 :: low (ctx_AX c) :: high (ctx_AX c) :: st_lo) ++ [P; l; h] ++ above ++ r0 :: r1 :: ctx_kzp c ++ rest]> bl).
  assert (∃ a1 y1, swap_out (Cpu a x y sp fc fz fp (r0 :: r1 :: R ++ old ++ R') cur ik (lo ++ j0 :: j1 :: j2 :: above ++ hi) bl) =
    Ok ((), Cpu a1 12 y1 (sp - 3) true true fp (r0 :: r1 :: R ++ ctx_kzp c ++ R') cur ik (lo ++ P :: l :: h :: above ++ hi) bl'))
    as (a1 & y1 & E1).
  { set (B' := low (ctx_kstack c) :: high (ctx_kstack c) :: ctx_kzp c ++ rest).
    assert (bl !! cur = Some (ctx_S c :: (low (ctx_AX c) :: high (ctx_AX c) :: st_lo) ++ st_hi ++ B')) as Hb'.
    { rewrite Hb. unfold ctx_bytes, B'. rewrite Est. f_equal. simpl. by rewrite <- !app_assoc. }
    unfold swap_out. rewrite push_return_run by (done || lia). change (status _) with P. fold l h.
    unfold tsx, txa, tay. erewrite bind_ok; [|istep; apply ldx_ok]. cpu_simpl. erewrite bind_ok; [|istep; apply lda_ok]. cpu_simpl.
    edestruct sta_block_first_ok as (y2 & z2 & E2); cycle -1.
    1: erewrite bind_ok; [|exact E2]; clear E2; cpu_simpl.
    2: cpu_simpl; exact Hb'.
    2: cpu_simpl; by apply (wr_mid []).
    erewrite bind_ok; [|apply modify_ok]. cpu_simpl.
    erewrite bind_ok; [|apply adc_clear_ok; cpu_simpl; [done|lia]]. cpu_simpl. replace (sp - 3 + 4) with (sp + 1) by lia.
    erewrite bind_ok; [|istep; apply ldy_ok]. cpu_simpl.
    edestruct swap_out_loop_ok with (A := lo) (src := P :: l :: h :: above) (B := hi) (dst := st_hi) (B' := B')
      (A' := sp - 3 :: low (ctx_AX c) :: high (ctx_AX c) :: st_lo) as [a3 E3]; cycle -1.
    1: erewrite bind_ok; [|exact E3]; clear E3; cpu_simpl.
    2: cpu_simpl; reflexivity.
    2: cpu_simpl; apply lookup_insert_eq.
    2-6: unfold zlen in *; simpl length; cpu_simpl; lia.
    rewrite insert_insert_eq. set (A' := sp - 3 :: low (ctx_AX c) :: high (ctx_AX c) :: st_lo). set (src := P :: l :: h :: above).
    assert (zlen (A' ++ src) = 67) as H67 by (rewrite zlen_app; unfold A', src, zlen in *; simpl length; lia).
    erewrite save_kstack_run with (A := A' ++ src); [|rewrite lookup_insert_eq, <- app_assoc; reflexivity|exact H67].
    rewrite insert_insert_eq, <- app_assoc. istep.
    edestruct swap_imag_ok with (R := r0 :: r1 :: R) (dst := old) (R' := R') (A' := A' ++ src ++ [r0; r1]) (src := ctx_kzp c) (B' := rest)
      as (a4 & y4 & E4); cycle -1.
    1: exists a4, y4; etrans; [exact E4|]; cpu_simpl; reflexivity.
    1: cpu_simpl; reflexivity.
    1: cpu_simpl; rewrite lookup_insert_eq, <- !app_assoc; reflexivity.
    1-9: cpu_simpl; try (rewrite app_assoc, zlen_app, H67; change (zlen [r0; r1]) with 2).
    1-9: unfold zlen in *; simpl length; try lia. intros E; by rewrite E in Hkz. }
  eexists. split; [exact E1|]. cpu_simpl. apply Forall_cons in Hby as [Hb0 [Hb1 _]%Forall_cons].
  split_and!; [|done| |done|done].
  - unfold bl', ctx_bytes. cbn [ctx_S ctx_AX ctx_stack ctx_kstack ctx_kzp]. cbv [default]. unfold id. rewrite low_word, high_word by done.
    f_equal. simpl. by rewrite <- !app_assoc.
  - assert (length R = 10%nat ∧ length old = 12%nat) as [HR1 Hold1] by (unfold zlen in *; lia).
    assert (take 12 (r0 :: r1 :: R ++ old ++ R') = r0 :: r1 :: R) as -> by (cbn [take]; by rewrite <- HR1, take_app_length).
    assert (drop 24 (r0 :: r1 :: R ++ old ++ R') = R') as -> by (cbn [drop]; rewrite app_assoc, drop_app_length'; [done|rewrite length_app; lia]).
    done.
Qed.

(** ** Switching in *)

Definition with_kstack (k : Z) c : proc_context := ProcContext (ctx_S c) (ctx_AX c) (ctx_stack c) k (ctx_kzp c).

(** The soft stack and the saved registers of a process that is switched in;
    a process without a soft stack takes the current one. *)
Definition registers_in (q : Z) c rest s s' : Prop :=
  if ctx_kstack c =? 0 then
    rc s' = rc s ∧ blocks s' = <[q := ctx_bytes (with_kstack (rc_word s 0) c) ++ rest]> (blocks s)
  else
    rc s' = low (ctx_kstack c) :: high (ctx_kstack c) :: take 10 (drop 2 (rc s)) ++ ctx_kzp c ++ drop 24 (rc s) ∧
    blocks s' = blocks s.

Lemma ctx_bytes_kstack c :
  ctx_bytes c = (ctx_S c :: low (ctx_AX c) :: high (ctx_AX c) :: ctx_stack c) ++
    low (ctx_kstack c) :: high (ctx_kstack c) :: ctx_kzp c.
Proof. done. Qed.

Lemma lor_bytes_zero v : 0 ≤ v < 65536 → (Z.lor (high v) (low v) =? 0) = (v =? 0).
Proof.
  intros Hv. destruct (Z.eqb_spec v 0) as [->|Hn]; [done|]. apply Z.eqb_neq. intros [Hh Hl]%Z.lor_eq_0_iff.
  apply Hn. rewrite <- (word_low_high v Hv), Hh, Hl. done.
Qed.

Lemma swap_in_kstack_ok s q c rest :
  cpu_ok s → ctx_ok c → rY s = 67 → current s = q → blocks s !! q = Some (ctx_bytes c ++ rest) →
  ∃ s', swap_in_kstack s = Ok ((), s') ∧ registers_in q c rest s s' ∧
    page1 s' = page1 s ∧ current s' = q ∧ in_kernel s' = in_kernel s.
Proof.
  intros [Hpg Hrc Hby] [_ Hst Hk Hkz] HY <- Hb. destruct (rc_split _ Hrc) as (r0 & r1 & R & old & R' & Er & HR & Hold & HR').
  destruct s as [a x y sp fc fz fp r cur ik pg bl]. cbn [rc page1 rS blocks current rY] in *. subst r y.
  apply Forall_cons in Hby as [Hb0 [Hb1 _]%Forall_cons].
  rewrite ctx_bytes_kstack, <- app_assoc in Hb. cbn [app] in Hb.
  set (A' := ctx_S c :: low (ctx_AX c) :: high (ctx_AX c) :: ctx_stack c) in *.
  change (_ :: _ :: _ :: ctx_stack c ++ ?t) with (A' ++ t) in Hb.
  set (k0 := low (ctx_kstack c)) in *. set (k1 := high (ctx_kstack c)) in *.
  assert (zlen A' = 67) as HA by (unfold A', zlen, CONFIG_RETURN_STACK_SIZE in *; simpl length; lia).
  assert (rd (A' ++ k0 :: k1 :: ctx_kzp c ++ rest) 67 = Ok k0) as R0 by (by apply (rd_mid A')).
  assert (rd (A' ++ k0 :: k1 :: ctx_kzp c ++ rest) 68 = Ok k1) as R1.
  { assert (A' ++ k0 :: k1 :: ctx_kzp c ++ rest = (A' ++ [k0]) ++ k1 :: ctx_kzp c ++ rest) as -> by (by rewrite <- app_assoc).
    apply rd_mid. rewrite zlen_app, HA. done. }
  unfold swap_in_kstack, iny, dey, ora. erewrite bind_ok; [|istep; apply ldy_ok]. cpu_simpl. change (u8 (67 + 1)) with 68.
  erewrite bind_ok; [|eapply get_ind_y_ok; cpu_simpl; [exact Hb|exact R1]]. istep.
  erewrite bind_ok; [|istep; apply ldy_ok]. cpu_simpl. change (u8 (68 - 1)) with 67.
  erewrite bind_ok; [|eapply get_ind_y_ok; cpu_simpl; [exact Hb|exact R0]].
  erewrite bind_ok; [|istep; apply lda_ok]. cpu_simpl. istep.
  unfold registers_in. pose proof (lor_bytes_zero _ Hk) as Ez. fold k0 k1 in Ez. rewrite Ez. destruct (ctx_kstack c =? 0) eqn:Ek.
  - unfold swap_in_set_kstack. erewrite bind_ok; [|apply get_rc_ok; cpu_simpl; reflexivity]. istep.
    assert (∀ v, wr (A' ++ k0 :: k1 :: ctx_kzp c ++ rest) 67 v = Ok (A' ++ v :: k1 :: ctx_kzp c ++ rest)) as W0 by (intros; by apply wr_mid).
    assert (∀ u v, wr (A' ++ u :: k1 :: ctx_kzp c ++ rest) 68 v = Ok (A' ++ u :: v :: ctx_kzp c ++ rest)) as W1.
    { intros u v. assert (∀ w, A' ++ u :: w :: ctx_kzp c ++ rest = (A' ++ [u]) ++ w :: ctx_kzp c ++ rest) as Ew by (intros; by rewrite <- app_assoc).
      rewrite !Ew. apply wr_mid. rewrite zlen_app, HA. done. }
    erewrite bind_ok; [|unfold sta; istep; eapply put_ind_y_ok; cpu_simpl; [exact Hb|apply W0]]. cpu_simpl.
    unfold iny. erewrite bind_ok; [|istep; apply ldy_ok]. cpu_simpl. change (u8 (67 + 1)) with 68.
    erewrite bind_ok; [|apply get_rc_ok; cpu_simpl; reflexivity]. istep. unfold sta. istep.
    eexists. split; [eapply put_ind_y_ok; cpu_simpl; [apply lookup_insert_eq|apply W1]|]. cpu_simpl. rewrite insert_insert_eq.
    split; [split; [done|]|done]. rewrite ctx_bytes_kstack, <- app_assoc. unfold rc_word. cbn. cbv [default]. unfold id.
    by rewrite low_word, high_word.
  - erewrite bind_ok; [|eapply get_ind_y_ok; cpu_simpl; [exact Hb|exact R0]]. istep.
    erewrite bind_ok; [|unfold sta; istep; apply put_rc_ok; cpu_simpl; apply (wr_mid []); done]. cpu_simpl.
    unfold iny. erewrite bind_ok; [|istep; apply ldy_ok]. cpu_simpl. change (u8 (67 + 1)) with 68.
    erewrite bind_ok; [|eapply get_ind_y_ok; cpu_simpl; [exact Hb|exact R1]]. istep.
    erewrite bind_ok; [|unfold sta; istep; apply put_rc_ok; cpu_simpl; apply (wr_mid [k0]); done]. cpu_simpl. istep.
    edestruct swap_imag_ok with (R := k0 :: k1 :: R) (dst := old) (R' := R') (A' := A' ++ [k0; k1]) (src := ctx_kzp c) (B' := rest)
      as (a4 & y4 & E4); cycle -1.
    1: eexists; split; [exact E4|]; cpu_simpl; split; [split; [|done]|done].
    1: rewrite rc_pieces by done; done.
    1: cpu_simpl; reflexivity.
    1: cpu_simpl; rewrite Hb, <- !app_assoc; reflexivity.
    1-9: cpu_simpl; try (rewrite zlen_app, HA; change (zlen [k0; k1]) with 2).
    1-9: unfold zlen in *; simpl length; try lia. intros E; by rewrite E in Hkz.
Qed.
(** The hardware stack once the part above [S] is that of [stack]. *)
Definition stack_in (S : Z) (stack pg : list Z) : list Z :=
  take (Z.to_nat (S + 1)) pg ++ drop (Z.to_nat (S + 1)) stack ++ drop 64 pg.

Lemma stack_in_rd S stack pg i :
  0 ≤ S → zlen stack = 64 → zlen pg = 256 → S < i < 64 → rd (stack_in S stack pg) i = rd stack i.
Proof.
  intros HS Hst Hpg Hi. unfold rd, stack_in. rewrite (proj2 (Z.ltb_ge i 0)) by lia. f_equal. unfold zlen in *.
  rewrite lookup_app_r; rewrite length_take; [|lia]. rewrite lookup_app_l by (rewrite length_drop; lia).
  rewrite lookup_drop. f_equal. lia.
Qed.

(** The end of the switch: the stack pointer and the value of the new process,
    and the way back with rti. *)
Lemma swap_in_switch_stack_ok s b t P pc S' :
  blocks s !! current s = Some (b ++ t) → zlen b = 3 →
  ∀ sp ax, b = [sp; low ax; high ax] → 0 ≤ sp ≤ 60 → cpu_rti sp (page1 s) = Ok (P, pc, S') →
  ∃ s', swap_in_switch_stack s = Ok (pc, s') ∧ rS s' = S' ∧ rA s' = low ax ∧ rX s' = high ax ∧
    page1 s' = page1 s ∧ current s' = current s ∧ in_kernel s' = u8 (in_kernel s - 1) ∧ rc s' = rc s ∧ blocks s' = blocks s.
Proof.
  intros Hb _ sp ax -> Hsp Hr. destruct s as [a x y sp0 fc fz fp r cur ik pg bl]. cbn [blocks current page1] in *.
  unfold cpu_rti in Hr. destruct (rd pg (sp + 1)) as [P0|] eqn:E1; [|done]. destruct (rd pg (sp + 2)) as [lo|] eqn:E2; [|done].
  destruct (rd pg (sp + 3)) as [hi|] eqn:E3; [|done]. cbn [mbind res_bind] in Hr. injection Hr as <- <- <-.
  cbn [app] in Hb. unfold swap_in_switch_stack.
  edestruct lda_block_first_ok as (y1 & E); cycle -1.
  1: erewrite bind_ok; [|exact E]; clear E; cpu_simpl.
  2: exact Hb.
  2: reflexivity.
  unfold tax, txs. erewrite bind_ok; [|istep; apply ldx_ok]. cpu_simpl. erewrite bind_ok; [|istep; apply modify_ok]. cpu_simpl.
  assert (∀ a1 x1 y1 z1, ∃ y2 z2, load_AX (Cpu a1 x1 y1 sp fc z1 fp r cur ik pg bl) =
    Ok ((), Cpu (low ax) (high ax) y2 sp fc z2 fp r cur ik pg bl)) as Hload.
  { intros a1 x1 y2 z1. do 2 eexists. unfold load_AX, tax, dey. istep.
    erewrite bind_ok; [|eapply get_ind_y_ok; [exact Hb|reflexivity]]. istep.
    erewrite bind_ok; [|istep; apply ldx_ok]. cpu_simpl. erewrite bind_ok; [|istep; apply ldy_ok]. cpu_simpl.
    erewrite bind_ok; [|eapply get_ind_y_ok; [exact Hb|reflexivity]]. reflexivity. }
  edestruct Hload as (y2 & z2 & E). erewrite bind_ok; [|exact E]. clear E.
  unfold dec_in_kernel. erewrite bind_ok; [|istep; istep; reflexivity]. cpu_simpl.
  eexists. split.
  - unfold rti. erewrite bind_ok; [|apply pull_ok; cpu_simpl; rewrite (u8_small (sp + 1)) by lia; exact E1]. cpu_simpl. istep.
    unfold set_status. cpu_simpl. rewrite (u8_small (sp + 1)) by lia.
    erewrite bind_ok; [|apply pull_ok; cpu_simpl; rewrite (u8_small (sp + 1 + 1)) by lia;
      replace (sp + 1 + 1) with (sp + 2) by lia; exact E2]. cpu_simpl. rewrite (u8_small (sp + 1 + 1)) by lia.
    erewrite bind_ok; [|apply pull_ok; cpu_simpl; rewrite (u8_small (sp + 1 + 1 + 1)) by lia;
      replace (sp + 1 + 1 + 1) with (sp + 3) by lia; exact E3]. cpu_simpl. reflexivity.
  - cpu_simpl. split_and!; try done. f_equal. lia.
Qed.

Lemma swap_in_new_ok s q c rest P pc S' :
  cpu_ok s → ctx_ok c → 0 ≤ q < 65536 → rd (rc s) 2 = Ok (low q) → rd (rc s) 3 = Ok (high q) →
  blocks s !! q = Some (ctx_bytes c ++ rest) → cpu_rti (ctx_S c) (ctx_stack c) = Ok (P, pc, S') →
  ∃ s', swap_in_new s = Ok (pc, s') ∧ rS s' = S' ∧ rA s' = low (ctx_AX c) ∧ rX s' = high (ctx_AX c) ∧
    page1 s' = stack_in (ctx_S c) (ctx_stack c) (page1 s) ∧ current s' = q ∧ in_kernel s' = u8 (in_kernel s - 1) ∧
    registers_in q c rest s s'.
Proof.
  intros Hok Hc Hq H2 H3 Hb Hr. pose proof Hok as [Hpg Hrc Hby]. pose proof Hc as [HS Hst Hk Hkz].
  destruct s as [a x y sp fc fz fp r cur ik pg bl]. cbn [rc page1 rS blocks current rY in_kernel] in *.
  unfold swap_in_new. erewrite bind_ok; [|apply get_rc_ok; exact H2]. istep. erewrite bind_ok; [|apply get_rc_ok; exact H3]. istep.
  rewrite word_low_high by done. istep.
  edestruct lda_block_first_ok as (y1 & E); cycle -1.
  1: erewrite bind_ok; [|exact E]; clear E; cpu_simpl.
  2: cpu_simpl; exact Hb.
  2: reflexivity.
  erewrite bind_ok; [|apply modify_ok]. cpu_simpl.
  erewrite bind_ok; [|apply adc_clear_ok; cpu_simpl; [done|lia]]. cpu_simpl.
  unfold tay. erewrite bind_ok; [|istep; apply ldy_ok]. cpu_simpl.
  set (n := Z.to_nat (ctx_S c + 1)). unfold zlen, CONFIG_RETURN_STACK_SIZE in *.
  edestruct swap_in_loop_ok with (A := take n pg) (dst := take (64 - n) (drop n pg)) (B := drop 64 pg)
    (A' := ctx_S c :: low (ctx_AX c) :: high (ctx_AX c) :: take n (ctx_stack c)) (src := drop n (ctx_stack c))
    (B' := low (ctx_kstack c) :: high (ctx_kstack c) :: ctx_kzp c ++ rest) as [a1 E]; cycle -1.
  1: erewrite bind_ok; [|exact E]; clear E; cpu_simpl.
  2: cpu_simpl; rewrite <- (take_drop n pg) at 1; f_equal; rewrite <- (take_drop (64 - n) (drop n pg)) at 1; f_equal;
     rewrite drop_drop; f_equal; unfold n; lia.
  2: cpu_simpl; rewrite Hb; unfold ctx_bytes; cbn [app]; do 4 f_equal; rewrite (app_assoc (take n _)), take_drop, <- app_assoc; done.
  2-6: cpu_simpl; unfold zlen; simpl length; rewrite ?length_take, ?length_drop; unfold n; lia.
  edestruct swap_in_kstack_ok with (q := q) (c := c) (rest := rest) as (s2 & E & Hin & Hp2 & Hc2 & Hk2); cycle -1.
  1: erewrite bind_ok; [|exact E]; clear E.
  2: { split; cpu_simpl; [|done|done]. unfold stack_in, zlen. rewrite !length_app, length_take, !length_drop. lia. }
  2-4: done.
  2: exact Hb.
  cbn [page1 in_kernel] in *. change (page1 s2 = stack_in (ctx_S c) (ctx_stack c) pg) in Hp2.
  assert (∃ t, blocks s2 !! current s2 = Some ([ctx_S c; low (ctx_AX c); high (ctx_AX c)] ++ t)) as [t Ht].
  { rewrite Hc2. unfold registers_in in Hin. destruct (_ =? 0).
    - destruct Hin as [_ ->]. rewrite lookup_insert_eq. by eexists.
    - destruct Hin as [_ ->]. cbn [blocks]. rewrite Hb. by eexists. }
  destruct (swap_in_switch_stack_ok s2 _ t P pc S' Ht eq_refl _ _ eq_refl HS) as (s3 & E3 & HS3 & HA & HX & Hp3 & Hc3 & Hk3 & Hr3 & Hb3).
  { rewrite Hp2. unfold cpu_rti in *. rewrite !stack_in_rd by (unfold zlen; lia). exact Hr. }
  exists s3. split; [exact E3|]. split; [exact HS3|]. split; [exact HA|]. split; [exact HX|].
  split; [exact (eq_trans Hp3 Hp2)|]. split; [exact (eq_trans Hc3 Hc2)|].
  split; [exact (eq_trans Hk3 (f_equal (λ k, u8 (k - 1)) Hk2))|].
  unfold registers_in in *. by rewrite <- Hr3, <- Hb3 in Hin.
Qed.

(** ** The whole switch *)

Lemma switch_prefix s q :
  0 ≤ q < 65536 → 0 ≤ current s < 65536 → rd (rc s) 2 = Ok (low q) → rd (rc s) 3 = Ok (high q) → current s ≠ q →
  ∃ a fc fz, proc_switch_to s =
    (_ ← (if current s =? 0 then mret () else swap_out); swap_in_new) (set_A a (set_flags fc fz s)).
Proof.
  intros Hq Hp H2 H3 Hne. destruct s as [a x y sp fc fz fp r cur ik pg bl]. cbn [rc current] in *.
  assert (∀ a1 (c1 z1 : bool), ∃ a (b z : bool), (_ ← lda (low cur); _ ← ora (high cur); none ← gets flagZ;
    _ ← (if none : bool then mret () else swap_out); swap_in_new) (Cpu a1 x y sp c1 z1 fp r cur ik pg bl) =
    (_ ← (if cur =? 0 then mret () else swap_out); swap_in_new) (Cpu a x y sp b z fp r cur ik pg bl)) as Hend.
  { intros a1 c1 z1. do 3 eexists. istep. unfold ora. erewrite bind_ok; [|istep; apply lda_ok]. cpu_simpl. istep.
    rewrite Z.lor_comm, lor_bytes_zero by done. reflexivity. }
  unfold proc_switch_to, cmp. erewrite bind_ok; [|apply get_rc_ok; exact H2]. istep. istep.
  erewrite bind_ok; [|istep; apply modify_ok]. cpu_simpl. istep.
  destruct (Z.eqb_spec (low q) (low cur)) as [El|_].
  - erewrite bind_ok; [|erewrite bind_ok; [|apply get_rc_ok; exact H3]; istep; erewrite bind_ok; [|istep; apply modify_ok]; cpu_simpl;
      apply gets_ok]. cpu_simpl.
    destruct (Z.eqb_spec (high q) (high cur)) as [Eh|_]; [|apply Hend].
    destruct Hne. by rewrite <- (word_low_high cur), <- (word_low_high q), El, Eh by done.
  - erewrite bind_ok; [|reflexivity]. apply Hend.
Qed.

Lemma cpu_ok_flags s a fc fz : cpu_ok s → cpu_ok (set_A a (set_flags fc fz s)).
Proof. intros [??]. by split. Qed.

(** A process that the switch can go to, and how it goes on. *)
Definition switchable (q : Z) c rest P pc S' s : Prop :=
  0 ≤ q < 65536 ∧ ctx_ok c ∧ blocks s !! q = Some (ctx_bytes c ++ rest) ∧ cpu_rti (ctx_S c) (ctx_stack c) = Ok (P, pc, S').
(** The argument of proc_switch_to(). *)
Definition to_proc (q : Z) s : Prop := rd (rc s) 2 = Ok (low q) ∧ rd (rc s) 3 = Ok (high q) ∧ current s ≠ q.

Definition entered_at (q : Z) c (S' : Z) s : Prop :=
  current s = q ∧ rS s = S' ∧ rA s = low (ctx_AX c) ∧ rX s = high (ctx_AX c).

Lemma rd_take (l : list Z) (n : nat) i : i < Z.of_nat n → rd (take n l) i = rd l i.
Proof.
  intros Hi. unfold rd. destruct (Z.ltb_spec i 0); [done|]. f_equal. rewrite lookup_take_lt by lia. done.
Qed.

Lemma kzp_length_rc (r kzp : list Z) :
  zlen r = 32 → zlen kzp = 12 → zlen (take 12 r ++ kzp ++ drop 24 r) = 32.
Proof. unfold zlen. intros Hr Hk. rewrite !length_app, length_take, length_drop. lia. Qed.

(** The current process, if there is one: its context before the switch. *)
Definition leaving (o : option (proc_context * list Z)) s : Prop :=
  match o with
  | None => current s = 0
  | Some (cp, restp) =>
      0 < current s < 65536 ∧ ctx_ok cp ∧ Forall (λ v, 0 ≤ v < 256) (ctx_kzp cp) ∧
      blocks s !! current s = Some (ctx_bytes cp ++ restp) ∧ 3 ≤ rS s ≤ 63
  end.
(** What it leaves behind in [s1]. *)
Definition left_behind (o : option (proc_context * list Z)) s s1 : Prop :=
  match o with
  | None => blocks s1 = blocks s ∧ page1 s1 = page1 s ∧ rc s1 = rc s
  | Some (cp, restp) => ∃ fl,
      blocks s1 = <[current s := ctx_bytes (switched_out fl s cp) ++ restp]> (blocks s) ∧
      page1 s1 = take (Z.to_nat (rS s - 2)) (page1 s) ++ return_frame fl ++ drop (Z.to_nat (rS s + 1)) (page1 s) ∧
      rc s1 = take 12 (rc s) ++ ctx_kzp cp ++ drop 24 (rc s)
  end.

Lemma left_behind_facts o s s1 :
  cpu_ok s → leaving o s → left_behind o s s1 →
  cpu_ok s1 ∧ take 12 (rc s1) = take 12 (rc s) ∧ drop 24 (rc s1) = drop 24 (rc s) ∧
  ∀ q, q ≠ current s → blocks s1 !! q = blocks s !! q.
Proof.
  intros Hok Hlv Hleft. destruct o as [[cp restp]|]; [|destruct Hleft as (Hb1 & Hp1 & Hr1)]; cycle 1.
  { destruct Hok. split_and!; [by split; rewrite ?Hp1, ?Hr1|by rewrite Hr1|by rewrite Hr1|by rewrite Hb1]. }
  destruct Hlv as (Hp & [_ _ _ Hkl] & Hkz & Hbp & HS), Hleft as (fl & Hb1 & Hp1 & Hr1).
  destruct Hok as [Hpg Hrc Hby]. assert (length (take 12 (rc s)) = 12%nat) as Ht
    by (rewrite length_take; unfold zlen in *; lia).
  split_and!.
  - split.
    + rewrite Hp1. unfold zlen in *. rewrite !length_app, length_take, length_drop. cbn [length return_frame]. lia.
    + rewrite Hr1. by apply kzp_length_rc.
    + rewrite Hr1. apply Forall_app. split; [by apply Forall_take|]. apply Forall_app. split; [done|by apply Forall_drop].
  - rewrite Hr1. by apply take_app_length'.
  - rewrite Hr1, app_assoc, drop_app_length'; [done|]. rewrite length_app, Ht. unfold zlen in *. lia.
  - intros q Hq. rewrite Hb1. by rewrite lookup_insert_ne.
Qed.

Lemma proc_switch_to_ok o s q c rest P pc S' :
  cpu_ok s → leaving o s → to_proc q s → switchable q c rest P pc S' s →
  ∃ s1 s', left_behind o s s1 ∧ proc_switch_to s = Ok (pc, s') ∧ entered_at q c S' s' ∧
    page1 s' = stack_in (ctx_S c) (ctx_stack c) (page1 s1) ∧ in_kernel s' = u8 (in_kernel s - 1) ∧
    registers_in q c rest s1 s'.
Proof.
  intros Hok Hleave (H2 & H3 & Hne) (Hq & Hc & Hb & Hr).
  assert (0 ≤ current s < 65536) as Hcur by (destruct o as [[??]|]; [destruct Hleave as (? & _)|simpl in Hleave]; lia).
  destruct (switch_prefix s q Hq Hcur H2 H3 Hne) as (a & c1 & z & E0).
  assert (∃ s1, left_behind o s s1 ∧ in_kernel s1 = in_kernel s ∧ proc_switch_to s = swap_in_new s1) as (s1 & Hs1 & Hk1 & E1).
  { rewrite E0. clear E0. destruct o as [[cp restp]|]; [destruct Hleave as (Hp & Hcp & Hkz & Hbp & HS)|]; cycle 1.
    - simpl in Hleave. rewrite Hleave. cbn [Z.eqb]. eexists. split; [|split; [|mstep by reflexivity; reflexivity]]; done.
    - rewrite (proj2 (Z.eqb_neq (current s) 0)) by lia.
      destruct (swap_out_ok (set_A a (set_flags c1 z s)) cp restp) as (s1 & E1 & Hb1 & Hp1 & Hr1 & Hc1 & Hk1);
        try done; [by apply cpu_ok_flags|].
      exists s1. split; [|split; [done|by mstep by exact E1]]. by eexists. }
  destruct (left_behind_facts o s s1 Hok Hleave Hs1) as (Hok1 & Htake & _ & Hbq).
  assert (∀ i, i < 12 → rd (rc s1) i = rd (rc s) i) as Hrd.
  { intros i Hi. by rewrite <- (rd_take (rc s1) 12 i), Htake, rd_take by lia. }
  destruct (swap_in_new_ok s1 q c rest P pc S') as (s' & E & HS' & HA & HX & Hp' & Hcur' & Hk & Hin); try done.
  { by rewrite Hrd. } { by rewrite Hrd. } { by rewrite Hbq. }
  exists s1, s'. rewrite E1, Hk, Hk1. by split_and!.
Qed.

(** The first call of proc_switch_to(), by way of schedule(): the kernel's
    thread is at the depth that a process would be at. *)
Lemma sched_start_depth s r1 r2 :
  cpu_ok s → ∃ s', (_ ← sched_start; _ ← jsr_push r1; jsr_push r2) s = Ok ((), s') ∧ rS s' = 60 ∧ in_kernel s' = u8 (in_kernel s + 1).
Proof.
  intros [Hpg _ _]. destruct s as [a x y sp fc fz fp r cur ik pg bl]. cbn [page1 in_kernel] in *.
  assert (∀ (pg : list Z) v i, zlen pg = 256 → 0 ≤ i < 256 → ∃ pg', wr pg i v = Ok pg' ∧ zlen pg' = 256) as Hw.
  { intros pg' v i Hl Hi. eexists. split; [apply wr_ok; lia|]. unfold zlen. by rewrite length_insert. }
  destruct (Hw pg (high (u16 (r1 - 1))) 64) as (p1 & E1 & H1); [done|lia|]. destruct (Hw p1 (low (u16 (r1 - 1))) 63) as (p2 & E2 & H2); [done|lia|].
  destruct (Hw p2 (high (u16 (r2 - 1))) 62) as (p3 & E3 & H3); [done|lia|]. destruct (Hw p3 (low (u16 (r2 - 1))) 61) as (p4 & E4 & H4); [done|lia|].
  eexists. split.
  - unfold sched_start, txs, inc_in_kernel, jsr_push. erewrite bind_ok; [|istep; erewrite bind_ok; [|istep; apply modify_ok]; cpu_simpl; do 2 istep; reflexivity].
    cpu_simpl. erewrite bind_ok; [|erewrite bind_ok; [|apply cpu_push_ok; exact E1]; apply cpu_push_ok; exact E2].
    erewrite bind_ok; [|apply cpu_push_ok; exact E3]. apply cpu_push_ok. exact E4.
  - done.
Qed.

(** ** Coming back *)

Definition with_AX (ax : Z) c : proc_context := ProcContext (ctx_S c) ax (ctx_stack c) (ctx_kstack c) (ctx_kzp c).

Lemma rc_word_range s : cpu_ok s → 0 ≤ rc_word s 0 < 65536.
Proof.
  intros [_ Hrc Hby]. destruct (rc_split _ Hrc) as (r0 & r1 & R & old & R' & Er & _). rewrite Er in Hby.
  apply Forall_cons in Hby as [H0 [H1 _]%Forall_cons]. unfold rc_word. rewrite Er. cbn. unfold word_of. lia.
Qed.

Lemma switched_out_stack_rd fl s c i :
  zlen (page1 s) = 256 → zlen (ctx_stack c) = 64 → 3 ≤ rS s → rS s < i < 64 →
  rd (ctx_stack (switched_out fl s c)) i = rd (page1 s) i.
Proof.
  intros Hpg Hst HS Hi. cbn [ctx_stack switched_out]. unfold rd. rewrite (proj2 (Z.ltb_ge i 0)) by lia. f_equal. unfold zlen in *.
  rewrite app_assoc, lookup_app_r; rewrite length_app, length_take; cbn [length return_frame]; [|lia].
  rewrite lookup_drop. rewrite lookup_take_lt by lia. f_equal. lia.
Qed.

Lemma switched_out_ok fl s c ax :
  cpu_ok s → ctx_ok c → 3 ≤ rS s ≤ 63 →
  ctx_ok (with_AX ax (switched_out fl s c)) ∧
  cpu_rti (rS s - 3) (ctx_stack (switched_out fl s c)) = Ok (fl, addr_swap_in_return, rS s).
Proof.
  intros Hok [_ Hst _ Hkz] HS. pose proof (rc_word_range s Hok) as Hw. destruct Hok as [Hpg _ _]. unfold CONFIG_RETURN_STACK_SIZE in *. split.
  - split; cbn [ctx_S ctx_stack ctx_kstack ctx_kzp switched_out with_AX]; [lia| |done|done].
    unfold zlen, CONFIG_RETURN_STACK_SIZE in *. rewrite !length_app, !length_take, length_drop, length_take. cbn [length return_frame]. lia.
  - assert (zlen (take (Z.to_nat (rS s - 2)) (ctx_stack c)) = rS s - 2) as Hl by (unfold zlen in *; rewrite length_take; lia).
    unfold cpu_rti, switched_out, return_frame. cbn [ctx_stack]. set (lo := take _ (ctx_stack c)) in *. cbn [app].
    set (st := lo ++ _).
    assert (∀ k v B i, st = k ++ v :: B → i = zlen k → rd st i = Ok v) as Hrd by (intros ???? -> ->; by apply rd_app_at).
    assert (∀ v : Z, zlen [v] = 1) as H1 by done.
    rewrite (Hrd lo fl _ (rS s - 3 + 1)) by (reflexivity || lia). cbn [mbind res_bind].
    erewrite (Hrd (lo ++ [fl]) _ _ (rS s - 3 + 2)); [|by rewrite <- app_assoc|rewrite zlen_app, H1; lia]. cbn [mbind res_bind].
    erewrite (Hrd (lo ++ [fl] ++ [_]) _ _ (rS s - 3 + 3)); [|by rewrite <- !app_assoc|rewrite !zlen_app, !H1; lia]. cbn [mbind res_bind].
    f_equal. f_equal; [f_equal; apply word_low_high, addr_swap_in_return_range|]. rewrite u8_small; lia.
Qed.

Lemma pull_rd v s : 0 ≤ rS s < 255 → rd (page1 s) (rS s + 1) = Ok v → pull s = Ok (v, set_S (rS s + 1) s).
Proof. intros HS E. rewrite <- (u8_small (rS s + 1)) by lia. apply pull_ok. by rewrite u8_small by lia. Qed.

Lemma rts_rd s ret S' : 0 ≤ rS s < 254 → cpu_rts (rS s) (page1 s) = Ok (ret, S') → rts s = Ok (ret, set_S S' s).
Proof.
  intros HS. unfold cpu_rts, rts. destruct (rd _ (rS s + 1)) as [lo|] eqn:E1; [|done].
  destruct (rd _ (rS s + 2)) as [hi|] eqn:E2; [|done]. intros [= <- <-]. rewrite u8_small by lia.
  destruct s as [a x y sp fc fz fp r cur ik pg bl]. cpu_simpl. cbn [rS page1] in *.
  erewrite bind_ok; [|apply pull_rd; cpu_simpl; [lia|exact E1]]. cpu_simpl.
  erewrite bind_ok; [|apply pull_rd; cpu_simpl; [lia|replace (sp + 1 + 1) with (sp + 2) by lia; exact E2]]. cpu_simpl.
  by replace (sp + 1 + 1) with (sp + 2) by lia.
Qed.

(** .Lswap_in_return: the way back to the caller of proc_switch_to(). *)
Lemma swap_in_return_ok s ret S' :
  0 ≤ rS s ≤ 61 → cpu_rts (rS s) (page1 s) = Ok (ret, S') →
  ∃ z, swap_in_return s = Ok (ret, set_S S' (set_in_kernel (u8 (in_kernel s + 1)) (set_flags (flagC s) z s))).
Proof.
  intros HS Hr. eexists. unfold swap_in_return, inc_in_kernel. erewrite bind_ok; [|istep; istep; reflexivity].
  by apply rts_rd; [cpu_simpl; unfold rS in HS; lia|].
Qed.

Lemma rc_word_bytes s : cpu_ok s → take 2 (rc s) = [low (rc_word s 0); high (rc_word s 0)].
Proof.
  intros [_ Hrc Hby]. destruct (rc_split _ Hrc) as (r0 & r1 & R & old & R' & Er & _). rewrite Er in Hby.
  apply Forall_cons in Hby as [H0 [H1 _]%Forall_cons]. unfold rc_word. rewrite Er. cbn. cbv [default]. unfold id.
  by rewrite low_word, high_word.
Qed.

Lemma rc_switched (r kzp : list Z) a b :
  zlen r = 32 → zlen kzp = 12 →
  let r' := a :: b :: take 10 (drop 2 r) ++ kzp ++ drop 24 r in
  take 2 r' = [a; b] ∧ take 12 (drop 12 r') = kzp ∧ drop 24 r' = drop 24 r.
Proof.
  intros Hr Hk. cbv zeta. unfold zlen in *. assert (length (take 10 (drop 2 r)) = 10%nat) as Hl by (rewrite length_take, length_drop; lia).
  split; [done|]. change (drop 12 (a :: b :: ?l)) with (drop 10 l). change (drop 24 (a :: b :: ?l)) with (drop 22 l). split.
  - rewrite drop_app_length' by done. apply take_app_length'. lia.
  - rewrite app_assoc. apply drop_app_length'. rewrite length_app. lia.
Qed.

(** The process of [s] goes on in [s3], behind its call of proc_switch_to(),
    with the value [ax]; the process of [s2] switched to it. *)
Record came_back s (kzp : list Z) s2 (ax ret : Z) s3 : Prop := {
  cb_ret : cpu_rts (rS s) (page1 s) = Ok (ret, rS s3);
  cb_current : current s3 = current s;
  cb_value : rA s3 = low ax ∧ rX s3 = high ax;
  cb_in_kernel : in_kernel s3 = u8 (in_kernel s2);
  cb_stack : ∀ i, rS s < i < 64 → rd (page1 s3) i = rd (page1 s) i;
  cb_soft_stack : take 2 (rc s3) = take 2 (rc s);
  cb_kzp : take 12 (drop 12 (rc s3)) = kzp;
  cb_rc : drop 24 (rc s3) = drop 24 (rc s2);
}.

Lemma switch_back s cp restp fl o s2 ax :
  cpu_ok s → ctx_ok cp → 0 ≤ current s < 65536 → 3 ≤ rS s ≤ 61 → rc_word s 0 ≠ 0 →
  cpu_ok s2 → leaving o s2 → to_proc (current s) s2 →
  blocks s2 !! current s = Some (ctx_bytes (with_AX ax (switched_out fl s cp)) ++ restp) →
  ∃ s3 ret, (pc ← proc_switch_to; resume pc) s2 = Ok (ret, s3) ∧ came_back s (ctx_kzp cp) s2 ax ret s3.
Proof.
  intros Hok Hcp Hp HS Hw Hok2 Hleave2 Hto2 Hb2. pose proof Hok as [Hpg _ _]. pose proof Hcp as [_ Hst _ Hkl].
  destruct (switched_out_ok fl s cp ax Hok Hcp ltac:(lia)) as [Hcx Hrti].
  destruct (proc_switch_to_ok o s2 (current s) (with_AX ax (switched_out fl s cp)) restp fl addr_swap_in_return (rS s))
    as (s21 & s3 & Hleft & E3 & (Hc3 & HS3 & HA3 & HX3) & Hp3 & Hk3 & Hin); try done.
  destruct (left_behind_facts _ _ _ Hok2 Hleave2 Hleft) as ([Hpg2 Hrc2 _] & _ & Hd & _).
  assert (∀ i, rS s < i < 64 → rd (page1 s3) i = rd (page1 s) i) as Hrd.
  { intros i Hi. rewrite Hp3. rewrite stack_in_rd; cbn [ctx_S with_AX switched_out]; [|lia|apply Hcx|done|lia].
    by apply switched_out_stack_rd; [..|lia|lia]. }
  assert (∃ ret, cpu_rts (rS s) (page1 s) = Ok (ret, u8 (rS s + 2))) as [ret Hret].
  { unfold cpu_rts. destruct (rd_ok (page1 s) (rS s + 1)) as (lo & -> & _); [lia|].
    destruct (rd_ok (page1 s) (rS s + 2)) as (hi & -> & _); [lia|]. by eexists. }
  destruct (swap_in_return_ok s3 ret (u8 (rS s + 2))) as [z E4]; [lia| |].
  { rewrite <- Hret, HS3. unfold cpu_rts. by rewrite !Hrd by lia. }
  eexists _, ret. split; [mstep by exact E3; unfold resume; rewrite Z.eqb_refl; exact E4|].
  unfold registers_in in Hin. cbn [ctx_kstack ctx_kzp with_AX switched_out] in Hin. rewrite (proj2 (Z.eqb_neq _ 0) Hw) in Hin.
  destruct Hin as [Hr3 _]. destruct (rc_switched (rc s21) (ctx_kzp cp) (low (rc_word s 0)) (high (rc_word s 0)) Hrc2 Hkl) as (T1 & T2 & T3).
  rewrite <- Hr3 in T1, T2, T3. split; [exact Hret|exact Hc3|by split| |exact Hrd| |exact T2|by rewrite <- Hd].
  - cbn [in_kernel set_S set_in_kernel]. rewrite Hk3. unfold u8. rewrite Zplus_mod_idemp_l. f_equal. lia.
  - rewrite (rc_word_bytes s) by done. exact T1.
Qed.

(** C18: A switch away from a process and back: the switch enters the other
    process with the value that waits for it, and saves the way back.  Whenever
    any process switches to the saved one later, with a value put in its block
    meanwhile, proc_switch_to() returns that value to the caller of the first
    switch, at its stack depth, with the return addresses above and the soft
    stack pointer as they were.  RC12 to RC23 are those that the block held from
    the start, and RC24 to RC31 those of the process that switched back: neither
    is saved. *)
Theorem proc_switch_roundtrip s cp restp q c rest P pc S' :
  cpu_ok s → leaving (Some (cp, restp)) s → rS s ≤ 61 → rc_word s 0 ≠ 0 →
  to_proc q s → switchable q c rest P pc S' s →
  ∃ s' saved, proc_switch_to s = Ok (pc, s') ∧ entered_at q c S' s' ∧ in_kernel s' = u8 (in_kernel s - 1) ∧
    blocks s' !! current s = Some (ctx_bytes saved ++ restp) ∧ ctx_AX saved = ctx_AX cp ∧
    ∀ o s2 ax, cpu_ok s2 → leaving o s2 → to_proc (current s) s2 →
      blocks s2 !! current s = Some (ctx_bytes (with_AX ax saved) ++ restp) →
      ∃ s3 ret, (pc ← proc_switch_to; resume pc) s2 = Ok (ret, s3) ∧ came_back s (ctx_kzp cp) s2 ax ret s3.
Proof.
  intros Hok Hleave HS Hw Hto Hsw.
  destruct (proc_switch_to_ok _ s q c rest P pc S' Hok Hleave Hto Hsw) as (s1 & s' & (fl & Hb1 & _) & E & Hent & _ & Hk & Hin).
  destruct Hleave as (Hp & Hcp & _ & Hb & HS3). pose proof Hto as (_ & _ & Hne).
  exists s', (switched_out fl s cp). do 3 (split; [done|]). split; [|split; [done|]].
  { unfold registers_in in Hin. destruct (_ =? 0); destruct Hin as [_ ->]; [|by rewrite Hb1, lookup_insert_eq].
    by rewrite lookup_insert_ne, Hb1, lookup_insert_eq by done. }
  intros o s2 ax Hok2 Hleave2 Hto2 Hb2. apply (switch_back s cp restp fl o s2 ax); try done; lia.
Qed.

Lemma rc_word_take s s1 : take 12 (rc s1) = take 12 (rc s) → rc_word s1 0 = rc_word s 0.
Proof.
  intros E. unfold rc_word. assert (∀ i, (i < 12)%nat → rc s1 !! i = rc s !! i) as Hi.
  { intros i Hi. by rewrite <- (lookup_take_lt (rc s1) 12), E, lookup_take_lt by lia. }
  by rewrite !Hi by lia.
Qed.

End Switch.

(** ** The first run of a process *)

Section Create.
Context {BC : build_config} {SA : switch_addrs} {R : user_ram} {CA : code_addrs}.
Implicit Types (s : ptable) (c : cpu).

Lemma entered_ctx_ok func argc i ppid q cwd umask :
  ctx_ok (p_context (entered func argc (child i ppid q cwd umask))).
Proof. split; [compute_decide|reflexivity|compute_decide|reflexivity]. Qed.

(** C21: a process of proc_create_internal() is at the end of the run queue, and
    the first switch to it enters its function with argc in A:X and argv in the
    second argument register; when the function returns, it enters proc_stop()
    with an empty stack.  Its kernel data stack is that of the process that
    switched to it, whichever that is, and its block keeps it. *)
Theorem proc_create_enters s s1 Q ppid func argc argv p i cwd umask q :
  proc_create ppid argc (Some argv) s = Ok (inr p, s1) →
  sched_ok (pt_sched s1) Q → zlen (pt_zp s1) = 256 → 0 ≤ i < CONFIG_PROC_MAX →
  procs (pt_sched s1) !! p = Some (child i ppid q cwd umask) →
  0 ≤ p < 65536 → 0 ≤ func < 65536 → 0 ≤ addr_proc_stop < 65536 →
  ∃ s' pr, proc_create_internal ppid func argc (Some argv) s = Ok ((i + 1, Some p), s') ∧
    sched_ok (pt_sched s') (<[QRun := Q !!! QRun ++ [p]]> Q) ∧
    procs (pt_sched s') !! p = Some pr ∧
    memcpy (pt_zp s1) (p_zp pr + 2) [u8 q; u8 (Z.shiftr q 8)] 2 = Ok (pt_zp s') ∧
    ∀ o c rest, cpu_ok c → leaving o c → to_proc p c → blocks c !! p = Some (ctx_bytes (p_context pr) ++ rest) →
      ∃ c', proc_switch_to c = Ok (func, c') ∧ entered_at p (p_context pr) 61 c' ∧ ctx_AX (p_context pr) = argc ∧
        cpu_rts 61 (page1 c') = Ok (addr_proc_stop, CONFIG_RETURN_STACK_SIZE - 1) ∧
        in_kernel c' = u8 (in_kernel c - 1) ∧ take 2 (rc c') = take 2 (rc c) ∧
        blocks c' !! p = Some (ctx_bytes (with_kstack (rc_word c 0) (p_context pr)) ++ rest).
Proof.
  intros E HQ Hz Hi Hp Hp16 Hf Hstop.
  destruct (proc_create_internal_frame s s1 Q ppid func argc argv p i cwd umask q) as
    (s' & pr & E1 & HQ' & Hp' & _ & Hcx & Hrti & Hrts & Hm & _); try done.
  exists s', pr. do 4 (split; [done|]). intros o c rest Hok Hleave Hto Hb.
  pose proof (entered_ctx_ok func argc i ppid q cwd umask) as Hcxok. rewrite <- Hcx in Hcxok.
  assert (ctx_S (p_context pr) = 58 ∧ ctx_AX (p_context pr) = argc ∧ ctx_kstack (p_context pr) = 0) as (HS & HAX & Hks) by by rewrite Hcx.
  destruct (proc_switch_to_ok o c p (p_context pr) rest 0 func 61) as (c1 & c' & Hleft & E2 & Hent & Hpg & Hk & Hin); try done.
  destruct (left_behind_facts _ _ _ Hok Hleave Hleft) as ([Hpg1 _ _] & Htake & _ & _).
  exists c'. do 3 (split; [done|]). unfold registers_in in Hin. rewrite Hks in Hin. cbn [Z.eqb] in Hin.
  destruct Hin as [Hr Hb']. rewrite (rc_word_take c c1 Htake) in Hb'. split_and!.
  - rewrite <- Hrts, Hpg. unfold cpu_rts. rewrite HS. by rewrite !stack_in_rd by (first [done|apply Hcxok]).
  - done.
  - rewrite Hr. apply (f_equal (take 2)) in Htake. by rewrite !take_take in Htake.
  - by rewrite Hb', lookup_insert_eq.
Qed.
End Create.

(** ** The switch of the scheduler's model *)

Section Refine.
Context {BC : build_config} {SA : switch_addrs}.
Implicit Types (t : sched) (s : cpu) (c : proc_context).

(** A block with a context that can be switched to, and the value [ax]. *)
Definition block_ok (b : list Z) (ax : Z) : Prop :=
  ∃ c rest, b = ctx_bytes c ++ rest ∧ ctx_ok c ∧ Forall (λ v, 0 ≤ v < 256) (ctx_kzp c) ∧ ctx_AX c = ax.

(** The processor's blocks and current process are those of the scheduler; of
    the contexts, the scheduler knows the A:X values. *)
Record sched_related t s : Prop := {
  sr_blocks : ∀ q pr, procs t !! q = Some pr →
    0 < q < 65536 ∧ ∃ b, blocks s !! q = Some b ∧ block_ok b (ctx_AX (p_context pr));
  sr_current : match current_proc t with
    | None => current s = 0
    | Some r => current s = r ∧ is_Some (procs t !! r)
    end;
}.

Lemma ctx_rti c : ctx_ok c → ∃ P pc S', cpu_rti (ctx_S c) (ctx_stack c) = Ok (P, pc, S').
Proof.
  intros [HS Hst _ _]. unfold CONFIG_RETURN_STACK_SIZE, cpu_rti in *.
  destruct (rd_ok (ctx_stack c) (ctx_S c + 1)) as (P & -> & _); [lia|]. destruct (rd_ok (ctx_stack c) (ctx_S c + 2)) as (lo & -> & _); [lia|].
  destruct (rd_ok (ctx_stack c) (ctx_S c + 3)) as (hi & -> & _); [lia|]. by do 3 eexists.
Qed.

(** A switch to the current process only returns its value. *)
Lemma proc_switch_same s c rest :
  cpu_ok s → 0 ≤ rS s < 254 → rd (rc s) 2 = Ok (low (current s)) → rd (rc s) 3 = Ok (high (current s)) →
  blocks s !! current s = Some (ctx_bytes c ++ rest) →
  ∃ ret s', proc_switch_to s = Ok (ret, s') ∧ cpu_rts (rS s) (page1 s) = Ok (ret, rS s') ∧
    rA s' = low (ctx_AX c) ∧ rX s' = high (ctx_AX c) ∧ current s' = current s ∧ blocks s' = blocks s ∧ in_kernel s' = in_kernel s.
Proof.
  intros [Hpg _ _] HS H2 H3 Hb. destruct s as [a x y sp fc fz fp r cur ik pg bl]. cbn [rc current blocks rS page1] in *.
  assert (∃ ret, cpu_rts sp pg = Ok (ret, u8 (sp + 2))) as [ret Hret].
  { unfold cpu_rts. destruct (rd_ok pg (sp + 1)) as (lo & -> & _); [lia|]. destruct (rd_ok pg (sp + 2)) as (hi & -> & _); [lia|]. by eexists. }
  exists ret. unfold proc_switch_to, cmp, load_AX, tax, dey.
  erewrite bind_ok; [|apply get_rc_ok; exact H2]. istep. istep. erewrite bind_ok; [|istep; apply modify_ok]. cpu_simpl. istep. rewrite Z.eqb_refl.
  erewrite bind_ok; [|erewrite bind_ok; [|apply get_rc_ok; exact H3]; istep; erewrite bind_ok; [|istep; apply modify_ok]; cpu_simpl; apply gets_ok].
  cpu_simpl. rewrite Z.eqb_refl. eexists. split.
  - erewrite bind_ok; [|istep; erewrite bind_ok; [|eapply get_ind_y_ok; [exact Hb|reflexivity]]; istep;
      erewrite bind_ok; [|istep; apply ldx_ok]; cpu_simpl; erewrite bind_ok; [|istep; apply ldy_ok]; cpu_simpl;
      erewrite bind_ok; [|eapply get_ind_y_ok; [exact Hb|reflexivity]]; apply lda_ok].
    cpu_simpl. apply (rts_rd _ ret (u8 (sp + 2))); [exact HS|exact Hret].
  - by cpu_simpl.
Qed.
(** The values in the blocks survive a switch. *)
Lemma left_behind_blocks o s s1 p b ax :
  cpu_ok s → leaving o s → left_behind o s s1 → blocks s !! p = Some b → block_ok b ax →
  (∀ cp restp, o = Some (cp, restp) → p = current s → ctx_AX cp = ax) →
  ∃ b1, blocks s1 !! p = Some b1 ∧ block_ok b1 ax.
Proof.
  intros Hok Hleave Hleft Hb Hbo Hax. destruct o as [[cp restp]|].
  - destruct Hleft as (fl & -> & _), Hleave as (_ & Hcp & Hkz & _ & HS). destruct (decide (p = current s)) as [->|Hne].
    + rewrite lookup_insert_eq. eexists. split; [done|]. exists (switched_out fl s cp), restp. specialize (Hax _ _ eq_refl eq_refl).
      destruct (switched_out_ok fl s cp (ctx_AX cp) Hok Hcp HS) as [Hx _]. by split_and!.
    + rewrite lookup_insert_ne by done. by eexists.
  - destruct Hleft as (-> & _). by eexists.
Qed.

Lemma registers_in_blocks q c rest s s' p b ax :
  cpu_ok s → registers_in q c rest s s' → blocks s !! q = Some (ctx_bytes c ++ rest) → ctx_ok c → Forall (λ v, 0 ≤ v < 256) (ctx_kzp c) →
  blocks s !! p = Some b → block_ok b ax → (p = q → ctx_AX c = ax) →
  ∃ b1, blocks s' !! p = Some b1 ∧ block_ok b1 ax.
Proof.
  intros Hok Hin Hq Hc Hkz Hb Hbo Hax. unfold registers_in in Hin. destruct (_ =? 0); destruct Hin as [_ ->]; [|by eexists].
  destruct (decide (p = q)) as [->|Hne]; [|rewrite lookup_insert_ne by done; by eexists].
  rewrite lookup_insert_eq. eexists. split; [done|]. exists (with_kstack (rc_word s 0) c), rest. specialize (Hax eq_refl).
  destruct Hc as [H1 H2 _ H4]. split; [done|]. split; [split; try done; by apply rc_word_range|]. by split.
Qed.

Lemma current_leaving t s :
  sched_related t s → 3 ≤ rS s ≤ 63 →
  ∃ o, leaving o s ∧ ∀ cp restp pr, o = Some (cp, restp) → procs t !! current s = Some pr → ctx_AX cp = ctx_AX (p_context pr).
Proof.
  intros [Hb Hc] HS. destruct (current_proc t) as [r|].
  - destruct Hc as [Hc [pr Hpr]]. destruct (Hb _ _ Hpr) as (Hr & b & Hbl & cp & restp & -> & Hcp & Hkz & HAX).
    rewrite <- Hc in *. exists (Some (cp, restp)). split; [split_and!; try done; lia|]. intros ? ? pr' [= <- <-] Hpr'. congruence.
  - by exists None.
Qed.

(** C19: The instructions of proc_switch_to() do what the scheduler's model says
    of them: from related states the processor goes on with the process that the
    model switches to, in A:X the value that the model returns, and the states
    are related again; a switch to the current process returns to its caller. *)
Theorem proc_switch_refines t s p ax t' :
  cpu_ok s → sched_related t s → 3 ≤ rS s ≤ 63 → rd (rc s) 2 = Ok (low p) → rd (rc s) 3 = Ok (high p) →
  Sched.proc_switch_to p t = Ok (ax, t') →
  ∃ pc s', proc_switch_to s = Ok (pc, s') ∧ sched_related t' s' ∧ rA s' = low ax ∧ rX s' = high ax ∧
    (current_proc t ≠ Some p → in_kernel s' = u8 (in_kernel s - 1)) ∧
    (current_proc t = Some p → cpu_rts (rS s) (page1 s) = Ok (pc, rS s')).
Proof.
  intros Hok Hrel HS H2 H3 E. assert (∃ pr, procs t !! p = Some pr ∧ ax = ctx_AX (p_context pr) ∧
    t' = Sched (procs t) (queues t) (Some p) (sem_values t)) as (pr & Hp & -> & ->).
  { revert E. unfold Sched.proc_switch_to, get_proc, mbind, M_bind. destruct (procs t !! p) as [pr|]; [|done].
    intros [= <- <-]. by exists pr. }
  destruct (sr_blocks _ _ Hrel p pr Hp) as (Hp16 & b & Hb & c & rest & -> & Hc & Hkz & HAX).
  destruct (decide (current s = p)) as [Hcur|Hcur].
  - subst p. destruct (proc_switch_same s c rest Hok ltac:(lia) H2 H3 Hb) as (ret & s' & E1 & Hret & HA & HX & Hc' & Hb' & _).
    exists ret, s'. rewrite HA, HX, HAX. split; [done|]. split; [|split; [done|split; [done|split; [|done]]]].
    + split; cbn [current_proc procs]; [|split; [done|by exists pr]]. rewrite Hb'. apply Hrel.
    + intros Hne. pose proof (sr_current _ _ Hrel) as Hrc. destruct (current_proc t) as [r|]; [|lia]. destruct Hne. by destruct Hrc as [-> _].
  - destruct (current_leaving t s Hrel HS) as (o & Hleave & Hval). destruct (ctx_rti c Hc) as (P & pc & S' & Hrti).
    destruct (proc_switch_to_ok o s p c rest P pc S') as (s1 & s' & Hleft & E1 & (Hc' & _ & HA & HX) & _ & Hk & Hin); try done; [split_and!; try done; lia|].
    destruct (left_behind_facts _ _ _ Hok Hleave Hleft) as (Hok1 & _ & _ & Hsame).
    exists pc, s'. rewrite HA, HX, HAX. split; [done|]. split; [|split; [done|split; [done|split; [done|]]]].
    + split; cbn [current_proc procs]; [|split; [done|by exists pr]]. intros q pq Hq.
      destruct (sr_blocks _ _ Hrel q pq Hq) as (Hq16 & bq & Hbq & Hbo). split; [done|].
      destruct (left_behind_blocks o s s1 q bq _ Hok Hleave Hleft Hbq Hbo) as (b1 & Hb1 & Hbo1).
      { intros cp restp Ho ->. by eapply Hval. }
      eapply (registers_in_blocks p c rest s1 s' q b1); try done; [by rewrite Hsame|]. intros ->. congruence.
    + intros Heq. pose proof (sr_current _ _ Hrel) as Hrc. rewrite Heq in Hrc. by destruct Hrc.
Qed.
End Refine.

(** ** Witnesses *)

Section Witnesses.
#[local] Existing Instance sim_build.
#[local] Existing Instance eater_ram.
#[local] Existing Instance eater_ram_ok.
#[local] Instance w_code : code_addrs := {| addr_proc_stop := 0xC123; addr_shell_start := 0xD000 |}.
#[local] Instance w_addrs : switch_addrs := {| addr_swap_in_return := 0xC456; addr_swap_in_return_range := ltac:(lia) |}.

(** A processor in front of proc_switch_to(q), called by the process p. *)
Definition w_cpu (p q : Z) (bs : gmap Z (list Z)) : cpu :=
  Cpu 0 0 0 60 false false 0x20 ([0x00; 0x7E; low q; high q] ++ replicate 28 0xEE) p 1
    (replicate 61 0 ++ [0x34; 0x12] ++ replicate 193 0) bs.
Definition w_context : proc_context := ProcContext 0 0 (replicate 64 0) 0 (replicate 12 0x11).
Definition w_entered : proc_context := p_context (entered 0xD000 1 (child 0 0 0x1004 root_cwd 0x12)).

Lemma w_cpu_ok p q bs : cpu_ok (w_cpu p q bs).
Proof.
  split; [reflexivity|reflexivity|]. apply Forall_app. split; [|apply Forall_replicate; lia].
  pose proof (low_range q). pose proof (high_range q). repeat constructor; lia.
Qed.
Lemma w_to p q bs : p ≠ q → to_proc q (w_cpu p q bs).
Proof. intros H. by split_and!. Qed.
Lemma w_context_ok : ctx_ok w_context.
Proof. split; [compute_decide|reflexivity|compute_decide|reflexivity]. Qed.
Lemma w_entered_ok : ctx_ok w_entered.
Proof. apply entered_ctx_ok. Qed.
Lemma w_leaving p q bs c : 0 < p < 65536 → ctx_ok c → Forall (λ v, 0 ≤ v < 256) (ctx_kzp c) →
  bs !! p = Some (ctx_bytes c ++ []) → leaving (Some (c, [])) (w_cpu p q bs).
Proof. intros. split_and!; simpl; try done; lia. Qed.

Definition w_blocks (c : proc_context) : gmap Z (list Z) := {[0x1038 := ctx_bytes w_entered]} ∪ {[0x1000 := ctx_bytes c]}.
Lemma w_blocks_lookup c : w_blocks c !! 0x1000 = Some (ctx_bytes c ++ []).
Proof. unfold w_blocks. rewrite lookup_union_r by done. rewrite app_nil_r. apply lookup_singleton_eq. Qed.

Lemma proc_switch_roundtrip_witness :
  ∃ s' saved, proc_switch_to (w_cpu 0x1000 0x1038 (w_blocks w_context)) = Ok (0xD000, s') ∧
    ∃ s3, (pc ← proc_switch_to; resume pc) (w_cpu 0x1038 0x1000 (w_blocks (with_AX 7 saved))) = Ok (0x1235, s3) ∧
      current s3 = 0x1000 ∧ rA s3 = 7 ∧ rX s3 = 0 ∧ rS s3 = 62.
Proof.
  destruct (proc_switch_roundtrip (w_cpu 0x1000 0x1038 (w_blocks w_context)) w_context [] 0x1038 w_entered [] 0 0xD000 61)
    as (s' & saved & E & _ & _ & _ & _ & Hback).
  - apply w_cpu_ok.
  - apply w_leaving; [lia|apply w_context_ok|apply Forall_replicate; lia|reflexivity].
  - compute_decide.
  - discriminate.
  - by apply w_to.
  - split_and!; [lia|lia|apply w_entered_ok|reflexivity|reflexivity].
  - exists s', saved. split; [exact E|].
    destruct (Hback (Some (w_entered, [])) (w_cpu 0x1038 0x1000 (w_blocks (with_AX 7 saved))) 7) as (s3 & ret & E3 & [Hret Hc [HA HX] _ _ _ _ _]).
    + apply w_cpu_ok.
    + apply w_leaving; [lia|apply w_entered_ok|apply Forall_replicate; lia|reflexivity].
    + by apply w_to.
    + exact (w_blocks_lookup (with_AX 7 saved)).
    + exists s3. assert (Ok (0x1235, 62) = Ok (ret, rS s3)) as [= <- HS] by exact Hret.
      split; [exact E3|]. split; [exact Hc|]. split; [exact HA|]. split; [exact HX|]. by symmetry.
Defined.

Definition w_proc : proc := child 1 1 0 root_cwd 0x12.
Definition w_sched : sched :=
  Sched ({[0x1038 := entered 0xD000 1 (child 0 0 0x1004 root_cwd 0x12)]} ∪ {[0x1000 := w_proc]}) (queues sched_boot) (Some 0x1000) ∅.

Lemma w_related : sched_related w_sched (w_cpu 0x1000 0x1038 (w_blocks (p_context w_proc))).
Proof.
  split; [|split; [done|by eexists]]. intros q pr [Hq|[_ Hq]]%lookup_union_Some_raw; apply lookup_singleton_Some in Hq as [<- <-].
  - split; [lia|]. exists (ctx_bytes w_entered). split; [reflexivity|]. exists w_entered, []. rewrite app_nil_r.
    split; [done|]. split; [apply w_entered_ok|]. split; [apply Forall_replicate; lia|done].
  - split; [lia|]. eexists. split; [apply w_blocks_lookup|]. exists (p_context w_proc), []. split; [done|].
    split; [split; [compute_decide|reflexivity|compute_decide|reflexivity]|]. split; [apply Forall_replicate; lia|done].
Qed.

Lemma proc_switch_refines_witness :
  ∃ pc s' t', Sched.proc_switch_to 0x1038 w_sched = Ok (1, t') ∧
    proc_switch_to (w_cpu 0x1000 0x1038 (w_blocks (p_context w_proc))) = Ok (pc, s') ∧
    sched_related t' s' ∧ rA s' = 1 ∧ rX s' = 0 ∧ in_kernel s' = 0.
Proof.
  assert (Sched.proc_switch_to 0x1038 w_sched = Ok (1, Sched (procs w_sched) (queues w_sched) (Some 0x1038) ∅)) as E by reflexivity.
  destruct (proc_switch_refines w_sched (w_cpu 0x1000 0x1038 (w_blocks (p_context w_proc))) 0x1038 1 _
    (w_cpu_ok _ _ _) w_related ltac:(compute_decide) eq_refl eq_refl E) as (pc & s' & E1 & Hrel & HA & HX & Hk & _).
  exists pc, s', (Sched (procs w_sched) (queues w_sched) (Some 0x1038) ∅). split; [exact E|]. split; [exact E1|]. split; [exact Hrel|].
  split; [exact HA|]. split; [exact HX|]. exact (Hk ltac:(discriminate)).
Defined.

Lemma proc_create_enters_witness :
  ∃ s' pr, proc_create_internal 0 0xD000 1 (Some shell_argv) w_table = Ok ((1, Some 0x1038), s') ∧
    sched_ok (pt_sched s') {[QRun := [0x1038]]} ∧
    ∃ c', proc_switch_to (w_cpu 0 0x1038 {[0x1038 := ctx_bytes (p_context pr)]}) = Ok (0xD000, c') ∧
      current c' = 0x1038 ∧ cpu_rts 61 (page1 c') = Ok (0xC123, 63) ∧ in_kernel c' = 0.
Proof.
  pose proof (proc_create_run w_table 0 1 shell_argv 0x1004 w_args 0x1038 w_block 0 root_cwd 0x12
    eq_refl eq_refl ltac:(done) ltac:(by left) w_args_eq ltac:(done) eq_refl w_block_eq
    ltac:(done) ltac:(done) ltac:(done) eq_refl) as E. cbv zeta in E.
  match type of E with _ = Ok (_, ?s) => set (s1 := s) in E end.
  destruct (proc_create_enters w_table s1 {[QRun := []]} 0 0xD000 1 shell_argv 0x1038 0 root_cwd 0x12 0x1004)
    as (s' & pr & E1 & HQ & _ & _ & Hrun).
  - exact E.
  - exact (proj1 (add_proc_ok sched_boot _ _ (child 0 0 0x1004 root_cwd 0x12) sched_boot_ok eq_refl ltac:(discriminate))).
  - reflexivity.
  - compute_decide.
  - apply lookup_insert_eq.
  - compute_decide.
  - compute_decide.
  - compute_decide.
  - exists s', pr. split; [exact E1|]. split; [exact HQ|].
    destruct (Hrun None (w_cpu 0 0x1038 {[0x1038 := ctx_bytes (p_context pr)]}) []) as (c' & E2 & (Hc & _) & _ & Hrts & Hk & _).
    + apply w_cpu_ok.
    + reflexivity.
    + by apply w_to.
    + cbn [w_cpu blocks]. rewrite app_nil_r. apply lookup_singleton_eq.
    + exists c'. split; [exact E2|]. split; [exact Hc|]. split; [exact Hrts|]. exact Hk.
Defined.
End Witnesses.
