(* ===== verification/Syscall.v ===== *)
(** The system call interface: the table of os/dispatch.c, the argument
    structures of include/mosnix/syscall.h, the entry of
    libc-mosnix/syscall.S with os/switcher.S, and the functions of the C
    library that are system calls (unistd.c, fcntl.c, open.c, stat.c, mkdir.c,
    mount.c, dirent.c, strerror.c, uname.c, yield.c, getchar.c, putchar.c).

    A process passes its arguments as the bytes of a structure on the soft
    stack.  The memory of the processor is one list of bytes and a pointer is an
    index into it; the structures of the kernel are the records of the other
    files, so that a pointer never leads into them.  The constants that a
    system call hands out by address are where the class [kernel_rom] says, and
    malloc() and free() of the C library are the class [c_heap]. *)
From S2P Require Import Prelude CDefs Sched ProcTable Kern Inode Devices File Boot Clock Info.

(** ** C types and their bytes *)

(** The integer types of the arguments; a pointer, size_t, dev_t, mode_t,
    uid_t and gid_t are unsigned integers of 16 bits. *)
Inductive cty := CInt | CUInt | CLong | CULong | CLongLong.

Definition size_of (t : cty) : nat :=
  match t with CInt | CUInt => 2 | CLong | CULong => 4 | CLongLong => 8 end.
Definition convert (t : cty) (v : Z) : Z :=
  match t with CInt => s16 v | CUInt => u16 v | CLong => s32 v | CULong => u32 v | CLongLong => s64 v end.

Fixpoint le_bytes (n : nat) (v : Z) : list Z :=
  match n with O => [] | S n => u8 v :: le_bytes n (v / 256) end.
Definition le_value (bs : list Z) : Z := foldr (λ b n, b + 256 * n) 0 bs.

Notation ptr_t := CUInt.
Notation size_t := CUInt.
Notation mode_t := CUInt.
Notation dev_t := CUInt.
Notation id_t := CUInt.
Notation off_t := CLong.

(** ** include/mosnix/syscall.h: the members of the structures, in order *)

Definition sys_read_s : list cty := [CInt; ptr_t; size_t].
Definition sys_write_s : list cty := [CInt; ptr_t; size_t].
Definition sys_open_s : list cty := [ptr_t; CInt; CUInt].
Definition sys_close_s : list cty := [CInt].
Definition sys_lseek_s : list cty := [CInt; off_t; CInt; ptr_t].
Definition sys_fcntl_s : list cty := [CInt; CInt; CInt].
Definition sys_dup_s : list cty := [CInt].
Definition sys_dup2_s : list cty := [CInt; CInt].
Definition sys_getcwd_s : list cty := [ptr_t; size_t; ptr_t].
Definition sys_chdir_s : list cty := [ptr_t].
Definition sys_mkdir_s : list cty := [ptr_t; mode_t].
Definition sys_rmdir_s : list cty := [ptr_t].
Definition sys_mknod_s : list cty := [ptr_t; mode_t; dev_t].
Definition sys_unlink_s : list cty := [ptr_t].
Definition sys_stat_s : list cty := [ptr_t; ptr_t].
Definition sys_lstat_s : list cty := [ptr_t; ptr_t].
Definition sys_opendir_s : list cty := [ptr_t].
Definition sys_umask_s : list cty := [mode_t].
Definition sys_mount_s : list cty := [ptr_t; ptr_t; ptr_t; CULong; ptr_t].
Definition sys_umount_s : list cty := [ptr_t].
Definition sys_exit_s : list cty := [CInt].
Definition sys_setuid_s : list cty := [id_t].
Definition sys_seteuid_s : list cty := [id_t].
Definition sys_setgid_s : list cty := [id_t].
Definition sys_setegid_s : list cty := [id_t].
Definition sys_getmonotime_s : list cty := [ptr_t].
Definition sys_getrealtime_s : list cty := [ptr_t].
Definition sys_setrealtime_s : list cty := [CLongLong].
Definition sys_getuname_s : list cty := [ptr_t].
Definition sys_strerror_s : list cty := [CInt; ptr_t].

(** ** The numbers of include/bits/syscall.h *)

Definition SYS_read : Z := 0.
Definition SYS_write : Z := 1.
Definition SYS_open : Z := 2.
Definition SYS_close : Z := 3.
Definition SYS_lseek : Z := 4.
Definition SYS_fcntl : Z := 5.
Definition SYS_dup : Z := 6.
Definition SYS_dup2 : Z := 7.
Definition SYS_getcwd : Z := 20.
Definition SYS_chdir : Z := 21.
Definition SYS_mkdir : Z := 22.
Definition SYS_rmdir : Z := 23.
Definition SYS_mknod : Z := 26.
Definition SYS_unlink : Z := 29.
Definition SYS_stat : Z := 30.
Definition SYS_lstat : Z := 31.
Definition SYS_opendir : Z := 32.
Definition SYS_umask : Z := 33.
Definition SYS_mount : Z := 34.
Definition SYS_umount : Z := 35.
Definition SYS_getpid : Z := 50.
Definition SYS_getppid : Z := 51.
Definition SYS_exit : Z := 52.
Definition SYS_sched_yield : Z := 53.
Definition SYS_getuid : Z := 60.
Definition SYS_geteuid : Z := 61.
Definition SYS_setuid : Z := 62.
Definition SYS_seteuid : Z := 63.
Definition SYS_getgid : Z := 64.
Definition SYS_getegid : Z := 65.
Definition SYS_setgid : Z := 66.
Definition SYS_setegid : Z := 67.
Definition SYS_getmonotime : Z := 80.
Definition SYS_getrealtime : Z := 81.
Definition SYS_setrealtime : Z := 82.
Definition SYS_getuname : Z := 100.
Definition SYS_strerror : Z := 101.

(** ** The machine *)

(** Where the linker put the constants of the kernel: uname_data, and the
    message that strerror() gives for a number. *)
Class kernel_rom := { addr_uname_data : Z; addr_message : Z → Z }.

Record machine {SD : sdcard} := Machine {
  mc_kern : kern;
  mc_procs : ptable;
  mc_mem : list Z;        (* the address space *)
  mc_sp : Z;              (* the soft stack pointer, rc0 and rc1 *)
  errno : Z;
}.
Arguments machine : clear implicits.
Arguments machine {SD}.

Section Machine.
Context {SD : sdcard}.
Implicit Types (m : machine) (p : Z).

Definition set_mem v m := Machine SD (mc_kern m) (mc_procs m) v (mc_sp m) (errno m).
Definition set_sp v m := Machine SD (mc_kern m) (mc_procs m) (mc_mem m) v (errno m).
Definition set_errno v m := Machine SD (mc_kern m) (mc_procs m) (mc_mem m) (mc_sp m) v.

Definition on_kern {A} (c : M kern A) : M machine A := λ m,
  match c (mc_kern m) with
  | Ok (a, k) => Ok (a, Machine SD k (mc_procs m) (mc_mem m) (mc_sp m) (errno m))
  | Err e => Err e
  end.
Definition on_procs {A} (c : M ptable A) : M machine A := λ m,
  match c (mc_procs m) with
  | Ok (a, t) => Ok (a, Machine SD (mc_kern m) t (mc_mem m) (mc_sp m) (errno m))
  | Err e => Err e
  end.

(** The memory that a pointer leads to. *)
Definition at_ptr p : M machine (option (list Z)) :=
  mem ← gets mc_mem; mret (if p =? 0 then None else Some (drop (Z.to_nat p) mem)).
Definition load p (n : nat) : M machine (list Z) :=
  mem ← gets mc_mem;
  if (0 <=? p) && (p + Z.of_nat n <=? zlen mem) then mret (take n (drop (Z.to_nat p) mem))
  else fail FBounds.
Definition store p (bs : list Z) : M machine () :=
  if p =? 0 then fail FNull
  else
    mem ← gets mc_mem;
    mem ← lift (memcpy mem p bs (zlen bs));
    modify (set_mem mem).
(** What a call left in the memory behind a pointer. *)
Definition store_back p (after : option (list Z)) : M machine () :=
  match after with None => mret () | Some bs => store p bs end.

Fixpoint load_args (ts : list cty) p : M machine (list Z) :=
  match ts with
  | [] => mret []
  | t :: ts =>
      bs ← load p (size_of t);
      vs ← load_args ts (p + Z.of_nat (size_of t));
      mret (convert t (le_value bs) :: vs)
  end.

(** Arguments of a variable argument list, and an object on the soft stack. *)
Definition arg_bytes (args : list (cty * Z)) : list Z :=
  concat ((λ a, le_bytes (size_of a.1) a.2) <$> args).
Definition push (bs : list Z) : M machine Z :=
  sp ← gets (λ m, mc_sp m - zlen bs);
  _ ← store sp bs;
  _ ← modify (set_sp sp);
  mret sp.
Definition pop (n : Z) : M machine () := modify (λ m, set_sp (mc_sp m + n) m).
End Machine.

(** ** The kernel's side: a function of the arguments' values *)

Section Calls.
Context {SD : sdcard} {CC : console_config} {BC : build_config} {KR : kernel_rom}.
Implicit Types (m : machine).

Definition do_read (fd data size : Z) : M machine Z :=
  d ← at_ptr data; '(r, d) ← on_kern (sys_read fd d size); _ ← store_back data d; mret r.
Definition do_write (fd data size : Z) : M machine Z :=
  d ← at_ptr data; on_kern (sys_write fd d size).
Definition do_open (path flags mode : Z) : M machine Z := s ← at_ptr path; on_kern (sys_open s flags mode).
Definition do_close (fd : Z) : M machine Z := on_kern (sys_close fd).
Definition do_lseek (fd offset whence result : Z) : M machine Z := on_kern sys_lseek.
Definition do_fcntl (fd cmd value : Z) : M machine Z := on_kern (sys_fcntl fd cmd value).
Definition do_dup (oldfd : Z) : M machine Z := on_kern (sys_dup oldfd).
Definition do_dup2 (oldfd newfd : Z) : M machine Z := on_kern (sys_dup2 oldfd newfd).
(** With the store of the buffer's address behind the result pointer. *)
Definition do_getcwd (buf size result : Z) : M machine Z :=
  b ← at_ptr buf;
  '(r, b) ← on_kern (sys_getcwd b size (result =? 0));
  _ ← store_back buf b;
  _ ← (if r =? 0 then store result (le_bytes 2 buf) else mret ());
  mret r.
Definition do_chdir (path : Z) : M machine Z := s ← at_ptr path; on_kern (sys_chdir s).
Definition do_mkdir (path mode : Z) : M machine Z := s ← at_ptr path; on_kern (sys_mkdir s mode).
Definition do_rmdir (path : Z) : M machine Z := on_kern sys_rmdir.
Definition do_mknod (path mode dev : Z) : M machine Z := s ← at_ptr path; on_kern (sys_mknod s mode dev).
Definition do_unlink (path : Z) : M machine Z := on_kern sys_unlink.
Definition do_stat (path statbuf : Z) : M machine Z := on_kern sys_stat.
Definition do_lstat (path statbuf : Z) : M machine Z := on_kern sys_lstat.
Definition do_opendir (path : Z) : M machine Z := s ← at_ptr path; on_kern (sys_opendir s).
Definition do_umask (mask : Z) : M machine Z := on_kern (sys_umask mask).
Definition do_mount (source target filesystemtype mountflags data : Z) : M machine Z :=
  source ← at_ptr source;
  target ← at_ptr target;
  filesystemtype ← at_ptr filesystemtype;
  on_kern (sys_mount source target filesystemtype mountflags).
Definition do_umount (target : Z) : M machine Z := on_kern sys_umount.
Definition do_getpid : M machine Z := on_procs sys_getpid.
Definition do_getppid : M machine Z := on_procs sys_getppid.
(** sys_exit() has no result and does not return: it ends in the exit of the
    system, so that the value behind it is never seen. *)
Definition do_exit (status : Z) : M machine Z := _ ← on_procs (sys_exit status); mret 0.
Definition do_sched_yield : M machine Z := on_procs (on_sched sys_sched_yield).
Definition do_getid : M machine Z := mret sys_getid.
Definition do_setid (id : Z) : M machine Z := mret sys_setid.
Definition do_getmonotime (t : Z) : M machine Z :=
  '(r, v) ← on_kern sys_getmonotime; _ ← store t (le_bytes 8 v); mret r.
Definition do_getrealtime (t : Z) : M machine Z :=
  '(r, v) ← on_kern sys_getrealtime; _ ← store t (le_bytes 8 v); mret r.
Definition do_setrealtime (t : Z) : M machine Z := on_kern (sys_setrealtime t).
Definition do_getuname (buf : Z) : M machine Z :=
  _ ← store buf (le_bytes 2 addr_uname_data); mret (fst sys_getuname).
Definition do_strerror (errnum result : Z) : M machine Z :=
  '(r, _) ← lift (sys_strerror errnum);
  _ ← store result (le_bytes 2 (addr_message errnum));
  mret r.
Definition do_notimp : M machine Z := on_kern sys_notimp.

(** A handler gets the address of its argument structure. *)
Definition handler : Type := Z → M machine Z.
Definition h0 (f : M machine Z) : handler := λ _, f.
Definition h1 (s : list cty) (f : Z → M machine Z) : handler := λ p,
  vs ← load_args s p; match vs with [a] => f a | _ => fail FWild end.
Definition h2 (s : list cty) (f : Z → Z → M machine Z) : handler := λ p,
  vs ← load_args s p; match vs with [a; b] => f a b | _ => fail FWild end.
Definition h3 (s : list cty) (f : Z → Z → Z → M machine Z) : handler := λ p,
  vs ← load_args s p; match vs with [a; b; c] => f a b c | _ => fail FWild end.
Definition h4 (s : list cty) (f : Z → Z → Z → Z → M machine Z) : handler := λ p,
  vs ← load_args s p; match vs with [a; b; c; d] => f a b c d | _ => fail FWild end.
Definition h5 (s : list cty) (f : Z → Z → Z → Z → Z → M machine Z) : handler := λ p,
  vs ← load_args s p; match vs with [a; b; c; d; e] => f a b c d e | _ => fail FWild end.

(** ** os/dispatch.c *)

Definition SYSCALL_TABLE : list handler :=
  (*   0 *) [h3 sys_read_s do_read; h3 sys_write_s do_write; h3 sys_open_s do_open; h1 sys_close_s do_close;
  (*   4 *)  h4 sys_lseek_s do_lseek; h3 sys_fcntl_s do_fcntl; h1 sys_dup_s do_dup; h2 sys_dup2_s do_dup2]
  (*   8 *) ++ replicate 12 (h0 do_notimp) ++
  (*  20 *) [h3 sys_getcwd_s do_getcwd; h1 sys_chdir_s do_chdir; h2 sys_mkdir_s do_mkdir; h1 sys_rmdir_s do_rmdir;
  (*  24 *)  h0 do_notimp; h0 do_notimp; h3 sys_mknod_s do_mknod; h0 do_notimp; h0 do_notimp;
  (*  29 *)  h1 sys_unlink_s do_unlink; h2 sys_stat_s do_stat; h2 sys_lstat_s do_lstat;
  (*  32 *)  h1 sys_opendir_s do_opendir; h1 sys_umask_s do_umask; h5 sys_mount_s do_mount; h1 sys_umount_s do_umount]
  (*  36 *) ++ replicate 14 (h0 do_notimp) ++
  (*  50 *) [h0 do_getpid; h0 do_getppid; h1 sys_exit_s do_exit; h0 do_sched_yield]
  (*  54 *) ++ replicate 6 (h0 do_notimp) ++
  (*  60 *) [h0 do_getid; h0 do_getid; h1 sys_setuid_s do_setid; h1 sys_seteuid_s do_setid;
  (*  64 *)  h0 do_getid; h0 do_getid; h1 sys_setgid_s do_setid; h1 sys_setegid_s do_setid]
  (*  68 *) ++ replicate 12 (h0 do_notimp) ++
  (*  80 *) [h1 sys_getmonotime_s do_getmonotime; h1 sys_getrealtime_s do_getrealtime;
  (*  82 *)  h1 sys_setrealtime_s do_setrealtime]
  (*  83 *) ++ replicate 17 (h0 do_notimp) ++
  (* 100 *) [h1 sys_getuname_s do_getuname; h2 sys_strerror_s do_strerror]
  (* 102 *) ++ replicate 26 (h0 do_notimp).

(** ** libc-mosnix/syscall.S

    [asl] doubles the number in 8 bits, and brk_syscall indexes the table with
    it.  The result comes back in A:X; a negative one goes into errno. *)
Definition errno_result (r : Z) : M machine Z :=
  let r := u16 r in
  if 0x80 <=? Z.shiftr r 8 then
    _ ← modify (set_errno (s16 (u16 (- r)))); mret (-1)
  else mret r.

Definition syscall (number : Z) (args : list (cty * Z)) : M machine Z :=
  sp ← push (arg_bytes args);
  h ← lift (rd SYSCALL_TABLE (Z.shiftr (u8 (Z.shiftl number 1)) 1));
  r ← h sp;
  _ ← pop (zlen (arg_bytes args));
  errno_result r.

(** A local variable of [n] bytes whose address is passed on: it holds what was
    below the stack. *)
Definition with_local {A} (n : Z) (f : Z → M machine A) : M machine A :=
  _ ← pop (- n); p ← gets mc_sp; a ← f p; _ ← pop n; mret a.
End Calls.

(** ** The C library *)

(** malloc() and free() of the C library, which is not part of this program. *)
Class c_heap {SD : sdcard} := { malloc : Z → M machine Z; free : Z → M machine () }.

Module Libc.
Section Libc.
Context {SD : sdcard} {CC : console_config} {BC : build_config} {KR : kernel_rom}.
Implicit Types (fd : Z).

Definition read fd (data size : Z) : M machine Z := syscall SYS_read [(CInt, fd); (ptr_t, data); (size_t, size)].
Definition write fd (data size : Z) : M machine Z := syscall SYS_write [(CInt, fd); (ptr_t, data); (size_t, size)].
Definition close fd : M machine Z := syscall SYS_close [(CInt, fd)].
Definition lseek fd (offset whence : Z) : M machine Z :=
  with_local 4 (λ result,
    r ← syscall SYS_lseek [(CInt, fd); (off_t, offset); (CInt, whence); (ptr_t, result)];
    if r =? 0 then bs ← load result 4; mret (s32 (le_value bs)) else mret (-1)).
Definition dup (oldfd : Z) : M machine Z := syscall SYS_dup [(CInt, oldfd)].
Definition dup2 (oldfd newfd : Z) : M machine Z := syscall SYS_dup2 [(CInt, oldfd); (CInt, newfd)].
Definition getcwd (buf size : Z) : M machine Z :=
  with_local 2 (λ result,
    r ← syscall SYS_getcwd [(ptr_t, buf); (size_t, size); (ptr_t, result)];
    if r =? 0 then bs ← load result 2; mret (le_value bs) else mret 0).
Definition chdir (path : Z) : M machine Z := syscall SYS_chdir [(ptr_t, path)].
Definition rmdir (path : Z) : M machine Z := syscall SYS_rmdir [(ptr_t, path)].
Definition mknod (path mode dev : Z) : M machine Z := syscall SYS_mknod [(ptr_t, path); (mode_t, mode); (dev_t, dev)].
Definition unlink (path : Z) : M machine Z := syscall SYS_unlink [(ptr_t, path)].
Definition getpid : M machine Z := syscall SYS_getpid [].
Definition getppid : M machine Z := syscall SYS_getppid [].
(** The call does not come back; the endless loop behind it is the fault [FFuel]. *)
Definition _exit (status : Z) : M machine () := _ ← syscall SYS_exit [(CInt, status)]; fail FFuel.
Definition getuid : M machine Z := u16 <$> syscall SYS_getuid [].
Definition geteuid : M machine Z := u16 <$> syscall SYS_geteuid [].
Definition setuid (uid : Z) : M machine Z := syscall SYS_setuid [(id_t, uid)].
Definition seteuid (uid : Z) : M machine Z := syscall SYS_seteuid [(id_t, uid)].
Definition getgid : M machine Z := u16 <$> syscall SYS_getgid [].
Definition getegid : M machine Z := u16 <$> syscall SYS_getegid [].
Definition setgid (gid : Z) : M machine Z := syscall SYS_setgid [(id_t, gid)].
Definition setegid (gid : Z) : M machine Z := syscall SYS_setegid [(id_t, gid)].

(** The last argument is there when the command, or the flags, say so. *)
Definition fcntl fd (cmd : Z) (va : Z) : M machine Z :=
  let value := if negb (has_bits cmd 1) then va else 0 in
  syscall SYS_fcntl [(CInt, fd); (CInt, cmd); (CInt, value)].
Definition open (path oflag : Z) (va : Z) : M machine Z :=
  let mode := if has_bits oflag O_CREAT then va else 0x1A4 in
  syscall SYS_open [(ptr_t, path); (CInt, oflag); (CUInt, mode)].
Definition O_TRUNC : Z := 0x0200.
Definition creat (path mode : Z) : M machine Z :=
  let oflag := Z.lor (Z.lor O_WRONLY O_CREAT) O_TRUNC in
  syscall SYS_open [(ptr_t, path); (CInt, oflag); (CUInt, mode)].

Definition stat (path buf : Z) : M machine Z := syscall SYS_stat [(ptr_t, path); (ptr_t, buf)].
Definition lstat (path buf : Z) : M machine Z := syscall SYS_lstat [(ptr_t, path); (ptr_t, buf)].
Definition umask (mask : Z) : M machine Z := u16 <$> syscall SYS_umask [(mode_t, mask)].
Definition mkdir (path mode : Z) : M machine Z := syscall SYS_mkdir [(ptr_t, path); (mode_t, mode)].
Definition mount (source target filesystemtype mountflags data : Z) : M machine Z :=
  syscall SYS_mount [(ptr_t, source); (ptr_t, target); (ptr_t, filesystemtype); (CULong, mountflags); (ptr_t, data)].
Definition umount (target : Z) : M machine Z := syscall SYS_umount [(ptr_t, target)].
Definition sched_yield : M machine Z := syscall SYS_sched_yield [].

Definition strerror (errnum : Z) : M machine Z :=
  with_local 2 (λ result,
    _ ← store result (le_bytes 2 0);
    _ ← syscall SYS_strerror [(CInt, errnum); (ptr_t, result)];
    bs ← load result 2;
    mret (le_value bs)).

Definition uname (buf : Z) : M machine Z :=
  with_local 2 (λ buf2,
    if buf =? 0 then _ ← modify (set_errno EFAULT); mret (-1)
    else
      r ← syscall SYS_getuname [(ptr_t, buf2)];
      if r =? 0 then
        a ← load buf2 2;
        bs ← load (le_value a) (5 * Z.to_nat UTSNAME_LENGTH);
        _ ← store buf bs;
        mret 0
      else mret (-1)).

Definition getchar : M machine Z :=
  with_local 1 (λ c,
    r ← read 0 c 1;
    if r <? 1 then mret (-1) else bs ← load c 1; mret (le_value bs)).
Definition __putchar (c : Z) : M machine () :=
  with_local 1 (λ p, _ ← store p [u8 c]; _ ← write 1 p 1; mret ()).

(** struct DIR_s: a descriptor of two bytes, and an entry of 27. *)
Definition sizeof_dirent : Z := 27.
Definition sizeof_DIR : Z := 2 + sizeof_dirent.

Context {CH : c_heap}.

Definition opendir (path : Z) : M machine Z :=
  fd ← syscall SYS_opendir [(ptr_t, path)];
  if fd <? 0 then mret 0
  else
    dir ← malloc sizeof_DIR;
    if dir =? 0 then
      _ ← syscall SYS_close [(CInt, fd)];
      _ ← modify (set_errno ENOMEM);
      mret 0
    else _ ← store dir (le_bytes 2 fd); mret dir.

Definition dir_fd (dir : Z) : M machine Z := bs ← load dir 2; mret (s16 (le_value bs)).

Definition closedir (dir : Z) : M machine Z :=
  if negb (dir =? 0) then fd ← dir_fd dir; _ ← free dir; close fd
  else _ ← modify (set_errno EBADF); mret (-1).

Definition readdir (dir : Z) : M machine Z :=
  if negb (dir =? 0) then
    fd ← dir_fd dir;
    size ← syscall SYS_read [(CInt, fd); (ptr_t, dir + 2); (size_t, sizeof_dirent)];
    if size <=? 0 then mret 0 else mret (dir + 2)
  else _ ← modify (set_errno EBADF); mret 0.
End Libc.
End Libc.

(** ** Requests

    A request is a call of the library with the values of its arguments;
    [library] is the function of the same name, which passes them through the
    stack, and [serve] the kernel's function. *)

Inductive request :=
  | QRead (fd data size : Z) | QWrite (fd data size : Z) | QOpen (path flags mode : Z) | QClose (fd : Z)
  | QLseek (fd offset whence result : Z) | QFcntl (fd cmd value : Z) | QDup (oldfd : Z) | QDup2 (oldfd newfd : Z)
  | QGetcwd (buf size result : Z) | QChdir (path : Z) | QMkdir (path mode : Z) | QRmdir (path : Z)
  | QMknod (path mode dev : Z) | QUnlink (path : Z) | QStat (path statbuf : Z) | QLstat (path statbuf : Z)
  | QOpendir (path : Z) | QUmask (mask : Z) | QMount (source target fstype flags data : Z) | QUmount (target : Z)
  | QGetpid | QGetppid | QExit (status : Z) | QSchedYield
  | QGetuid | QGeteuid | QSetuid (uid : Z) | QSeteuid (uid : Z)
  | QGetgid | QGetegid | QSetgid (gid : Z) | QSetegid (gid : Z)
  | QGetmonotime (t : Z) | QGetrealtime (t : Z) | QSetrealtime (t : Z) | QGetuname (buf : Z) | QStrerror (errnum result : Z).

Definition typed (t : cty) (v : Z) : Prop := convert t v = v.

(** The arguments in the order of the prototypes. *)
Definition request_args (q : request) : list (cty * Z) :=
  match q with
  | QRead fd data size | QWrite fd data size => [(CInt, fd); (ptr_t, data); (size_t, size)]
  | QOpen path flags mode => [(ptr_t, path); (CInt, flags); (CUInt, mode)]
  | QClose fd | QDup fd => [(CInt, fd)]
  | QLseek fd offset whence result => [(CInt, fd); (off_t, offset); (CInt, whence); (ptr_t, result)]
  | QFcntl fd cmd value => [(CInt, fd); (CInt, cmd); (CInt, value)]
  | QDup2 oldfd newfd => [(CInt, oldfd); (CInt, newfd)]
  | QGetcwd buf size result => [(ptr_t, buf); (size_t, size); (ptr_t, result)]
  | QChdir path | QRmdir path | QUnlink path | QOpendir path | QUmount path => [(ptr_t, path)]
  | QMkdir path mode => [(ptr_t, path); (mode_t, mode)]
  | QMknod path mode dev => [(ptr_t, path); (mode_t, mode); (dev_t, dev)]
  | QStat path buf | QLstat path buf => [(ptr_t, path); (ptr_t, buf)]
  | QUmask mask => [(mode_t, mask)]
  | QMount source target fstype flags data =>
      [(ptr_t, source); (ptr_t, target); (ptr_t, fstype); (CULong, flags); (ptr_t, data)]
  | QExit status => [(CInt, status)]
  | QSetuid id | QSeteuid id | QSetgid id | QSetegid id => [(id_t, id)]
  | QGetmonotime t | QGetrealtime t => [(ptr_t, t)]
  | QSetrealtime t => [(CLongLong, t)]
  | QGetuname buf => [(ptr_t, buf)]
  | QStrerror errnum result => [(CInt, errnum); (ptr_t, result)]
  | QGetpid | QGetppid | QSchedYield | QGetuid | QGeteuid | QGetgid | QGetegid => []
  end.

(** The bytes that a call puts below the stack pointer; its arguments are values of their types. *)
Definition request_bytes (q : request) : list Z := arg_bytes (request_args q).
Definition request_ok (q : request) : Prop := Forall (λ a, typed a.1 a.2) (request_args q).

Section Requests.
Context {SD : sdcard} {CC : console_config} {BC : build_config} {KR : kernel_rom}.
Implicit Types (m : machine) (q : request).

(** Calls that the library only makes within other functions are raw. *)
Definition library q : M machine Z :=
  match q with
  | QRead fd data size => Libc.read fd data size
  | QWrite fd data size => Libc.write fd data size
  | QOpen path flags mode =>
      if has_bits flags O_CREAT then Libc.open path flags mode
      else syscall SYS_open [(ptr_t, path); (CInt, flags); (CUInt, mode)]
  | QClose fd => Libc.close fd
  | QLseek fd offset whence result =>
      syscall SYS_lseek [(CInt, fd); (off_t, offset); (CInt, whence); (ptr_t, result)]
  | QFcntl fd cmd value =>
      if has_bits cmd 1 then syscall SYS_fcntl [(CInt, fd); (CInt, cmd); (CInt, value)] else Libc.fcntl fd cmd value
  | QDup oldfd => Libc.dup oldfd
  | QDup2 oldfd newfd => Libc.dup2 oldfd newfd
  | QGetcwd buf size result => syscall SYS_getcwd [(ptr_t, buf); (size_t, size); (ptr_t, result)]
  | QChdir path => Libc.chdir path
  | QMkdir path mode => Libc.mkdir path mode
  | QRmdir path => Libc.rmdir path
  | QMknod path mode dev => Libc.mknod path mode dev
  | QUnlink path => Libc.unlink path
  | QStat path buf => Libc.stat path buf
  | QLstat path buf => Libc.lstat path buf
  | QOpendir path => syscall SYS_opendir [(ptr_t, path)]
  | QUmask mask => syscall SYS_umask [(mode_t, mask)]
  | QMount source target fstype flags data => Libc.mount source target fstype flags data
  | QUmount target => Libc.umount target
  | QGetpid => Libc.getpid
  | QGetppid => Libc.getppid
  | QExit status => syscall SYS_exit [(CInt, status)]
  | QSchedYield => Libc.sched_yield
  | QGetuid => syscall SYS_getuid []
  | QGeteuid => syscall SYS_geteuid []
  | QSetuid uid => Libc.setuid uid
  | QSeteuid uid => Libc.seteuid uid
  | QGetgid => syscall SYS_getgid []
  | QGetegid => syscall SYS_getegid []
  | QSetgid gid => Libc.setgid gid
  | QSetegid gid => Libc.setegid gid
  | QGetmonotime t => syscall SYS_getmonotime [(ptr_t, t)]
  | QGetrealtime t => syscall SYS_getrealtime [(ptr_t, t)]
  | QSetrealtime t => syscall SYS_setrealtime [(CLongLong, t)]
  | QGetuname buf => syscall SYS_getuname [(ptr_t, buf)]
  | QStrerror errnum result => syscall SYS_strerror [(CInt, errnum); (ptr_t, result)]
  end.

Definition serve q : M machine Z :=
  match q with
  | QRead fd data size => do_read fd data size
  | QWrite fd data size => do_write fd data size
  | QOpen path flags mode => do_open path flags mode
  | QClose fd => do_close fd
  | QLseek fd offset whence result => do_lseek fd offset whence result
  | QFcntl fd cmd value => do_fcntl fd cmd value
  | QDup oldfd => do_dup oldfd
  | QDup2 oldfd newfd => do_dup2 oldfd newfd
  | QGetcwd buf size result => do_getcwd buf size result
  | QChdir path => do_chdir path
  | QMkdir path mode => do_mkdir path mode
  | QRmdir path => do_rmdir path
  | QMknod path mode dev => do_mknod path mode dev
  | QUnlink path => do_unlink path
  | QStat path buf => do_stat path buf
  | QLstat path buf => do_lstat path buf
  | QOpendir path => do_opendir path
  | QUmask mask => do_umask mask
  | QMount source target fstype flags data => do_mount source target fstype flags data
  | QUmount target => do_umount target
  | QGetpid => do_getpid
  | QGetppid => do_getppid
  | QExit status => do_exit status
  | QSchedYield => do_sched_yield
  | QGetuid | QGeteuid | QGetgid | QGetegid => do_getid
  | QSetuid id | QSeteuid id | QSetgid id | QSetegid id => do_setid id
  | QGetmonotime t => do_getmonotime t
  | QGetrealtime t => do_getrealtime t
  | QSetrealtime t => do_setrealtime t
  | QGetuname buf => do_getuname buf
  | QStrerror errnum result => do_strerror errnum result
  end.

(** The machine with bytes pushed on the stack. *)
Definition pushed (bs : list Z) m : machine :=
  let sp := mc_sp m - zlen bs in
  Machine SD (mc_kern m) (mc_procs m)
    (take (Z.to_nat sp) (mc_mem m) ++ bs ++ drop (Z.to_nat (mc_sp m)) (mc_mem m)) sp (errno m).

(** What the library makes of a result: a negative one is an error number. *)
Definition reply (r : Z) m : Z * machine :=
  let r := s16 r in if r <? 0 then (-1, set_errno (s16 (- r)) m) else (r, m).

(** ** Little-endian bytes *)

Lemma length_le_bytes n v : length (le_bytes n v) = n.
Proof. revert v. induction n as [|n IH]; intros v; simpl; [done|by rewrite IH]. Qed.

Lemma le_value_bytes n v : le_value (le_bytes n v) = v mod 256 ^ Z.of_nat n.
Proof.
  revert v. induction n as [|n IH]; intros v; [by rewrite Z.mod_1_r|].
  rewrite Nat2Z.inj_succ, Z.pow_succ_r by lia. cbn [le_bytes le_value foldr]. fold (le_value (le_bytes n (v / 256))).
  rewrite IH. unfold u8. rewrite Z.rem_mul_r by lia. done.
Qed.

(** A value of a type is read back from its bytes. *)
Lemma convert_le t v : convert t (le_value (le_bytes (size_of t) v)) = convert t v.
Proof.
  rewrite le_value_bytes. destruct t; cbn [size_of convert]; unfold s16, u16, s32, u32, s64.
  all: change (256 ^ Z.of_nat 2) with 65536; change (256 ^ Z.of_nat 4) with 4294967296;
    change (256 ^ Z.of_nat 8) with 18446744073709551616.
  1,3,5: by rewrite <- Zplus_mod_idemp_l, Z.mod_mod, Zplus_mod_idemp_l by lia.
  all: by rewrite Z.mod_mod by lia.
Qed.

Lemma arg_bytes_cons a args : arg_bytes (a :: args) = le_bytes (size_of a.1) a.2 ++ arg_bytes args.
Proof. done. Qed.

Lemma load_at m A bs B n :
  mc_mem m = A ++ bs ++ B → length bs = n → load (zlen A) n m = Ok (bs, m).
Proof.
  intros Hm <-. unfold load. mstep by done. rewrite Hm, !zlen_app.
  pose proof (zlen_nonneg A). pose proof (zlen_nonneg B).
  rewrite (proj2 (Z.leb_le 0 _)), (proj2 (Z.leb_le _ (zlen A + _))) by (unfold zlen in *; lia). cbn [andb].
  unfold zlen. by rewrite Nat2Z.id, drop_app_length, take_app_length.
Qed.

Lemma load_args_spec m args A B :
  mc_mem m = A ++ arg_bytes args ++ B →
  load_args (args.*1) (zlen A) m = Ok ((λ a, convert a.1 a.2) <$> args, m).
Proof.
  revert A. induction args as [|[t v] args IH]; intros A Hm; [done|].
  cbn [fmap list_fmap load_args fst snd]. rewrite arg_bytes_cons, <- app_assoc in Hm. cbn [fst snd] in Hm.
  mstep by (eapply load_at; [exact Hm|apply length_le_bytes]).
  assert (zlen A + Z.of_nat (size_of t) = zlen (A ++ le_bytes (size_of t) v)) as ->.
  { rewrite zlen_app. unfold zlen at 3. by rewrite length_le_bytes. }
  mstep by (apply IH; by rewrite Hm, <- app_assoc). by rewrite convert_le.
Qed.

Lemma push_ok m bs :
  zlen bs < mc_sp m ≤ zlen (mc_mem m) → push bs m = Ok (mc_sp m - zlen bs, pushed bs m).
Proof.
  intros [Hlo Hhi]. pose proof (zlen_nonneg bs). unfold push. mstep by done. cbv beta.
  assert (store (mc_sp m - zlen bs) bs m =
    Ok ((), set_mem (take (Z.to_nat (mc_sp m - zlen bs)) (mc_mem m) ++ bs ++ drop (Z.to_nat (mc_sp m)) (mc_mem m)) m)) as E.
  { unfold store. rewrite (proj2 (Z.eqb_neq _ 0)) by lia. mstep by done.
    erewrite bind_ok; [|unfold lift, memcpy].
    2: { rewrite !(proj2 (Z.leb_le _ _)) by lia. cbn [andb]. reflexivity. }
    unfold modify. do 3 f_equal. unfold zlen at 2. rewrite Nat2Z.id, firstn_all. do 3 f_equal. lia. }
  mstep by exact E. done.
Qed.

(** The frame of a call holds its arguments. *)
Lemma pushed_args m args :
  zlen (arg_bytes args) < mc_sp m ≤ zlen (mc_mem m) →
  load_args (args.*1) (mc_sp m - zlen (arg_bytes args)) (pushed (arg_bytes args) m) =
  Ok ((λ a, convert a.1 a.2) <$> args, pushed (arg_bytes args) m).
Proof.
  intros H. pose proof (zlen_nonneg (arg_bytes args)).
  rewrite <- (load_args_spec _ args (take (Z.to_nat (mc_sp m - zlen (arg_bytes args))) (mc_mem m))
    (drop (Z.to_nat (mc_sp m)) (mc_mem m))) by done.
  f_equal. unfold zlen in *. rewrite length_take. lia.
Qed.

Lemma s16_eqm x y d : x = y + d * 65536 → s16 x = s16 y.
Proof.
  intros ->. unfold s16. rewrite <- (Z.mod_add (y + 32768) d 65536) by lia. f_equal. f_equal. lia.
Qed.

Lemma s16_cases r : let u := r mod 65536 in s16 r = if 32768 <=? u then u - 65536 else u.
Proof.
  pose proof (Z.mod_pos_bound r 65536 ltac:(lia)). pose proof (Z.div_mod r 65536 ltac:(lia)). cbv zeta.
  rewrite (s16_eqm r (r mod 65536) (r / 65536)) by lia. destruct (Z.leb_spec 32768 (r mod 65536)).
  - rewrite (s16_eqm _ (r mod 65536 - 65536) 1) by lia. apply s16_small. lia.
  - apply s16_small. lia.
Qed.

Lemma errno_result_reply r m : errno_result r m = Ok (reply r m).
Proof.
  unfold errno_result, reply. rewrite (s16_cases r), Z.shiftr_div_pow2 by lia. change (2 ^ 8) with 256. cbv zeta.
  unfold u16. pose proof (Z.mod_pos_bound r 65536 ltac:(lia)). set (u := r mod 65536) in *.
  assert (0x80 <=? u / 256 = (32768 <=? u)) as ->.
  { pose proof (Z.div_mod u 256 ltac:(lia)). pose proof (Z.mod_pos_bound u 256 ltac:(lia)).
    destruct (Z.leb_spec 0x80 (u / 256)), (Z.leb_spec 32768 u); lia. }
  destruct (Z.leb_spec 32768 u).
  - rewrite (proj2 (Z.ltb_lt _ 0)) by lia. unfold mbind, M_bind, modify, mret, M_ret. do 3 f_equal.
    pose proof (Z.div_mod (- u) 65536 ltac:(lia)). apply (s16_eqm _ _ (- (- u / 65536) - 1)). lia.
  - by rewrite (proj2 (Z.ltb_ge _ 0)) by lia.
Qed.

(** ** Calls *)

(** The stack pointer is the process's own: the kernel leaves it alone. *)
Definition keeps_sp {A} (c : M machine A) : Prop := ∀ m a m', c m = Ok (a, m') → mc_sp m' = mc_sp m.

Lemma keeps_bind {A B} (c : M machine A) (f : A → M machine B) :
  keeps_sp c → (∀ a, keeps_sp (f a)) → keeps_sp (a ← c; f a).
Proof. intros Hc Hf m b m' (a & m1 & E1 & E2)%bind_inv. by rewrite (Hf _ _ _ _ E2), (Hc _ _ _ E1). Qed.
Lemma keeps_ret {A} (a : A) : keeps_sp (mret a).
Proof. by intros m b m' [= <- <-]. Qed.
Lemma keeps_fail {A} e : keeps_sp (A:=A) (fail e).
Proof. by intros m b m' [=]. Qed.
Lemma keeps_lift {A} (r : res A) : keeps_sp (lift r).
Proof. intros m b m'. unfold lift. destruct r; [by intros [= <- <-]|done]. Qed.
Lemma keeps_kern {A} (c : M kern A) : keeps_sp (on_kern c).
Proof. intros m b m'. unfold on_kern. destruct (c _) as [[? ?]|]; [by intros [= <- <-]|done]. Qed.
Lemma keeps_procs {A} (c : M ptable A) : keeps_sp (on_procs c).
Proof. intros m b m'. unfold on_procs. destruct (c _) as [[? ?]|]; [by intros [= <- <-]|done]. Qed.
Lemma keeps_gets {A} (f : machine → A) : keeps_sp (gets f).
Proof. by intros m b m' [= <- <-]. Qed.
Lemma keeps_set_mem v : keeps_sp (modify (set_mem v)).
Proof. by intros m b m' [= <- <-]. Qed.
#[local] Hint Resolve keeps_bind keeps_ret keeps_fail keeps_lift keeps_kern keeps_procs keeps_gets keeps_set_mem : keeps.

Lemma keeps_store p bs : keeps_sp (store p bs).
Proof. unfold store. destruct (p =? 0); eauto with keeps. Qed.
Lemma keeps_at_ptr p : keeps_sp (at_ptr p).
Proof. unfold at_ptr. eauto with keeps. Qed.
Lemma keeps_store_back p d : keeps_sp (store_back p d).
Proof. destruct d; [apply keeps_store|apply keeps_ret]. Qed.
#[local] Hint Resolve keeps_store keeps_at_ptr keeps_store_back : keeps.

Lemma serve_sp q : keeps_sp (serve q).
Proof.
  destruct q; cbn [serve]; unfold do_notimp, do_exit, do_setid, do_getid, do_getuname.
  all: try (apply keeps_kern || apply keeps_procs || apply keeps_ret).
  all: repeat first [progress case_match|apply keeps_bind; [|intros ?]]; eauto with keeps.
Qed.

(** A system call whose handler answers a request. *)
Lemma request_step number args h c m :
  rd SYSCALL_TABLE (Z.shiftr (u8 (Z.shiftl number 1)) 1) = Ok h →
  (∀ p m0, load_args (args.*1) p m0 = Ok (args.*2, m0) → h p m0 = c m0) →
  keeps_sp c → Forall (λ a, typed a.1 a.2) args →
  zlen (arg_bytes args) < mc_sp m ≤ zlen (mc_mem m) →
  syscall number args m =
  match c (pushed (arg_bytes args) m) with
  | Ok (r, m') => Ok (reply r (set_sp (mc_sp m) m'))
  | Err e => Err e
  end.
Proof.
  intros Hrd Hh Hsp Hty Hroom. unfold syscall. mstep by (by apply push_ok).
  mstep by (unfold lift; rewrite Hrd; reflexivity).
  assert (((λ a, convert a.1 a.2) <$> args) = args.*2) as Hv.
  { clear -Hty. induction Hty as [|a args Ha _ IH]; [done|]. cbn [fmap list_fmap]. by rewrite IH, Ha. }
  rewrite <- (Hh (mc_sp m - zlen (arg_bytes args)) (pushed (arg_bytes args) m)) by (by rewrite pushed_args, Hv).
  destruct (h _ _) as [[r m']|e] eqn:E; [|by rewrite (bind_err _ _ _ _ E)].
  mstep by exact E. mstep by done. rewrite errno_result_reply. do 2 f_equal.
  rewrite Hh in E by (by rewrite pushed_args, Hv). f_equal. rewrite (Hsp _ _ _ E). simpl. lia.
Qed.

(** C5: The system call interface: for every request with values in the range
    of their C types and room on the stack, the library function that goes
    through the soft stack, the doubled number, the table of handlers and the
    argument structure runs exactly the kernel function of the same name on
    the values that the caller gave, and returns its result, or -1 with errno
    set to the negated result. *)
Theorem syscall_equiv q m :
  request_ok q → zlen (request_bytes q) < mc_sp m ≤ zlen (mc_mem m) →
  library q m =
  match serve q (pushed (request_bytes q) m) with
  | Ok (r, m') => Ok (reply r (set_sp (mc_sp m) m'))
  | Err e => Err e
  end.
Proof.
  intros Hok Hroom. pose proof (serve_sp q) as Hsp. unfold request_bytes in *.
  destruct q; cbn [library]; unfold Libc.open, Libc.fcntl.
  all: try (destruct (has_bits _ _)); cbn [negb]; cbv iota zeta.
  all: eapply request_step; [reflexivity| |exact Hsp|exact Hok|exact Hroom].
  all: intros p m0 E; first [reflexivity|exact (bind_ok _ _ _ _ _ E)].
Qed.

(** ** The other numbers *)

Definition unassigned : list Z :=
  seqZ 8 12 ++ [24; 25; 27; 28] ++ seqZ 36 14 ++ seqZ 54 6 ++ seqZ 68 12 ++ seqZ 83 17 ++ seqZ 102 26.

Lemma table_unassigned n : n ∈ unassigned → rd SYSCALL_TABLE n = Ok (h0 do_notimp).
Proof.
  intros Hn. assert (Forall (λ n, rd SYSCALL_TABLE n = Ok (h0 do_notimp)) unassigned) as H
    by (cbv [unassigned app seqZ fmap list_fmap seq]; repeat constructor).
  by eapply Forall_forall in H.
Qed.

(** A number that the table has no call for fails with ENOSYS, whatever the
    arguments; the highest bit of the number is lost in the doubling. *)
Theorem syscall_unassigned number args m :
  0 ≤ number < 256 → number mod 128 ∈ unassigned →
  zlen (arg_bytes args) < mc_sp m ≤ zlen (mc_mem m) →
  ∃ m', syscall number args m = Ok (-1, m') ∧ errno m' = ENOSYS ∧ mc_kern m' = mc_kern m ∧ mc_sp m' = mc_sp m.
Proof.
  intros Hn Hu Hroom. unfold syscall. mstep by (by apply push_ok).
  assert (Z.shiftr (u8 (Z.shiftl number 1)) 1 = number mod 128) as ->.
  { rewrite Z.shiftl_mul_pow2, Z.shiftr_div_pow2 by lia. change (2 ^ 1) with 2. unfold u8.
    change 256 with (2 * 128). rewrite (Z.mul_comm number), Z.mul_mod_distr_l, (Z.mul_comm 2), Z.div_mul by lia. done. }
  mstep by (unfold lift; rewrite (table_unassigned _ Hu); reflexivity).
  mstep by reflexivity. mstep by reflexivity. rewrite errno_result_reply. eexists. split; [done|].
  split_and!; [done|done|]. simpl. lia.
Qed.
End Requests.

(** ** A concrete machine: the path is at address 1, the stack is below 40 *)

#[local] Existing Instances no_card sim_console sim_build.
#[local] Instance sim_rom : kernel_rom := {| addr_uname_data := 0xF000; addr_message n := 0xF100 |}.

Definition sim_machine : machine :=
  Machine no_card sim_boot w_table ([0] ++ chars "/nowhere" ++ [NUL] ++ replicate 54 0xEA) 40 0.

Lemma syscall_equiv_witness :
  ∃ m', library (QChdir 1) sim_machine = Ok (-1, m') ∧ errno m' = ENOENT ∧ mc_sp m' = 40.
Proof.
  rewrite (syscall_equiv (QChdir 1) sim_machine) by (first [by repeat constructor|split; reflexivity || (intros [=])]).
  eexists. split; [vm_compute; reflexivity|]. split; reflexivity.
Defined.
