(* ===== verification/Trap.v ===== *)
(** The way of a system call through the processor: the stub of the C library
    (libc-mosnix/syscall.S), the handler of breaks and interrupts
    (target/sim/reset.S) and the dispatcher (brk_syscall of os/switcher.S).

    The kernel and the programs have imaginary registers and a soft stack of
    their own, and share the stack page of the processor only: the stub is linked
    with __rc0 at 0x40 (shell/link-sim.ld and shell/link-eater.ld), the kernel
    with __rc0 at 0x00 (target/sim/link.ld and target/eater/link.ld).  The state
    of the stub has both banks; the code of the kernel runs on its own.

    The functions of the kernel behind the table of os/dispatch.c are C code; here
    they are a parameter, what a call of an address does to the processor.
    Syscall.v has the table itself, and the theorem of this file shows that its
    [errno_result] is what the instructions behind the trap compute. *)
From S2P Require Import Prelude ProcTable Info Kern SdCard Boot Syscall Cpu Switcher.

(** Addresses of the linker, and the words of SYSCALL_TABLE. *)
Class trap_addrs := {
  addr_after_brk : Z;            (* the instruction behind brk and nop *)
  addr_after_dispatch : Z;       (* the instruction behind jsr .Lbrk_dispatch *)
  syscall_words : list Z;
  addr_after_brk_range : 0 ≤ addr_after_brk < 65536;
  addr_after_dispatch_range : 0 ≤ addr_after_dispatch < 65536;
}.
(** The bytes of SYSCALL_TABLE. *)
Definition table_bytes (words : list Z) : list Z := mjoin ((λ w, [low w; high w]) <$> words).

(** A program that runs: its own imaginary registers, at 0x40, and the
    processor, whose [rc] are the kernel's, at 0x00. *)
Record user := User { u_rc : list Z; u_cpu : cpu }.

(** Code that uses no imaginary register, or the kernel's. *)
Definition instr {X} (m : M cpu X) : M user X := λ u,
  match m (u_cpu u) with Ok (x, s) => Ok (x, User (u_rc u) s) | Err e => Err e end.
(** __rc<n> of the program *)
Definition get_user_rc (n : Z) : M user Z := r ← gets u_rc; lift (rd r n).

Lemma instr_ok {X} (m : M cpu X) x r s s' : m s = Ok (x, s') → instr m (User r s) = Ok (x, User r s').
Proof. intros E. unfold instr. cbn [u_cpu u_rc]. by rewrite E. Qed.
Lemma get_user_rc_ok n v r s : rd r n = Ok v → get_user_rc n (User r s) = Ok (v, User r s).
Proof. intros E. unfold get_user_rc. mstep by reflexivity. unfold lift. cbn [u_rc]. by rewrite E. Qed.

Section Code.
Context {BC : build_config} {TA : trap_addrs} (kernel : Z → M cpu ()).

(** ** os/switcher.S *)

Definition brk_syscall : M cpu Z :=
  _ ← inc_in_kernel;
  _ ← tsx;
  y ← gets rY; v ← lift (rd (table_bytes syscall_words) y); _ ← lda v;
  _ ← sta (put_rc 4);
  y ← gets rY; v ← lift (rd (table_bytes syscall_words) (y + 1)); _ ← lda v;
  _ ← sta (put_rc 5);
  x ← gets rX; v ← get_stack (x + 2); _ ← lda v;
  _ ← sta (put_rc 2);
  x ← gets rX; v ← get_stack (x + 1); _ ← lda v;
  _ ← sta (put_rc 3);
  _ ← jsr_push addr_after_dispatch;
  lo ← get_rc 4; hi ← get_rc 5;
  _ ← kernel (word_of lo hi);
  pc ← rts;
  if pc =? addr_after_dispatch then
    _ ← (if CPU_65C02 then _ ← ply; ply else _ ← tay; _ ← pla; _ ← pla; tya);
    _ ← dec_in_kernel;
    rti
  else mret pc.

(** ** target/sim/reset.S *)

Definition irq_no_break : M cpu Z :=
  _ ← pla; _ ← tax; _ ← pla; rti.

Definition _irqbrk : M cpu Z :=
  _ ← pha;
  _ ← txa;
  _ ← pha;
  _ ← cld;
  _ ← tsx;
  x ← gets rX; v ← get_stack (x + 3); _ ← lda v;
  _ ← and_ 0x10;
  z ← gets flagZ;
  if z : bool then irq_no_break
  else _ ← cli; brk_syscall.

(** ** libc-mosnix/syscall.S *)

Definition syscall_enter : M user Z :=
  _ ← instr asl;
  _ ← instr tay;
  v ← get_user_rc 0; _ ← instr (lda v);
  v ← get_user_rc 1; _ ← instr (ldx v);
  _ ← instr (brk addr_after_brk);
  instr _irqbrk.

(** The bytes that are stored in errno, if any, and the address of the caller. *)
Definition syscall_leave : M cpu (option (Z * Z) * Z) :=
  _ ← cpx 0x80;
  c ← gets flagC;
  if c : bool then
    _ ← eor 0xff;
    _ ← clc;
    _ ← adc 1;
    lo ← gets rA;
    _ ← txa;
    _ ← eor 0xff;
    _ ← adc 0;
    hi ← gets rA;
    _ ← lda 0xff;
    _ ← tax;
    pc ← rts; mret (Some (lo, hi), pc)
  else pc ← rts; mret (None, pc).

Definition syscall_stub : M user (option (Z * Z) * Z) :=
  pc ← syscall_enter;
  if pc =? addr_after_brk then instr syscall_leave else mret (None, pc).
End Code.

(** ** The stack page *)

Definition put (i v : Z) (pg : list Z) : list Z := <[Z.to_nat i := v]> pg.

Lemma put_wr i v pg : 0 ≤ i < zlen pg → wr pg i v = Ok (put i v pg).
Proof. apply wr_ok. Qed.
Lemma put_zlen i v pg : zlen (put i v pg) = zlen pg.
Proof. unfold zlen, put. by rewrite length_insert. Qed.
Lemma put_rd i v pg : 0 ≤ i < zlen pg → rd (put i v pg) i = Ok v.
Proof. intros Hi. apply rd_lookup. split; [lia|]. apply list_lookup_insert_eq. unfold zlen in Hi. lia. Qed.
Lemma put_rd_other i v pg j : 0 ≤ i → j ≠ i → rd (put i v pg) j = rd pg j.
Proof.
  intros Hi Hj. unfold rd. destruct (Z.ltb_spec j 0); [done|]. f_equal. apply list_lookup_insert_ne. lia.
Qed.
Ltac rd_put := repeat (rewrite put_rd_other by lia); try (rewrite put_rd by (rewrite ?put_zlen; lia)).

Lemma push_put v s : 0 ≤ rS s < zlen (page1 s) →
  push v s = Ok ((), set_S (u8 (rS s - 1)) (set_page1 (put (rS s) v (page1 s)) s)).
Proof. intros H. by apply cpu_push_ok, put_wr. Qed.

(** The effect of a push in a sequence. *)
Ltac push_step := erewrite bind_ok;
  [|try istep; apply push_put; cpu_simpl; rewrite ?put_zlen; lia]; cpu_simpl; rewrite ?(u8_small (_ - 1)) by lia.

(** A store to an imaginary register. *)
Ltac sta_rc := erewrite bind_ok;
  [|unfold sta; istep; apply put_rc_ok, put_wr; cpu_simpl; rewrite ?put_zlen; lia]; cpu_simpl.

(** ** What a system call does *)

Section Trap.
Context {BC : build_config} {TA : trap_addrs}.
Implicit Types (s : cpu).

(** The flags as the processor keeps them. *)
Definition flags_ok (P : Z) : Prop := 0 ≤ P < 256 ∧ Z.lor (Z.ldiff P 3) 0x30 = P.

Lemma each_byte (Q : Z → Prop) : Forall Q (seqZ 0 256) → ∀ P, 0 ≤ P < 256 → Q P.
Proof. intros H P HP. rewrite Forall_forall in H. apply H, elem_of_seqZ. lia. Qed.

(** The flags that the break handler sees, and those that rti restores. *)
Lemma brk_flags P (c z : bool) : flags_ok P →
  let p := Z.lor (P + (if c then 1 else 0) + (if z then 2 else 0)) 0x10 in
  (Z.land p 0x10 =? 0) = false ∧ Z.lor (Z.ldiff p 3) 0x30 = P ∧ Z.testbit p 0 = c ∧ Z.testbit p 1 = z.
Proof.
  intros [HP E]. revert P HP E. apply (each_byte (λ P, _ → _)).
  apply (bool_decide_unpack _). destruct c, z; vm_compute; exact I.
Qed.
Lemma irq_flags P (c z : bool) : flags_ok P →
  let p := Z.ldiff (P + (if c then 1 else 0) + (if z then 2 else 0)) 0x10 in
  (Z.land p 0x10 =? 0) = true ∧ Z.lor (Z.ldiff p 3) 0x30 = P ∧ Z.testbit p 0 = c ∧ Z.testbit p 1 = z.
Proof.
  intros [HP E]. revert P HP E. apply (each_byte (λ P, _ → _)).
  apply (bool_decide_unpack _). destruct c, z; vm_compute; exact I.
Qed.

(** What both ways into the handler push. *)
Definition trap_page (a x P next S : Z) (pg : list Z) : list Z :=
  put (S - 4) x (put (S - 3) a (put (S - 2) P (put (S - 1) (low next) (put S (high next) pg)))).

Lemma trap_page_zlen a x P next S pg : zlen (trap_page a x P next S pg) = zlen pg.
Proof. unfold trap_page. by rewrite !put_zlen. Qed.

Lemma trap_page_rd a x P next S pg : 4 ≤ S < zlen pg →
  let pg' := trap_page a x P next S pg in
  rd pg' (S - 4) = Ok x ∧ rd pg' (S - 3) = Ok a ∧ rd pg' (S - 2) = Ok P ∧ rd pg' (S - 1) = Ok (low next) ∧
  rd pg' S = Ok (high next) ∧ ∀ i, S < i → rd pg' i = rd pg i.
Proof. intros HS pg'. unfold pg', trap_page. split_and!; [rd_put; done..|]. intros i Hi. by rd_put. Qed.

(** The end of a trap: rti takes what was pushed. *)
Lemma rti_frame s P next S :
  3 ≤ S ≤ 255 → rS s = S - 3 → 0 ≤ next < 65536 →
  rd (page1 s) (S - 2) = Ok P → rd (page1 s) (S - 1) = Ok (low next) → rd (page1 s) S = Ok (high next) →
  rti s = Ok (next, set_S S (set_status P s)).
Proof.
  intros HS E Hn HP Hlo Hhi. destruct s as [a x y sp fc fz fp r cur ik pg bl]. cbn [rS page1] in *. subst sp. unfold rti, set_status.
  erewrite bind_ok; [|apply pull_rd; cpu_simpl; [lia|by replace (S - 3 + 1) with (S - 2) by lia]]. cpu_simpl. istep.
  erewrite bind_ok; [|apply pull_rd; cpu_simpl; [lia|replace (S - 3 + 1 + 1) with (S - 1) by lia; exact Hlo]]. cpu_simpl.
  erewrite bind_ok; [|apply pull_rd; cpu_simpl; [lia|replace (S - 3 + 1 + 1 + 1) with S by lia; exact Hhi]]. cpu_simpl.
  rewrite word_low_high by done. by replace (S - 3 + 1 + 1 + 1) with S by lia.
Qed.

(** The three pushes of a break or an interrupt, with the flags [p]. *)
Definition trapped_at (p next : Z) s : cpu :=
  set_P (Z.lor (flagP s) 4) (set_S (rS s - 3) (set_page1 (put (rS s - 2) p (put (rS s - 1) (low next) (put (rS s) (high next) (page1 s)))) s)).

Lemma interrupt_ok s next :
  zlen (page1 s) = 256 → 3 ≤ rS s ≤ 255 → interrupt next s = Ok ((), trapped_at (Z.ldiff (status s) 0x10) next s).
Proof.
  intros Hpg HS. destruct s as [a x y sp c z P r cur ik pg bl]. cbn [rS page1] in *. unfold interrupt, trapped_at. cpu_simpl.
  push_step. push_step. istep. push_step. unfold modify. cpu_simpl.
  by replace (sp - 1 - 1 - 1) with (sp - 3) by lia; replace (sp - 1 - 1) with (sp - 2) by lia.
Qed.
Lemma brk_ok s next :
  zlen (page1 s) = 256 → 3 ≤ rS s ≤ 255 → brk next s = Ok ((), trapped_at (Z.lor (status s) 0x10) next s).
Proof.
  intros Hpg HS. destruct s as [a x y sp c z P r cur ik pg bl]. cbn [rS page1] in *. unfold brk, trapped_at. cpu_simpl.
  push_step. push_step. istep. push_step. unfold modify. cpu_simpl.
  by replace (sp - 1 - 1 - 1) with (sp - 3) by lia; replace (sp - 1 - 1) with (sp - 2) by lia.
Qed.

(** The handler pushes A and X, and finds the flags below them. *)
Lemma irqbrk_head kernel s p next :
  zlen (page1 s) = 256 → 5 ≤ rS s ≤ 255 → let b := Z.land p 0x10 in
  _irqbrk kernel (trapped_at p next s) =
    (if b =? 0 then irq_no_break else _ ← cli; brk_syscall kernel)
      (Cpu b (rS s - 5) (rY s) (rS s - 5) (flagC s) (b =? 0) (Z.ldiff (Z.lor (flagP s) 4) 8) (rc s) (current s) (in_kernel s)
         (trap_page (rA s) (rX s) p next (rS s) (page1 s)) (blocks s)).
Proof.
  intros Hpg HS. destruct s as [a x y sp c z P r cur ik pg bl]. cbn [rS page1] in *. unfold _irqbrk, trapped_at, pha, txa, tsx, and_. cpu_simpl.
  push_step. erewrite bind_ok; [|istep; apply lda_ok]. cpu_simpl. push_step.
  replace (sp - 3 - 1) with (sp - 4) by lia. replace (sp - 4 - 1) with (sp - 5) by lia.
  change (put (sp - 4) x _) with (trap_page a x p next sp pg). destruct (trap_page_rd a x p next sp pg) as (_ & _ & R2 & _); [lia|].
  istep. erewrite bind_ok; [|istep; apply ldx_ok]. cpu_simpl. istep.
  erewrite bind_ok; [|apply get_stack_ok; cpu_simpl; replace (sp - 5 + 3) with (sp - 2) by lia; exact R2]. istep.
  erewrite bind_ok; [|istep; apply lda_ok]. cpu_simpl. istep. by destruct (_ =? 0).
Qed.

(** An interrupt of the simulated machine leaves everything as it was but the
    part of the stack page below the stack pointer. *)
Lemma irq_transparent kernel s next :
  zlen (page1 s) = 256 → flags_ok (flagP s) → 5 ≤ rS s ≤ 255 → 0 ≤ next < 65536 →
  ∃ pg, (_ ← interrupt next; _irqbrk kernel) s = Ok (next, set_page1 pg s) ∧
    ∀ i, rS s < i → rd pg i = rd (page1 s) i.
Proof.
  intros Hpg HP HS Hn. destruct s as [a x y sp c z P r cur ik pg bl]. cbn [rS page1 flagP] in *.
  destruct (irq_flags P c z HP) as (Hb & HP' & Hc & Hz). set (p := Z.ldiff _ 0x10) in *.
  exists (trap_page a x p next sp pg). destruct (trap_page_rd a x p next sp pg) as (R4 & R3 & R2 & R1 & R0 & Rs); [lia|].
  split; [|exact Rs].
  rewrite (bind_ok _ _ _ _ _ (interrupt_ok (Cpu a x y sp c z P r cur ik pg bl) next Hpg ltac:(cpu_simpl; lia))).
  rewrite irqbrk_head by (cpu_simpl; lia). change (Z.ldiff (status _) 16) with p. rewrite Hb. cpu_simpl. unfold irq_no_break, pla, tax.
  erewrite bind_ok; [|erewrite bind_ok; [|apply pull_rd; cpu_simpl; [lia|replace (sp - 5 + 1) with (sp - 4) by lia; exact R4]]; apply lda_ok].
  cpu_simpl. erewrite bind_ok; [|istep; apply ldx_ok]. cpu_simpl. replace (sp - 5 + 1) with (sp - 4) by lia.
  erewrite bind_ok; [|erewrite bind_ok; [|apply pull_rd; cpu_simpl; [lia|replace (sp - 4 + 1) with (sp - 3) by lia; exact R3]]; apply lda_ok].
  cpu_simpl. etrans; [apply (rti_frame _ p next sp); cpu_simpl; try done; lia|].
  unfold set_status. cpu_simpl. by rewrite HP', Hc, Hz.
Qed.

(** ** The dispatcher *)

(** The kernel's function starts with the address of the arguments, which is the
    top [rd ur 0], [rd ur 1] of the program's soft stack, in the kernel's RC2:RC3,
    and on the kernel's own soft stack. *)
Record dispatched (ur : list Z) s sk : Prop := {
  di_S : rS sk = rS s - 7;
  di_args : rd (rc sk) 2 = rd ur 0 ∧ rd (rc sk) 3 = rd ur 1;
  di_soft_stack : take 2 (rc sk) = take 2 (rc s) ∧ drop 6 (rc sk) = drop 6 (rc s);
  di_in_kernel : in_kernel sk = u8 (in_kernel s + 1);
  di_interrupts : Z.testbit (flagP sk) 2 = false;
  di_current : current sk = current s ∧ blocks sk = blocks s;
  di_stack : ∀ i, rS s < i → rd (page1 sk) i = rd (page1 s) i;
}.
(** It leaves the result in A:X, and the stack as it found it. *)
Record returned (r : Z) sk sk' : Prop := {
  re_A : rA sk' = low r;
  re_X : rX sk' = high r;
  re_S : rS sk' = rS sk;
  re_in_kernel : in_kernel sk' = in_kernel sk;
  re_stack : ∀ i, rS sk < i → rd (page1 sk') i = rd (page1 sk) i;
}.

Lemma table_bytes_rd words (n : Z) w :
  words !! Z.to_nat n = Some w → 0 ≤ n →
  rd (table_bytes words) (2 * n) = Ok (low w) ∧ rd (table_bytes words) (2 * n + 1) = Ok (high w).
Proof.
  intros Hw Hn. unfold table_bytes. assert (∀ m, words !! m = Some w →
    mjoin ((λ w, [low w; high w]) <$> words) !! (2 * m)%nat = Some (low w) ∧
    mjoin ((λ w, [low w; high w]) <$> words) !! S (2 * m) = Some (high w)) as H.
  { clear Hw. induction words as [|v words IH]; intros [|m] Hm; try done; [by injection Hm as ->|].
    apply IH in Hm as [H1 H2]. replace (2 * S m)%nat with (S (S (2 * m))) by lia. done. }
  destruct (H _ Hw) as [H1 H2]. split; apply rd_lookup; (split; [lia|]).
  - rewrite <- H1. f_equal. lia.
  - rewrite <- H2. f_equal. lia.
Qed.

(** The state in which the dispatcher calls the function at [w]. *)
Definition at_function (a1 x1 w y sp : Z) (c : bool) (P : Z) (r : list Z) (cur ik : Z) (pg : list Z) bl : cpu :=
  let back := u16 (addr_after_dispatch - 1) in
  Cpu x1 (sp - 5) y (sp - 7) c (x1 =? 0) P (put 3 x1 (put 2 a1 (put 5 (high w) (put 4 (low w) r)))) cur (u8 (ik + 1))
    (put (sp - 6) (low back) (put (sp - 5) (high back) pg)) bl.

Lemma dispatch_call kernel (k w a1 x1 : Z) A X sp c z P r cur ik pg bl sk' :
  zlen pg = 256 → zlen r = 32 → 8 ≤ sp ≤ 255 → X = sp - 5 →
  rd pg (sp - 4) = Ok x1 → rd pg (sp - 3) = Ok a1 → syscall_words !! Z.to_nat k = Some w → 0 ≤ k → 0 ≤ w < 65536 →
  let sk := at_function a1 x1 w (2 * k) sp c P r cur ik pg bl in
  kernel w sk = Ok ((), sk') →
  brk_syscall kernel (Cpu A X (2 * k) (sp - 5) c z P r cur ik pg bl) =
    (pc ← rts;
     if pc =? addr_after_dispatch then
       _ ← (if CPU_65C02 then _ ← ply; ply else _ ← tay; _ ← pla; _ ← pla; tya);
       _ ← dec_in_kernel; rti
     else mret pc) sk'.
Proof.
  intros Hpg Hr HS -> H4 H3 Hw Hk Hw16 sk Hker. destruct (table_bytes_rd _ _ _ Hw Hk) as [Hlo Hhi].
  unfold brk_syscall, inc_in_kernel, tsx. erewrite bind_ok; [|istep; istep; reflexivity]. cpu_simpl.
  erewrite bind_ok; [|istep; apply ldx_ok]. cpu_simpl. istep. erewrite bind_ok; [|unfold lift; rewrite Hlo; reflexivity]. istep.
  sta_rc. istep. erewrite bind_ok; [|unfold lift; rewrite Hhi; reflexivity]. istep. sta_rc. istep.
  erewrite bind_ok; [|apply get_stack_ok; cpu_simpl; replace (sp - 5 + 2) with (sp - 3) by lia; exact H3]. istep. sta_rc. istep.
  erewrite bind_ok; [|apply get_stack_ok; cpu_simpl; replace (sp - 5 + 1) with (sp - 4) by lia; exact H4]. istep. sta_rc.
  unfold jsr_push. erewrite bind_ok; [|push_step; apply push_put; cpu_simpl; rewrite ?put_zlen; lia]. cpu_simpl.
  rewrite (u8_small (_ - 1)) by lia. replace (sp - 5 - 1) with (sp - 6) by lia. replace (sp - 6 - 1) with (sp - 7) by lia.
  assert (∀ i v, 4 ≤ i < 6 → rd (put 5 (high w) (put 4 (low w) r)) i = Ok v → rd (put 3 x1 (put 2 a1 (put 5 (high w) (put 4 (low w) r)))) i = Ok v)
    as Hrc by (intros i v Hi E; by rd_put).
  erewrite bind_ok; [|apply get_rc_ok; cpu_simpl; apply Hrc; [lia|rd_put; done]].
  erewrite bind_ok; [|apply get_rc_ok; cpu_simpl; apply Hrc; [lia|rd_put; done]].
  rewrite word_low_high by done. erewrite bind_ok; [|exact Hker]. reflexivity.
Qed.

(** The way back from the function. *)
Lemma dispatch_return r sk sk' sp P next :
  returned r sk sk' → rS sk = sp - 7 → 8 ≤ sp ≤ 255 → 0 ≤ next < 65536 →
  rd (page1 sk) (sp - 6) = Ok (low (u16 (addr_after_dispatch - 1))) →
  rd (page1 sk) (sp - 5) = Ok (high (u16 (addr_after_dispatch - 1))) →
  (∃ a1 x1, rd (page1 sk) (sp - 4) = Ok x1 ∧ rd (page1 sk) (sp - 3) = Ok a1) →
  rd (page1 sk) (sp - 2) = Ok P → rd (page1 sk) (sp - 1) = Ok (low next) → rd (page1 sk) sp = Ok (high next) →
  ∃ t, (pc ← rts;
     if pc =? addr_after_dispatch then
       _ ← (if CPU_65C02 then _ ← ply; ply else _ ← tay; _ ← pla; _ ← pla; tya);
       _ ← dec_in_kernel; rti
     else mret pc) sk' = Ok (next, t) ∧
    rS t = sp ∧ flagP t = Z.lor (Z.ldiff P 3) 0x30 ∧ rA t = low r ∧ rX t = high r ∧ in_kernel t = u8 (in_kernel sk - 1) ∧ page1 t = page1 sk' ∧
    rc t = rc sk' ∧ current t = current sk' ∧ blocks t = blocks sk'.
Proof.
  intros [HA HX HS Hik Hst] ES Hsp Hn H6 H5 (a1 & x1 & H4 & H3) H2 H1 H0.
  rewrite ES in *. rewrite <- !Hst in * by lia. destruct sk' as [a x y sp' c z P' rr cur ik pg bl]. cbn [rA rX rS in_kernel page1] in *. subst.
  pose proof addr_after_dispatch_range as Had. assert (0 ≤ u16 (addr_after_dispatch - 1) < 65536) as Hb by (apply Z.mod_pos_bound; lia).
  erewrite bind_ok; [|apply (rts_rd _ addr_after_dispatch (sp - 5)); cpu_simpl; [lia|]]; cycle 1.
  { unfold cpu_rts. replace (sp - 7 + 1) with (sp - 6) by lia. replace (sp - 7 + 2) with (sp - 5) by lia. rewrite H6, H5.
    cbn [mbind res_bind]. change (low ?v + 256 * high ?v) with (word_of (low v) (high v)). rewrite word_low_high, u8_small by lia.
    do 2 f_equal. unfold u16. Z.div_mod_to_equations. lia. }
  rewrite Z.eqb_refl. cpu_simpl.
  assert (∃ y' z', (if CPU_65C02 then _ ← ply; ply else _ ← tay; _ ← pla; _ ← pla; tya)
    (Cpu (low r) (high r) y (sp - 5) c z P' rr cur (in_kernel sk) pg bl) =
    Ok ((), Cpu (low r) (high r) y' (sp - 3) c z' P' rr cur (in_kernel sk) pg bl)) as (y' & z' & E).
  { assert (∀ a y z, pull (Cpu a (high r) y (sp - 5) c z P' rr cur (in_kernel sk) pg bl) =
      Ok (x1, Cpu a (high r) y (sp - 4) c z P' rr cur (in_kernel sk) pg bl)) as P1.
    { intros. erewrite pull_rd; cpu_simpl; [|lia|]; replace (sp - 5 + 1) with (sp - 4) by lia; done. }
    assert (∀ a y z, pull (Cpu a (high r) y (sp - 4) c z P' rr cur (in_kernel sk) pg bl) =
      Ok (a1, Cpu a (high r) y (sp - 3) c z P' rr cur (in_kernel sk) pg bl)) as P2.
    { intros. erewrite pull_rd; cpu_simpl; [|lia|]; replace (sp - 4 + 1) with (sp - 3) by lia; done. }
    unfold ply, pla, tay, tya. destruct CPU_65C02; do 2 eexists.
    - erewrite bind_ok; [|erewrite bind_ok; [|apply P1]; apply ldy_ok]. cpu_simpl. erewrite bind_ok; [|apply P2]. reflexivity.
    - erewrite bind_ok; [|istep; apply ldy_ok]. cpu_simpl.
      erewrite bind_ok; [|erewrite bind_ok; [|apply P1]; apply lda_ok]. cpu_simpl.
      erewrite bind_ok; [|erewrite bind_ok; [|apply P2]; apply lda_ok]. cpu_simpl. istep. reflexivity. }
  erewrite bind_ok; [|exact E]. unfold dec_in_kernel. erewrite bind_ok; [|istep; istep; reflexivity]. cpu_simpl.
  eexists. split; [apply (rti_frame _ P next sp); cpu_simpl; try done; lia|]. done.
Qed.



(** ** The end of the stub *)

Context {SD : sdcard}.

Definition stored_errno (e : option (Z * Z)) (m : machine) : machine :=
  match e with Some (lo, hi) => set_errno (s16 (word_of lo hi)) m | None => m end.

Lemma eor_byte v : 0 ≤ v < 256 → Z.lxor v 0xff = 255 - v.
Proof. apply (each_byte (λ v, Z.lxor v 0xff = 255 - v)). apply (bool_decide_unpack _). vm_compute. exact I. Qed.

(** The bytes of the negated result. *)
Lemma negated_bytes r :
  let lo := 255 - low r + 1 in
  word_of (u8 lo) (u8 (255 - high r + (if 256 <=? lo then 1 else 0))) = u16 (- u16 r).
Proof.
  cbv zeta. pose proof (low_range r). pose proof (high_range r).
  assert (u16 r = low r + 256 * high r) as -> by (unfold u16, low, high, u8; rewrite Z.shiftr_div_pow2 by lia; change (2 ^ 8) with 256; Z.div_mod_to_equations; lia).
  set (l := low r) in *. set (h := high r) in *. unfold word_of, u8, u16. destruct (Z.leb_spec 256 (255 - l + 1)); Z.div_mod_to_equations; lia.
Qed.

Lemma syscall_leave_ok r t ret S' :
  rA t = low r → rX t = high r → 0 ≤ rS t < 254 → cpu_rts (rS t) (page1 t) = Ok (ret, S') →
  ∃ e t' v, syscall_leave t = Ok ((e, ret), t') ∧ rS t' = S' ∧ in_kernel t' = in_kernel t ∧ flagP t' = flagP t ∧
    word_of (rA t') (rX t') = u16 v ∧ ∀ m, errno_result r m = Ok (v, stored_errno e m).
Proof.
  intros HA HX HS Hret. destruct t as [a x y sp c z P rr cur ik pg bl]. cbn [rA rX rS page1] in *. subst a x.
  pose proof (low_range r). pose proof (high_range r).
  assert (high (u16 r) = high r ∧ Z.shiftr (u16 r) 8 = high r) as [_ Hsh].
  { unfold high, u8, u16. rewrite !Z.shiftr_div_pow2 by lia. change (2 ^ 8) with 256. split; Z.div_mod_to_equations; lia. }
  assert (u16 r = word_of (low r) (high r)) as Hw by (unfold word_of, u16, low, high, u8 in *; rewrite Z.shiftr_div_pow2 in * by lia; change (2 ^ 8) with 256 in *; Z.div_mod_to_equations; lia).
  unfold syscall_leave, cpx, eor, txa, tax. erewrite bind_ok; [|istep; apply modify_ok]. cpu_simpl. istep.
  destruct (Z.leb_spec 0x80 (high r)) as [Hn|Hn].
  - erewrite bind_ok; [|istep; apply lda_ok]. cpu_simpl. erewrite bind_ok; [|apply modify_ok]. cpu_simpl.
    erewrite bind_ok; [|apply adc_ok]. cpu_simpl.
    istep. erewrite bind_ok; [|istep; apply lda_ok]. cpu_simpl. erewrite bind_ok; [|istep; apply lda_ok]. cpu_simpl.
    erewrite bind_ok; [|apply adc_ok]. cpu_simpl.
    istep. istep. erewrite bind_ok; [|istep; apply ldx_ok]. cpu_simpl.
    erewrite bind_ok; [|apply (rts_rd _ ret S'); [exact HS|exact Hret]]. cpu_simpl. rewrite !eor_byte, !Z.add_0_r by done.
    do 2 eexists. exists (-1). split; [reflexivity|]. cpu_simpl. do 4 (split; [done|]). intros m. unfold errno_result, stored_errno.
    cbv zeta. rewrite Hsh, (proj2 (Z.leb_le _ _) Hn). mstep by reflexivity. do 2 f_equal. unfold set_errno. f_equal. f_equal.
    pose proof (negated_bytes r) as E. cbv zeta in E. by rewrite E.
  - erewrite bind_ok; [|apply (rts_rd _ ret S'); [exact HS|exact Hret]]. cpu_simpl.
    do 2 eexists. exists (u16 r). split; [reflexivity|]. cpu_simpl. do 3 (split; [done|]). split.
    + rewrite <- Hw. unfold u16. by rewrite Z.mod_mod.
    + intros m. unfold errno_result, stored_errno. cbv zeta. rewrite Hsh, (proj2 (Z.leb_gt _ _)) by lia. done.
Qed.

(** ** The whole call *)

Lemma table_index n : 0 ≤ n → u8 (2 * n) = 2 * Z.shiftr (u8 (Z.shiftl n 1)) 1 ∧ 0 ≤ Z.shiftr (u8 (Z.shiftl n 1)) 1.
Proof.
  intros Hn. rewrite Z.shiftl_mul_pow2, Z.shiftr_div_pow2 by lia. change (2 ^ 1) with 2. rewrite Z.mul_comm. unfold u8.
  split; Z.div_mod_to_equations; lia.
Qed.

Lemma at_function_dispatched ur s r0 r1 w y c pg P :
  zlen (page1 s) = 256 → 8 ≤ rS s → (∀ i, rS s < i → rd pg i = rd (page1 s) i) → zlen (rc s) = 32 →
  Z.testbit P 2 = false → rd ur 0 = Ok r0 → rd ur 1 = Ok r1 →
  dispatched ur s (at_function r0 r1 w y (rS s) c P (rc s) (current s) (in_kernel s) pg (blocks s)).
Proof.
  intros Hpg HS Hst Hrc HP H0 H1. destruct s as [a x y0 sp fc z P0 r cur ik pg0 bl]. cbn [page1 rS rc] in *. unfold at_function.
  split; cpu_simpl; try done.
  - rewrite H0, H1. split; [rewrite put_rd_other by lia|]; apply put_rd; rewrite ?put_zlen; lia.
  - split; unfold put; [by rewrite !take_insert_ge by lia|by rewrite !drop_insert_lt by lia].
  - intros i Hi. rewrite !put_rd_other by lia. by apply Hst.
Qed.

Lemma syscall_enter_brk kernel ur s r0 r1 k :
  rd ur 0 = Ok r0 → rd ur 1 = Ok r1 → u8 (2 * rA s) = 2 * k →
  ∃ c z, ∀ x t, (_ ← brk addr_after_brk; _irqbrk kernel) (set_A r0 (set_X r1 (set_Y (2 * k) (set_flags c z s)))) = Ok (x, t) →
    syscall_enter kernel (User ur s) = Ok (x, User ur t).
Proof.
  intros R0 R1 Ek. destruct s as [a x y sp c z P rr cur ik pg bl]. cbn [rA] in *. do 2 eexists. intros res t E.
  apply bind_inv in E as ([] & s1 & E1 & E2). unfold syscall_enter, asl, tay.
  erewrite bind_ok; [|apply instr_ok; do 2 istep; apply modify_ok]. cpu_simpl. rewrite Ek.
  erewrite bind_ok; [|apply instr_ok; istep; apply ldy_ok]. cpu_simpl.
  erewrite bind_ok; [|apply get_user_rc_ok; exact R0]. erewrite bind_ok; [|apply instr_ok, lda_ok]. cpu_simpl.
  erewrite bind_ok; [|apply get_user_rc_ok; exact R1]. erewrite bind_ok; [|apply instr_ok, ldx_ok]. cpu_simpl.
  erewrite bind_ok; [|apply instr_ok; exact E1]. apply instr_ok. exact E2.
Qed.

(** The break and what the handler makes of it, for a function that returns. *)
Lemma break_ok kernel ur s k w r :
  zlen (page1 s) = 256 → zlen (rc s) = 32 → flags_ok (flagP s) → 8 ≤ rS s ≤ 255 →
  rd ur 0 = Ok (rA s) → rd ur 1 = Ok (rX s) → rY s = 2 * k → 0 ≤ k →
  syscall_words !! Z.to_nat k = Some w → 0 ≤ w < 65536 →
  (∀ sk, dispatched ur s sk → ∃ sk', kernel w sk = Ok ((), sk') ∧ returned r sk sk') →
  ∃ t, (_ ← brk addr_after_brk; _irqbrk kernel) s = Ok (addr_after_brk, t) ∧
    rS t = rS s ∧ flagP t = flagP s ∧ rA t = low r ∧ rX t = high r ∧ in_kernel t = u8 (u8 (in_kernel s + 1) - 1) ∧
    ∀ i, rS s < i → rd (page1 t) i = rd (page1 s) i.
Proof.
  intros Hpg Hrc HP HS R0 R1 HY Hk Hw Hw16 Hker.
  destruct (brk_flags (flagP s) (flagC s) (flagZ s) HP) as (Hb & HP' & _). change (flagP s + _ + _) with (status s) in *.
  set (p := Z.lor (status s) 0x10) in *. pose proof addr_after_brk_range as Hnext.
  destruct (trap_page_rd (rA s) (rX s) p addr_after_brk (rS s) (page1 s)) as (T4 & T3 & T2 & T1 & T0 & Ts); [lia|].
  pose proof (trap_page_zlen (rA s) (rX s) p addr_after_brk (rS s) (page1 s)) as Tl.
  set (pg := trap_page (rA s) (rX s) p addr_after_brk (rS s) (page1 s)) in *.
  set (P2 := Z.ldiff (Z.ldiff (Z.lor (flagP s) 4) 8) 4).
  assert (Z.testbit P2 2 = false) as HP2 by (unfold P2; by rewrite Z.ldiff_spec, andb_false_r).
  pose proof (at_function_dispatched ur s (rA s) (rX s) w (2 * k) (flagC s) pg P2 Hpg ltac:(lia) Ts Hrc HP2 R0 R1) as Hdi.
  destruct (Hker _ Hdi) as (sk' & Ek' & Hre).
  assert (∀ i, rS s - 5 < i → rd (page1 (at_function (rA s) (rX s) w (2 * k) (rS s) (flagC s) P2 (rc s) (current s) (in_kernel s) pg (blocks s))) i = rd pg i)
    as Hi by (intros i Hi; cbn [at_function page1]; by rd_put).
  destruct (dispatch_return r _ sk' (rS s) p addr_after_brk Hre) as (t & Et & HSt & HPt & HAt & HXt & Hikt & Hpt & _);
    [done|lia|done|..]; rewrite ?Hi by lia; try done.
  { cbn [at_function page1]. rewrite put_rd; [done|]. rewrite put_zlen. lia. }
  { cbn [at_function page1]. rewrite put_rd_other by lia. rewrite put_rd; [done|]. lia. }
  { by exists (rA s), (rX s). }
  exists t. split.
  - rewrite (bind_ok _ _ _ _ _ (brk_ok s addr_after_brk Hpg ltac:(lia))), irqbrk_head by lia. fold p. rewrite Hb.
    rewrite HY. erewrite bind_ok; [|apply modify_ok]. unfold set_P. cbn [rA rX rY rS flagC flagZ flagP rc current in_kernel page1 blocks].
    etrans; [apply (dispatch_call kernel k w (rA s) (rX s)) with (sk' := sk'); try done; by rewrite trap_page_zlen|exact Et].
  - split_and!; try done; [by rewrite HPt|]. intros i Hgt. rewrite Hpt. pose proof (re_stack _ _ _ Hre i) as E.
    rewrite E; [rewrite Hi by lia; by apply Ts|]. cbn. lia.
Qed.

(** C20: A system call from the stub of the C library through the break handler
    and the dispatcher: the kernel's function of the number's entry, whose index
    wraps at 128, is entered inside the kernel, with interrupts on, with the
    registers and the soft stack of the kernel, and with the top of the caller's
    soft stack, where the caller's registers say it is, as the argument.  When the
    function leaves a result, the stub returns to its caller with the value and
    the errno that Syscall.v says, the kernel left, the imaginary registers of the
    program as they were and the flags of the processor back. *)
Theorem syscall_trap_refines kernel u w r ret S' :
  let s := u_cpu u in
  cpu_ok s → zlen (u_rc u) = 32 → flags_ok (flagP s) → 8 ≤ rS s < 254 → 0 ≤ in_kernel s < 256 → 0 ≤ rA s < 256 →
  syscall_words !! Z.to_nat (Z.shiftr (u8 (Z.shiftl (rA s) 1)) 1) = Some w → 0 ≤ w < 65536 →
  cpu_rts (rS s) (page1 s) = Ok (ret, S') →
  (∀ sk, dispatched (u_rc u) s sk → ∃ sk', kernel w sk = Ok ((), sk') ∧ returned r sk sk') →
  ∃ e s' v, syscall_stub kernel u = Ok ((e, ret), User (u_rc u) s') ∧ rS s' = S' ∧ in_kernel s' = in_kernel s ∧
    flagP s' = flagP s ∧ word_of (rA s') (rX s') = u16 v ∧ ∀ m, errno_result r m = Ok (v, stored_errno e m).
Proof.
  destruct u as [ur s]. cbn [u_rc u_cpu]. intros [Hpg Hrc Hby] Hur HP HS Hik HA Hw Hw16 Hret Hker.
  destruct (table_index (rA s) (proj1 HA)) as [Ek Hk]. set (k := Z.shiftr (u8 (Z.shiftl (rA s) 1)) 1) in *.
  destruct (rd_ok ur 0) as (r0 & R0 & _); [lia|]. destruct (rd_ok ur 1) as (r1 & R1 & _); [lia|].
  destruct (syscall_enter_brk kernel ur s r0 r1 k R0 R1 Ek) as (c & z & E1).
  destruct (break_ok kernel ur (set_A r0 (set_X r1 (set_Y (2 * k) (set_flags c z s)))) k w r) as (t & E2 & HS2 & HP2 & HA2 & HX2 & Hk2 & Hst);
    try done; [change (8 ≤ rS s ≤ 255); lia|..].
  { intros sk Hsk. apply Hker. by destruct Hsk. }
  destruct (syscall_leave_ok r t ret S' HA2 HX2) as (e & t' & v & E3 & HS3 & Hk3 & HP3 & Hv & Hm).
  { rewrite HS2. destruct HS as [? ?]. cbn. lia. }
  { rewrite <- Hret, HS2. unfold cpu_rts. cbn [rS set_A set_X set_Y set_flags]. by rewrite !Hst by (cbn; lia). }
  exists e, t', v. split.
  { unfold syscall_stub. erewrite bind_ok; [|apply E1; exact E2]. rewrite Z.eqb_refl. by apply instr_ok. }
  split; [done|]. split; [|split; [exact (eq_trans HP3 HP2)|done]].
  rewrite Hk3, Hk2. cbn [in_kernel set_A set_X set_Y set_flags]. unfold u8. rewrite Zminus_mod_idemp_l, Z.mod_small by lia. lia.
Qed.
End Trap.

(** ** Witness: stat() of a file that does not exist *)

Section Witness.
#[local] Existing Instance sim_build.
#[local] Existing Instance no_card.
#[local] Instance w_trap : trap_addrs :=
  {| addr_after_brk := 0xE010; addr_after_dispatch := 0xC0A0; syscall_words := replicate 128 0xC800;
     addr_after_brk_range := ltac:(lia); addr_after_dispatch_range := ltac:(lia) |}.

(** Every function returns -ENOENT. *)
Definition w_kernel (w : Z) : M cpu () := _ ← lda 0xFE; ldx 0xFF.
(** The program's soft stack is at 0x7FF0, the kernel's at 0x0FE0. *)
Definition w_user : user :=
  User ([0xF0; 0x7F] ++ replicate 30 7)
    (Cpu 30 0 0 60 false false 0x30 ([0xE0; 0x0F] ++ replicate 30 0) 0x1000 0
      (replicate 61 0 ++ [0x34; 0x12] ++ replicate 193 0) ∅).

Lemma syscall_trap_refines_witness :
  ∃ e s' v, syscall_stub w_kernel w_user = Ok ((e, 0x1235), User (u_rc w_user) s') ∧ rS s' = 62 ∧ in_kernel s' = 0 ∧
    word_of (rA s') (rX s') = u16 v ∧ ∀ m : @machine no_card, errno_result (-2) m = Ok (v, stored_errno e m).
Proof.
  destruct (syscall_trap_refines w_kernel w_user 0xC800 (-2) 0x1235 62) as (e & s' & v & E & HS & Hk & _ & Hv & Hm).
  - split; [reflexivity|reflexivity|]. apply Forall_app. split; [repeat constructor; lia|apply Forall_replicate; lia].
  - reflexivity.
  - split; [compute_decide|reflexivity].
  - compute_decide.
  - compute_decide.
  - compute_decide.
  - reflexivity.
  - compute_decide.
  - reflexivity.
  - intros sk _. eexists. split; [reflexivity|]. by split.
  - exists e, s', v. split; [exact E|]. split; [exact HS|]. split; [exact Hk|]. split; [exact Hv|exact Hm].
Defined.

(** Functions that return the address of the arguments, and of their own soft
    stack. *)
Definition w_args (w : Z) : M cpu () := a ← get_rc 2; x ← get_rc 3; _ ← lda a; ldx x.
Definition w_stack (w : Z) : M cpu () := a ← get_rc 0; x ← get_rc 1; _ ← lda a; ldx x.
Example args_are_the_callers :
  match syscall_stub w_args w_user with Ok ((None, 0x1235), u) => word_of (rA (u_cpu u)) (rX (u_cpu u)) | _ => 0 end = 0x7FF0.
Proof. vm_compute. reflexivity. Qed.
Example stack_is_the_kernels :
  match syscall_stub w_stack w_user with Ok ((None, 0x1235), u) => word_of (rA (u_cpu u)) (rX (u_cpu u)) | _ => 0 end = 0x0FE0.
Proof. vm_compute. reflexivity. Qed.
End Witness.
