(* ===== verification/Target.v ===== *)
(** The serial port and the system tick of the breadboard target
    (target/eater/serial.S, systick.S, target.c).

    The registers of a routine are local names here; its loads and stores of the
    variables that the interrupt routines share are in the order of the code.
    An interrupt can come between any two of the parts that __chrin is made of
    below: each reads or writes the shared variables once. *)
From S2P Require Import Prelude.

(** ** target/eater/serial.S *)

Definition RX_HIGH : Z := 240.
Definition RX_LOW : Z := 224.

Record serial := Serial {
  acia_cmd : Z;                  (* ACIA_CMD *)
  rx_in : Z;
  rx_out : Z;
  rx_buffer : list Z;            (* 256 bytes *)
  transmitted : list Z;          (* what was written to ACIA_DATA *)
}.
Definition set_cmd v s := Serial v (rx_in s) (rx_out s) (rx_buffer s) (transmitted s).
Definition set_rx_in v s := Serial (acia_cmd s) v (rx_out s) (rx_buffer s) (transmitted s).
Definition set_rx_out v s := Serial (acia_cmd s) (rx_in s) v (rx_buffer s) (transmitted s).
Definition set_rx_buffer v s := Serial (acia_cmd s) (rx_in s) (rx_out s) v (transmitted s).
Definition set_transmitted v s := Serial (acia_cmd s) (rx_in s) (rx_out s) (rx_buffer s) v.

(** Transmit interrupts controlled, terminal ready, and receive interrupts on. *)
Definition RX_ON : Z := 0x09.
Definition RX_OFF : Z := 0x01.

Definition init_serial : M serial () := modify (set_cmd RX_ON).

(** The two registers of the ACIA are what it shows at the interrupt. *)
Definition serial_isr (status data : Z) : M serial () :=
  if negb (Z.testbit status 7) then mret ()
  else if Z.land status 0x08 =? 0 then mret ()
  else
    x ← gets rx_in;
    b ← gets rx_buffer; b ← lift (wr b x data); _ ← modify (set_rx_buffer b);
    _ ← modify (set_rx_in (u8 (x + 1)));
    i ← gets rx_in; o ← gets rx_out;
    if u8 (i - o) <? RX_HIGH then mret ()
    else modify (set_cmd RX_OFF).

(** [None] when there is no character. *)
Definition chrin_take : M serial (option Z) :=
  x ← gets rx_out; i ← gets rx_in;
  if x =? i then mret None
  else _ ← modify (set_rx_out (u8 (x + 1))); mret (Some x).
Definition chrin_below_low : M serial bool :=
  i ← gets rx_in; o ← gets rx_out; mret (u8 (i - o) <? RX_LOW).
Definition chrin_rx_on (below : bool) : M serial () :=
  if below then modify (set_cmd RX_ON) else mret ().
Definition chrin_have_char (x : Z) : M serial Z :=
  b ← gets rx_buffer; lift (rd b x).

Definition chrin_round : M serial (option Z) :=
  t ← chrin_take;
  match t with
  | None => mret None
  | Some x =>
      below ← chrin_below_low; _ ← chrin_rx_on below;
      c ← chrin_have_char x; mret (Some c)
  end.
(** __chrin goes round until there is a character: one round. *)
Definition __chrin : M serial (option Z) := chrin_round.
Definition __chrin_no_wait : M serial Z :=
  c ← chrin_round; mret (default (-1) c).
Definition __chrout (c : Z) : M serial () :=
  modify (λ s, set_transmitted (transmitted s ++ [c]) s).

(** ** target/eater/target.c *)

Definition __putchar (c : Z) : M serial () :=
  if c =? 10 then _ ← __chrout 13; __chrout 10 else __chrout c.
Definition getchar : M serial (option Z) :=
  c ← __chrin;
  mret (match c with Some c => Some (if c =? 13 then 10 else c) | None => None end).

(** ** target/eater/systick.S *)

Definition T2COUNT : Z := 3906.

(** The five bytes of __systick_value, and the deadline of the timer. *)
Record systick := Systick { systick_value : list Z; t2 : Z }.

(** The sixth store is behind the variable. *)
Fixpoint zero_bytes (i : Z) (n : nat) (v : list Z) : res (list Z) :=
  match n with O => Ok v | S n => v ← wr v i 0; zero_bytes (i + 1) n v end.
Definition init_systick (s : systick) : res systick :=
  v ← zero_bytes 0 6 (systick_value s); Ok (Systick v T2COUNT).

(** [inc] of one byte after the other, as long as the last became zero. *)
Fixpoint inc_bytes (v : list Z) : list Z :=
  match v with
  | [] => []
  | b :: v => if u8 (b + 1) =? 0 then u8 (b + 1) :: inc_bytes v else u8 (b + 1) :: v
  end.

(** The elapsed time in T2CL and T2CH, read at one instant, shortens the next
    period: two additions with carry. *)
Definition t2_restart (elapsed : Z) : Z :=
  let lo := u8 elapsed + u8 (T2COUNT - 24) in
  let hi := u8 (Z.shiftr elapsed 8) + u8 (Z.shiftr (T2COUNT - 24) 8) + (if 256 <=? lo then 1 else 0) in
  u8 lo + 256 * u8 hi.

Definition systick_isr (ifr elapsed : Z) (s : systick) : systick :=
  if Z.land ifr 0x20 =? 0 then s
  else Systick (inc_bytes (systick_value s)) (t2_restart elapsed).

(** The eight bytes of a long long. *)
Definition sys_monoclock (s : systick) : list Z := systick_value s ++ [0; 0; 0].
Definition sys_clock (s : systick) : list Z := take 2 (systick_value s).

Lemma init_systick_overruns v t : length v = 5%nat → init_systick (Systick v t) = Err FBounds.
Proof. do 6 (destruct v as [|? v]; try done). Qed.

(** ** The tick *)

Definition ticks (v : list Z) : Z := foldr (λ b n, b + 256 * n) 0 v.

Lemma pow_zlen_cons {A} (x : A) v : 256 ^ zlen (x :: v) = 256 * 256 ^ zlen v.
Proof. rewrite zlen_cons. apply Z.pow_succ_r, zlen_nonneg. Qed.

Lemma ticks_range v : Forall (λ b, 0 ≤ b < 256) v → 0 ≤ ticks v < 256 ^ zlen v.
Proof.
  induction 1 as [|b v Hb _ IH]; [done|]. change (ticks (b :: v)) with (b + 256 * ticks v).
  rewrite pow_zlen_cons. lia.
Qed.

(** The counter counts in 40 bits, and a read of it gives its value. *)
Lemma inc_bytes_ticks v :
  Forall (λ b, 0 ≤ b < 256) v → ticks (inc_bytes v) = (ticks v + 1) mod 256 ^ zlen v ∧ Forall (λ b, 0 ≤ b < 256) (inc_bytes v).
Proof.
  induction 1 as [|b v Hb Hv IH]; [done|]. destruct IH as [IH IHb]. pose proof (ticks_range v Hv) as Hr.
  rewrite pow_zlen_cons. cbn [inc_bytes].
  assert (ticks (b :: v) = b + 256 * ticks v) as -> by done.
  destruct (Z.eqb_spec (u8 (b + 1)) 0) as [E|E].
  - assert (b = 255) as -> by (unfold u8 in E; Z.div_mod_to_equations; lia). split; [|by constructor].
    change (ticks (u8 (255 + 1) :: inc_bytes v)) with (256 * ticks (inc_bytes v)). rewrite IH.
    rewrite <- Z.mul_mod_distr_l by lia. f_equal. lia.
  - assert (u8 (b + 1) = b + 1) as E1 by (apply u8_small; unfold u8 in E; Z.div_mod_to_equations; lia). rewrite E1 in *.
    split; [|constructor; [unfold u8 in E1; Z.div_mod_to_equations; lia|done]]. change (ticks (b + 1 :: v)) with (b + 1 + 256 * ticks v).
    rewrite Z.mod_small; [lia|]. assert (b + 1 < 256) by (unfold u8 in E1; Z.div_mod_to_equations; lia). lia.
Qed.

Lemma systick_isr_counts ifr elapsed s :
  length (systick_value s) = 5%nat → Forall (λ b, 0 ≤ b < 256) (systick_value s) → Z.testbit ifr 5 = true → 0 ≤ elapsed < 65536 →
  ticks (sys_monoclock (systick_isr ifr elapsed s)) = (ticks (sys_monoclock s) + 1) mod 2 ^ 40 ∧
  t2 (systick_isr ifr elapsed s) = u16 (elapsed + T2COUNT - 24).
Proof.
  intros Hl Hv Hi He. unfold systick_isr. assert (Z.land ifr 0x20 =? 0 = false) as ->.
  { apply Z.eqb_neq. intros E. apply (f_equal (λ v, Z.testbit v 5)) in E. rewrite Z.land_spec, Hi in E. done. }
  cbn [systick_value t2]. split.
  - assert (∀ v, ticks (v ++ [0; 0; 0]) = ticks v) as Hz by (intros v; unfold ticks; by rewrite foldr_app).
    unfold sys_monoclock. cbn [systick_value]. rewrite !Hz. destruct (inc_bytes_ticks _ Hv) as [-> _]. unfold zlen. by rewrite Hl.
  - unfold t2_restart, T2COUNT. change (u8 (3906 - 24)) with 42. change (u8 (Z.shiftr (3906 - 24) 8)) with 15.
    unfold u8, u16. rewrite Z.shiftr_div_pow2 by lia. change (2 ^ 8) with 256. cbv zeta.
    destruct (Z.leb_spec 256 (elapsed mod 256 + 42)); Z.div_mod_to_equations; lia.
Qed.

(** ** The receive buffer as a queue *)

(** Where a reader is in its round, with the index it has taken. *)
Inductive reader :=
  | Idle
  | Taken (x : Z)                   (* the level is to be found *)
  | Levelled (x : Z) (below : bool) (* receive interrupts are to be turned on *)
  | HaveChar (x : Z).

Inductive event := Received (c : Z) | Delivered (c : Z) | Silent.

(** One part of a routine, or one interrupt.  A character arrives only while
    receive interrupts are on; an interrupt of another device changes nothing. *)
Inductive serial_step : serial * reader → event → serial * reader → Prop :=
  | step_receive s p c s' :
      acia_cmd s = RX_ON → serial_isr 0x88 c s = Ok ((), s') → serial_step (s, p) (Received c) (s', p)
  | step_other s p status c s' :
      Z.testbit status 7 = false → serial_isr status c s = Ok ((), s') → serial_step (s, p) Silent (s', p)
  | step_take s x s' : chrin_take s = Ok (Some x, s') → serial_step (s, Idle) Silent (s', Taken x)
  | step_empty s s' : chrin_take s = Ok (None, s') → serial_step (s, Idle) Silent (s', Idle)
  | step_level s x below s' :
      chrin_below_low s = Ok (below, s') → serial_step (s, Taken x) Silent (s', Levelled x below)
  | step_rx_on s x below s' :
      chrin_rx_on below s = Ok ((), s') → serial_step (s, Levelled x below) Silent (s', HaveChar x)
  | step_have_char s x c s' :
      chrin_have_char x s = Ok (c, s') → serial_step (s, HaveChar x) (Delivered c) (s', Idle).

Inductive serial_trace : serial * reader → list event → serial * reader → Prop :=
  | trace_nil st : serial_trace st [] st
  | trace_snoc st evs st' ev st'' :
      serial_trace st evs st' → serial_step st' ev st'' → serial_trace st (evs ++ [ev]) st''.

Definition received (evs : list event) : list Z := omap (λ e, match e with Received c => Some c | _ => None end) evs.
Definition delivered (evs : list event) : list Z := omap (λ e, match e with Delivered c => Some c | _ => None end) evs.

(** The buffer holds [q] from the index [o] on. *)
Definition holds (b : list Z) (o : Z) (q : list Z) : Prop :=
  ∀ i c, q !! i = Some c → b !! Z.to_nat (u8 (o + Z.of_nat i)) = Some c.

Lemma holds_receive b o q c x :
  length b = 256%nat → zlen q < 256 → x = u8 (o + zlen q) → holds b o q → holds (<[Z.to_nat x := c]> b) o (q ++ [c]).
Proof.
  intros Hb Hq -> H i d Hi. apply lookup_snoc_Some in Hi as [[Hlt Hi]|[-> <-]].
  - rewrite list_lookup_insert_ne; [by apply H|]. unfold zlen, u8 in *. intros E. apply Z2Nat.inj in E; Z.div_mod_to_equations; lia.
  - apply list_lookup_insert_eq. unfold u8. pose proof (Z.mod_pos_bound (o + zlen q) 256). lia.
Qed.

Lemma holds_take b o c q : holds b o (c :: q) → b !! Z.to_nat (u8 o) = Some c ∧ holds b (u8 (o + 1)) q.
Proof.
  intros H. split; [pose proof (H 0%nat c eq_refl) as H0; by rewrite Z.add_0_r in H0|]. intros i d Hi.
  rewrite <- (H (S i) d Hi). f_equal. f_equal. unfold u8. rewrite Zplus_mod_idemp_l. f_equal. lia.
Qed.

(** What the reader has taken and not delivered, with what it was told. *)
Definition reader_ok (s : serial) (p : reader) (held : list Z) (n : Z) : Prop :=
  match p with
  | Idle => held = []
  | Taken x | HaveChar x | Levelled x false => ∃ c, held = [c] ∧ rx_out s = u8 (x + 1) ∧ 0 ≤ x < 256 ∧ rx_buffer s !! Z.to_nat x = Some c
  | Levelled x true => (∃ c, held = [c] ∧ rx_out s = u8 (x + 1) ∧ 0 ≤ x < 256 ∧ rx_buffer s !! Z.to_nat x = Some c) ∧
      n ≤ RX_HIGH ∧ (acia_cmd s = RX_ON → n < RX_HIGH)
  end.

(** Receive interrupts are off when the buffer is above its mark. *)
Record serial_ok (s : serial) (p : reader) (held q : list Z) : Prop := {
  se_length : length (rx_buffer s) = 256%nat;
  se_out : 0 ≤ rx_out s < 256;
  se_in : rx_in s = u8 (rx_out s + zlen q);
  se_holds : holds (rx_buffer s) (rx_out s) q;
  se_level : zlen q ≤ RX_HIGH + 1 ∧ (acia_cmd s = RX_ON → zlen q ≤ RX_HIGH);
  se_cmd : acia_cmd s = RX_ON ∨ acia_cmd s = RX_OFF;
  se_reader : reader_ok s p held (zlen q);
}.

Lemma level_ok s p held q : serial_ok s p held q → u8 (rx_in s - rx_out s) = zlen q.
Proof.
  intros [_ Ho -> _ [Hl _] _ _]. pose proof (zlen_nonneg q). unfold RX_HIGH in Hl. unfold u8.
  rewrite Zminus_mod_idemp_l. replace (rx_out s + zlen q - rx_out s) with (zlen q) by lia. apply Z.mod_small. lia.
Qed.

Lemma serial_receive s p held q c s' :
  serial_ok s p held q → acia_cmd s = RX_ON → serial_isr 0x88 c s = Ok ((), s') → serial_ok s' p held (q ++ [c]).
Proof.
  intros Hok Hon. pose proof (level_ok _ _ _ _ Hok) as Hlev. destruct Hok as [Hb Ho Hi Hh [_ Hl] _ Hr]. specialize (Hl Hon).
  pose proof (zlen_nonneg q) as Hq. unfold RX_HIGH in Hl. destruct s as [cmd i o b tx]. cbn [acia_cmd rx_in rx_out rx_buffer] in *. subst cmd.
  unfold serial_isr. change (negb (Z.testbit 0x88 7)) with false. change (Z.land 0x88 8 =? 0) with false. cbv iota.
  assert (0 ≤ i < 256) as Hi256 by (rewrite Hi; apply Z.mod_pos_bound; lia).
  do 2 (mstep by reflexivity). mstep by (unfold lift; rewrite wr_ok by (unfold zlen; cbn [rx_buffer rx_in]; lia); reflexivity).
  do 4 (mstep by reflexivity). cbn [rx_in rx_out set_rx_in set_rx_buffer rx_buffer acia_cmd transmitted].
  assert (zlen (q ++ [c]) = zlen q + 1) as Hq1 by (rewrite zlen_app; done).
  assert (u8 (i + 1) = u8 (o + zlen (q ++ [c]))) as Hin by (rewrite Hi, Hq1; unfold u8; rewrite Zplus_mod_idemp_l; f_equal; lia).
  assert (u8 (u8 (i + 1) - o) = zlen q + 1) as ->.
  { rewrite Hin, Hq1. unfold u8. rewrite Zminus_mod_idemp_l. rewrite Z.mod_small; lia. }
  assert (∀ cmd, (zlen q + 1 < RX_HIGH → cmd = RX_ON) → (RX_HIGH ≤ zlen q + 1 → cmd = RX_OFF) →
    serial_ok (Serial cmd (u8 (i + 1)) o (<[Z.to_nat i := c]> b) tx) p held (q ++ [c])) as Hgoal.
  { intros cmd Hlo Hhi. assert (∀ x d, o = u8 (x + 1) → 0 ≤ x < 256 → b !! Z.to_nat x = Some d → <[Z.to_nat i := c]> b !! Z.to_nat x = Some d) as Hheld.
    { intros x d Ex Hx Hd. rewrite list_lookup_insert_ne; [done|]. intros E%Z2Nat.inj; [|lia..]. subst. unfold u8 in *. Z.div_mod_to_equations; lia. }
    split; cbn [acia_cmd rx_in rx_out rx_buffer].
    - by rewrite length_insert.
    - done.
    - done.
    - apply holds_receive; [done|lia|done|done].
    - rewrite Hq1. unfold RX_HIGH, RX_ON, RX_OFF in *. split; [lia|]. intros ->. destruct (Z.le_gt_cases 240 (zlen q + 1)) as [Hc|Hc]; [by apply Hhi in Hc|lia].
    - destruct (Z.le_gt_cases RX_HIGH (zlen q + 1)); auto.
    - rewrite Hq1. unfold reader_ok in *. cbn [acia_cmd rx_out rx_buffer] in *. destruct p as [|x|x []|x].
      + done.
      + naive_solver.
      + destruct Hr as (Hr & _ & Hlt). specialize (Hlt eq_refl). split; [naive_solver|]. split; [lia|]. intros ->.
        destruct (Z.le_gt_cases RX_HIGH (zlen q + 1)) as [Hc|Hc]; [by apply Hhi in Hc|lia].
      + naive_solver.
      + naive_solver. }
  destruct (Z.ltb_spec (zlen q + 1) RX_HIGH) as [Hc|Hc]; intros [= <-]; apply Hgoal; intros; try done; lia.
Qed.

Lemma serial_taken s x s' q :
  serial_ok s Idle [] q → chrin_take s = Ok (Some x, s') →
  ∃ c q', q = c :: q' ∧ serial_ok s' (Taken x) [c] q'.
Proof.
  intros [Hb Ho Hi Hh [Hl1 Hl2] Hc _]. unfold chrin_take. do 2 (mstep by reflexivity).
  destruct (Z.eqb_spec (rx_out s) (rx_in s)) as [|Hne]; [done|]. mstep by reflexivity. intros [= <- <-].
  destruct q as [|c q]; [destruct Hne; rewrite Hi, Z.add_0_r; symmetry; by apply u8_small|].
  exists c, q. split; [done|]. apply holds_take in Hh as [H0 Hh]. rewrite zlen_cons in *. split; cbn; try done.
  - apply Z.mod_pos_bound. lia.
  - rewrite Hi. unfold u8. rewrite Zplus_mod_idemp_l. f_equal. lia.
  - split; [lia|]. intros Hon. specialize (Hl2 Hon). lia.
  - exists c. rewrite u8_small in H0 by done. do 3 (split; [done|]). exact H0.
Qed.

Lemma serial_levelled s x held q below s' :
  serial_ok s (Taken x) held q → chrin_below_low s = Ok (below, s') → serial_ok s' (Levelled x below) held q.
Proof.
  intros Hok. pose proof (level_ok _ _ _ _ Hok) as Hlev. unfold chrin_below_low. do 2 (mstep by reflexivity). intros [= <- <-].
  rewrite Hlev. destruct Hok as [Hb Ho Hi Hh Hl Hc Hr]. split; try done. unfold RX_LOW. cbn [reader_ok] in *.
  destruct (Z.ltb_spec (zlen q) 224); [|done]. split; [done|]. unfold RX_HIGH. lia.
Qed.

Lemma serial_rx_on s x below held q s' :
  serial_ok s (Levelled x below) held q → chrin_rx_on below s = Ok ((), s') → serial_ok s' (HaveChar x) held q.
Proof.
  intros [Hb Ho Hi Hh Hl Hc Hr]. destruct below; intros [= <-]; split; try done; cbn [reader_ok set_cmd acia_cmd rx_out rx_buffer] in *.
  - destruct Hr as (_ & Hn & _). unfold RX_HIGH in *. lia.
  - by left.
  - tauto.
Qed.

Lemma serial_have_char s x held q c s' :
  serial_ok s (HaveChar x) held q → chrin_have_char x s = Ok (c, s') → held = [c] ∧ serial_ok s' Idle [] q.
Proof.
  intros [Hb Ho Hi Hh Hl Hc (d & -> & Hx & Hr & Hd)]. unfold chrin_have_char. mstep by reflexivity. unfold lift.
  assert (rd (rx_buffer s) x = Ok d) as -> by (apply rd_lookup; split; [lia|done]). intros [= <- <-]. by split.
Qed.

Lemma serial_step_ok s p ev s' p' held q :
  serial_step (s, p) ev (s', p') → serial_ok s p held q →
  ∃ held' q', serial_ok s' p' held' q' ∧ held ++ q ++ received [ev] = delivered [ev] ++ held' ++ q'.
Proof.
  intros Hs Hok. inversion Hs as [? ? c ? Hon E|? ? st c ? Ht E|? x ? E|? ? E|? x b ? E|? x b ? E|? x c ? E]; subst.
  - exists held, (q ++ [c]). split; [by eapply serial_receive|done].
  - exists held, q. unfold serial_isr in E. rewrite Ht in E. injection E as <-. by rewrite app_nil_r.
  - pose proof (se_reader _ _ _ _ Hok) as Hh. cbn in Hh. subst held.
    destruct (serial_taken _ _ _ _ Hok E) as (c & q' & -> & Hok'). exists [c], q'. by rewrite app_nil_r.
  - exists held, q. rewrite app_nil_r. unfold chrin_take in E. rewrite (bind_ok _ _ s _ s eq_refl), (bind_ok _ _ s _ s eq_refl) in E.
    destruct (_ =? _); [by injection E as <-|done].
  - exists held, q. rewrite app_nil_r. by eapply serial_levelled in E.
  - exists held, q. rewrite app_nil_r. by eapply serial_rx_on in E.
  - destruct (serial_have_char _ _ _ _ _ _ Hok E) as [-> Hok']. exists [], q. by rewrite app_nil_r.
Qed.

Lemma serial_start_ok s : acia_cmd s = RX_ON → rx_in s = 0 → rx_out s = 0 → length (rx_buffer s) = 256%nat → serial_ok s Idle [] [].
Proof. intros H1 H2 H3 H4. split; try done; rewrite ?H2, ?H3; try done. by left. Qed.

(** C39: Characters that arrive at the serial port are delivered to the readers
    in order and without loss, however interrupts and the parts of __chrin come
    between each other: what was received is what was delivered, the one that a
    reader has taken, and what is in the buffer, which never holds more than 241
    of its 256, and receive interrupts are off when it holds more than 240. *)
Theorem serial_fifo s0 evs s p :
  acia_cmd s0 = RX_ON → rx_in s0 = 0 → rx_out s0 = 0 → length (rx_buffer s0) = 256%nat →
  serial_trace (s0, Idle) evs (s, p) →
  ∃ held q, received evs = delivered evs ++ held ++ q ∧ serial_ok s p held q.
Proof.
  intros H1 H2 H3 H4 Ht. remember (s0, Idle) as st0 eqn:E0. remember (s, p) as st eqn:E. revert s p E.
  induction Ht as [st|st evs [s1 p1] ev [s2 p2] Ht IH Hs]; intros s p E; subst.
  - injection E as <- <-. exists [], []. split; [done|by apply serial_start_ok].
  - injection E as <- <-. destruct (IH eq_refl s1 p1 eq_refl) as (held & q & Eq & Hok).
    destruct (serial_step_ok _ _ _ _ _ _ _ Hs Hok) as (held' & q' & Hok' & Eq'). exists held', q'. split; [|done].
    unfold received, delivered in *. rewrite !omap_app, Eq, <- !app_assoc. by rewrite Eq'.
Qed.

(** Every step that the reader is at can be taken: no access is out of range. *)
Lemma serial_progress s p held q : serial_ok s p held q → ∃ ev s' p', serial_step (s, p) ev (s', p').
Proof.
  intros [_ _ _ _ _ _ Hr]. destruct p as [|x|x below|x].
  - destruct (chrin_take s) as [[[x|] s']|] eqn:E; [by eexists _, _, _; eapply step_take|by eexists _, _, _; eapply step_empty|].
    exfalso. revert E. unfold chrin_take. do 2 (mstep by reflexivity). by destruct (_ =? _).
  - eexists _, _, _. by eapply step_level.
  - destruct below; eexists _, _, _; by eapply step_rx_on.
  - destruct Hr as (c & _ & _ & Hx & Hd). eexists _, _, _. eapply step_have_char. unfold chrin_have_char. mstep by reflexivity.
    unfold lift. assert (rd (rx_buffer s) x = Ok c) as -> by (apply rd_lookup; split; [lia|done]). done.
Qed.

(** ** Witness: a character arrives while the reader has taken another *)

Definition w_step (f : M serial ()) (s : serial) : serial := match f s with Ok (_, s') => s' | Err _ => s end.
Definition w_start : serial := Serial RX_ON 0 0 (replicate 256 0) [].
Definition w_one : serial := w_step (serial_isr 0x88 0x41) w_start.
Definition w_taken : serial := w_step (_ ← chrin_take; mret ()) w_one.
Definition w_two : serial := w_step (serial_isr 0x88 0x42) w_taken.

Lemma serial_fifo_witness :
  serial_trace (w_start, Idle) [Received 0x41; Silent; Received 0x42] (w_two, Taken 0) ∧
  ∃ held q, [0x41; 0x42] = held ++ q ∧ serial_ok w_two (Taken 0) held q.
Proof.
  assert (serial_trace (w_start, Idle) [Received 0x41; Silent; Received 0x42] (w_two, Taken 0)) as Ht.
  { apply (trace_snoc _ [Received 0x41; Silent] (w_taken, Taken 0)); [|by apply step_receive].
    apply (trace_snoc _ [Received 0x41] (w_one, Idle)); [|by apply step_take].
    apply (trace_snoc _ [] (w_start, Idle)); [apply trace_nil|by apply step_receive]. }
  split; [exact Ht|]. exact (serial_fifo w_start _ w_two (Taken 0) eq_refl eq_refl eq_refl eq_refl Ht).
Defined.
