(* ===== verification/Board.v ===== *)
(** The break and interrupt handler of the breadboard target (target/eater/reset.S)
    over its two interrupt routines, and the console of the simulator
    (target/sim/target.c).

    The state is the processor, the tick and the serial port.  What the registers
    of the VIA and the ACIA show at an interrupt, and what the two routines leave in
    A, X and the flags, are arguments: the theorems hold for any. *)
From S2P Require Import Prelude ProcTable Info Cpu Switcher Trap Target.

Record board := Board { b_cpu : cpu; b_tick : systick; b_serial : serial }.

(** The addresses behind the two calls. *)
Class board_addrs := {
  addr_after_systick : Z;
  addr_after_serial : Z;
  addr_after_systick_range : 0 ≤ addr_after_systick < 65536;
  addr_after_serial_range : 0 ≤ addr_after_serial < 65536;
}.

(** A, X, C and Z. *)
Record scratch := Scratch { sc_A : Z; sc_X : Z; sc_C : bool; sc_Z : bool }.
Record irq_input := IrqInput {
  VIA_IFR : Z; T2_elapsed : Z; ACIA_STATUS : Z; ACIA_DATA : Z;
  after_systick : scratch; after_serial : scratch;
}.

Definition on_cpu {A} (m : M cpu A) : M board A := λ b,
  match m (b_cpu b) with Ok (a, s) => Ok (a, Board s (b_tick b) (b_serial b)) | Err e => Err e end.
Definition on_serial {A} (m : M serial A) : M board A := λ b,
  match m (b_serial b) with Ok (a, s) => Ok (a, Board (b_cpu b) (b_tick b) s) | Err e => Err e end.
Definition on_tick (f : systick → systick) : M board () := modify (λ b, Board (b_cpu b) (f (b_tick b)) (b_serial b)).
Definition clobber (r : scratch) : M board () :=
  on_cpu (modify (λ s, set_A (sc_A r) (set_X (sc_X r) (set_flags (sc_C r) (sc_Z r) s)))).

Section Code.
Context {BA : board_addrs} (i : irq_input) (brk_syscall irq : M board Z).

Definition __systick_isr : M board () := _ ← on_tick (systick_isr (VIA_IFR i) (T2_elapsed i)); clobber (after_systick i).
Definition __serial_isr : M board () := _ ← on_serial (serial_isr (ACIA_STATUS i) (ACIA_DATA i)); clobber (after_serial i).

(** [jsr]: control comes back when the routine finds its return address. *)
Definition jsr (return_address : Z) (routine : M board ()) : M board () :=
  _ ← on_cpu (jsr_push return_address);
  _ ← routine;
  pc ← on_cpu rts;
  if pc =? return_address then mret () else fail FWild.

Definition irq_tail : M board Z :=
  _ ← jsr addr_after_systick __systick_isr;
  _ ← jsr addr_after_serial __serial_isr;
  _ ← on_cpu plx;
  _ ← on_cpu pla;
  irq.

(** [_irqbrk] up to the branch: whether it was an interrupt. *)
Definition irq_head : M cpu bool :=
  _ ← pha;
  _ ← phx;
  _ ← cld;
  _ ← tsx;
  x ← gets rX; v ← get_stack (x + 3); _ ← lda v;
  _ ← and_ 0x10;
  gets flagZ.
Definition _irqbrk : M board Z :=
  z ← on_cpu irq_head;
  if z : bool then irq_tail
  else _ ← on_cpu cli; brk_syscall.

Definition _irq_default : M board Z := on_cpu rti.
End Code.

(** ** The handler *)

Lemma on_cpu_ok {A} (m : M cpu A) b a s :
  m (b_cpu b) = Ok (a, s) → on_cpu m b = Ok (a, Board s (b_tick b) (b_serial b)).
Proof. intros E. unfold on_cpu. by rewrite E. Qed.
Lemma on_serial_ok {A} (m : M serial A) b a s :
  m (b_serial b) = Ok (a, s) → on_serial m b = Ok (a, Board (b_cpu b) (b_tick b) s).
Proof. intros E. unfold on_serial. by rewrite E. Qed.

Section Handler.
Context {BA : board_addrs}.
Implicit Types (s : cpu) (b : board).

(** The state of the processor at the branch. *)
Definition at_branch (p next : Z) s : cpu :=
  let b := Z.land p 0x10 in
  Cpu b (rS s - 5) (rY s) (rS s - 5) (flagC s) (b =? 0) (Z.ldiff (Z.lor (flagP s) 4) 8) (rc s) (current s) (in_kernel s)
    (trap_page (rA s) (rX s) p next (rS s) (page1 s)) (blocks s).

Lemma irq_head_ok s p next :
  zlen (page1 s) = 256 → 5 ≤ rS s ≤ 255 →
  irq_head (trapped_at p next s) = Ok (Z.land p 0x10 =? 0, at_branch p next s).
Proof.
  intros Hpg HS. destruct s as [a x y sp c z P r cur ik pg bl]. cbn [rS page1] in *. unfold irq_head, trapped_at, at_branch, pha, phx, tsx, and_. cpu_simpl.
  push_step. push_step.
  replace (sp - 3 - 1) with (sp - 4) by lia. replace (sp - 4 - 1) with (sp - 5) by lia.
  change (put (sp - 4) x _) with (trap_page a x p next sp pg). destruct (trap_page_rd a x p next sp pg) as (_ & _ & R2 & _); [lia|].
  istep. erewrite bind_ok; [|istep; apply ldx_ok]. cpu_simpl. istep.
  erewrite bind_ok; [|apply get_stack_ok; cpu_simpl; replace (sp - 5 + 3) with (sp - 2) by lia; exact R2]. istep.
  erewrite bind_ok; [|istep; apply lda_ok]. cpu_simpl. done.
Qed.

(** What the processor is left with after an interrupt routine. *)
Definition clobbered (r : scratch) s : cpu := set_A (sc_A r) (set_X (sc_X r) (set_flags (sc_C r) (sc_Z r) s)).

Lemma jsr_push_ok ret s :
  zlen (page1 s) = 256 → 2 ≤ rS s ≤ 255 → 0 ≤ ret < 65536 →
  ∃ pg, jsr_push ret s = Ok ((), set_S (rS s - 2) (set_page1 pg s)) ∧ zlen pg = 256 ∧
    rd pg (rS s - 1) = Ok (low (u16 (ret - 1))) ∧ rd pg (rS s) = Ok (high (u16 (ret - 1))) ∧
    ∀ i, rS s < i → rd pg i = rd (page1 s) i.
Proof.
  intros Hpg HS Hret. destruct s as [a x y sp c z P r cur ik pg bl]. cbn [rS page1] in *. unfold jsr_push. cpu_simpl.
  exists (put (sp - 1) (low (u16 (ret - 1))) (put sp (high (u16 (ret - 1))) pg)). split.
  - push_step. erewrite push_put by (cpu_simpl; rewrite ?put_zlen; lia). cpu_simpl. rewrite u8_small by lia.
    by replace (sp - 1 - 1) with (sp - 2) by lia.
  - rewrite !put_zlen. split; [done|]. split; [by rd_put|]. split; [by rd_put|]. intros i Hi. by rd_put.
Qed.

Lemma rts_back ret s sp :
  2 ≤ sp ≤ 255 → rS s = sp - 2 → 0 ≤ ret < 65536 →
  rd (page1 s) (sp - 1) = Ok (low (u16 (ret - 1))) → rd (page1 s) sp = Ok (high (u16 (ret - 1))) →
  rts s = Ok (ret, set_S sp s).
Proof.
  intros HS E Hret Hlo Hhi. destruct s as [a x y sp' c z P r cur ik pg bl]. cbn [rS page1] in *. subst sp'. unfold rts.
  erewrite bind_ok; [|apply pull_rd; cpu_simpl; [lia|replace (sp - 2 + 1) with (sp - 1) by lia; exact Hlo]]. cpu_simpl.
  erewrite bind_ok; [|apply pull_rd; cpu_simpl; [lia|replace (sp - 2 + 1 + 1) with sp by lia; exact Hhi]]. cpu_simpl.
  rewrite word_low_high by (apply Z.mod_pos_bound; lia).
  replace (sp - 2 + 1 + 1) with sp by lia.
  assert (u16 (u16 (ret - 1) + 1) = ret) as E by (unfold u16; Z.div_mod_to_equations; lia). by rewrite E.
Qed.

(** A call of a routine that does not use the stack. *)
Lemma jsr_ok ret (m : M board ()) r s t u t' u' :
  zlen (page1 s) = 256 → 2 ≤ rS s ≤ 255 → 0 ≤ ret < 65536 →
  (∀ s, m (Board s t u) = Ok ((), Board s t' u')) →
  ∃ pg, jsr ret (_ ← m; clobber r) (Board s t u) = Ok ((), Board (set_page1 pg (clobbered r s)) t' u') ∧ zlen pg = 256 ∧
    ∀ i, rS s < i → rd pg i = rd (page1 s) i.
Proof.
  intros Hpg HS Hret Hm. destruct (jsr_push_ok ret s Hpg HS Hret) as (pg & E & Hpg' & Hlo & Hhi & Hi).
  exists pg. split; [|done]. unfold jsr. mstep by (by apply on_cpu_ok).
  mstep by (mstep by apply Hm; reflexivity). cbn [b_cpu b_tick b_serial].
  mstep by (apply on_cpu_ok, (rts_back ret _ (rS s)); try done). rewrite Z.eqb_refl. by destruct s.
Qed.

(** The end of an interrupt, from the branch. *)
Lemma irq_tail_ok i p next b u' :
  zlen (page1 (b_cpu b)) = 256 → 7 ≤ rS (b_cpu b) ≤ 255 → 0 ≤ next < 65536 →
  serial_isr (ACIA_STATUS i) (ACIA_DATA i) (b_serial b) = Ok ((), u') →
  ∃ pg, irq_tail i _irq_default (Board (at_branch p next (b_cpu b)) (b_tick b) (b_serial b)) =
      Ok (next, Board (set_status p (set_page1 pg (b_cpu b))) (systick_isr (VIA_IFR i) (T2_elapsed i) (b_tick b)) u') ∧
    ∀ j, rS (b_cpu b) < j → rd pg j = rd (page1 (b_cpu b)) j.
Proof.
  destruct b as [s t u]. cbn [b_cpu b_tick b_serial]. intros Hpg HS Hn Hu.
  destruct s as [a x y sp c z P r cur ik pg bl]. cbn [rS page1] in *. unfold irq_tail, at_branch. cpu_simpl.
  destruct (trap_page_rd a x p next sp pg) as (R4 & R3 & R2 & R1 & R0 & Rs); [lia|].
  pose proof (trap_page_zlen a x p next sp pg) as Hl. revert R4 R3 R2 R1 R0 Rs Hl. generalize (trap_page a x p next sp pg) as pg0.
  intros pg0 R4 R3 R2 R1 R0 Rs Hl. rewrite Hpg in Hl.
  set (tick := systick_isr (VIA_IFR i) (T2_elapsed i)). match goal with |- context [Board ?s' t u] => set (s1 := s') end.
  assert (rS s1 = sp - 5) as HS1 by done.
  destruct (jsr_ok addr_after_systick (on_tick tick) (after_systick i) s1 t u (tick t) u) as (pg1 & E1 & Hl1 & Rs1);
    [done|lia|apply addr_after_systick_range|done|].
  unfold __systick_isr. mstep by exact E1. clear E1.
  destruct (jsr_ok addr_after_serial (on_serial (serial_isr (ACIA_STATUS i) (ACIA_DATA i))) (after_serial i)
    (set_page1 pg1 (clobbered (after_systick i) s1)) (tick t) u (tick t) u') as (pg2 & E2 & Hl2 & Rs2);
    [done|change (2 ≤ rS s1 ≤ 255); lia|apply addr_after_serial_range|intros s; by apply on_serial_ok|].
  unfold __serial_isr. mstep by exact E2. clear E2. change (∀ j, rS s1 < j → rd pg2 j = rd pg1 j) in Rs2.
  assert (∀ j, sp - 5 < j → rd pg2 j = rd pg0 j) as Rj by (intros j Hj; rewrite Rs2, Rs1 by lia; done).
  rewrite <- Rj in R4, R3, R2, R1, R0 by lia. unfold clobbered, s1. cpu_simpl.
  exists pg2. split; [|intros j Hj; rewrite Rj by lia; by apply Rs].
  unfold plx, pla, _irq_default.
  mstep by (apply on_cpu_ok; cbn [b_cpu]; erewrite bind_ok; [|apply pull_rd; cpu_simpl; [lia|replace (sp - 5 + 1) with (sp - 4) by lia; exact R4]]; apply ldx_ok).
  cpu_simpl. replace (sp - 5 + 1) with (sp - 4) by lia.
  mstep by (apply on_cpu_ok; cbn [b_cpu]; erewrite bind_ok; [|apply pull_rd; cpu_simpl; [lia|replace (sp - 4 + 1) with (sp - 3) by lia; exact R3]]; apply lda_ok).
  cpu_simpl. apply on_cpu_ok. cbn [b_cpu]. etrans; [apply (rti_frame _ p next sp); cpu_simpl; try done; lia|].
  unfold set_status. cpu_simpl. done.
Qed.

Lemma on_cpu_bind {A C} (m : M cpu A) (f : A → M cpu C) b :
  on_cpu (m ≫= f) b = (on_cpu m ≫= λ a, on_cpu (f a)) b.
Proof. unfold on_cpu, mbind, M_bind. by destruct (m (b_cpu b)) as [[a s]|e]. Qed.

Lemma serial_isr_total status c (t : serial) p held q : serial_ok t p held q → ∃ t', serial_isr status c t = Ok ((), t').
Proof.
  intros [Hb Ho Hi _ _ _ _]. unfold serial_isr. destruct (negb _); [by eexists|]. destruct (_ =? 0); [by eexists|].
  mstep by reflexivity. mstep by reflexivity.
  mstep by (unfold lift; rewrite wr_ok by (rewrite Hi; unfold zlen, u8; rewrite Hb; Z.div_mod_to_equations; lia); reflexivity).
  do 4 (mstep by reflexivity). by case_match; eexists.
Qed.

(** From the push of a break on, the two targets do the same. *)
Lemma break_alike {BC : build_config} {TA : trap_addrs} i kernel irq fl next b :
  zlen (page1 (b_cpu b)) = 256 → 5 ≤ rS (b_cpu b) ≤ 255 → (Z.land fl 0x10 =? 0) = false →
  let b' := Board (trapped_at fl next (b_cpu b)) (b_tick b) (b_serial b) in
  _irqbrk i (on_cpu (brk_syscall kernel)) irq b' = on_cpu (Trap._irqbrk kernel) b'.
Proof.
  intros Hpg HS Hb b'. unfold _irqbrk, b'. mstep by (by apply on_cpu_ok, irq_head_ok). rewrite Hb. cbn [b_cpu b_tick b_serial].
  rewrite <- on_cpu_bind. unfold on_cpu. cbn [b_cpu b_tick b_serial]. by rewrite irqbrk_head, Hb.
Qed.

(** C40: The break and interrupt handler of the breadboard target.  An interrupt gives
    the interrupted program back all of its registers, flags and stack, whatever the
    two interrupt routines leave in A, X and the flags, and control at the
    interrupted instruction; meanwhile the tick is what the timer's routine makes of
    it, and a character that arrived is at the end of the receive queue.  A break
    goes to the dispatcher of system calls exactly as on the simulator. *)
Theorem board_handler_refines i b next p held q :
  zlen (page1 (b_cpu b)) = 256 → flags_ok (flagP (b_cpu b)) → 7 ≤ rS (b_cpu b) ≤ 255 → 0 ≤ next < 65536 →
  serial_ok (b_serial b) p held q →
  (∀ brk_syscall, ∃ pg u',
    (_ ← on_cpu (interrupt next); _irqbrk i brk_syscall _irq_default) b =
      Ok (next, Board (set_page1 pg (b_cpu b)) (systick_isr (VIA_IFR i) (T2_elapsed i) (b_tick b)) u') ∧
    (∀ j, rS (b_cpu b) < j → rd pg j = rd (page1 (b_cpu b)) j) ∧
    (ACIA_STATUS i = 0x88 → acia_cmd (b_serial b) = RX_ON → serial_ok u' p held (q ++ [ACIA_DATA i])) ∧
    (Z.testbit (ACIA_STATUS i) 7 = false → u' = b_serial b)) ∧
  ∀ (BC : build_config) (TA : trap_addrs) kernel irq,
    (_ ← on_cpu (brk next); _irqbrk i (on_cpu (brk_syscall kernel)) irq) b =
      on_cpu (_ ← brk next; Trap._irqbrk kernel) b.
Proof.
  intros Hpg HP HS Hn Hser. split.
  - intros bs. destruct (serial_isr_total (ACIA_STATUS i) (ACIA_DATA i) _ _ _ _ Hser) as (u' & Hu).
    destruct b as [[a x y sp c z P r cur ik pg0 bl] t u]. cbn [b_cpu b_tick b_serial rS page1 flagP] in *.
    destruct (irq_flags P c z HP) as (Hb & HP' & Hc & Hz). set (fl := Z.ldiff _ 0x10) in *.
    destruct (irq_tail_ok i fl next (Board (Cpu a x y sp c z P r cur ik pg0 bl) t u) u') as (pg & E & Hj); try done.
    exists pg, u'. split; [|split; [exact Hj|split]].
    + mstep by (apply on_cpu_ok, interrupt_ok; [done|cbn; lia]). unfold _irqbrk.
      mstep by (apply on_cpu_ok; cbn [b_cpu]; change (Z.ldiff (status _) 16) with fl; apply irq_head_ok; [done|cbn; lia]).
      rewrite Hb. etrans; [exact E|]. unfold set_status. cbn [b_cpu]. cpu_simpl. by rewrite HP', Hc, Hz.
    + intros Hst Hon. rewrite Hst in Hu. by eapply serial_receive.
    + intros Hst. unfold serial_isr in Hu. rewrite Hst in Hu. by injection Hu as <-.
  - intros BC TA kernel irq. rewrite on_cpu_bind.
    pose proof (brk_flags (flagP (b_cpu b)) (flagC (b_cpu b)) (flagZ (b_cpu b)) HP) as (Hb & _).
    pose proof (brk_ok (b_cpu b) next Hpg ltac:(lia)) as E.
    mstep by (by apply on_cpu_ok). symmetry. mstep by (by apply on_cpu_ok). symmetry.
    apply break_alike; [done|lia|exact Hb].
Qed.
End Handler.

(** ** Witness: a character and a tick at once *)

Section Witness.
#[local] Instance w_board_addrs : board_addrs :=
  {| addr_after_systick := 0xE109; addr_after_serial := 0xE10C;
     addr_after_systick_range := ltac:(lia); addr_after_serial_range := ltac:(lia) |}.

Definition w_irq : irq_input := IrqInput 0x20 0xFFF0 0x88 0x41 (Scratch 1 2 true false) (Scratch 3 4 false true).
Definition w_running : cpu :=
  Cpu 30 7 9 60 true false 0x30 (replicate 32 0) 0x1000 0 (replicate 256 0) ∅.
Definition w_board : board := Board w_running (Systick [255; 0; 0; 0; 0] 0) w_start.

Lemma board_handler_refines_witness :
  ∃ pg u', (_ ← on_cpu (interrupt 0x1234); _irqbrk w_irq _irq_default _irq_default) w_board =
      Ok (0x1234, Board (set_page1 pg w_running) (Systick [0; 1; 0; 0; 0] 3866) u') ∧
    serial_ok u' Idle [] [0x41].
Proof.
  destruct (board_handler_refines w_irq w_board 0x1234 Idle [] []) as [Hi _].
  - reflexivity.
  - compute_decide.
  - compute_decide.
  - compute_decide.
  - by apply serial_start_ok.
  - destruct (Hi _irq_default) as (pg & u' & E & _ & Hs & _). exists pg, u'. split; [exact E|]. by apply Hs.
Defined.
End Witness.

(** ** target/sim/target.c *)

Module Sim.
(** The interface of the simulator at 0xfff0. *)
Class sim_reg := {
  sim : Type;
  read_getchar : sim → Z * sim;
  read_input_eof : sim → Z * sim;
  write_putchar : Z → sim → sim;
  write_exit : Z → sim → sim;
}.

Section Code.
Context {R : sim_reg}.

Definition reading (r : sim → Z * sim) : M sim Z := λ s, Ok (r s).
Definition __putchar (c : Z) : M sim () := modify (write_putchar c).
Definition getchar : M sim Z :=
  c ← reading read_getchar;
  eof ← reading read_input_eof;
  if negb (eof =? 0) then mret (-1) else mret c.
Definition _exit (status : Z) : M sim () := modify (write_exit (u8 status)).
(** The value that is stored at the pointer. *)
Definition sys_monoclock : Z := 0.
End Code.

(** A simulator with its input: the end of it sets the register when a read finds
    nothing. *)
Record console := Console { input : list Z; eof : Z; output : list Z; status : option Z }.
Definition console_sim : sim_reg := {|
  sim := console;
  read_getchar := λ s,
    match input s with
    | [] => (0, Console [] 1 (output s) (status s))
    | c :: l => (c, Console l (eof s) (output s) (status s))
    end;
  read_input_eof := λ s, (eof s, s);
  write_putchar := λ c s, Console (input s) (eof s) (output s ++ [c]) (status s);
  write_exit := λ v s, Console (input s) (eof s) (output s) (Some v);
|}.

(** Characters until the input ends, then -1 for ever. *)
Fixpoint getchars (n : nat) : M (@sim console_sim) (list Z) :=
  match n with
  | O => mret []
  | S n => c ← getchar; l ← getchars n; mret (c :: l)
  end.

Lemma getchars_ok (l out : list Z) st n :
  getchars (length l + n) (Console l 0 out st) =
    Ok (l ++ replicate n (-1), Console [] (if decide (n = 0%nat) then 0 else 1) out st).
Proof.
  assert (∀ e, getchars n (Console [] e out st) = Ok (replicate n (-1), Console [] (if decide (n = 0%nat) then e else 1) out st)) as He.
  { induction n as [|n IH]; intros e; [done|]. cbn [getchars]. mstep by reflexivity. rewrite (decide_False (P := S n = 0%nat)) by done.
    mstep by apply IH. by destruct n. }
  induction l as [|c l IH]; [apply He|]. cbn [length Nat.add getchars]. mstep by reflexivity. by mstep by exact IH.
Qed.
End Sim.

(** ** libc-mosnix/startup.S *)

Module Startup.
(** The processor, with the imaginary registers of the program that starts,
    and the bytes of __argc and __argv. *)
Record program := Program { p_cpu : cpu; __argc : list Z; __argv : list Z }.

Definition at_cpu {A} (m : M cpu A) : M program A := λ g,
  match m (p_cpu g) with Ok (a, s) => Ok (a, Program s (__argc g) (__argv g)) | Err e => Err e end.
Definition store_argc (i v : Z) : M program () :=
  b ← gets __argc; b ← lift (wr b i v); modify (λ g, Program (p_cpu g) b (__argv g)).
Definition store_argv (i v : Z) : M program () :=
  b ← gets __argv; b ← lift (wr b i v); modify (λ g, Program (p_cpu g) (__argc g) b).
Definition load (b : program → list Z) (i : Z) : M program Z := b ← gets b; lift (rd b i).
Definition reg (f : cpu → Z) : M program Z := at_cpu (gets f).

Definition __save_args : M program () :=
  a ← reg rA; _ ← store_argc 0 a;
  x ← reg rX; _ ← store_argc 1 x;
  _ ← at_cpu (v ← get_rc 2; lda v);
  _ ← at_cpu (v ← get_rc 3; ldx v);
  a ← reg rA; _ ← store_argv 0 a;
  x ← reg rX; store_argv 1 x.

Definition __restore_args : M program () :=
  v ← load __argv 0; _ ← at_cpu (lda v);
  v ← load __argv 1; _ ← at_cpu (ldx v);
  a ← reg rA; _ ← at_cpu (put_rc 2 a);
  x ← reg rX; _ ← at_cpu (put_rc 3 x);
  v ← load __argc 0; _ ← at_cpu (lda v);
  v ← load __argc 1; at_cpu (ldx v).

Lemma at_cpu_ok {A} (m : M cpu A) g a s :
  m (p_cpu g) = Ok (a, s) → at_cpu m g = Ok (a, Program s (__argc g) (__argv g)).
Proof. intros E. unfold at_cpu. by rewrite E. Qed.
Lemma rc_to_A n v s : rd (rc s) n = Ok v → (v ← get_rc n; lda v) s = Ok ((), set_flags (flagC s) (v =? 0) (set_A v s)).
Proof. intros E. mstep by (by apply get_rc_ok). apply lda_ok. Qed.
Lemma rc_to_X n v s : rd (rc s) n = Ok v → (v ← get_rc n; ldx v) s = Ok ((), set_flags (flagC s) (v =? 0) (set_X v s)).
Proof. intros E. mstep by (by apply get_rc_ok). apply ldx_ok. Qed.

#[local] Ltac pstep := erewrite bind_ok; [|reflexivity]; cbn [p_cpu __argc __argv]; cpu_simpl.

Lemma save_args_ok s a0 a1 v0 v1 r2 r3 :
  rd (rc s) 2 = Ok r2 → rd (rc s) 3 = Ok r3 →
  ∃ s', __save_args (Program s [a0; a1] [v0; v1]) = Ok ((), Program s' [rA s; rX s] [r2; r3]).
Proof.
  intros H2 H3. destruct s as [a x y sp c z P r cur ik pg bl]. cbn [Cpu.rc] in *. eexists. unfold __save_args. do 4 pstep.
  erewrite bind_ok; [|apply at_cpu_ok, rc_to_A; exact H2]. cbn [p_cpu __argc __argv]. cpu_simpl.
  erewrite bind_ok; [|apply at_cpu_ok, rc_to_X; exact H3]. cbn [p_cpu __argc __argv]. cpu_simpl.
  do 3 pstep. reflexivity.
Qed.

Lemma restore_args_ok t a0 a1 v0 v1 :
  zlen (rc t) = 32 →
  ∃ t', __restore_args (Program t [a0; a1] [v0; v1]) = Ok ((), Program t' [a0; a1] [v0; v1]) ∧
    rA t' = a0 ∧ rX t' = a1 ∧ rd (rc t') 2 = Ok v0 ∧ rd (rc t') 3 = Ok v1.
Proof.
  intros Hrc. destruct t as [a x y sp c z P r cur ik pg bl]. cbn [Cpu.rc] in Hrc. eexists. split.
  - unfold __restore_args. do 5 pstep.
    erewrite bind_ok; [|apply at_cpu_ok, put_rc_ok, put_wr; cbn [p_cpu]; cpu_simpl; lia]. cbn [p_cpu __argc __argv]. cpu_simpl.
    pstep. erewrite bind_ok; [|apply at_cpu_ok, put_rc_ok, put_wr; cbn [p_cpu]; cpu_simpl; rewrite put_zlen; lia]. cbn [p_cpu __argc __argv]. cpu_simpl.
    do 3 pstep. reflexivity.
  - cbn [p_cpu]. cpu_simpl. split; [done|]. split; [done|]. split; by rd_put.
Qed.

(** Whatever the start of the program does to the registers in between, main gets
    the two arguments that the kernel passed. *)
Lemma args_restored s a0 a1 v0 v1 r2 r3 t :
  rd (rc s) 2 = Ok r2 → rd (rc s) 3 = Ok r3 → zlen (rc t) = 32 →
  ∃ g, __save_args (Program s [a0; a1] [v0; v1]) = Ok ((), g) ∧
    ∃ g', __restore_args (Program t (__argc g) (__argv g)) = Ok ((), g') ∧
      rA (p_cpu g') = rA s ∧ rX (p_cpu g') = rX s ∧ rd (rc (p_cpu g')) 2 = Ok r2 ∧ rd (rc (p_cpu g')) 3 = Ok r3.
Proof.
  intros H2 H3 Hrc. destruct (save_args_ok s a0 a1 v0 v1 r2 r3 H2 H3) as [s' E]. eexists. split; [exact E|]. cbn [__argc __argv].
  destruct (restore_args_ok t (rA s) (rX s) r2 r3 Hrc) as (t' & E' & H). eexists. split; [exact E'|exact H].
Qed.
End Startup.
