(* ===== verification/Commands.v ===== *)
(** The shell: its output (shell/print.c), its commands (shell/cd.c, ls.c,
    mount.c, pwd.c, uname.c), the root file system (shell/rootfs.c), and the
    start and the main loop (shell/main.c, shell/command.c).

    The shell is a process: its state is that of the kernel with its own static
    variables.  A system call here is the kernel's function with the treatment
    of its result by libc-mosnix/syscall.S; Syscall shows that the passage
    through the stack and the table comes to that.  A string is the memory from
    its first character on; a command sees each argument up to its NUL. *)
From S2P Require Import Prelude CDefs Sched Kern Inode Devices Fat Ramfs File Clock Getopt Shell Info.

(** struct fstab_entry; None is NULL. *)
Record fstab_entry := FstabEntry {
  fs_mountpoint : option (list Z);
  fs_device : option (list Z);
  fs_type : option (list Z);
  fs_options : option (list Z);
}.

Record shell {SD : sdcard} := ShellState {
  sh_kern : kern;
  sh_errno : Z;
  sh_prev : list Z;               (* prev_path[] *)
  sh_temp : list Z;               (* temp_path1[] *)
  sh_mounts : list fstab_entry;   (* mounts[] *)
  sh_mount_count : Z;
  sh_getopt : getopt_state;
  sh_line : list Z;               (* buffer[] *)
  sh_entry : list Z;              (* the entry of list() *)
}.
Arguments shell : clear implicits.
Arguments shell {SD}.

Definition PATH_MAX : Z := 64.
Definition MOUNT_MAX : Z := 2.
Definition HOME_DIR : list Z := chars "/root" ++ [NUL].
Definition LS_NAMED : Z := 0x10.
Definition LS_NEXT : Z := 0x20.
Definition DT_CHR : Z := 2.
Definition DT_BLK : Z := 6.
Definition DT_LNK : Z := 10.
Definition CH_COMMA : Z := 44.
Definition CH_STAR : Z := 42.
Definition CH_AT : Z := 64.

(** A string literal. *)
Definition lit (s : String.string) : list Z := chars s ++ [NUL].
Arguments lit s%_string_scope.
Definition lit_nl (s : String.string) : list Z := chars s ++ [CH_LF; NUL].
Arguments lit_nl s%_string_scope.

Section State.
Context {SD : sdcard}.
Implicit Types (s : shell).

Definition set_kern v s := ShellState SD v (sh_errno s) (sh_prev s) (sh_temp s) (sh_mounts s)
  (sh_mount_count s) (sh_getopt s) (sh_line s) (sh_entry s).
Definition set_err v s := ShellState SD (sh_kern s) v (sh_prev s) (sh_temp s) (sh_mounts s)
  (sh_mount_count s) (sh_getopt s) (sh_line s) (sh_entry s).
Definition set_prev v s := ShellState SD (sh_kern s) (sh_errno s) v (sh_temp s) (sh_mounts s)
  (sh_mount_count s) (sh_getopt s) (sh_line s) (sh_entry s).
Definition set_temp_path v s := ShellState SD (sh_kern s) (sh_errno s) (sh_prev s) v (sh_mounts s)
  (sh_mount_count s) (sh_getopt s) (sh_line s) (sh_entry s).
Definition set_mounts v n s := ShellState SD (sh_kern s) (sh_errno s) (sh_prev s) (sh_temp s) v
  n (sh_getopt s) (sh_line s) (sh_entry s).
Definition set_getopt v s := ShellState SD (sh_kern s) (sh_errno s) (sh_prev s) (sh_temp s) (sh_mounts s)
  (sh_mount_count s) v (sh_line s) (sh_entry s).
Definition set_line v s := ShellState SD (sh_kern s) (sh_errno s) (sh_prev s) (sh_temp s) (sh_mounts s)
  (sh_mount_count s) (sh_getopt s) v (sh_entry s).
Definition set_entry v s := ShellState SD (sh_kern s) (sh_errno s) (sh_prev s) (sh_temp s) (sh_mounts s)
  (sh_mount_count s) (sh_getopt s) (sh_line s) v.

Definition in_kern {A} (m : M kern A) : M shell A := λ s,
  match m (sh_kern s) with Ok (a, k) => Ok (a, set_kern k s) | Err e => Err e end.

(** What syscall() makes of the kernel's result. *)
Definition call_result (r : Z) : M shell Z :=
  let r := s16 r in
  if r <? 0 then _ ← modify (set_err (s16 (- r))); mret (-1) else mret r.
Definition invoke (m : M kern Z) : M shell Z := r ← in_kern m; call_result r.
(** A call that fills a buffer. *)
Definition invoke_buf (m : M kern (Z * option (list Z))) (buf : list Z) : M shell (Z * list Z) :=
  '(r, b) ← in_kern m; r ← call_result r; mret (r, default buf b).
End State.

Section Code.
Context {SD : sdcard} {CC : console_config} {BC : build_config}.
Implicit Types (s : shell).

(** ** shell/print.c *)

Definition write_chars (fd : Z) (data : list Z) (size : Z) : M shell () :=
  _ ← invoke (sys_write fd (Some data) size); mret ().
Definition put_string (fd : Z) (str : option (list Z)) : M shell () :=
  match str with
  | None => mret ()
  | Some mem => cs ← lift (str_chars mem); write_chars fd mem (u16 (zlen cs))
  end.

Definition print_char (c : Z) : M shell () := write_chars 1 [c] 1.
Definition print_string (str : option (list Z)) : M shell () := put_string 1 str.
Definition print_nl : M shell () := write_chars 1 [CH_LF; NUL] 1.
Definition print_flush : M shell () := mret ().

Fixpoint print_chars (cs : list Z) : M shell () :=
  match cs with [] => mret () | c :: cs => _ ← print_char c; print_chars cs end.
Definition print_number (value size : Z) : M shell () :=
  cs ← lift (Shell.print_number value size (replicate (Z.to_nat size) 0)); print_chars cs.

Definition print_stderr_char (c : Z) : M shell () := write_chars 2 [c] 1.
Definition print_stderr_string (str : option (list Z)) : M shell () := put_string 2 str.
Definition print_stderr_nl : M shell () := write_chars 2 [CH_LF; NUL] 1.

Definition print_error (pathname : option (list Z)) : M shell () :=
  _ ← match pathname with
      | None => mret ()
      | Some _ =>
          _ ← print_stderr_string pathname;
          print_stderr_string (Some (lit ": "))
      end;
  e ← gets sh_errno;
  '(_, message) ← lift (sys_strerror e);
  _ ← print_stderr_string (Some message);
  print_stderr_nl.

(** ** The calls of the library that the shell uses *)

Definition sh_getcwd : M shell Z :=
  temp ← gets sh_temp;
  '(r, temp) ← invoke_buf (sys_getcwd (Some temp) PATH_MAX false) temp;
  _ ← modify (set_temp_path temp);
  mret r.
Definition sh_chdir (path : list Z) : M shell Z := invoke (sys_chdir (Some path)).
Definition sh_mkdir (path : String.string) (mode : Z) : M shell Z := invoke (sys_mkdir (Some (lit path)) mode).
Definition sh_mknod (path : String.string) (mode dev : Z) : M shell Z := invoke (sys_mknod (Some (lit path)) mode dev).
Arguments sh_mkdir path%_string_scope mode.
Arguments sh_mknod path%_string_scope mode dev.
Definition sh_umask (mask : Z) : M shell () := _ ← invoke (sys_umask mask); mret ().
Definition sh_mount (target : option (list Z)) : M shell Z :=
  invoke (sys_mount (Some (lit "/dev/mmcblk0")) target (Some (lit "vfat")) 0).
Definition sh_close (fd : Z) : M shell () := _ ← invoke (sys_close fd); mret ().

(** getchar(): one byte of descriptor 0, which lies in a local variable. *)
Definition sh_getchar : M shell Z :=
  '(r, c) ← invoke_buf (sys_read 0 (Some [0]) 1) [0];
  if r <? 1 then mret (-1) else lift (rd c 0).

(** getopt() in the shell: its messages go to descriptor 2. *)
Definition run_options {A} (m : M getopt_state A) : M shell A :=
  g ← gets sh_getopt;
  '(a, g) ← lift (m (Getopt (g_optind g) (g_nextind g) (g_nextchar g) (g_optarg g) []));
  _ ← modify (set_getopt g);
  _ ← (match g_err g with [] => mret () | _ => write_chars 2 (g_err g) (zlen (g_err g)) end);
  mret a.
Definition options_fuel (argv : list (option (list Z))) : nat :=
  S (length (concat (default [] <$> argv))).

(** ** shell/cd.c *)

Definition arg_at (argv : list (option (list Z))) (i : Z) : M shell (list Z) :=
  arg ← lift (rd argv i); lift (of_option FNull arg).

Definition cmd_chdir (argc : Z) (argv : list (option (list Z))) : M shell Z :=
  if 2 <? argc then _ ← print_stderr_string (Some (lit_nl "cd: too many arguments")); mret 1
  else
    _ ← sh_getcwd;
    pathname ← (if argc =? 1 then mret HOME_DIR
                else
                  arg ← arg_at argv 1;
                  cmp ← lift (strcmp arg (lit "-"));
                  if cmp =? 0 then gets sh_prev else mret arg);
    r ← sh_chdir pathname;
    if r <? 0 then _ ← print_error (Some pathname); mret 1
    else
      prev ← gets sh_prev;
      temp ← gets sh_temp;
      prev ← lift (memcpy prev 0 temp PATH_MAX);
      _ ← modify (set_prev prev);
      mret 0.

(** ** shell/pwd.c: getcwd() gives NULL when its call fails *)

Definition cmd_pwd (argc : Z) (argv : list (option (list Z))) : M shell Z :=
  r ← sh_getcwd;
  if r =? 0 then
    temp ← gets sh_temp;
    _ ← print_string (Some temp);
    _ ← print_nl;
    mret 0
  else _ ← print_error (Some (lit "pwd")); mret 1.

(** ** shell/mount.c *)

Definition add_fstab (mountpoint device type options : list Z) : M shell () :=
  n ← gets sh_mount_count;
  if n <? MOUNT_MAX then
    mounts ← gets sh_mounts;
    mounts ← lift (wr mounts n (FstabEntry (Some mountpoint) (Some device) (Some type) (Some options)));
    modify (set_mounts mounts (u8 (n + 1)))
  else mret ().

Fixpoint mount_loop (fuel : nat) (index : Z) : M shell () :=
  match fuel with
  | O => fail FFuel
  | S fuel =>
      n ← gets sh_mount_count;
      if index <? n then
        mounts ← gets sh_mounts;
        entry ← lift (rd mounts index);
        _ ← print_string (fs_device entry);
        _ ← print_string (Some (lit " on "));
        _ ← print_string (fs_mountpoint entry);
        _ ← print_string (Some (lit " type "));
        _ ← print_string (fs_type entry);
        _ ← print_string (Some (lit " ("));
        _ ← print_string (fs_options entry);
        _ ← print_string (Some (lit_nl ")"));
        mount_loop fuel (index + 1)
      else mret ()
  end.
Definition cmd_mount (argc : Z) (argv : list (option (list Z))) : M shell Z :=
  _ ← mount_loop 3 0; mret 0.

(** ** shell/uname.c *)

(** A member of the structure is read up to its NUL, or into the next ones. *)
Definition uts_strings (u : utsname) : list (list Z) :=
  [u_sysname u; u_nodename u; u_release u; u_version u; u_machine u].
Definition uname_bits : list Z := [UNAME_SYSNAME; UNAME_NODENAME; UNAME_RELEASE; UNAME_VERSION; UNAME_MACHINE].

Fixpoint print_uname (options : Z) (bits : list Z) (members : list (list Z)) (need_space : bool) : M shell () :=
  match bits, members with
  | bit :: bits, _ :: rest =>
      if has_bits options bit then
        _ ← (if need_space then print_char CH_SPACE else mret ());
        _ ← print_string (Some (concat members));
        print_uname options bits rest true
      else print_uname options bits rest need_space
  | _, _ => mret ()
  end.

Definition sh_uname : M shell (Z * utsname) :=
  let '(r, data) := sys_getuname in r ← call_result r; mret (r, data).

Definition cmd_uname (argc : Z) (argv : list (option (list Z))) : M shell Z :=
  opts ← (if argc =? 0 then
            mret (Some (Z.lor (Z.lor (Z.lor UNAME_SYSNAME UNAME_RELEASE) UNAME_VERSION) UNAME_MACHINE))
          else run_options (uname_options (options_fuel argv) argc argv));
  match opts with
  | None => mret 1
  | Some options =>
      '(r, uts) ← sh_uname;
      if r <? 0 then _ ← print_error (Some (lit "uname")); mret 1
      else
        _ ← print_uname options uname_bits (uts_strings uts) false;
        _ ← print_nl;
        mret 0
  end.
End Code.

Section Shell.
Context {SD : sdcard} {CC : console_config} {BC : build_config}.
Implicit Types (s : shell).

(** ** shell/ls.c *)

Definition mode_types : list Z := chars "?fc?d?b?-?l?s???".
Definition mode_bits : list Z := chars "rwxrwxrwx".

Fixpoint print_mode_loop (bits : list Z) (mode bit : Z) : M shell () :=
  match bits with
  | [] => mret ()
  | c :: bits =>
      _ ← print_char (if has_bits mode bit then c else CH_MINUS);
      print_mode_loop bits mode (Z.shiftr bit 1)
  end.
Definition print_mode (type mode : Z) : M shell () :=
  t ← lift (rd (mode_types ++ [NUL]) type);
  _ ← print_char t;
  print_mode_loop mode_bits mode (Z.shiftl 1 8).

(** The members of struct dirent that ls reads. *)
Definition e_ino (e : list Z) : res Z := le32 e 0.
Definition e_mode (e : list Z) : res Z := le16 e 8.
Definition e_type (e : list Z) : res Z := rd e 10.
Definition e_name (e : list Z) : list Z := drop 11 e.

Definition print_entry (e : list Z) (options : Z) : M shell () :=
  type ← lift (e_type e);
  mode ← lift (e_mode e);
  ino ← lift (e_ino e);
  _ ← (if has_bits options LS_LONG then
         _ ← print_mode type mode;
         _ ← (if (type =? DT_CHR) || (type =? DT_BLK) then
                let dev := u16 ino in
                _ ← print_number (u8 (Z.shiftr dev 8)) 6;
                _ ← print_char CH_COMMA;
                print_number (u8 dev) 4
              else print_number ino 11);
         print_char CH_SPACE
       else mret ());
  _ ← print_string (Some (e_name e));
  _ ← (if has_bits options LS_CLASSIFY then
         if type =? DT_DIR then print_char CH_SLASH
         else if type =? DT_LNK then print_char CH_AT
         else if type =? DT_REG then
           if has_bits mode (Z.lor (Z.lor S_IXUSR S_IXGRP) S_IXOTH) then print_char CH_STAR else mret ()
         else mret ()
       else mret ());
  print_nl.

Fixpoint list_loop (fuel : nat) (dir options : Z) : M shell () :=
  match fuel with
  | O => fail FFuel
  | S fuel =>
      entry ← gets sh_entry;
      '(r, entry) ← invoke_buf (sys_read dir (Some entry) sizeof_dirent) entry;
      _ ← modify (set_entry entry);
      if r =? sizeof_dirent then
        c ← lift (rd (e_name entry) 0);
        if (c =? CH_DOT) && negb (has_bits options LS_HIDDEN) then list_loop fuel dir options
        else
          _ ← print_entry entry options;
          _ ← modify (set_err 0);
          list_loop fuel dir options
      else mret ()
  end.

(** A directory has no more entries than there are buffers. *)
Definition list_fuel : nat := 128.

(** list() *)
Definition list_dir (spec : list Z) (options : Z) : M shell Z :=
  dir ← invoke (sys_opendir (Some spec));
  if dir <? 0 then _ ← print_error (Some spec); mret 0
  else
    _ ← (if has_bits options LS_NAMED then
           _ ← (if has_bits options LS_NEXT then print_nl else mret ());
           _ ← print_string (Some spec);
           print_string (Some (lit_nl ":"))
         else mret ());
    _ ← modify (set_err 0);
    _ ← list_loop list_fuel dir options;
    e ← gets sh_errno;
    _ ← (if negb (e =? 0) then print_error (Some spec) else mret ());
    _ ← sh_close dir;
    mret 1.

Fixpoint ls_args (fuel : nat) (argc : Z) (argv : list (option (list Z))) (options exitval : Z) : M shell Z :=
  match fuel with
  | O => fail FFuel
  | S fuel =>
      g ← gets sh_getopt;
      if g_optind g <? argc then
        spec ← arg_at argv (g_optind g);
        r ← list_dir spec options;
        _ ← modify (set_getopt (set_optind (g_optind g + 1) g));
        ls_args fuel argc argv (Z.lor options LS_NEXT) (if r =? 0 then 1 else exitval)
      else mret exitval
  end.

Definition cmd_ls (argc : Z) (argv : list (option (list Z))) : M shell Z :=
  opts ← run_options (ls_options (options_fuel argv) argc argv);
  match opts with
  | None => mret 1
  | Some options =>
      optind ← gets (λ s, g_optind (sh_getopt s));
      if argc <=? optind then
        r ← list_dir (lit ".") options; mret (if r =? 0 then 1 else 0)
      else
        ls_args (S (length argv)) argc argv
          (if optind + 1 <? argc then Z.lor options LS_NAMED else options) 0
  end.

(** ** shell/command.c: the execution of a line *)

Definition run_builtin (handler : builtin_handler) (argc : Z) (argv : list (option (list Z))) : M shell Z :=
  match handler with
  | CmdChdir => cmd_chdir argc argv
  | CmdLs => cmd_ls argc argv
  | CmdMount => cmd_mount argc argv
  | CmdPwd => cmd_pwd argc argv
  | CmdUname => cmd_uname argc argv
  end.

Fixpoint arg_strings (buf : list Z) (argv : list Z) : res (list (list Z)) :=
  match argv with
  | [] => Ok []
  | a :: argv => w ← str_chars (drop (Z.to_nat a) buf); ws ← arg_strings buf argv; Ok (w :: ws)
  end.

(** cmd_exec() on the line in buffer[].  What is left in it of a line that is
    not executed is not read again. *)
Definition exec_line : M shell () :=
  line ← gets sh_line;
  action ← lift (cmd_exec line);
  match action with
  | PrintTooMany => print_stderr_string (Some (lit_nl "sh: too many arguments"))
  | PrintUnterminated => print_stderr_string (Some (lit_nl "sh: unterminated quote"))
  | DoNothing => mret ()
  | RunBuiltin handler argv buf =>
      _ ← modify (set_line buf);
      ws ← lift (arg_strings buf argv);
      g ← gets sh_getopt;
      _ ← modify (set_getopt (set_optind 0 g));
      _ ← run_builtin handler (zlen argv) (((λ w, Some (w ++ [NUL])) <$> ws) ++ [None]);
      mret ()
  | PrintNotFound name buf =>
      _ ← modify (set_line buf);
      _ ← print_stderr_string (Some (drop (Z.to_nat name) buf));
      print_stderr_string (Some (lit_nl ": command not found"))
  end.

(** ** shell/rootfs.c *)

(** One of the calls, each of which ends the function when it fails. *)
Inductive rootfs_call := Dir (path : String.string) (mode : Z) | Node (path : String.string) (mode dev : Z).
Arguments Dir path%_string_scope mode.
Arguments Node path%_string_scope mode dev.

Definition run_rootfs_call (c : rootfs_call) : M shell Z :=
  match c with Dir path mode => sh_mkdir path mode | Node path mode dev => sh_mknod path mode dev end.
Fixpoint check_errors (cs : list rootfs_call) : M shell Z :=
  match cs with
  | [] => mret 0
  | c :: cs => r ← run_rootfs_call c; if r <? 0 then mret (-1) else check_errors cs
  end.

(** The modes are octal in the source: 0775, 020660, 060660 and 0700. *)
Definition rootfs_calls : list rootfs_call := [
  Dir "/bin" 0x1FD;
  Dir "/dev" 0x1FD;
  Node "/dev/console" 0x21B0 0x0501;
  Node "/dev/full" 0x21B0 0x0107;
  Node "/dev/mmcblk0" 0x61B0 0xb300;
  Node "/dev/null" 0x21B0 0x0103;
  Node "/dev/tty" 0x21B0 0x0500;
  Node "/dev/tty0" 0x21B0 0x0400;
  Node "/dev/zero" 0x21B0 0x0105;
  Dir "/etc" 0x1FD;
  Dir "/home" 0x1FD;
  Dir "/mnt" 0x1FD;
  Dir "/mnt/other" 0x1FD;
  Dir "/mnt/sd" 0x1FD;
  Dir "/root" 0x1C0;
  Dir "/tmp" 0x1FD;
  Dir "/usr" 0x1FD;
  Dir "/var" 0x1FD].
Definition make_rootfs : M shell Z := check_errors rootfs_calls.

(** ** shell/main.c *)

Definition print_boot_time : M shell () :=
  ts ← in_kern (clock_gettime CLOCK_MONOTONIC true);
  _ ← print_string (Some (lit "Boot time ... "));
  match ts with
  | inl _ => fail FWild      (* the time would be read without having been set *)
  | inr ts =>
      let sec := if 500000000 <=? tv_nsec ts then s32 (tv_sec ts + 1) else tv_sec ts in
      _ ← print_number (u32 sec) 2;
      print_string (Some (lit_nl "s"))
  end.

Definition init : M shell () :=
  _ ← sh_umask 0;
  _ ← print_string (Some (lit "Mounting root filesystem ... "));
  _ ← print_flush;
  r ← make_rootfs;
  _ ← (if r <? 0 then print_error None
       else
         _ ← add_fstab (lit "/") (lit "ramfs") (lit "ramfs") (lit "rw");
         print_string (Some (lit_nl "ok")));
  r ← sh_mount None;
  _ ← (if r =? 0 then
         _ ← print_string (Some (lit "Mounting SD card ... "));
         _ ← print_flush;
         result ← sh_mount (Some (lit "/mnt/sd"));
         _ ← (if result <? 0 then print_error None
              else if result =? 1 then print_string (Some (lit_nl "No card found"))
              else print_string (Some (lit_nl "ok")));
         if 0 <=? result then add_fstab (lit "/mnt/sd") (lit "/dev/mmcblk0") (lit "vfat") (lit "ro")
         else mret ()
       else mret ());
  _ ← sh_umask (Z.lor S_IWGRP S_IWOTH);
  print_boot_time.

(** The main loop, for at most [fuel] lines of at most [fuel] keys. *)
Fixpoint shell_loop (fuel : nat) (keys : nat) : M shell () :=
  match fuel with
  | O => fail FFuel
  | S fuel =>
      _ ← sh_getcwd;
      temp ← gets sh_temp;
      _ ← print_string (Some temp);
      _ ← print_string (Some (lit "# "));
      buf ← gets sh_line;
      '(ok, buf) ← get_line sh_getchar keys buf 128;
      _ ← modify (set_line buf);
      if ok =? 0 then mret ()
      else _ ← exec_line; shell_loop fuel keys
  end.

Definition shell_main (fuel : nat) : M shell Z :=
  _ ← print_nl;
  _ ← cmd_uname 0 [];
  _ ← print_nl;
  _ ← init;
  _ ← print_nl;
  _ ← shell_loop fuel fuel;
  _ ← print_nl;
  mret 0.
End Shell.
