(* ===== verification/ShellSpec.v ===== *)
(** The shell as a process of the kernel: what its output shows on the console,
    the invariant that every command keeps, and what ls prints. *)
From S2P Require Import Prelude CDefs Util PathRes Sched Kern BufCache Inode Fat.
From S2P Require Import Devices Ramfs Vfs File FsCalls FileSpec DirSpec System Boot.
From S2P Require Import Shell Clock Getopt Info Commands.

Section Console.
Context {SD : sdcard} {CC : console_config}.
Implicit Types (k : kern) (A : afs) (D : gmap Z (list Z)) (F : list Z) (oth : nat → Z).

Abbreviation table k := (p_fd (k_proc k)).

(** ** The terminal *)

(** The descriptors 0, 1 and 2 are the console. *)
Definition console k : Prop :=
  (∀ fd, 0 ≤ fd ≤ 2 → fd_at (table k) fd = Some 0%nat) ∧ console_file k.

Definition tty_char (c : Z) : list Z :=
  if CONFIG_CHROUT_LF_HANDLING then [u8 c] else if negb (c =? CH_LF) then [u8 c] else [CH_CR; CH_LF].
(** What a string looks like to the terminal. *)
Definition shown (cs : list Z) : list Z := concat (tty_char <$> cs).
Definition put_out (out : list Z) k : kern := set_out (k_out k ++ out) k.

Lemma shown_app a b : shown (a ++ b) = shown a ++ shown b.
Proof. unfold shown. by rewrite fmap_app, concat_app. Qed.
Lemma put_out_app a b k : put_out b (put_out a k) = put_out (a ++ b) k.
Proof. unfold put_out. simpl. by rewrite <- app_assoc. Qed.
Lemma put_out_nil k : put_out [] k = k.
Proof. unfold put_out. rewrite app_nil_r. by destruct k. Qed.

(** A change of the console's characters only. *)
Definition set_io (i o : list Z) k : kern := set_in i (set_out o k).

Lemma kern_ok_io k A D F T oth i o : kern_ok k A D F T oth → kern_ok (set_io i o k) A D F T oth.
Proof.
  intros [Hf (R & Hv & Hs & HR) [base Hc]]. split; [split; apply Hf| |by exists base].
  exists R. split_and!; [by apply (vfs_ok_frame k)|done..].
Qed.


Lemma console_slot k fd : console k → 0 ≤ fd ≤ 2 → table k !! Z.to_nat fd = Some (Some 0%nat).
Proof. intros [H _] Hfd. by apply fd_at_Some, H. Qed.

(** An operation of the console's file between the reference that the call
    takes and gives back. *)
Lemma with_console {X} k A D F oth fd (m : M kern X) r i o :
  proc_ok k A D F oth → oth_slack oth → console k → 0 ≤ fd ≤ 2 →
  (∀ k1, k_in k1 = k_in k → k_out k1 = k_out k → (∃ x, k_files k1 !! 0%nat = Some x ∧ f_op x = FopBasicTty) →
     m k1 = Ok (r, set_io i o k1)) →
  (_ ← file_ref 0; r ← m; _ ← file_deref 0; mret r) k = Ok (r, set_io i o k).
Proof.
  intros Hk Ho Hc Hfd Hm. destruct (slot_count _ _ _ _ _ _ _ _ Hk Ho (console_slot _ _ Hc Hfd)) as (x & Hx & Hcount).
  destruct Hc as [_ (x' & Hx' & Hop)]. rewrite Hx in Hx'. injection Hx' as <-.
  pose proof (lookup_lt_Some _ _ _ Hx) as Hlt. set (x1 := fset_count (f_count x + 1) x).
  mstep by (unfold file_ref; rewrite (upd_file_ok _ _ x), s8_small by (done || lia); reflexivity). fold x1.
  set (k1 := set_files (<[0%nat := x1]> (k_files k)) k).
  assert (k_files k1 !! 0%nat = Some x1) as Hx1 by (simpl; by rewrite list_lookup_insert_eq).
  mstep by (apply Hm; [done|done|by exists x1]).
  mstep by (unfold file_deref; mstep by (by apply (upd_file_ok _ _ x1));
    rewrite s8_small by (simpl; lia); mstep by (apply get_file_ok; simpl;
      rewrite list_lookup_insert_eq; [reflexivity|by rewrite length_insert]);
    cbn [f_count fset_count x1]; rewrite (proj2 (Z.leb_gt _ 0)) by lia; reflexivity).
  unfold mret, M_ret. do 2 f_equal. unfold set_io, set_files, k1. simpl. rewrite list_insert_insert_eq.
  replace (fset_count _ _) with x.
  2: { unfold x1, fset_count. destruct x. simpl. f_equal. lia. }
  rewrite list_insert_id by done. by destruct k.
Qed.

Lemma chrout_ok k c : chrout c k = Ok ((), put_out [u8 c] k).
Proof. done. Qed.

(** The count that a loop makes, which wraps as an int does. *)
Fixpoint count_up (n : nat) (r : Z) : Z := match n with O => r | S n => count_up n (s16 (r + 1)) end.
Lemma count_up_small n r : 0 ≤ r → r + Z.of_nat n < 32768 → count_up n r = r + Z.of_nat n.
Proof.
  revert r. induction n as [|n IH]; intros r Hr Hb; cbn [count_up]; [lia|].
  rewrite s16_small, IH by lia. lia.
Qed.

Lemma basic_tty_write_loop_spec n d r k :
  (n ≤ length d)%nat → basic_tty_write_loop n d r k = Ok (count_up n r, put_out (shown (take n d)) k).
Proof.
  revert d r k. induction n as [|n IH]; intros d r k Hn; cbn [basic_tty_write_loop].
  { by rewrite put_out_nil. }
  destruct d as [|c d]; [simpl in Hn; lia|]. cbn [take length] in *.
  erewrite bind_ok with (a := ()) (s' := put_out (tty_char c) k).
  2: { unfold tty_char. destruct CONFIG_CHROUT_LF_HANDLING; [done|]. destruct (negb (c =? CH_LF)); [done|].
       mstep by done. unfold chrout, modify, put_out. simpl. by rewrite <- app_assoc. }
  rewrite IH by lia. by rewrite put_out_app.
Qed.

(** write() to the console shows the characters. *)
Lemma sys_write_console k A D F oth fd d size :
  proc_ok k A D F oth → oth_slack oth → console k → 1 ≤ fd ≤ 2 → 0 ≤ size → size ≤ zlen d →
  sys_write fd (Some d) size k = Ok (count_up (Z.to_nat size) 0, put_out (shown (take (Z.to_nat size) d)) k).
Proof.
  intros Hk Ho Hc Hfd Hs Hd. unfold sys_write.
  pose proof (fo_fdlen _ _ _ _ (ko_files _ _ _ _ _ _ Hk)) as Hl.
  mstep by (rewrite file_get_spec, (proj1 Hc) by (done || lia); reflexivity).
  rewrite bool_decide_eq_false_2 by done. cbn [andb default]. cbv iota.
  rewrite (with_console k A D F oth fd _ (count_up (Z.to_nat size) 0) (k_in k) (k_out k ++ shown (take (Z.to_nat size) d)));
    try done; [lia|].
  intros k1 Hi Hout (x & Hx & Hop). unfold fop_write. mstep by (by apply get_file_ok). rewrite Hop.
  unfold basic_tty_write. unfold id. rewrite basic_tty_write_loop_spec by (unfold zlen in Hd; lia).
  do 2 f_equal. unfold put_out, set_io. rewrite Hout, <- Hi. by destruct k1.
Qed.

(** read() of one character from the console; the echo is the terminal's. *)
Definition key (ch : Z) : Z := if (ch =? CH_CR) || (ch =? CH_LF) then CH_LF else u8 ch.
Definition key_echo (ch : Z) : list Z :=
  if CONFIG_CHRIN_ECHO then []
  else if (ch =? CH_CR) || (ch =? CH_LF) then
    if CONFIG_CHROUT_LF_HANDLING then [u8 CH_LF] else [u8 CH_CR; u8 CH_LF]
  else if (ch =? CH_BS) || (ch =? CH_DEL) then [u8 CH_BS; u8 CH_SPACE; u8 CH_BS] else [u8 ch].

Lemma sys_read_console k A D F oth c0 :
  proc_ok k A D F oth → oth_slack oth → console k → Forall (λ c, 0 ≤ c) (k_in k) →
  sys_read 0 (Some [c0]) 1 k =
  match k_in k with
  | [] => Ok ((0, Some [c0]), k)
  | ch :: l => Ok ((1, Some [key ch]), set_io l (k_out k ++ key_echo ch) k)
  end.
Proof.
  intros Hk Ho Hc Hin. unfold sys_read.
  pose proof (fo_fdlen _ _ _ _ (ko_files _ _ _ _ _ _ Hk)) as Hl.
  mstep by (rewrite file_get_spec, (proj1 Hc) by (done || lia); reflexivity).
  assert (∀ r d i o, (∀ k1, k_in k1 = k_in k → k_out k1 = k_out k →
      basic_tty_read [c0] 1 k1 = Ok ((r, d), set_io i o k1)) →
    ('(result, d) ← (_ ← file_ref 0; r ← fop_read 0 [c0] 1; _ ← file_deref 0; mret r); mret (result, Some d)) k
    = Ok ((r, Some d), set_io i o k)) as Hrun.
  { intros r d i o Hr. erewrite bind_ok; [|eapply (with_console k A D F oth 0 _ (r, d) i o); try done].
    - done.
    - intros k1 Hi Hout (x & Hx & Hop). unfold fop_read. mstep by (by apply get_file_ok). rewrite Hop. by apply Hr. }
  destruct (k_in k) as [|ch l] eqn:Ein.
  - assert (set_io [] (k_out k) k = k) as Eid by (unfold set_io; rewrite <- Ein; by destruct k).
    specialize (Hrun 0 [c0] [] (k_out k)). rewrite Eid in Hrun.
    rewrite <- Hrun; [|intros k1 Hi Hout; unfold basic_tty_read; change (Z.to_nat 1) with 1%nat;
      cbn [basic_tty_read_loop]; unfold chrin; mstep by (mstep by reflexivity; rewrite Hi; reflexivity);
      simpl; do 2 f_equal; unfold set_io; rewrite <- Hi, <- Hout; by destruct k1].
    unfold mbind, M_bind. destruct (file_ref 0 k) as [[[] k1]|]; [|done].
    destruct (fop_read 0 [c0] 1 k1) as [[[r d] k2]|]; [|done]. by destruct (file_deref 0 k2) as [[z k3]|].
  - apply Forall_cons in Hin as [Hch _]. rewrite <- (Hrun 1 [key ch] l (k_out k ++ key_echo ch)).
    + unfold mbind, M_bind. destruct (file_ref 0 k) as [[[] k1]|]; [|done].
      destruct (fop_read 0 [c0] 1 k1) as [[[r d] k2]|]; [|done]. by destruct (file_deref 0 k2) as [[z k3]|].
    + intros k1 Hi Hout. unfold basic_tty_read. change (Z.to_nat 1) with 1%nat. cbn [basic_tty_read_loop].
      unfold chrin. mstep by (mstep by reflexivity; rewrite Hi; mstep by reflexivity; reflexivity).
      rewrite (proj2 (Z.ltb_ge ch 0)) by done. unfold key, key_echo.
      destruct ((ch =? CH_CR) || (ch =? CH_LF)).
      * mstep by reflexivity. unfold chrout_newline. destruct CONFIG_CHRIN_ECHO; [|destruct CONFIG_CHROUT_LF_HANDLING].
        all: unfold mbind, M_bind, mret, M_ret; simpl; rewrite ?app_nil_r, <- ?app_assoc, <- ?Hout; by destruct k1.
      * mstep by reflexivity. destruct CONFIG_CHRIN_ECHO; [|destruct ((ch =? CH_BS) || (ch =? CH_DEL))].
        all: unfold mbind, M_bind, mret, M_ret; simpl; rewrite ?app_nil_r, <- ?app_assoc, <- ?Hout; by destruct k1.
Qed.
End Console.

(** ** The invariant of the shell *)

Section Shell.
Context {SD : sdcard} {CC : console_config} {BC : build_config}.
Implicit Types (k : kern) (A : afs) (D : gmap Z (list Z)) (F : list Z) (s : shell).

Abbreviation table k := (p_fd (k_proc k)).

(** A string argument: NULL, or memory with a NUL within the range of an int. *)
Definition string_ok (str : option (list Z)) : Prop :=
  match str with None => True | Some mem => ∃ p, cstring mem p ∧ zlen p < 32768 end.
Definition entry_ok (e : fstab_entry) : Prop :=
  string_ok (fs_mountpoint e) ∧ string_ok (fs_device e) ∧ string_ok (fs_type e) ∧ string_ok (fs_options e).
Definition path_buffer (mem : list Z) : Prop := zlen mem = PATH_MAX ∧ ∃ p, cstring mem p.

(** The kernel's invariant, the console on the three descriptors of the shell,
    and the sizes and strings of its variables. *)
Record shell_ok s A D F : Prop := {
  sk_proc : proc_ok (sh_kern s) A D F (λ _, 0);
  sk_console : console (sh_kern s);
  sk_in : Forall (λ c, 0 ≤ c) (k_in (sh_kern s));
  sk_prev : path_buffer (sh_prev s);
  sk_temp : path_buffer (sh_temp s);
  sk_mounts : zlen (sh_mounts s) = MOUNT_MAX ∧ Forall entry_ok (sh_mounts s);
  sk_count : 0 ≤ sh_mount_count s ≤ MOUNT_MAX;
  sk_line : zlen (sh_line s) = 128;
  sk_entry : zlen (sh_entry s) = sizeof_dirent;
}.

Lemma zero_oth : oth_slack (λ _, 0).
Proof. intros f. lia. Qed.

Lemma shell_console k : table k = shell_fds → console_file k → console k.
Proof.
  intros E Hc. split; [|done]. intros fd Hfd. rewrite E. unfold fd_at.
  assert (fd = 0 ∨ fd = 1 ∨ fd = 2) as [->|[->| ->]] by lia; done.
Qed.

(** A kernel call that leaves the descriptors alone keeps the invariant. *)
Lemma console_frame k k' A D F :
  proc_ok k A D F (λ _, 0) → console k → frame k k' → console_file k'.
Proof.
  intros Hk Hc [_ Hops]. destruct (slot_count _ _ _ _ _ _ _ _ Hk zero_oth (console_slot k 0 Hc ltac:(lia))) as (x & Hx & Hp).
  destruct Hc as [_ (x' & Hx' & Hop)]. rewrite Hx in Hx'. injection Hx' as <-.
  destruct (Hops _ _ Hx ltac:(lia)) as (y & Hy & Ey). exists y. by rewrite Ey.
Qed.

Lemma shell_ok_kern s k' A D F A' D' F' :
  shell_ok s A D F → proc_ok k' A' D' F' (λ _, 0) → frame (sh_kern s) k' →
  (∀ i, (i ≤ 2)%nat → table k' !! i = table (sh_kern s) !! i) →
  shell_ok (set_kern k' s) A' D' F'.
Proof.
  intros Hs Hk' Hf Ht. split; try apply Hs; try done.
  - split; [|eapply console_frame, Hf; apply Hs]. intros fd Hfd. simpl. pose proof (sk_console _ _ _ _ Hs) as [Hc _].
    specialize (Hc fd Hfd). unfold fd_at in *. by rewrite Ht by lia.
  - simpl. rewrite (proj1 Hf). simpl. apply Hs.
Qed.

(** ** Output *)

Definition out_to (out : list Z) s : shell := set_kern (put_out out (sh_kern s)) s.

Lemma out_to_app a b s : out_to b (out_to a s) = out_to (a ++ b) s.
Proof. unfold out_to. simpl. by rewrite put_out_app. Qed.
Lemma out_to_nil s : out_to [] s = s.
Proof. unfold out_to. rewrite put_out_nil. by destruct s. Qed.

Lemma shell_ok_out s A D F out : shell_ok s A D F → shell_ok (out_to out s) A D F.
Proof.
  intros Hs. split; try apply Hs. simpl.
  assert (put_out out (sh_kern s) = set_io (k_in (sh_kern s)) (k_out (sh_kern s) ++ out) (sh_kern s)) as ->
    by (unfold put_out, set_io; by destruct (sh_kern s)).
  apply kern_ok_io, Hs.
Qed.

Lemma write_chars_ok s A D F fd d size :
  shell_ok s A D F → 1 ≤ fd ≤ 2 → 0 ≤ size < 32768 → size ≤ zlen d →
  write_chars fd d size s = Ok ((), out_to (shown (take (Z.to_nat size) d)) s).
Proof.
  intros Hs Hfd Hsz Hd. unfold write_chars. erewrite bind_ok; [|unfold invoke].
  2: { mstep by (unfold in_kern; rewrite (sys_write_console (sh_kern s) A D F (λ _, 0)) by
         first [apply Hs|apply zero_oth|done|lia]; reflexivity).
       unfold call_result. rewrite count_up_small by lia. rewrite Z2Nat.id, Z.add_0_l by lia. rewrite s16_small by lia. rewrite (proj2 (Z.ltb_ge size 0)) by lia. reflexivity. }
  done.
Qed.

Lemma str_chars_cstring mem p : cstring mem p → str_chars mem = Ok p.
Proof.
  intros [Hp (junk & ->)]. induction Hp as [|c p Hc _ IH]; [done|]. cbn [app str_chars].
  rewrite (proj2 (Z.eqb_neq c NUL)) by done. by rewrite IH.
Qed.

Lemma put_string_ok s A D F fd mem p :
  shell_ok s A D F → 1 ≤ fd ≤ 2 → cstring mem p → zlen p < 32768 →
  put_string fd (Some mem) s = Ok ((), out_to (shown p) s).
Proof.
  intros Hs Hfd Hp Hl. unfold put_string. mstep by (unfold lift; rewrite (str_chars_cstring mem p Hp); reflexivity).
  pose proof (zlen_nonneg p). destruct Hp as [_ (junk & ->)]. rewrite u16_small by lia.
  rewrite (write_chars_ok s A D F) by (done || (rewrite zlen_app; pose proof (zlen_nonneg (NUL :: junk)); lia)).
  unfold zlen. by rewrite Nat2Z.id, take_app_length.
Qed.

Lemma print_char_ok s A D F c : shell_ok s A D F → print_char c s = Ok ((), out_to (shown [c]) s).
Proof. intros Hs. by apply (write_chars_ok s A D F 1 [c] 1). Qed.
Lemma print_nl_ok s A D F : shell_ok s A D F → print_nl s = Ok ((), out_to (shown [CH_LF]) s).
Proof. intros Hs. by apply (write_chars_ok s A D F 1 [CH_LF; NUL] 1). Qed.

Lemma print_chars_ok cs s A D F : shell_ok s A D F → print_chars cs s = Ok ((), out_to (shown cs) s).
Proof.
  revert s. induction cs as [|c cs IH]; intros s Hs; cbn [print_chars]; [by rewrite out_to_nil|].
  mstep by (by eapply print_char_ok). rewrite IH by (by apply shell_ok_out). by rewrite out_to_app, <- shown_app.
Qed.

(** The characters of a number; the field always fits. *)
Lemma number_digits_total fuel buf value size count :
  11 ≤ Z.of_nat fuel + count → 0 ≤ count ≤ 10 → zlen buf = size →
  ∃ buf' count', number_digits fuel buf value size count = Ok (buf', count') ∧ zlen buf' = size ∧ 0 ≤ count' ∧
    (count ≤ size → count' ≤ size).
Proof.
  revert buf value count. induction fuel as [|fuel IH]; intros buf value count Hf Hc Hb; [lia|]. cbn [number_digits].
  destruct ((count <? 10) && (count <? size) && negb (value =? 0)) eqn:E; [|exists buf, count; split_and!; [done..|lia|done]].
  destruct (div10 value) as [q r]. rewrite wr_ok by lia. cbn [mbind res_bind].
  destruct (IH (<[Z.to_nat count:=u8 (r + 48)]> buf) q (count + 1)) as (b & c & -> & Hb' & Hc' & Hle); [lia|lia|
    unfold zlen in *; by rewrite length_insert|].
  exists b, c. split_and!; [done..|lia].
Qed.

Lemma number_pad_total fuel buf size count :
  size - count < Z.of_nat fuel → 0 ≤ count ≤ size → zlen buf = size →
  ∃ buf', number_pad fuel buf size count = Ok (buf', size).
Proof.
  revert buf count. induction fuel as [|fuel IH]; intros buf count Hf Hc Hb; [lia|]. cbn [number_pad].
  destruct (Z.ltb_spec count size); [|exists buf; do 2 f_equal; lia].
  rewrite wr_ok by lia. cbn [mbind res_bind]. apply IH; [lia|lia|]. unfold zlen in *. by rewrite length_insert.
Qed.

Definition number_text (value size : Z) : list Z :=
  match Shell.print_number value size (replicate (Z.to_nat size) 0) with Ok cs => cs | Err _ => [] end.

Lemma print_number_ok s A D F value size :
  shell_ok s A D F → 1 ≤ size ≤ 255 →
  print_number value size s = Ok ((), out_to (shown (number_text value size)) s).
Proof.
  intros Hs Hsz. assert (∃ cs, Shell.print_number value size (replicate (Z.to_nat size) 0) = Ok cs) as [cs E].
  { unfold Shell.print_number.
    destruct (number_digits_total 11 (replicate (Z.to_nat size) 0) value size 0) as (b & c & -> & Hb & Hc & Hle);
      [lia|lia|unfold zlen; rewrite length_replicate; lia|]. cbn [mbind res_bind].
    assert (∃ b' c', (if c =? 0 then buf ← wr b 0 48; Ok (buf, 1) else Ok (b, c)) = Ok (b', c') ∧ zlen b' = size ∧ 1 ≤ c' ≤ size)
      as (b' & c' & -> & Hb' & Hc').
    { destruct (Z.eqb_spec c 0); [|exists b, c; split_and!; [done..|lia|apply Hle; lia]].
      rewrite wr_ok by lia. eexists _, _. split; [done|]. split; [unfold zlen in *; by rewrite length_insert|lia]. }
    cbn [mbind res_bind]. destruct (number_pad_total 257 b' size c') as (b2 & ->); [lia|lia|done|]. cbn [mbind res_bind]. eauto. }
  unfold print_number, number_text. rewrite E. mstep by reflexivity. by eapply print_chars_ok.
Qed.

(** String literals. *)
Lemma lit_ok (str : String.string) : bool_decide (nonul (chars str)) = true → cstring (lit str) (chars str).
Proof. intros H%bool_decide_eq_true. by apply cstring_intro. Qed.
Lemma lit_nl_ok (str : String.string) : bool_decide (nonul (chars str)) = true → cstring (lit_nl str) (chars str ++ [CH_LF]).
Proof.
  intros H%bool_decide_eq_true. split; [apply Forall_app; split; [done|by repeat constructor]|].
  exists []. unfold lit_nl. by rewrite <- app_assoc.
Qed.

(** print_error() shows the pathname and the message of errno. *)
Definition error_text (path : option (list Z)) (e : Z) : list Z :=
  match path with None => [] | Some p => p ++ chars ": " end ++
  match sys_strerror e with Ok (_, m) => take (length m - 1) m | Err _ => [] end ++ [CH_LF].

Lemma positive_nonul t : Forall (λ c, 0 < c < 256) t → nonul t.
Proof. intros H. eapply Forall_impl; [exact H|]. intros c Hc. cbv beta in Hc. unfold NUL. lia. Qed.

Lemma print_error_ok s A D F path p :
  shell_ok s A D F → match path with None => p = None | Some mem => ∃ t, p = Some t ∧ cstring mem t ∧ zlen t < 32768 end →
  print_error path s = Ok ((), out_to (shown (error_text p (sh_errno s))) s).
Proof.
  intros Hs Hp. unfold print_error.
  set (pre := match p with None => [] | Some t => t ++ chars ": " end).
  erewrite bind_ok with (a := ()) (s' := out_to (shown pre) s).
  2: { destruct path as [mem|]; [|subst p; by rewrite out_to_nil]. destruct Hp as (t & -> & Ht & Hl).
       mstep by (by eapply (put_string_ok s)). cbv beta iota. unfold pre. rewrite shown_app, <- out_to_app.
       eapply put_string_ok; [by apply shell_ok_out|done| |done]. by apply cstring_intro; compute_decide. }
  mstep by reflexivity. destruct (sys_strerror_string (sh_errno s)) as (m & Em & Hm & Hl).
  mstep by (unfold lift; simpl; rewrite Em; reflexivity).
  mstep by (eapply (put_string_ok _ A D F 2 (m ++ [NUL]) m);
    [by apply shell_ok_out|done|apply cstring_intro; by apply positive_nonul|lia]).
  unfold print_stderr_nl. rewrite (write_chars_ok _ A D F) by (done || by repeat apply shell_ok_out).
  rewrite !out_to_app, <- !shown_app. unfold error_text. rewrite Em, length_app. simpl length.
  replace (length m + 1 - 1)%nat with (length m) by lia. rewrite take_app_length.
  done.
Qed.
End Shell.

(** ** A shell at its start, on the machine without a card *)

#[local] Existing Instances no_card sim_console sim_build.

Definition sim_shell (input : list Z) : shell :=
  ShellState no_card (set_in input sim_boot) 0 (chars "/root" ++ replicate 59 0) (replicate 64 0)
    (replicate 2 (FstabEntry None None None None)) 0 (Getopt 1 1 None None []) (replicate 128 0) (replicate 27 0).

Lemma sim_shell_ok input :
  Forall (λ c, 0 ≤ c) input → shell_ok (sim_shell input) boot_tree ∅ boot_free ∧
  p_fd (k_proc (sh_kern (sim_shell input))) = shell_fds ∧ cwd_ok (sh_kern (sim_shell input)) [chars "root"] ∧
  k_root (sh_kern (sim_shell input)) = boot_root.
Proof.
  intros Hin. destruct (kernel_boot_spec sim_memory sim_fresh) as (k' & E & Hk & Hc & Ht & Hr & Hcon).
  assert (sim_boot = k') as Eb by (unfold sim_boot; by rewrite E). unfold sim_shell. rewrite Eb. clear Eb E.
  split; [|by split_and!].
  assert (set_in input k' = set_io input (k_out k') k') as Ei by (by destruct k').
  split; try done.
  - simpl. rewrite Ei. by apply kern_ok_io.
  - by apply shell_console.
  - split; [done|]. exists (chars "/root"). split; [by repeat constructor|]. by exists (replicate 58 0).
  - split; [done|]. exists []. split; [constructor|]. by exists (replicate 63 0).
  - split; [done|]. by repeat constructor.
Qed.
