(* ===== verification/LsSpec.v ===== *)
(** What ls prints: list() of shell/ls.c opens the directory, reads it entry by
    entry, and shows each as a line. *)
From S2P Require Import Prelude CDefs Util PathRes Sched Kern BufCache Inode Fat.
From S2P Require Import Devices Ramfs Vfs File FsCalls FileSpec DirSpec System Boot.
From S2P Require Import Shell Clock Getopt Info Commands ShellSpec.

(** ** The text of an entry *)

(** The permissions, from the bits 8 to 0. *)
Definition permissions (mode : Z) : list Z :=
  zip_with (λ i c, if Z.testbit mode i then c else CH_MINUS) [8; 7; 6; 5; 4; 3; 2; 1; 0] mode_bits.
Definition mode_text (type mode : Z) : list Z := default NUL (mode_types !! Z.to_nat type) :: permissions mode.

(** The size of a file, or the number of a device. *)
Definition size_text (type ino : Z) : list Z :=
  if (type =? DT_CHR) || (type =? DT_BLK) then
    number_text (u8 (Z.shiftr (u16 ino) 8)) 6 ++ [CH_COMMA] ++ number_text (u8 (u16 ino)) 4
  else number_text ino 11.

Definition class_text (type mode : Z) : list Z :=
  if type =? DT_DIR then [CH_SLASH]
  else if type =? DT_LNK then [CH_AT]
  else if type =? DT_REG then
    if has_bits mode (Z.lor (Z.lor S_IXUSR S_IXGRP) S_IXOTH) then [CH_STAR] else []
  else [].

Definition entry_text (options : Z) (d : dirent) (name : list Z) : list Z :=
  let type := u8 (de_type d) in
  let mode := u16 (de_mode d) in
  (if has_bits options LS_LONG then mode_text type mode ++ size_text type (u32 (de_ino d)) ++ [CH_SPACE] else [])
  ++ name ++ (if has_bits options LS_CLASSIFY then class_text type mode else []) ++ [CH_LF].

Definition hidden (options : Z) (name : list Z) : bool :=
  bool_decide (head name = Some CH_DOT) && negb (has_bits options LS_HIDDEN).

(** The lines of the entries of a directory. *)
Definition list_text (A : afs) (options : Z) (es : list (list Z * Z)) : list Z :=
  concat ((λ e, if hidden options e.1 then [] else entry_text options (a_dirent A e) e.1) <$> es).

(** The title that comes before the entries. *)
Definition list_title (options : Z) (name : list Z) : list Z :=
  if has_bits options LS_NAMED then (if has_bits options LS_NEXT then [CH_LF] else []) ++ name ++ [CH_COLON; CH_LF] else [].

Section Ls.
Context {SD : sdcard} {CC : console_config} {BC : build_config}.
Implicit Types (k : kern) (A : afs) (D : gmap Z (list Z)) (F : list Z) (s : shell).

Abbreviation table k := (p_fd (k_proc k)).

(** ** Printing an entry *)

Lemma has_bits_pow2 m i : 0 ≤ i → has_bits m (2 ^ i) = Z.testbit m i.
Proof.
  intros Hi. unfold has_bits. destruct (Z.testbit m i) eqn:E.
  - apply negb_true_iff, Z.eqb_neq. intros H. apply (f_equal (λ z, Z.testbit z i)) in H.
    rewrite Z.land_spec, E, Z.pow2_bits_true, Z.bits_0 in H by done. done.
  - apply negb_false_iff, Z.eqb_eq, Z.bits_inj'. intros j Hj. rewrite Z.land_spec, Z.bits_0.
    destruct (decide (j = i)) as [->|]; [by rewrite E|]. rewrite Z.pow2_bits_false by done. by rewrite andb_false_r.
Qed.

Lemma print_mode_ok s A D F type mode :
  shell_ok s A D F → 0 ≤ type ≤ 15 → print_mode type mode s = Ok ((), out_to (shown (mode_text type mode)) s).
Proof.
  intros Hs Ht. unfold print_mode, mode_text.
  assert (∃ t, mode_types !! Z.to_nat type = Some t) as [t Et].
  { apply lookup_lt_is_Some_2. change (length mode_types) with 16%nat. lia. }
  assert (rd (mode_types ++ [NUL]) type = Ok t) as Er.
  { unfold rd. rewrite (proj2 (Z.ltb_ge type 0)) by lia. by rewrite (lookup_app_l_Some _ _ _ _ Et). }
  rewrite Et. mstep by (unfold lift; rewrite Er; reflexivity). mstep by (by eapply print_char_ok).
  assert (∀ bits idx b s1, shell_ok s1 A D F → length idx = length bits →
    (∀ j i, idx !! j = Some i → 0 ≤ i ∧ Z.shiftr b (Z.of_nat j) = 2 ^ i) →
    print_mode_loop bits mode b s1 = Ok ((), out_to (shown (zip_with (λ i c, if Z.testbit mode i then c else CH_MINUS) idx bits)) s1))
    as Hloop.
  { clear. intros bits. induction bits as [|c bits IH]; intros [|i idx] b s1 Hs1 Hl Hi; try done;
      [by rewrite out_to_nil|]. cbn [print_mode_loop zip_with].
    mstep by (by eapply print_char_ok). destruct (Hi 0%nat i eq_refl) as [Hi0 Hb]. simpl in Hb. rewrite Z.shiftr_0_r in Hb.
    rewrite (IH idx) by first [by apply shell_ok_out|simpl in Hl; lia|intros j i' Hj; destruct (Hi (S j) i' Hj) as [? <-];
      split; [done|]; rewrite Z.shiftr_shiftr by lia; f_equal; lia].
    rewrite out_to_app, <- shown_app, Hb, has_bits_pow2 by done. done. }
  rewrite (Hloop mode_bits [8; 7; 6; 5; 4; 3; 2; 1; 0]); [|by apply shell_ok_out|done|].
  - rewrite out_to_app, <- shown_app. done.
  - intros j i Hj. do 9 (destruct j as [|j]; [injection Hj as <-; done|]). done.
Qed.

(** The members of an entry are read back from its bytes. *)
Lemma le16_word (v : Z) : Z.lor (u8 v) (Z.shiftl (u8 (Z.shiftr v 8)) 8) = u16 v.
Proof.
  unfold u8, u16. rewrite lor_add by (try apply Z.mod_pos_bound; lia). rewrite Z.shiftr_div_pow2 by lia.
  change (2 ^ 8) with 256. change 65536 with (256 * 256). rewrite Z.rem_mul_r by lia. lia.
Qed.

Lemma le32_word (v : Z) : Z.lor (u16 v) (Z.shiftl (u16 (Z.shiftr v 16)) 16) = u32 v.
Proof.
  unfold u16, u32. rewrite lor_add by (try apply Z.mod_pos_bound; lia). rewrite Z.shiftr_div_pow2 by lia.
  change (2 ^ 16) with 65536. change 4294967296 with (65536 * 65536). rewrite Z.rem_mul_r by lia. lia.
Qed.

Lemma e_ino_bytes d : e_ino (dirent_bytes d) = Ok (u32 (de_ino d)).
Proof.
  unfold e_ino, le32, le16. cbv [dirent_bytes bytes32 bytes16 app rd of_option]. simpl.
  by rewrite !le16_word, le32_word.
Qed.
Lemma e_mode_bytes d : e_mode (dirent_bytes d) = Ok (u16 (de_mode d)).
Proof. unfold e_mode, le16. cbv [dirent_bytes bytes32 bytes16 app rd of_option]. simpl. by rewrite le16_word. Qed.
Lemma e_type_bytes d : e_type (dirent_bytes d) = Ok (u8 (de_type d)).
Proof. done. Qed.
Lemma e_name_bytes d : e_name (dirent_bytes d) = de_name d.
Proof. done. Qed.

Lemma print_entry_ok s A D F options d nm pad :
  shell_ok s A D F → de_name d = nm ++ NUL :: pad → nonul nm → zlen nm ≤ 16 → u8 (de_type d) ≤ 15 →
  print_entry (dirent_bytes d) options s = Ok ((), out_to (shown (entry_text options d nm)) s).
Proof.
  intros Hs Hn Hnm Hl Ht. pose proof (Z.mod_pos_bound (de_type d) 256 ltac:(lia)) as Hty. fold (u8 (de_type d)) in Hty.
  unfold print_entry. mstep by (unfold lift; rewrite e_type_bytes; reflexivity).
  mstep by (unfold lift; rewrite e_mode_bytes; reflexivity). mstep by (unfold lift; rewrite e_ino_bytes; reflexivity).
  unfold entry_text. set (type := u8 (de_type d)) in *. set (mode := u16 (de_mode d)). set (ino := u32 (de_ino d)).
  set (t1 := if has_bits options LS_LONG then _ else []). set (t2 := if has_bits options LS_CLASSIFY then _ else []).
  erewrite bind_ok with (a := ()) (s' := out_to (shown t1) s).
  2: { unfold t1. destruct (has_bits options LS_LONG); [|by rewrite out_to_nil].
       mstep by (eapply print_mode_ok; [done|lia]).
       erewrite bind_ok with (a := ()) (s' := out_to (shown (size_text type ino)) (out_to (shown (mode_text type mode)) s)).
       2: { unfold size_text. destruct ((type =? DT_CHR) || (type =? DT_BLK)).
            - mstep by (eapply print_number_ok; [by repeat apply shell_ok_out|lia]).
              mstep by (eapply print_char_ok; by repeat apply shell_ok_out).
              rewrite (print_number_ok _ A D F) by (lia || by repeat apply shell_ok_out).
              by rewrite !out_to_app, !shown_app, !app_assoc.
            - by rewrite (print_number_ok _ A D F) by (lia || by repeat apply shell_ok_out). }
       rewrite (print_char_ok _ A D F) by (by repeat apply shell_ok_out).
       by rewrite !out_to_app, !shown_app, !app_assoc. }
  mstep by (rewrite e_name_bytes; eapply put_string_ok; [by apply shell_ok_out|done|split; [exact Hnm|by exists pad]|lia]).
  erewrite bind_ok with (a := ()) (s' := out_to (shown t2) (out_to (shown nm) (out_to (shown t1) s))).
  2: { unfold t2, class_text. repeat case_match; rewrite ?out_to_nil; try done;
         rewrite (print_char_ok _ A D F) by (by repeat apply shell_ok_out); done. }
  rewrite (print_nl_ok _ A D F) by (by repeat apply shell_ok_out). by rewrite !out_to_app, !shown_app, !app_assoc.
Qed.

(** ** Reading the entries *)

(** The descriptor [dir] is open on the directory [n], at entry [i]. *)
Record listing s A (dir : Z) (f : nat) (x : file) (n : anode) (i : nat) : Prop := {
  li_fd : fd_at (table (sh_kern s)) dir = Some f;
  li_file : k_files (sh_kern s) !! f = Some x;
  li_op : f_op x = FopRamDir;
  li_node : A !! f_inode x = Some n;
  li_posn : f_posn x = Z.of_nat i;
  li_le : (i ≤ length (a_entries n))%nat;
}.

Lemma shell_ok_posn s A D F f x posn :
  shell_ok s A D F → k_files (sh_kern s) !! f = Some x → shell_ok (set_kern (at_posn (sh_kern s) f x posn) s) A D F.
Proof.
  intros Hs Hx. apply (shell_ok_kern s _ A D F); [done|..].
  - apply proc_ok_posn; [apply Hs|done].
  - apply frame_files. eapply ops_kept_insert; [exact Hx|by right].
  - done.
Qed.

Lemma read_entry_ok s A D F dir f x n i :
  shell_ok s A D F → listing s A dir f x n i →
  invoke_buf (sys_read dir (Some (sh_entry s)) sizeof_dirent) (sh_entry s) s =
  match a_entries n !! i with
  | Some e => Ok ((sizeof_dirent, dirent_bytes (a_dirent A e)), set_kern (at_posn (sh_kern s) f x (Z.of_nat (S i))) s)
  | None => Ok ((0, sh_entry s), set_kern (at_posn (sh_kern s) f x (Z.of_nat i)) s)
  end.
Proof.
  intros Hs [Hfd Hx Hop Hn Hp Hle].
  pose proof (sk_proc _ _ _ _ Hs) as Hk. pose proof Hk as [_ (R & Hv & _ & _) _].
  pose proof (dirents_length _ _ _ _ _ _ _ Hv Hn) as Hlen. unfold list_fuel, Inode.list_fuel, CONFIG_NUM_BUFFERS in Hlen.
  pose proof (sk_entry _ _ _ _ Hs) as He.
  pose proof (sys_read_dir_spec _ A D F (λ _, 0) dir f x n (sh_entry s) sizeof_dirent Hk zero_oth Hfd Hx Hop Hn
    ltac:(done) ltac:(lia)) as Er. cbv zeta in Er.
  assert (dir_window n (f_posn x) sizeof_dirent = match a_entries n !! i with Some e => [e] | None => [] end) as Ew.
  { unfold dir_window. rewrite Hp, u16_small, Nat2Z.id by lia. change (Z.to_nat (sizeof_dirent / sizeof_dirent)) with 1%nat.
    destruct (a_entries n !! i) as [e|] eqn:E.
    - by rewrite (drop_S _ e) by done.
    - by rewrite drop_ge by (by apply lookup_ge_None). }
  rewrite Ew in Er. unfold invoke_buf. destruct (a_entries n !! i) as [[nm q]|] eqn:E.
  - assert (zlen nm ≤ 16) as Hnm.
    { apply list_elem_of_lookup_2 in E. pose proof (node_names _ _ _ _ _ _ _ _ _ Hv Hn E). unfold RAMFS_MAX_NAME in *. lia. }
    mstep by (unfold in_kern; rewrite Er; reflexivity). mstep by reflexivity. unfold mret, M_ret. cbn [default].
    unfold dirents_bytes. cbn [fmap list_fmap concat]. unfold compose.
    rewrite (drop_ge (sh_entry s)) by (unfold zlen, sizeof_dirent in *; simpl; lia). rewrite !app_nil_r.
    unfold id. change (zlen [(nm, q)]) with 1. rewrite Hp, s32_small by lia.
    by replace (Z.of_nat i + 1) with (Z.of_nat (S i)) by lia.
  - mstep by (unfold in_kern; rewrite Er; reflexivity). mstep by reflexivity. unfold mret, M_ret.
    rewrite Hp, Z.add_0_r, s32_small by lia. done.
Qed.

(** Names of entries are proper, and short enough for the structure. *)
Lemma entry_name s A D F p n nm q :
  shell_ok s A D F → A !! p = Some n → (nm, q) ∈ a_entries n →
  wf_name nm ∧ zlen nm ≤ RAMFS_MAX_NAME ∧
  ∃ pad, de_name (a_dirent A (nm, q)) = nm ++ NUL :: pad.
Proof.
  intros Hs Hn Hin. destruct (sk_proc _ _ _ _ Hs) as [_ (R & Hv & _ & _) _].
  pose proof (node_names _ _ _ _ _ _ _ _ _ Hv Hn Hin) as Hl.
  destruct (vo_child _ _ _ _ _ Hv _ _ _ _ Hn Hin) as (_ & _ & Hw). split; [done|]. split; [done|].
  unfold RAMFS_MAX_NAME, zlen in Hl. exists (replicate (15 - length nm) 0). simpl.
  by replace (16 - length nm)%nat with (S (15 - length nm)) by lia.
Qed.

(** The state once the entries up to [i] have been listed. *)
Definition listed s f x (posn : nat) (out entry : list Z) : shell :=
  set_entry entry (set_kern (put_out out (at_posn (sh_kern s) f x (Z.of_nat posn))) s).

Lemma list_loop_ok fuel s A D F dir f x n i options :
  shell_ok s A D F → listing s A dir f x n i → sh_errno s = 0 →
  (∀ nm q, (nm, q) ∈ a_entries n → u8 (de_type (a_dirent A (nm, q))) ≤ 15) →
  (length (a_entries n) - i < fuel)%nat →
  ∃ entry, list_loop fuel dir options s =
      Ok ((), listed s f x (length (a_entries n)) (shown (list_text A options (drop i (a_entries n)))) entry) ∧
    zlen entry = sizeof_dirent.
Proof.
  revert s x i. induction fuel as [|fuel IH]; intros s x i Hs Hli He Hty Hf; [lia|]. cbn [list_loop].
  pose proof (read_entry_ok s A D F dir f x n i Hs Hli) as Er. pose proof Hli as [Hfd Hx Hop Hn Hp Hle].
  mstep by reflexivity. destruct (a_entries n !! i) as [[nm q]|] eqn:E.
  - mstep by exact Er. mstep by reflexivity. rewrite Z.eqb_refl.
    set (d := a_dirent A (nm, q)) in *. pose proof (list_elem_of_lookup_2 _ _ _ E) as Hin.
    destruct (entry_name s A D F _ n nm q Hs Hn Hin) as (Hw & Hl & pad & Hpad). fold d in Hpad.
    unfold RAMFS_MAX_NAME in Hl. destruct Hw as (Hne & Hnul & _).
    destruct nm as [|c nm]; [done|]. mstep by (unfold lift; rewrite e_name_bytes, Hpad; reflexivity).
    set (k1 := at_posn (sh_kern s) f x (Z.of_nat (S i))). set (x1 := fset_posn (Z.of_nat (S i)) x).
    assert (zlen (dirent_bytes d) = sizeof_dirent) as Hd.
    { apply dirent_bytes_length. unfold d. simpl. unfold zlen in *. simpl length in *.
      rewrite length_app, length_replicate. lia. }
    assert (∀ out, let s1 := set_entry (dirent_bytes d) (set_kern (put_out out k1) s) in
      shell_ok s1 A D F ∧ listing s1 A dir f x1 n (S i)) as Hnext.
    { intros out s1. split.
      - pose proof (shell_ok_out _ A D F out (shell_ok_posn s A D F f x (Z.of_nat (S i)) Hs Hx)) as Hs1.
        split; try apply Hs1. done.
      - split; try done; [|by apply lookup_lt_Some in E]. simpl. apply list_lookup_insert_eq. by eapply lookup_lt_Some. }
    assert (drop i (a_entries n) = (c :: nm, q) :: drop (S i) (a_entries n)) as Edrop by (by apply drop_S).
    assert (∀ out, ∃ entry, list_loop fuel dir options (set_entry (dirent_bytes d) (set_kern (put_out out k1) s)) =
      Ok ((), listed s f x (length (a_entries n)) (out ++ shown (list_text A options (drop (S i) (a_entries n)))) entry) ∧
      zlen entry = sizeof_dirent) as Hgo.
    { intros out. destruct (Hnext out) as [Hs1 Hl1].
      destruct (IH _ x1 (S i) Hs1 Hl1 He Hty) as (entry & El & Hel); [apply lookup_lt_Some in E; lia|].
      exists entry. split; [|done]. rewrite El. do 2 f_equal. unfold listed, k1. simpl. unfold at_posn, put_out. simpl.
      rewrite list_insert_insert_eq, <- app_assoc. done. }
    unfold list_text. rewrite Edrop. cbn [fmap list_fmap concat fst]. fold (list_text A options (drop (S i) (a_entries n))).
    unfold hidden. cbn [head]. assert (bool_decide (Some c = Some CH_DOT) = (c =? CH_DOT)) as ->.
    { destruct (Z.eqb_spec c CH_DOT) as [->|Hc]; [by apply bool_decide_eq_true|]. apply bool_decide_eq_false. by intros [= ]. }
    destruct ((c =? CH_DOT) && negb (has_bits options LS_HIDDEN)).
    + destruct (Hgo []) as (entry & El & Hel). exists entry. split; [|done]. rewrite put_out_nil in El. exact El.
    + destruct (Hnext []) as [Hs1 _]. rewrite put_out_nil in Hs1.
      mstep by (eapply print_entry_ok; [exact Hs1|exact Hpad|exact Hnul|lia|by apply Hty]).
      mstep by reflexivity. destruct (Hgo (shown (entry_text options d (c :: nm)))) as (entry & El & Hel).
      exists entry. split; [|done]. rewrite shown_app. etrans; [|exact El]. f_equal. unfold out_to, set_err, set_entry, set_kern. simpl.
      by rewrite He.
  - mstep by exact Er. mstep by reflexivity. exists (sh_entry s). split; [|apply Hs].
    assert (i = length (a_entries n)) as -> by (apply lookup_ge_None in E; lia).
    rewrite drop_all. unfold listed, list_text. simpl. rewrite put_out_nil. done.
Qed.

(** ** list() *)

(** The modes of inodes are 16-bit values. *)
Definition modes_ok A : Prop := ∀ p n, A !! p = Some n → 0 ≤ a_mode n < 65536.

Lemma a_dirent_type A nm q : modes_ok A → u8 (de_type (a_dirent A (nm, q))) ≤ 15.
Proof.
  intros Hm. simpl. set (n := default (ANode 0 0 0 []) (A !! q)).
  assert (0 ≤ a_mode n < 65536) as Hn by (unfold n; destruct (A !! q) eqn:E; [by eapply Hm|done]).
  rewrite Z.shiftr_div_pow2 by lia. change (2 ^ 12) with 4096.
  assert (0 ≤ a_mode n / 4096 < 16) by (split; [apply Z.div_pos; lia|apply Z.div_lt_upper_bound; lia]).
  rewrite !u8_small; rewrite ?u8_small; lia.
Qed.

(** What opendir() finds. *)
Definition opendir_walk A k (base : list (list Z)) (p : list Z) : outcome :=
  match path_spec CONFIG_PATH_MAX base p with
  | None => WErr (- ENAMETOOLONG)
  | Some cs => a_walk A O_RDONLY S_IFDIR (k_root k) cs
  end.

Lemma a_walk_small A oflag mode p cs e : a_walk A oflag mode p cs = WErr e → -100 ≤ e < 0.
Proof.
  revert p. induction cs as [|c cs IH]; intros p; simpl.
  - unfold a_finish. repeat case_match; intros [= <-]; done.
  - repeat case_match; try (by intros [= <-]); eauto.
Qed.

(** The variables that a command without side effects leaves alone. *)
Definition same_vars s s' : Prop :=
  sh_prev s' = sh_prev s ∧ sh_temp s' = sh_temp s ∧ sh_mounts s' = sh_mounts s ∧
  sh_mount_count s' = sh_mount_count s ∧ sh_getopt s' = sh_getopt s ∧ sh_line s' = sh_line s.

Lemma shell_ok_err s A D F e : shell_ok s A D F → shell_ok (set_err e s) A D F.
Proof. intros Hs. by split; apply Hs. Qed.
Lemma shell_ok_entry s A D F e : shell_ok s A D F → zlen e = sizeof_dirent → shell_ok (set_entry e s) A D F.
Proof. intros Hs He. by split; try apply Hs. Qed.

(** A table that has only the console makes room for one more file. *)
Lemma opened_shell k A D F q e k' :
  proc_ok k A D F (λ _, 0) → table k = shell_fds → opened_post k A D F (λ _, 0) q e k' →
  e = 3 ∧ ∃ f n, A !! q = Some n ∧ f ≠ 0%nat ∧ table k' = <[3%nat := Some f]> shell_fds ∧
    k_files k' !! f = Some (File 1 O_RDONLY (a_mode n) FopRamDir q 0 0).
Proof.
  intros Hk Ht (Hk' & Hfr & [(_ & Hfull)|[(_ & Hfull)|(He & Hfree & Hlow & f & n & Hn & Ht' & Hx)]]).
  - destruct (lookup_lt_is_Some_2 (k_files k) 1) as [x Hx].
    { pose proof (fo_len _ _ _ _ (ko_files _ _ _ _ _ _ Hk)) as Hl. unfold zlen, CONFIG_FD_MAX in Hl. lia. }
    destruct (Hfull _ _ Hx). rewrite (fo_count _ _ _ _ (ko_files _ _ _ _ _ _ Hk) _ _ Hx), Ht. done.
  - destruct (Hfull 3); [done|]. by rewrite Ht.
  - rewrite Ht in *. assert (e = 3) as ->.
    { destruct (Z.lt_trichotomy e 3) as [H|[H|H]]; [|done|].
      - assert (e = 0 ∨ e = 1 ∨ e = 2) as [->|[->| ->]] by lia; done.
      - by destruct (Hlow 3 ltac:(lia)). }
    split; [done|]. exists f, n. split_and!; [done| |done|done]. intros ->.
    pose proof (fo_count _ _ _ _ (ko_files _ _ _ _ _ _ Hk') _ _ Hx) as Hc. rewrite Ht' in Hc. done.
Qed.

Lemma list_dir_opened s0 s A D F f q n options spec p :
  shell_ok s A D F → modes_ok A → A !! q = Some n → cstring spec p → zlen p < 32768 →
  table (sh_kern s) = <[3%nat := Some f]> shell_fds →
  k_files (sh_kern s) !! f = Some (File 1 O_RDONLY (a_mode n) FopRamDir q 0 0) →
  same_vars s0 s → k_in (sh_kern s) = k_in (sh_kern s0) →
  ∃ s', (_ ← (if has_bits options LS_NAMED then
           _ ← (if has_bits options LS_NEXT then print_nl else mret ());
           _ ← print_string (Some spec);
           print_string (Some (lit_nl ":"))
         else mret ());
    _ ← modify (set_err 0);
    _ ← list_loop list_fuel 3 options;
    e ← gets sh_errno;
    _ ← (if negb (e =? 0) then print_error (Some spec) else mret ());
    _ ← sh_close 3;
    mret 1) s = Ok (1, s') ∧ shell_ok s' A D F ∧ table (sh_kern s') = shell_fds ∧ same_vars s0 s' ∧
    k_in (sh_kern s') = k_in (sh_kern s0) ∧ sh_errno s' = 0 ∧
    k_out (sh_kern s') = k_out (sh_kern s) ++ shown (list_title options p ++ list_text A options (a_entries n)).
Proof.
  intros Hs Hm Hn Hsp Hpl Ht Hx Hv Hin. unfold list_title. set (t := if has_bits options LS_NAMED then _ else []).
  erewrite bind_ok with (a := ()) (s' := out_to (shown t) s).
  2: { unfold t. destruct (has_bits options LS_NAMED); [|by rewrite out_to_nil].
       erewrite bind_ok with (a := ()) (s' := out_to (shown (if has_bits options LS_NEXT then [CH_LF] else [])) s).
       2: { destruct (has_bits options LS_NEXT); [by eapply print_nl_ok|by rewrite out_to_nil]. }
       mstep by (by eapply put_string_ok; [apply shell_ok_out|..]).
       unfold print_string. rewrite (put_string_ok _ A D F 1 (lit_nl ":") [CH_COLON; CH_LF])
         by first [by repeat apply shell_ok_out|by apply (lit_nl_ok ":"%string)|done].
       by rewrite !out_to_app, !shown_app. }
  mstep by reflexivity. set (s1 := set_err 0 (out_to (shown t) s)).
  assert (shell_ok s1 A D F) as Hs1 by (by apply shell_ok_err, shell_ok_out).
  assert (listing s1 A 3 f (File 1 O_RDONLY (a_mode n) FopRamDir q 0 0) n 0) as Hli.
  { split; try done; [|simpl; lia]. simpl. by rewrite Ht. }
  assert (length (a_entries n) < list_fuel)%nat as Hlen.
  { destruct (sk_proc _ _ _ _ Hs) as [_ (R & Hvfs & _ & _) _].
    pose proof (dirents_length _ _ _ _ _ _ _ Hvfs Hn) as H.
    unfold Inode.list_fuel, CONFIG_NUM_BUFFERS in H. unfold list_fuel. lia. }
  destruct (list_loop_ok list_fuel s1 A D F 3 f _ n 0 options Hs1 Hli eq_refl) as (entry & El & Hent);
    [intros; by apply a_dirent_type|lia|].
  mstep by exact El. mstep by reflexivity. cbv beta. change (negb (sh_errno (listed _ _ _ _ _ _) =? 0)) with false.
  cbv iota. mstep by reflexivity. set (s2 := listed _ _ _ _ _ _).
  assert (shell_ok s2 A D F) as Hs2.
  { apply shell_ok_entry; [|done]. apply (shell_ok_out (set_kern (at_posn (sh_kern s1) f _ _) s1)). by apply shell_ok_posn. }
  assert (table (sh_kern s2) = <[3%nat := Some f]> shell_fds) as Ht2 by exact Ht.
  pose proof (sys_close_spec (sh_kern s2) A D F (λ _, 0) 3 (sk_proc _ _ _ _ Hs2) zero_oth) as Hc. rewrite Ht2 in Hc.
  destruct Hc as (k3 & Ec & Hk3 & Ht3 & Hfr). 
  mstep by (unfold sh_close, invoke; mstep by (mstep by (unfold in_kern; rewrite Ec; reflexivity); reflexivity); reflexivity).
  exists (set_kern k3 s2). change (<[Z.to_nat 3 := None]> (<[3%nat := Some f]> shell_fds)) with shell_fds in Ht3.
  split; [done|]. split; [|split; [done|split; [exact Hv|]]].
  - eapply shell_ok_kern; [exact Hs2|exact Hk3|exact Hfr|]. intros i Hi. rewrite Ht3, Ht2.
    by rewrite list_lookup_insert_ne by lia.
  - simpl. rewrite (proj1 Hfr). simpl. split; [exact Hin|]. split; [done|]. by rewrite shown_app, <- app_assoc.
Qed.

Lemma invoke_error {X} (m : M kern Z) (f : Z → M shell X) s e k :
  m (sh_kern s) = Ok (e, k) → -100 ≤ e < 0 →
  (r ← invoke m; f r) s = f (-1) (set_err (- e) (set_kern k s)).
Proof.
  intros E He. erewrite bind_ok; [reflexivity|]. unfold invoke. mstep by (unfold in_kern; rewrite E; reflexivity).
  unfold call_result. rewrite (s16_small e) by lia. rewrite (proj2 (Z.ltb_lt e 0)) by lia.
  mstep by reflexivity. by rewrite s16_small by lia.
Qed.

Lemma invoke_value {X} (m : M kern Z) (f : Z → M shell X) s r k :
  m (sh_kern s) = Ok (r, k) → 0 ≤ r < 32768 → (r ← invoke m; f r) s = f r (set_kern k s).
Proof.
  intros E Hr. erewrite bind_ok; [reflexivity|]. unfold invoke. mstep by (unfold in_kern; rewrite E; reflexivity).
  unfold call_result. rewrite (s16_small r) by lia. by rewrite (proj2 (Z.ltb_ge r 0)) by lia.
Qed.

(** list() when opendir() fails. *)
Lemma list_dir_failed s A D F base spec p options e k' :
  shell_ok s A D F → cwd_ok (sh_kern s) base → cstring spec p → zlen p < 32768 →
  sys_opendir (Some spec) (sh_kern s) = Ok (e, k') → -100 ≤ e < 0 →
  proc_ok k' A D F (λ _, 0) → table k' = table (sh_kern s) → frame (sh_kern s) k' →
  ∃ s', list_dir spec options s = Ok (0, s') ∧ shell_ok s' A D F ∧ table (sh_kern s') = table (sh_kern s) ∧
    same_vars s s' ∧ k_in (sh_kern s') = k_in (sh_kern s) ∧ sh_errno s' = - e ∧
    k_out (sh_kern s') = k_out (sh_kern s) ++ shown (error_text (Some p) (- e)).
Proof.
  intros Hs Hc Hsp Hpl E He Hk' Ht Hfr.
  assert (shell_ok (set_kern k' s) A D F) as Hs1 by (eapply shell_ok_kern; [exact Hs|exact Hk'|exact Hfr|by rewrite Ht]).
  unfold list_dir. erewrite invoke_error by done. cbn [Z.ltb]. change (-1 <? 0) with true. cbv iota.
  mstep by (eapply (print_error_ok _ A D F (Some spec) (Some p)); [by apply shell_ok_err|eauto]).
  eexists. split; [reflexivity|]. split; [by apply shell_ok_out, shell_ok_err|]. split; [exact Ht|].
  split; [done|]. simpl. rewrite (proj1 Hfr). done.
Qed.

Lemma list_dir_ok s A D F base spec p options :
  shell_ok s A D F → table (sh_kern s) = shell_fds → modes_ok A → cwd_ok (sh_kern s) base →
  cstring spec p → p ≠ [] → zlen p < 32768 →
  ∃ r s', list_dir spec options s = Ok (r, s') ∧ shell_ok s' A D F ∧ table (sh_kern s') = shell_fds ∧
    same_vars s s' ∧ k_in (sh_kern s') = k_in (sh_kern s) ∧
    match opendir_walk A (sh_kern s) base p with
    | WFound q => ∃ n, A !! q = Some n ∧ r = 1 ∧ sh_errno s' = 0 ∧
        k_out (sh_kern s') = k_out (sh_kern s) ++ shown (list_title options p ++ list_text A options (a_entries n))
    | WErr e => r = 0 ∧ sh_errno s' = - e ∧
        k_out (sh_kern s') = k_out (sh_kern s) ++ shown (error_text (Some p) (- e))
    | WCreate _ _ => False
    end.
Proof.
  intros Hs Ht Hm Hc Hsp Hne Hpl. pose proof (sk_proc _ _ _ _ Hs) as Hk. unfold opendir_walk.
  destruct (sys_opendir_spec _ A D F _ base spec p Hk zero_oth Hc Hsp Hne) as (e & k' & E & Hpost).
  unfold opendir_post in Hpost. destruct (path_spec CONFIG_PATH_MAX base p) as [cs|].
  2: { destruct Hpost as (-> & Hk' & Ht' & Hfr).
       destruct (list_dir_failed s A D F base spec p options _ k' Hs Hc Hsp Hpl E) as (s' & El & Hs' & Ht2 & H); try done.
       exists 0, s'. split_and!; try done; [by rewrite Ht2|apply H..]. }
  destruct (a_walk A O_RDONLY S_IFDIR (k_root (sh_kern s)) cs) as [e'|q|d nm] eqn:Hw; [| |done].
  - destruct Hpost as (-> & Hk' & Ht' & Hfr). apply a_walk_small in Hw.
    destruct (list_dir_failed s A D F base spec p options _ k' Hs Hc Hsp Hpl E) as (s' & El & Hs' & Ht2 & H); try done.
    exists 0, s'. split_and!; try done; [by rewrite Ht2|apply H..].
  - pose proof Hpost as (Hk' & Hfr & _).
    destruct (opened_shell _ A D F q e k' Hk Ht Hpost) as (-> & f & n & Hn & Hf0 & Ht' & Hx).
    assert (shell_ok (set_kern k' s) A D F) as Hs1.
    { eapply shell_ok_kern; [exact Hs|exact Hk'|exact Hfr|]. intros i Hi. rewrite Ht', Ht.
      by rewrite list_lookup_insert_ne by lia. }
    assert (k_in k' = k_in (sh_kern s) ∧ k_out k' = k_out (sh_kern s)) as [Hin Hout] by (rewrite (proj1 Hfr); by destruct (sh_kern s)).
    destruct (list_dir_opened s (set_kern k' s) A D F f q n options spec p) as (s' & El & Hs' & Ht2 & Hv & Hin' & He & Ho); try done.
    exists 1, s'. split; [unfold list_dir; erewrite invoke_value by done; exact El|].
    split_and!; try done. exists n. split_and!; try done. rewrite Ho. simpl. by rewrite Hout.
Qed.

(** C7: What ls shows: list() opens the directory that the path leads to,
    prints a line for every entry that is not hidden, in the order of the
    directory and with the fields of its inode, closes the descriptor that it
    took, and leaves the tree, the descriptors and the variables of the shell
    as they were; when the directory cannot be opened it prints the path with
    the message of the error and returns 0.  The reading of the directory
    terminates. *)
Theorem list_dir_lists s A D F base spec p options :
  shell_ok s A D F → table (sh_kern s) = shell_fds → modes_ok A → cwd_ok (sh_kern s) base →
  cstring spec p → p ≠ [] → zlen p < 32768 →
  ∃ r s', list_dir spec options s = Ok (r, s') ∧ shell_ok s' A D F ∧ table (sh_kern s') = shell_fds ∧
    same_vars s s' ∧ k_in (sh_kern s') = k_in (sh_kern s) ∧
    match opendir_walk A (sh_kern s) base p with
    | WFound q => ∃ n, A !! q = Some n ∧ r = 1 ∧ sh_errno s' = 0 ∧
        k_out (sh_kern s') = k_out (sh_kern s) ++ shown (list_title options p ++ list_text A options (a_entries n))
    | WErr e => r = 0 ∧ sh_errno s' = - e ∧
        k_out (sh_kern s') = k_out (sh_kern s) ++ shown (error_text (Some p) (- e))
    | WCreate _ _ => False
    end.
Proof. apply list_dir_ok. Qed.
End Ls.
