(* ===== verification/RootfsSpec.v ===== *)
(** The root file system: the calls of shell/rootfs.c build exactly the tree
    that their paths name. *)
From S2P Require Import Prelude CDefs Util PathRes Sched Kern BufCache Inode Fat.
From S2P Require Import Devices Ramfs Vfs File FsCalls FileSpec DirSpec System Boot.
From S2P Require Import Shell Clock Getopt Info Commands ShellSpec LsSpec.

Definition call_path (c : rootfs_call) : list Z := match c with Dir path _ | Node path _ _ => chars path end.
Definition call_mode (c : rootfs_call) : Z :=
  match c with Dir _ mode => Z.lor S_IFDIR (Z.land mode MODE_0777) | Node _ mode _ => mode end.
Definition call_dev (c : rootfs_call) : Z := match c with Dir _ _ => 0 | Node _ _ dev => dev end.

(** A call that mknod() accepts, with a path that is a string. *)
Definition call_ok (c : rootfs_call) : bool :=
  bool_decide (nonul (call_path c)) && bool_decide (call_path c ≠ []) && (0 <=? call_mode c) && (call_mode c <? 65536) &&
  match c with
  | Dir _ _ => true
  | Node _ mode _ =>
      (S_ISCHR mode || S_ISBLK mode) && negb (has_bits mode (Z.lor (Z.lor S_ISUID S_ISGID) S_ISVTX))
  end.

(** ** The effect of the calls on the abstract tree, with the free buffers *)

Definition a_make (mt root : Z) (base : list (list Z)) (st : afs * list Z) (c : rootfs_call) : option (afs * list Z) :=
  let '(A, F) := st in
  cs ← path_spec CONFIG_PATH_MAX base (call_path c);
  match a_walk A O_EXCREAT (call_mode c) root cs with
  | WCreate p nm =>
      n ← A !! p;
      if RAMFS_MAX_NAME <? zlen nm then None
      else match F with
           | x :: q :: F => Some (<[q := ANode (call_mode c) mt (call_dev c) []]>
               (a_create (call_mode c) mt p n nm q A), F)
           | _ => None
           end
  | _ => None
  end.

Fixpoint a_makes (mt root : Z) (base : list (list Z)) (st : afs * list Z) (cs : list rootfs_call) : option (afs * list Z) :=
  match cs with
  | [] => Some st
  | c :: cs => st ← a_make mt root base st c; a_makes mt root base st cs
  end.

(** The paths of a tree with their modes and device numbers, parents first. *)
Fixpoint tree (fuel : nat) (A : afs) (p : Z) (prefix : list Z) : list (list Z * Z * Z) :=
  match fuel with
  | O => []
  | S fuel =>
      concat ((λ e, match A !! e.2 with
                    | Some n => (prefix ++ CH_SLASH :: e.1, a_mode n, a_data n) :: tree fuel A e.2 (prefix ++ CH_SLASH :: e.1)
                    | None => []
                    end) <$> from_option a_entries [] (A !! p))
  end.

Lemma a_make_modes mt root base A F c A' F' :
  a_make mt root base (A, F) c = Some (A', F') → call_ok c = true → modes_ok A → modes_ok A'.
Proof.
  intros E Hc Hm. assert (0 ≤ call_mode c < 65536) as Hr.
  { unfold call_ok in Hc. repeat apply andb_true_iff in Hc as [Hc ?]. lia. }
  unfold a_make in E. destruct (path_spec _ _ _) as [cs|]; [|done]. cbn [mbind option_bind] in E.
  destruct (a_walk _ _ _ _ _) as [| |p nm]; try done. destruct (A !! p) as [n|] eqn:Hn; [|done].
  cbn [mbind option_bind] in E. destruct (_ <? _); [done|]. destruct F as [|x [|q F]]; [done..|]. injection E as <- <-.
  intros q' m. unfold a_create. rewrite lookup_insert_Some. intros [[_ <-]|[_ H]]; [exact Hr|].
  apply lookup_insert_Some in H as [[_ <-]|[_ H]]; [exact Hr|].
  apply lookup_insert_Some in H as [[_ <-]|[_ H]]; [exact (Hm _ _ Hn)|by eapply Hm].
Qed.

Section Rootfs.
Context {SD : sdcard} {CC : console_config} {BC : build_config}.
Implicit Types (k : kern) (A : afs) (D : gmap Z (list Z)) (F : list Z) (s : shell).

(** What a call keeps of the kernel. *)
Definition made_from k k' base : Prop :=
  frame k k' ∧ k_proc k' = k_proc k ∧ cwd_ok k' base ∧ k_files k' = k_files k.

Lemma made_mtime k k' base : made_from k k' base → mtime_now k' = mtime_now k ∧ k_root k' = k_root k.
Proof. intros [[E _] _]. unfold mtime_now. rewrite E. by destruct k. Qed.

Lemma call_made k A D F base c mode m A' F' e k' :
  proc_ok k A D F (λ _, 0) → cwd_ok k base → m = call_mode c →
  a_make (mtime_now k) (k_root k) base (A, F) c = Some (A', F') →
  (∀ R, vfs_ok k A D F R → refs_slack R → mode = Ok (e, k') ∧
     create_post k A D F R m (call_dev c) (path_spec CONFIG_PATH_MAX base (call_path c)) e k') →
  ∃ D', mode = Ok (0, k') ∧ proc_ok k' A' D' F' (λ _, 0) ∧ made_from k k' base.
Proof.
  intros Hk Hc -> E Hpost. pose proof Hk as [_ (R & Hv & Hs & HR) _].
  destruct (Hpost R Hv Hs) as [Em Hp]. unfold create_post in Hp. unfold a_make in E.
  destruct (path_spec _ _ _) as [cs|]; [|done]. cbn [mbind option_bind] in E.
  destruct (a_walk _ _ _ _ _) as [| |p nm]; try done. destruct Hp as (n & Hn & _ & _ & Hp). rewrite Hn in E.
  cbn [mbind option_bind] in E. destruct (_ <? _); [done|]. destruct F as [|x [|q F]]; [done..|]. injection E as <- <-.
  destruct Hp as (-> & HAq & Hv' & temp & Ht & Hsame). exists (<[p := D !!! p ++ [x]]> D). split; [done|]. split.
  - eapply (create_made_ok k); try done. by exists temp.
  - split; [|split; [|split]].
    + apply frame_scratch; rewrite Hsame; by destruct k.
    + rewrite Hsame. by destruct k.
    + by eapply cwd_ok_same.
    + rewrite Hsame. by destruct k.
Qed.

Lemma run_rootfs_call_ok s A D F base c A' F' :
  shell_ok s A D F → cwd_ok (sh_kern s) base → p_umask (k_proc (sh_kern s)) = 0 → call_ok c = true →
  a_make (mtime_now (sh_kern s)) (k_root (sh_kern s)) base (A, F) c = Some (A', F') →
  ∃ k' D', run_rootfs_call c s = Ok (0, set_kern k' s) ∧ shell_ok (set_kern k' s) A' D' F' ∧
    made_from (sh_kern s) k' base.
Proof.
  intros Hs Hc Hu Hok E. pose proof (sk_proc _ _ _ _ Hs) as Hk. pose proof Hk as [_ (R & Hv & Hsl & _) _].
  unfold call_ok in Hok. repeat apply andb_true_iff in Hok as [Hok ?].
  apply bool_decide_eq_true in Hok. apply bool_decide_eq_true in H2 as Hne.
  assert (cstring (call_path c ++ [NUL]) (call_path c)) as Hstr by (by apply cstring_intro).
  assert (∃ e k', match c with Dir path mode => sys_mkdir (Some (lit path)) mode
                             | Node path mode dev => sys_mknod (Some (lit path)) mode dev end (sh_kern s) = Ok (e, k') ∧
    ∀ R, vfs_ok (sh_kern s) A D F R → refs_slack R → create_post (sh_kern s) A D F R (call_mode c) (call_dev c)
      (path_spec CONFIG_PATH_MAX base (call_path c)) e k') as (e & k' & Ec & Hpost).
  { destruct c as [path mode|path mode dev]; cbn [call_path call_mode call_dev] in *.
    - destruct (sys_mkdir_spec (sh_kern s) A D F R base (lit path) (chars path) mode Hv Hsl Hc Hstr Hne) as (e & k' & Ec & _).
      exists e, k'. split; [done|]. intros R' Hv' Hsl'.
      destruct (sys_mkdir_spec (sh_kern s) A D F R' base (lit path) (chars path) mode Hv' Hsl' Hc Hstr Hne) as (e2 & k2 & Ec2 & Hp).
      rewrite Ec in Ec2. injection Ec2 as <- <-. unfold mkdir_mode in Hp. by rewrite Hu, Z.ldiff_0_r in Hp.
    - assert (∀ R', vfs_ok (sh_kern s) A D F R' → refs_slack R' → ∃ e k', sys_mknod (Some (lit path)) mode dev (sh_kern s) = Ok (e, k') ∧
        create_post (sh_kern s) A D F R' mode dev (path_spec CONFIG_PATH_MAX base (chars path)) e k') as Hnod.
      { intros R' Hv' Hsl'. pose proof (sys_mknod_spec (sh_kern s) A D F R' base (lit path) (chars path) mode dev Hv' Hsl' Hc Hstr Hne) as Hp.
        cbv zeta in Hp. unfold mknod_mode in Hp. rewrite Hu, Z.ldiff_0_r, H in Hp. exact Hp. }
      destruct (Hnod R Hv Hsl) as (e & k' & Ec & _). exists e, k'. split; [done|]. intros R' Hv' Hsl'.
      destruct (Hnod R' Hv' Hsl') as (e2 & k2 & Ec2 & Hp). rewrite Ec in Ec2. by injection Ec2 as <- <-. }
  destruct (call_made (sh_kern s) A D F base c _ _ A' F' e k' Hk Hc eq_refl E (λ R Hv Hs, conj eq_refl (Hpost R Hv Hs)))
    as (D' & [= ->] & Hk' & Hmade).
  exists k', D'. split.
  - destruct c; cbn [run_rootfs_call]; unfold sh_mkdir, sh_mknod, invoke;
      mstep by (unfold in_kern; rewrite Ec; reflexivity); reflexivity.
  - split; [|done]. eapply shell_ok_kern; [exact Hs|exact Hk'|apply Hmade|]. intros i _.
    by rewrite (proj1 (proj2 Hmade)).
Qed.

Lemma made_refl k base : cwd_ok k base → made_from k k base.
Proof. intros Hc. split; [apply frame_refl|done]. Qed.
Lemma made_trans k k1 k2 base : made_from k k1 base → made_from k1 k2 base → made_from k k2 base.
Proof.
  intros (Hf1 & Ep1 & _ & Ef1) (Hf2 & Ep2 & Hc2 & Ef2). split; [|split; [by rewrite Ep2|split; [done|by rewrite Ef2]]].
  eapply frame_step; [exact Hf1|exact Hf2|]. intros g y y' Hy Hpos. rewrite Ef1, Hy. by intros [= <-].
Qed.

Lemma check_errors_ok cs s A D F base A' F' :
  shell_ok s A D F → cwd_ok (sh_kern s) base → p_umask (k_proc (sh_kern s)) = 0 → modes_ok A →
  forallb call_ok cs = true →
  a_makes (mtime_now (sh_kern s)) (k_root (sh_kern s)) base (A, F) cs = Some (A', F') →
  ∃ k' D', check_errors cs s = Ok (0, set_kern k' s) ∧ shell_ok (set_kern k' s) A' D' F' ∧ modes_ok A' ∧
    made_from (sh_kern s) k' base.
Proof.
  revert s A D F. induction cs as [|c cs IH]; intros s A D F Hs Hc Hu Hm Hok E; cbn [a_makes] in E.
  { injection E as <- <-. exists (sh_kern s), D. destruct s. split; [done|]. split; [done|]. split; [done|by apply made_refl]. }
  cbn [forallb] in Hok. apply andb_true_iff in Hok as [Hc1 Hok].
  destruct (a_make _ _ _ _ _) as [[A1 F1]|] eqn:E1; [|done]. cbn [mbind option_bind] in E.
  destruct (run_rootfs_call_ok s A D F base c A1 F1 Hs Hc Hu Hc1 E1) as (k1 & D1 & Ec & Hs1 & Hmade).
  destruct (made_mtime _ _ _ Hmade) as [Et Er]. rewrite <- Et, <- Er in E.
  destruct (IH (set_kern k1 s) A1 D1 F1) as (k2 & D2 & Ecs & Hs2 & Hm2 & Hmade2); try done.
  - apply Hmade.
  - simpl. by rewrite (proj1 (proj2 Hmade)).
  - by eapply a_make_modes.
  - exists k2, D2. split; [|split; [done|split; [done|by eapply made_trans]]].
    cbn [check_errors]. by mstep by exact Ec.
Qed.

(** The tree of the script. *)
Definition rootfs_nodes : list (list Z * Z * Z) := (λ c, (call_path c, call_mode c, call_dev c)) <$> rootfs_calls.

Lemma rootfs_tree mt :
  ∃ A F, a_makes mt boot_root [chars "root"] (boot_tree, boot_free) rootfs_calls = Some (A, F) ∧
    tree 4 A boot_root [] = rootfs_nodes ∧ zlen F = CONFIG_NUM_BUFFERS - 1 - 2 * zlen rootfs_calls.
Proof. eexists _, _. split; [vm_compute; reflexivity|]. split; vm_compute; reflexivity. Qed.

Lemma boot_modes : modes_ok boot_tree.
Proof. unfold boot_tree. intros p n Hn. apply lookup_singleton_Some in Hn as [_ <-]. done. Qed.

Lemma make_rootfs_ok s D :
  shell_ok s boot_tree D boot_free → cwd_ok (sh_kern s) [chars "root"] → k_root (sh_kern s) = boot_root →
  p_umask (k_proc (sh_kern s)) = 0 →
  ∃ k' A D' F, make_rootfs s = Ok (0, set_kern k' s) ∧ shell_ok (set_kern k' s) A D' F ∧ modes_ok A ∧
    made_from (sh_kern s) k' [chars "root"] ∧ tree 4 A boot_root [] = rootfs_nodes ∧
    zlen F = CONFIG_NUM_BUFFERS - 1 - 2 * zlen rootfs_calls.
Proof.
  intros Hs Hc Hr Hu. destruct (rootfs_tree (mtime_now (sh_kern s))) as (A & F & E & Ht & Hf). rewrite <- Hr in E at 1.
  destruct (check_errors_ok rootfs_calls s boot_tree D boot_free [chars "root"] A F Hs Hc Hu) as (k' & D' & Ec & H);
    [apply boot_modes|reflexivity|done|].
  exists k', A, D', F. destruct H as (? & ? & ?). by split_and!.
Qed.

(** C6: The root file system: from the empty root directory that the kernel
    starts with, and with the umask cleared, make_rootfs() succeeds and builds
    exactly the tree of its script, every path with its type, mode and device
    number and no other, with two buffers taken for each path; the working
    directory, the descriptors and the clocks stay as they were. *)
Theorem make_rootfs_builds s D :
  shell_ok s boot_tree D boot_free → cwd_ok (sh_kern s) [chars "root"] → k_root (sh_kern s) = boot_root →
  p_umask (k_proc (sh_kern s)) = 0 →
  ∃ k' A D' F, make_rootfs s = Ok (0, set_kern k' s) ∧ shell_ok (set_kern k' s) A D' F ∧ modes_ok A ∧
    made_from (sh_kern s) k' [chars "root"] ∧ tree 4 A boot_root [] = rootfs_nodes ∧
    zlen F = CONFIG_NUM_BUFFERS - 1 - 2 * zlen rootfs_calls.
Proof. apply make_rootfs_ok. Qed.
End Rootfs.

#[local] Existing Instances no_card sim_console sim_build.

(** The simulated shell with its umask cleared. *)
Definition sim_open : shell :=
  set_kern (set_cur (set_umask 0 (k_proc (sh_kern (sim_shell [])))) (sh_kern (sim_shell []))) (sim_shell []).

Lemma sim_open_ok :
  shell_ok sim_open boot_tree ∅ boot_free ∧ p_fd (k_proc (sh_kern sim_open)) = shell_fds ∧
  cwd_ok (sh_kern sim_open) [chars "root"] ∧ k_root (sh_kern sim_open) = boot_root ∧ p_umask (k_proc (sh_kern sim_open)) = 0.
Proof.
  pose proof (sim_shell_ok [] ltac:(constructor)) as Hs. unfold sim_open. revert Hs. generalize (sim_shell []) as s.
  intros s (Hs & Ht & Hc & Hr).
  destruct (sys_umask_quiet (sh_kern s) boot_tree ∅ boot_free _ 0 (sk_proc _ _ _ _ Hs)) as (_ & Hk & Hf).
  split; [|done]. eapply shell_ok_kern; [exact Hs|exact Hk|exact Hf|done].
Qed.

Lemma make_rootfs_builds_witness :
  ∃ k' A D' F, make_rootfs sim_open = Ok (0, set_kern k' sim_open) ∧ shell_ok (set_kern k' sim_open) A D' F ∧ modes_ok A ∧
    made_from (sh_kern sim_open) k' [chars "root"] ∧ tree 4 A boot_root [] = rootfs_nodes ∧
    zlen F = CONFIG_NUM_BUFFERS - 1 - 2 * zlen rootfs_calls.
Proof.
  destruct sim_open_ok as (Hs & Ht & Hc & Hr & Hu). exact (make_rootfs_builds sim_open ∅ Hs Hc Hr Hu).
Defined.

(** A root directory with a hidden entry, a directory and a device. *)
Definition sim_calls : list rootfs_call := [Dir "/bin"%string 0x1FD; Dir "/.x"%string 0x1C0; Node "/null"%string 0x21B0 0x0103].
Definition sim_listed : shell :=
  match check_errors sim_calls sim_open with Ok (_, s) => s | Err _ => sim_open end.
Definition sim_tree : afs * list Z :=
  default (boot_tree, []) (a_makes 0 boot_root [chars "root"] (boot_tree, boot_free) sim_calls).

Lemma sim_listed_ok :
  ∃ D, shell_ok sim_listed sim_tree.1 D sim_tree.2 ∧ p_fd (k_proc (sh_kern sim_listed)) = shell_fds ∧ modes_ok sim_tree.1 ∧
  cwd_ok (sh_kern sim_listed) [chars "root"] ∧ k_root (sh_kern sim_listed) = boot_root.
Proof.
  destruct sim_open_ok as (Hs & Ht & Hc & Hr & Hu).
  destruct (check_errors_ok sim_calls sim_open boot_tree ∅ boot_free [chars "root"] sim_tree.1 sim_tree.2 Hs Hc Hu)
    as (k' & D' & E & Hs' & Hm' & Hmade); [exact boot_modes|reflexivity|rewrite Hr; vm_compute; reflexivity|].
  assert (sim_listed = set_kern k' sim_open) as -> by (unfold sim_listed; by rewrite E).
  destruct (made_mtime _ _ _ Hmade) as [_ Er]. clear E Hs Hc Hu. revert k' Hs' Hmade Er Ht Hr. generalize sim_open as s.
  intros s k' Hs' Hmade Er Ht Hr. exists D'. split; [exact Hs'|]. split; [|split; [exact Hm'|split; [apply Hmade|]]]; simpl.
  - by rewrite (proj1 (proj2 Hmade)).
  - by rewrite Er.
Qed.

Lemma list_dir_lists_witness :
  ∃ s', list_dir (lit "/") (Z.lor LS_LONG LS_CLASSIFY) sim_listed = Ok (1, s') ∧
    k_out (sh_kern s') = k_out (sh_kern sim_listed) ++
      chars "drwxrwxr-x          0 bin/" ++ [CH_LF] ++ chars "crw-rw----     1,   3 null" ++ [CH_LF].
Proof.
  destruct sim_listed_ok as (D & Hs & Ht & Hm & Hc & Hr).
  destruct (list_dir_lists sim_listed _ D _ [chars "root"] (lit "/") (chars "/") (Z.lor LS_LONG LS_CLASSIFY)
    Hs Ht Hm Hc) as (r & s' & El & _ & _ & _ & _ & Hpost); [by apply lit_ok|done|done|].
  unfold opendir_walk in Hpost. rewrite Hr in Hpost.
  match type of Hpost with match ?w with _ => _ end => assert (w = WFound boot_root) as Ew by (vm_compute; reflexivity) end.
  rewrite Ew in Hpost. destruct Hpost as (n & Hn & -> & _ & Hout). exists s'. split; [exact El|].
  rewrite Hout. f_equal. vm_compute in Hn. injection Hn as <-. vm_compute. reflexivity.
Defined.
