(* ===== verification/SessionSpec.v ===== *)
(** A session of the shell: every command runs without a fault whatever its
    arguments are, and the whole program ends with its input and leaves the
    tree that its start built. *)
From S2P Require Import Prelude CDefs Util PathRes Sched Kern BufCache Inode Fat.
From S2P Require Import Devices Ramfs Vfs File FsCalls FileSpec DirSpec System Boot.
From S2P Require Import Shell Clock Getopt Info Commands ShellSpec LsSpec RootfsSpec.

Section Session.
Context {SD : sdcard} {CC : console_config} {BC : build_config}.
Implicit Types (k : kern) (s : shell).

Abbreviation table k := (p_fd (k_proc k)).

(** ** Commands that keep the tree *)

Section Runs.
Context (A : afs) (D : gmap Z (list Z)) (F : list Z).
Hypothesis Hmodes : modes_ok A.

(** The invariant, with only the console open and getopt() at the argument [o]. *)
Definition good o s : Prop := shell_ok s A D F ∧ table (sh_kern s) = shell_fds ∧ g_optind (sh_getopt s) = o.

Section Quiet.
Context (o : Z).

(** [m] returns, without a fault and without reading the console, in a good
    state, with a result in [P]. *)
Definition runs {X} (m : M shell X) (P : X → Prop) : Prop :=
  ∀ s, good o s → wp m (λ x s', P x ∧ good o s' ∧ k_in (sh_kern s') = k_in (sh_kern s)) s.
Abbreviation runs' m := (runs m (λ _, True)).

Lemma runs_ret {X} (x : X) (P : X → Prop) : P x → runs (mret x) P.
Proof. intros HP s Hs. by apply wp_ret. Qed.

Lemma runs_bind {X Y} (m : M shell X) (f : X → M shell Y) P Q :
  runs m P → (∀ x, P x → runs (f x) Q) → runs (x ← m; f x) Q.
Proof.
  intros Hm Hf s Hs. eapply wp_seq; [exact (Hm s Hs)|]. intros x s1 (Hx & Hs1 & E1).
  eapply wp_mono; [exact (Hf x Hx s1 Hs1)|]. intros y s2 (Hy & Hs2 & E2). by rewrite <- E1.
Qed.

Lemma runs_gets {X} (f : shell → X) P : (∀ s, good o s → P (f s)) → runs (gets f) P.
Proof. intros HP s Hs. apply wp_gets. auto. Qed.

Lemma runs_lift {X} (r : res X) x P : r = Ok x → P x → runs (lift r) P.
Proof. intros -> HP s Hs. by apply (wp_ret x). Qed.

Lemma runs_modify f :
  (∀ s, good o s → good o (f s) ∧ k_in (sh_kern (f s)) = k_in (sh_kern s)) → runs' (modify f).
Proof. intros Hf s Hs. apply wp_modify. destruct (Hf s Hs). auto. Qed.

Lemma runs_mono {X} (m : M shell X) P Q : runs m P → (∀ x, P x → Q x) → runs m Q.
Proof. intros Hm HPQ s Hs. eapply wp_mono; [exact (Hm s Hs)|]. naive_solver. Qed.

(** An output that is known. *)
Lemma good_out s out : good o s → good o (out_to out s).
Proof. intros [Hs Ht]. split; [by apply shell_ok_out|done]. Qed.

Lemma good_err s e : good o s → good o (set_err e s).
Proof. intros [Hs Ht]. split; [by apply shell_ok_err|done]. Qed.

(** ** Output *)

Lemma run_in_kern {X} (m : M kern X) (P : X → Prop) :
  (∀ s, good o s → ∃ x k', m (sh_kern s) = Ok (x, k') ∧ P x ∧ good o (set_kern k' s) ∧ k_in k' = k_in (sh_kern s)) →
  runs (in_kern m) P.
Proof.
  intros Hm s Hs. destruct (Hm s Hs) as (x & k' & E & HP & Hg & Hin).
  eapply wp_ok; [unfold in_kern; rewrite E; reflexivity|done].
Qed.

Lemma run_call_result r : runs (call_result r) (λ v, v = -1 ∨ v = s16 r).
Proof.
  intros s Hs. unfold call_result. cbv zeta. destruct (_ <? 0).
  - eapply wp_ok; [reflexivity|]. split; [by left|]. split; [by apply good_err|done].
  - apply wp_ret. split; [by right|done].
Qed.

Lemma run_write_chars fd d size : 1 ≤ fd ≤ 2 → 0 ≤ size ≤ zlen d → runs' (write_chars fd d size).
Proof.
  intros Hfd Hsz. unfold write_chars, invoke. apply (runs_bind _ _ (λ _, True)); [|intros; by apply runs_ret].
  apply (runs_bind _ _ (λ _, True)); [|intros r _; eapply runs_mono; [apply run_call_result|done]].
  apply run_in_kern. intros s Hs. do 2 eexists.
  split; [apply (sys_write_console (sh_kern s) A D F (λ _, 0)); first [apply Hs|apply zero_oth|done|lia]|].
  split; [done|]. split; [by apply (good_out s)|done].
Qed.

(** An action that only shows something. *)
Definition outputs {X} (m : M shell X) : Prop := ∀ s, shell_ok s A D F → ∃ x out, m s = Ok (x, out_to out s).

Lemma outputs_ret {X} (x : X) : outputs (mret x).
Proof. intros s Hs. exists x, []. by rewrite out_to_nil. Qed.

Lemma outputs_bind {X Y} (m : M shell X) (f : X → M shell Y) :
  outputs m → (∀ x, outputs (f x)) → outputs (x ← m; f x).
Proof.
  intros Hm Hf s Hs. destruct (Hm s Hs) as (x & out & E). destruct (Hf x (out_to out s)) as (y & out2 & E2);
    [by apply shell_ok_out|]. exists y, (out ++ out2). rewrite (bind_ok _ _ _ _ _ E), <- out_to_app. done.
Qed.

Lemma runs_out {X} (m : M shell X) : outputs m → runs' m.
Proof.
  intros Hm s Hs. destruct (Hm s (proj1 Hs)) as (x & out & E). eapply wp_ok; [exact E|].
  split; [done|]. split; [by apply good_out|done].
Qed.

Lemma put_string_outputs fd str : 1 ≤ fd ≤ 2 → string_ok str → outputs (put_string fd str).
Proof.
  intros Hfd Hstr s Hs. destruct str as [mem|]; [|by apply outputs_ret]. destruct Hstr as (p & Hp & Hl).
  eexists _, _. by eapply put_string_ok.
Qed.
Lemma print_string_outputs str : string_ok str → outputs (print_string str).
Proof. by apply put_string_outputs. Qed.
Lemma print_char_outputs c : outputs (print_char c).
Proof. intros s Hs. eexists _, _. by eapply print_char_ok. Qed.
Lemma print_nl_outputs : outputs print_nl.
Proof. intros s Hs. eexists _, _. by eapply print_nl_ok. Qed.
Lemma print_number_outputs v n : 1 ≤ n ≤ 255 → outputs (print_number v n).
Proof. intros Hn s Hs. eexists _, _. by eapply print_number_ok. Qed.

Lemma run_print_string str : string_ok str → runs' (print_string str).
Proof. intros H. by apply runs_out, print_string_outputs. Qed.
Lemma run_stderr str : string_ok str → runs' (print_stderr_string str).
Proof. intros H. by apply runs_out, put_string_outputs. Qed.

Lemma run_print_error path : string_ok path → runs' (print_error path).
Proof.
  intros Hp. apply runs_out. intros s Hs. eexists _, _.
  apply (print_error_ok s A D F path (match path with None => None | Some m => match str_chars m with Ok p => Some p | Err _ => None end end) Hs).
  destruct path as [mem|]; [|done]. destruct Hp as (p & Hp & Hl). rewrite (str_chars_cstring _ _ Hp). by exists p.
Qed.

Lemma lit_string (str : String.string) : bool_decide (nonul (chars str) ∧ zlen (chars str) < 32000) = true → string_ok (Some (lit str)).
Proof.
  intros [H Hl]%bool_decide_eq_true. exists (chars str). split; [by apply cstring_intro|lia].
Qed.
Lemma lit_nl_string (str : String.string) : bool_decide (nonul (chars str) ∧ zlen (chars str) < 32000) = true → string_ok (Some (lit_nl str)).
Proof.
  intros [H Hl]%bool_decide_eq_true. exists (chars str ++ [CH_LF]). split.
  - apply lit_nl_ok. by apply bool_decide_eq_true.
  - rewrite zlen_app. change (zlen [CH_LF]) with 1. lia.
Qed.
Lemma path_string mem : path_buffer mem → string_ok (Some mem).
Proof.
  intros (Hl & p & Hp). exists p. split; [done|]. destruct Hp as [_ (junk & ->)].
  unfold PATH_MAX in Hl. rewrite zlen_app in Hl. pose proof (zlen_nonneg (NUL :: junk)). lia.
Qed.
Lemma word_string w : Forall (λ c, 0 < c) w → zlen w < 32768 → string_ok (Some (w ++ [NUL])).
Proof.
  intros Hw Hl. exists w. split; [|done]. apply cstring_intro. eapply Forall_impl; [exact Hw|].
  intros c Hc. cbv beta in Hc. unfold NUL. lia.
Qed.

(** ** System calls *)

(** A call of the kernel that keeps the tree and the descriptors. *)
Definition quiet (m : M kern Z) : Prop :=
  ∀ k, proc_ok k A D F (λ _, 0) →
    ∃ e k', m k = Ok (e, k') ∧ proc_ok k' A D F (λ _, 0) ∧ frame k k' ∧ table k' = table k.

Lemma good_kern s k' :
  good o s → proc_ok k' A D F (λ _, 0) → frame (sh_kern s) k' → table k' = table (sh_kern s) →
  good o (set_kern k' s) ∧ k_in k' = k_in (sh_kern s).
Proof.
  intros [Hs [Ht Ho]] Hk Hf Ht'. split; [|rewrite (proj1 Hf); by destruct (sh_kern s)].
  split; [|split; [simpl; by rewrite Ht'|done]].
  eapply shell_ok_kern; [exact Hs|exact Hk|exact Hf|intros i _; by rewrite Ht'].
Qed.

Lemma run_invoke m : quiet m → runs' (invoke m).
Proof.
  intros Hm. unfold invoke. apply (runs_bind _ _ (λ _, True)); [|intros r _; eapply runs_mono; [apply run_call_result|done]].
  apply run_in_kern. intros s Hs. destruct (Hm (sh_kern s) (sk_proc _ _ _ _ (proj1 Hs))) as (e & k' & E & Hk & Hf & Ht).
  exists e, k'. split; [done|split; [done|by apply good_kern]].
Qed.

Lemma quiet_chdir path : valid_path path → quiet (sys_chdir path).
Proof. intros Hp k Hk. by apply sys_chdir_quiet. Qed.
Lemma quiet_umask mask : quiet (sys_umask mask).
Proof. intros k Hk. destruct (sys_umask_quiet k A D F _ mask Hk) as (E & Hk' & Hf). eauto 10. Qed.
Lemma quiet_mount target : have_sd = false → quiet (sys_mount (Some (lit "/dev/mmcblk0")) target (Some (lit "vfat")) 0).
Proof.
  intros Hsd k Hk. exists (- ENOTBLK), k. split; [|split; [done|split; [apply frame_refl|done]]].
  unfold sys_mount. mstep by reflexivity. unfold fatfs_have_sd. by rewrite Hsd.
Qed.

(** getcwd() into temp_path1. *)
Lemma run_getcwd : runs sh_getcwd (λ r, r = 0).
Proof.
  intros s [Hs Ht]. unfold sh_getcwd.
  destruct (sk_proc _ _ _ _ Hs) as [_ _ (base & Hc & _ & Hl & _)]. destruct (sk_temp _ _ _ _ Hs) as [Htl _].
  destruct (strcpy_path (sh_temp s) _ _ Hc Hl Htl) as (out & E & Hout & Hol).
  change CONFIG_PATH_MAX with PATH_MAX in E.
  assert (sys_getcwd (Some (sh_temp s)) PATH_MAX false (sh_kern s) = Ok ((0, Some out), sh_kern s)) as Eg
    by (unfold sys_getcwd; change (PATH_MAX =? 0) with false; cbv iota; mstep by reflexivity;
      mstep by (unfold lift; rewrite E; reflexivity); reflexivity).
  eapply (wp_ok _ _ _ 0 (set_temp_path out s)).
  - mstep by reflexivity. mstep by (unfold invoke_buf; mstep by (unfold in_kern; rewrite Eg; reflexivity); reflexivity).
    mstep by reflexivity. unfold mret, M_ret. by destruct s.
  - split; [done|]. split; [|done]. split; [|done]. split; try apply Hs. split; [done|]. by exists (render base).
Qed.

(** ** cd, pwd and mount *)

(** Runs an action whose result does not matter. *)
#[local] Tactic Notation "rstep" "by" tactic3(tac) := apply (runs_bind _ _ (λ _, True)); [tac|intros ? _].

Definition text_ok (mem : list Z) : Prop := string_ok (Some mem).
Lemma run_temp : runs (gets sh_temp) text_ok.
Proof. apply runs_gets. intros s [Hs _]. apply path_string, Hs. Qed.
Lemma run_prev : runs (gets sh_prev) text_ok.
Proof. apply runs_gets. intros s [Hs _]. apply path_string, Hs. Qed.

(** A word of the command line as an argument. *)
Definition word_ok (w : list Z) : Prop := Forall (λ c, 0 < c) w ∧ zlen w < 32768.
Definition argv_of (words : list (list Z)) : list (option (list Z)) := ((λ w, Some (w ++ [NUL])) <$> words) ++ [None].

Lemma run_arg_at words i :
  Forall word_ok words → 0 ≤ i < zlen words → runs (arg_at (argv_of words) i) (λ m, ∃ w, word_ok w ∧ m = w ++ [NUL]).
Proof.
  intros Hw Hi. destruct (rd_ok words i Hi) as (w & E & Hl). unfold arg_at, argv_of.
  apply (runs_bind _ _ (λ a, a = Some (w ++ [NUL]))).
  - eapply runs_lift; [|reflexivity]. apply rd_lookup. split; [lia|].
    erewrite lookup_app_l_Some; [reflexivity|]. by rewrite list_lookup_fmap, Hl.
  - intros a ->. eapply runs_lift; [reflexivity|]. exists w. split; [|done]. by eapply Forall_lookup_1.
Qed.

Lemma run_save_prev : runs' (prev ← gets sh_prev; temp ← gets sh_temp; prev ← lift (memcpy prev 0 temp PATH_MAX);
  _ ← modify (set_prev prev); mret 0).
Proof.
  intros s Hs. destruct (sk_prev _ _ _ _ (proj1 Hs)) as [Hp _]. destruct (sk_temp _ _ _ _ (proj1 Hs)) as [Ht Hstr].
  assert (memcpy (sh_prev s) 0 (sh_temp s) PATH_MAX = Ok (sh_temp s)) as E.
  { rewrite <- Ht. pose proof (memcpy_app_at [] (sh_prev s) [] (sh_temp s) []) as E. rewrite !app_nil_r in E.
    apply E. unfold zlen in *. lia. }
  eapply wp_ok; [do 2 (mstep by reflexivity); mstep by (unfold lift; rewrite E; reflexivity); mstep by reflexivity; reflexivity|].
  split; [done|]. split; [|done]. split; [|apply Hs]. destruct Hs as [Hs _]. by split; try apply Hs.
Qed.

Lemma run_chdir words : Forall word_ok words → words ≠ [] → runs' (cmd_chdir (zlen words) (argv_of words)).
Proof.
  intros Hw Hne. assert (1 ≤ zlen words) as Hl by (destruct words; [done|rewrite zlen_cons; pose proof (zlen_nonneg words); lia]).
  unfold cmd_chdir. destruct (Z.ltb_spec 2 (zlen words)).
  { apply (runs_bind _ _ (λ _, True)); [by apply run_stderr, lit_nl_string|intros; by apply runs_ret]. }
  eapply runs_bind; [apply run_getcwd|intros _ _].
  apply (runs_bind _ _ text_ok).
  - destruct (Z.eqb_spec (zlen words) 1); [apply runs_ret; by apply (lit_string "/root"%string)|].
    eapply runs_bind; [apply run_arg_at; [done|lia]|]. cbv beta. intros a (w & [Hpos Hwl] & ->).
    destruct (strcmp_lex w (chars "-") [] [] Hpos ltac:(by repeat constructor)) as (d & Ed & _).
    eapply (runs_bind _ _ (λ c, c = d)); [by eapply runs_lift|]. intros c ->.
    destruct (d =? 0); [apply run_prev|]. apply runs_ret. by apply word_string.
  - intros path Hpath. apply (runs_bind _ _ (λ _, True)).
    { apply run_invoke, quiet_chdir. destruct Hpath as (p & Hp & _). by exists p. }
    intros r _. destruct (r <? 0); [|apply run_save_prev].
    apply (runs_bind _ _ (λ _, True)); [by apply run_print_error|intros; by apply runs_ret].
Qed.

Lemma run_pwd argc argv : runs' (cmd_pwd argc argv).
Proof.
  unfold cmd_pwd. eapply runs_bind; [apply run_getcwd|]. intros r ->. cbv iota beta.
  change (0 =? 0) with true. cbv iota. eapply runs_bind; [apply run_temp|]. intros temp Ht.
  apply (runs_bind _ _ (λ _, True)); [by apply run_print_string|intros _ _].
  apply (runs_bind _ _ (λ _, True)); [apply runs_out, print_nl_outputs|intros; by apply runs_ret].
Qed.

Lemma run_mount_loop fuel index : 0 ≤ index ≤ MOUNT_MAX → MOUNT_MAX < index + Z.of_nat fuel → runs' (mount_loop fuel index).
Proof.
  revert index. induction fuel as [|fuel IH]; intros index Hi Hf; cbn [mount_loop]; [lia|].
  apply (runs_bind _ _ (λ n, n ≤ MOUNT_MAX)); [apply runs_gets; intros s [Hs _]; apply Hs|]. intros n Hn.
  destruct (Z.ltb_spec index n); [|by apply runs_ret].
  apply (runs_bind _ _ (λ l, zlen l = MOUNT_MAX ∧ Forall entry_ok l)); [apply runs_gets; intros s [Hs _]; apply Hs|].
  intros l [Hl Hall]. destruct (rd_ok l index ltac:(lia)) as (e & E & He).
  apply (runs_bind _ _ (λ x, x = e)); [by eapply runs_lift|]. intros ? ->.
  destruct (Forall_lookup_1 _ _ _ _ Hall He) as (H1 & H2 & H3 & H4).
  rstep by (by apply run_print_string). rstep by (by apply run_print_string, (lit_string " on "%string)).
  rstep by (by apply run_print_string). rstep by (by apply run_print_string, (lit_string " type "%string)).
  rstep by (by apply run_print_string). rstep by (by apply run_print_string, (lit_string " ("%string)).
  rstep by (by apply run_print_string). rstep by (by apply run_print_string, (lit_nl_string ")"%string)).
  apply IH; lia.
Qed.

Lemma run_mount argc argv : runs' (cmd_mount argc argv).
Proof. unfold cmd_mount. rstep by (by apply run_mount_loop). by apply runs_ret. Qed.

Lemma run_add_fstab a b c d :
  text_ok a → text_ok b → text_ok c → text_ok d → runs' (add_fstab a b c d).
Proof.
  intros Ha Hb Hc Hd s Hs. unfold add_fstab. destruct (sk_mounts _ _ _ _ (proj1 Hs)) as [Hl Hall].
  pose proof (sk_count _ _ _ _ (proj1 Hs)) as Hn. 
  destruct (sh_mount_count s <? MOUNT_MAX) eqn:E; unfold MOUNT_MAX in *.
  - set (e := FstabEntry (Some a) (Some b) (Some c) (Some d)).
    eapply wp_ok; [mstep by reflexivity; rewrite E; mstep by reflexivity;
      mstep by (unfold lift; rewrite wr_ok by lia; reflexivity); reflexivity|].
    split; [done|]. split; [|done]. split; [|apply Hs]. destruct Hs as [Hs _]. split; try apply Hs; simpl.
    + unfold zlen in *. rewrite length_insert. split; [done|]. by apply Forall_insert.
    + rewrite u8_small by lia. unfold MOUNT_MAX. lia.
  - eapply wp_ok; [mstep by reflexivity; rewrite E; reflexivity|]. split; [done|by split].
Qed.

(** ** uname *)

Lemma nul_string mem : NUL ∈ mem → zlen mem < 32768 → string_ok (Some mem).
Proof.
  intros (l1 & l2 & -> & Hl)%list_elem_of_split_l Hm. exists l1. split.
  - split; [|by exists l2]. apply Forall_forall. by intros c Hc ->.
  - rewrite zlen_app in Hm. pose proof (zlen_nonneg (NUL :: l2)). lia.
Qed.

Lemma print_uname_outputs options bits members space :
  (∀ m, last members = Some m → NUL ∈ m) → zlen (concat members) < 32768 →
  outputs (print_uname options bits members space).
Proof.
  revert bits space. induction members as [|m members IH]; intros bits space Hlast Hl;
    destruct bits as [|b bits]; try by apply outputs_ret.
  assert (∀ space, outputs (print_uname options bits members space)) as Hrest.
  { intros sp. apply IH; [|simpl in Hl; rewrite zlen_app in Hl; pose proof (zlen_nonneg m); lia].
    intros m' Hm'. apply Hlast. by rewrite last_cons, Hm'. }
  cbn [print_uname]. destruct (has_bits options b); [|apply Hrest].
  apply outputs_bind; [destruct space; [apply print_char_outputs|apply outputs_ret]|intros _].
  apply outputs_bind; [|intros _; apply Hrest]. apply print_string_outputs, nul_string; [|exact Hl].
  destruct (exists_last (l := m :: members)) as (pre & y & E); [done|]. rewrite E, concat_app, elem_of_app.
  right. simpl. rewrite app_nil_r. apply Hlast. by rewrite E, last_snoc.
Qed.

Lemma char_array_length t : zlen (char_array t) ≤ 9.
Proof. unfold char_array, zlen. rewrite length_take. change (Z.to_nat UTSNAME_LENGTH) with 9%nat. lia. Qed.

(** The last member of the structure ends with a NUL, so that every member is
    read within it. *)
Lemma uname_text_outputs options : outputs (
  '(r, uts) ← sh_uname;
  if r <? 0 then _ ← print_error (Some (lit "uname")); mret 1
  else _ ← print_uname options uname_bits (uts_strings uts) false; _ ← print_nl; mret 0).
Proof.
  intros s Hs. mstep by reflexivity. revert s Hs.
  change (outputs (_ ← print_uname options uname_bits (uts_strings uname_data) false; _ ← print_nl; mret 0)).
  apply outputs_bind; [apply print_uname_outputs|intros _; apply outputs_bind; [apply print_nl_outputs|intros _; apply outputs_ret]].
  - intros m [= <-]. unfold uname_data, u_machine. destruct CPU_65C02; compute_decide.
  - unfold uts_strings, uname_data. cbn [u_sysname u_nodename u_release u_version u_machine concat].
    rewrite !zlen_app. pose proof (char_array_length (chars "MOSnix")).
    repeat match goal with |- context [char_array ?t] => pose proof (char_array_length t); generalize dependent (char_array t); intros end.
    change (zlen []) with 0. lia.
Qed.

(** ** ls *)

Lemma run_list_dir spec options : text_ok spec → runs' (list_dir spec options).
Proof.
  intros (p & Hp & Hl) s (Hs & Ht & Ho). pose proof (sk_proc _ _ _ _ Hs) as Hk. pose proof Hk as [_ _ (base & Hc)].
  destruct (decide (p = [])) as [->|Hne].
  - destruct (inode_lookup_path_bad_small (sh_kern s) (Some spec) true O_RDONLY S_IFDIR) as (e & E & He); [right; eauto|].
    destruct (list_dir_failed s A D F base spec [] options e (sh_kern s) Hs Hc Hp Hl) as (s' & El & Hs' & Ht' & Hv & Hin & _);
      [|done..|apply frame_refl|].
    { unfold sys_opendir, file_open. mstep by exact E. by rewrite (proj2 (Z.ltb_lt e 0)) by lia. }
    eapply wp_ok; [exact El|]. split; [done|]. split; [|done]. split; [done|]. split; [by rewrite Ht'|].
    destruct Hv as (_ & _ & _ & _ & -> & _). done.
  - destruct (list_dir_ok s A D F base spec p options Hs Ht Hmodes Hc Hp Hne Hl) as (r & s' & El & Hs' & Ht' & Hv & Hin & _).
    eapply wp_ok; [exact El|]. split; [done|]. split; [|done]. split; [done|]. split; [done|].
    destruct Hv as (_ & _ & _ & _ & -> & _). done.
Qed.
End Quiet.

(** ** Options and the commands that have them *)

#[local] Tactic Notation "rstep" "by" tactic3(tac) := apply (runs_bind _ _ _ (λ _, True)); [tac|intros ? _].


(** A run that ends in a good state whatever getopt() has come to. *)
Definition ends s {X} (m : M shell X) s0 : Prop :=
  wp m (λ _ s', (∃ o, good o s') ∧ k_in (sh_kern s') = k_in (sh_kern s)) s0.

Lemma runs_ends {X} o (m : M shell X) P s s0 :
  runs o m P → good o s0 → k_in (sh_kern s0) = k_in (sh_kern s) → ends s m s0.
Proof.
  intros Hm Hs E. eapply wp_mono; [exact (Hm s0 Hs)|]. intros x s' (_ & Hg & E'). rewrite E'. eauto.
Qed.

Lemma ends_ret {X} o (x : X) s s0 : good o s0 → k_in (sh_kern s0) = k_in (sh_kern s) → ends s (mret x) s0.
Proof. intros Hs E. apply wp_ret. eauto. Qed.

Lemma ends_bind {X Y} o (m : M shell X) (f : X → M shell Y) P s s0 :
  wp m (λ x s', P x ∧ good o s' ∧ k_in (sh_kern s') = k_in (sh_kern s)) s0 →
  (∀ x s1, P x → good o s1 → k_in (sh_kern s1) = k_in (sh_kern s) → ends s (f x) s1) →
  ends s (x ← m; f x) s0.
Proof. intros Hm Hf. eapply wp_seq; [exact Hm|]. intros x s1 (Hx & Hs1 & E). by apply Hf. Qed.

Lemma wp_runs {X} o (m : M shell X) P s s0 :
  runs o m P → good o s0 → k_in (sh_kern s0) = k_in (sh_kern s) →
  wp m (λ x s', P x ∧ good o s' ∧ k_in (sh_kern s') = k_in (sh_kern s)) s0.
Proof. intros Hm Hs <-. by apply Hm. Qed.

Lemma good_getopt o s g : good o s → good (g_optind g) (set_getopt g s).
Proof. intros (Hs & Ht & _). split; [by split; apply Hs|done]. Qed.

Lemma options_good {X} (m : M getopt_state X) o s a g :
  good o s → m (Getopt (g_optind (sh_getopt s)) (g_nextind (sh_getopt s)) (g_nextchar (sh_getopt s)) (g_optarg (sh_getopt s)) []) = Ok (a, g) →
  wp (run_options m) (λ x s', x = a ∧ good (g_optind g) s' ∧ k_in (sh_kern s') = k_in (sh_kern s)) s.
Proof.
  intros Hs E. unfold run_options. apply wp_bind, wp_gets, wp_bind. eapply wp_ok; [unfold lift; rewrite E; reflexivity|].
  cbv beta iota. apply wp_bind, wp_modify. pose proof (good_getopt o s g Hs) as Hg.
  assert (runs (g_optind g) (_ ← match g_err g with [] => mret () | _ => write_chars 2 (g_err g) (zlen (g_err g)) end; mret a) (λ x, x = a)) as Hrun.
  { eapply (runs_bind _ _ _ (λ _, True)); [|intros; by apply runs_ret]. destruct (g_err g); [by apply runs_ret|].
    apply run_write_chars; [done|]. split; [apply zlen_nonneg|done]. }
  exact (Hrun _ Hg).
Qed.

Lemma options_fuel_enough words name :
  (length (concat words) < options_fuel (argv_of (name :: words)))%nat.
Proof.
  assert (length (concat words) ≤ length (concat (default [] <$> ((λ w, Some (w ++ [NUL])) <$> words))))%nat.
  { induction words as [|w words IH]; [done|]. cbn [fmap list_fmap concat] in *. rewrite !length_app. cbn [default]. simpl in *.
    rewrite length_app. lia. }
  unfold options_fuel, argv_of. rewrite fmap_app, concat_app, length_app. cbn [fmap list_fmap concat] in *.
  rewrite length_app. lia.
Qed.

(** getopt() reset to its start. *)
Lemma options_run cases (finish : option Z → option Z) name args g :
  Forall (λ p, 0 < p.1 ∧ p.1 ≠ CH_COLON ∧ p.1 ≠ CH_QUESTION) cases → Forall word_ok args → g_optind g = 0 → finish None = None →
  ∃ r g', (opts ← option_loop (zlen (name :: args)) (argv_of (name :: args)) ((fst <$> cases) ++ [NUL]) (switch cases)
    (options_fuel (argv_of (name :: args))) 0; mret (finish opts)) g = Ok (r, g') ∧
    (r = None ∨ 1 ≤ g_optind g' ≤ zlen (name :: args)).
Proof.
  intros Hc Ha Hg Hf. destruct g as [o nextind nextchar optarg err]. simpl in Hg. subst o. rewrite zlen_cons, (Z.add_comm _ 1).
  assert (Forall (Forall (λ x, 0 < x)) args) as Hpos by (eapply Forall_impl; [exact Ha|]; by intros w [H _]).
  pose proof (command_options cases (options_fuel (argv_of (name :: args))) name args nextind nextchar optarg err Hc Hpos
    (options_fuel_enough args name)) as Ho.
  set (fuel := options_fuel _) in *. change (argv_of (name :: args)) with (arg_mem name :: (arg_mem <$> args) ++ [None]).
  destruct (options_spec (switch cases) 0 1 args) as [[opts n]|] eqn:E.
  - apply options_spec_bound in E. destruct Ho as (g' & El & Hn & _). exists (finish (Some opts)), g'. split.
    + by rewrite (bind_ok _ _ _ _ _ El).
    + right. lia.
  - destruct Ho as (g' & El). exists None, g'. split; [|by left]. by rewrite (bind_ok _ _ _ _ _ El), Hf.
Qed.

Lemma uname_ends s name args :
  good 0 s → Forall word_ok (name :: args) → ends s (cmd_uname (zlen (name :: args)) (argv_of (name :: args))) s.
Proof.
  intros Hs [_ Hw]%Forall_cons. unfold cmd_uname.
  assert (zlen (name :: args) =? 0 = false) as -> by (rewrite zlen_cons; pose proof (zlen_nonneg args); lia). cbv iota.
  destruct (options_run uname_cases (fmap (λ o, if o =? 0 then UNAME_SYSNAME else o)) name args
    (Getopt (g_optind (sh_getopt s)) (g_nextind (sh_getopt s)) (g_nextchar (sh_getopt s)) (g_optarg (sh_getopt s)) []))
    as (r & g & E & _); [by repeat constructor|done|apply Hs|done|].
  eapply ends_bind; [by eapply options_good|]. intros ? s1 -> Hs1 Ein.
  destruct r as [options|]; [|by eapply ends_ret].
  by eapply runs_ends; [apply runs_out, uname_text_outputs|..].
Qed.

(** The operands of ls, from that of optind on. *)
Lemma ls_args_ends fuel o words options exitval s s0 :
  good o s0 → k_in (sh_kern s0) = k_in (sh_kern s) → Forall word_ok words →
  0 ≤ o ≤ zlen words → zlen words - o < Z.of_nat fuel →
  ends s (ls_args fuel (zlen words) (argv_of words) options exitval) s0.
Proof.
  revert o options exitval s0. induction fuel as [|fuel IH]; intros o options exitval s0 Hs Ein Hw Ho Hf; [lia|]. cbn [ls_args].
  apply (ends_bind o _ _ (λ g, g_optind g = o)); [apply wp_gets; split; [apply Hs|done]|]. intros g s1 Eg Hs1 E1.
  rewrite Eg. destruct (Z.ltb_spec o (zlen words)); [|by eapply ends_ret].
  eapply ends_bind; [eapply wp_runs; [apply run_arg_at; [done|lia]|done..]|]. intros spec s2 (w & [Hpos Hl] & ->) Hs2 E2.
  eapply ends_bind; [eapply wp_runs; [apply run_list_dir; by apply word_string|done..]|]. intros r s3 _ Hs3 E3.
  apply (ends_bind (o + 1) _ _ (λ _, True)).
  { apply wp_modify. split; [done|]. split; [|done]. exact (good_getopt _ _ (set_optind (o + 1) g) Hs3). }
  intros _ s4 _ Hs4 E4. apply (IH (o + 1)); try done; lia.
Qed.

Lemma ls_ends s name args :
  good 0 s → Forall word_ok (name :: args) → ends s (cmd_ls (zlen (name :: args)) (argv_of (name :: args))) s.
Proof.
  intros Hs Hw. unfold cmd_ls.
  destruct (options_run ls_cases (fmap (λ o, if Z.land o (Z.lor LS_BRIEF LS_LONG) =? 0 then Z.lor o LS_BRIEF else o)) name args
    (Getopt (g_optind (sh_getopt s)) (g_nextind (sh_getopt s)) (g_nextchar (sh_getopt s)) (g_optarg (sh_getopt s)) []))
    as (r & g & E & Hn); [by repeat constructor|by inversion Hw|apply Hs|done|].
  eapply ends_bind; [by eapply options_good|]. intros ? s1 -> Hs1 Ein.
  destruct r as [options|]; [|by eapply ends_ret]. destruct Hn as [|Hn]; [done|].
  apply (ends_bind (g_optind g) _ _ (λ n, n = g_optind g)); [apply wp_gets; split; [apply Hs1|done]|].
  intros ? s2 -> Hs2 E2. destruct (Z.leb_spec (zlen (name :: args)) (g_optind g)).
  - eapply runs_ends; [rstep by (by apply run_list_dir, (lit_string "."%string)); by apply (runs_ret _ _ (λ _, True))|done..].
  - apply (ls_args_ends _ (g_optind g)); try done; [lia|].
    unfold argv_of. rewrite length_app, length_fmap. unfold zlen in *. simpl. lia.
Qed.

(** ** The execution of a line *)

Lemma builtin_ends s h name args :
  good 0 s → Forall word_ok (name :: args) → ends s (run_builtin h (zlen (name :: args)) (argv_of (name :: args))) s.
Proof.
  intros Hs Hw. destruct h; cbn [run_builtin].
  - by eapply runs_ends; [by apply run_chdir|..].
  - by apply ls_ends.
  - by eapply runs_ends; [apply run_mount|..].
  - by eapply runs_ends; [apply run_pwd|..].
  - by apply uname_ends.
Qed.

Lemma string_at_chars buf a w : string_at buf a w → Forall (λ c, 0 < c) w → cstring (drop (Z.to_nat a) buf) w ∧ zlen w ≤ zlen buf.
Proof.
  intros (s1 & s2 & -> & ->) Hw. split.
  - unfold zlen. rewrite Nat2Z.id, drop_app_length. split; [|by exists s2].
    eapply Forall_impl; [exact Hw|]. intros c Hc. cbv beta in Hc. unfold NUL. lia.
  - rewrite !zlen_app. pose proof (zlen_nonneg s1). pose proof (zlen_nonneg (NUL :: s2)). lia.
Qed.

Lemma arg_strings_ok buf argv ws :
  Forall2 (string_at buf) argv ws → Forall (Forall (λ c, 0 < c)) ws → zlen buf < 32768 →
  arg_strings buf argv = Ok ws ∧ Forall word_ok ws.
Proof.
  intros Hat Hws Hl. induction Hat as [|a w argv ws Ha _ IH]; [done|]. apply Forall_cons in Hws as [Hw Hws].
  destruct (string_at_chars _ _ _ Ha Hw) as [Hc Hwl]. destruct (IH Hws) as [E Hok]. cbn [arg_strings].
  rewrite (str_chars_cstring _ _ Hc). cbn [mbind res_bind]. rewrite E. split; [done|].
  constructor; [split; [done|lia]|done].
Qed.

(** A line whose command word is not looked for past the table of commands. *)
Definition known (text : list Z) : Prop :=
  match tokenize [] None text with TWords (name :: _) => find_spec name ≠ Err FBounds | _ => True end.

Lemma good_line o s l : good o s → zlen l = 128 → good o (set_line l s).
Proof. intros (Hs & Ht) Hl. split; [|done]. by split; try apply Hs. Qed.

Lemma exec_line_ends o s text R :
  good o s → sh_line s = text ++ NUL :: R → Forall (λ c, 0 < c) text → known text → ends s exec_line s.
Proof.
  intros Hs El Ht Hk. unfold exec_line. apply wp_bind, wp_gets. pose proof (cmd_exec_tokens text R Ht) as Hx. rewrite <- El in Hx.
  pose proof (tokenize_chars (λ c, 0 < c) (length text) text [] None) as Hpos. unfold known in Hk.
  assert (∀ (m : M shell ()) a, cmd_exec (sh_line s) = Ok a →
    ends s (match a with PrintTooMany => print_stderr_string (Some (lit_nl "sh: too many arguments"))
      | PrintUnterminated => print_stderr_string (Some (lit_nl "sh: unterminated quote")) | _ => mret () end) s) as Hsimple.
  { intros _ a _. destruct a; try (by eapply ends_ret); eapply runs_ends; first [done|by apply run_stderr, lit_nl_string]. }
  destruct (tokenize [] None text) as [| |[|name args]]; cbn [exec_result] in Hx.
  1-3: apply wp_bind; eapply wp_ok; [unfold lift; rewrite Hx; reflexivity|exact (Hsimple (mret ()) _ Hx)].
  clear Hsimple. specialize (Hpos _ ltac:(lia) Ht ltac:(by constructor) I eq_refl).
  destruct Hx as (arg0 & argv & buf & Hat & E). assert (∃ b, find_spec name = Ok b) as [b Eb].
  { unfold find_spec in *. destruct (lex _ _); eauto. by destruct Hk. }
  rewrite Eb in E. cbn [mbind res_bind] in E. apply wp_bind. eapply wp_ok; [unfold lift; rewrite E; reflexivity|]. cbv beta.
  pose proof (cmd_exec_length _ _ E) as Hlen. assert (zlen buf = 128) as Hb.
  { pose proof (sk_line _ _ _ _ (proj1 Hs)) as H. unfold zlen in *. destruct b; lia. }
  destruct (arg_strings_ok _ _ _ Hat Hpos ltac:(lia)) as [Ea Hw]. destruct b as [h|].
  - apply wp_bind, wp_modify, wp_bind. eapply wp_ok; [unfold lift; rewrite Ea; reflexivity|].
    cbv beta. apply wp_bind, wp_gets, wp_bind, wp_modify.
    assert (zlen (arg0 :: argv) = zlen (name :: args)) as -> by (unfold zlen; by rewrite (Forall2_length _ _ _ Hat)).
    set (s1 := set_getopt _ _). assert (good 0 s1) as Hs1.
    { apply (good_getopt o _ (set_optind 0 _)), good_line; done. }
    eapply wp_seq; [exact (builtin_ends s1 h name args Hs1 Hw)|]. intros x s2 [Hs2 E2]. by apply wp_ret.
  - apply wp_bind, wp_modify. pose proof (good_line o s buf Hs Hb) as Hs1. eapply runs_ends; [|exact Hs1|done].
    rstep by (apply run_stderr); [|by apply run_stderr, (lit_nl_string ": command not found"%string)].
    apply Forall2_cons_1 in Hat as [Hat _]. apply Forall_cons in Hpos as [Hpos _].
    destruct (string_at_chars _ _ _ Hat Hpos) as [Hc Hl]. exists name. split; [done|lia].
Qed.

(** ** The keyboard and the main loop *)

Lemma key_range ch : 0 ≤ key ch < 256.
Proof. unfold key. destruct (_ || _); [done|]. apply Z.mod_pos_bound. lia. Qed.

Definition keys s : list Z := key <$> k_in (sh_kern s).

Lemma getchar_at_end o s : good o s → keys s = [] → ∃ s', sh_getchar s = Ok (-1, s') ∧ keys s' = [] ∧ good o s'.
Proof.
  intros Hs Hk. apply fmap_nil_inv in Hk. exists s. split; [|split; [unfold keys; by rewrite Hk|done]].
  pose proof (sys_read_console (sh_kern s) A D F (λ _, 0) 0) as E. rewrite Hk in E. unfold sh_getchar, invoke_buf.
  mstep by (mstep by (unfold in_kern; rewrite E by first [apply Hs|apply zero_oth|rewrite <- Hk; apply Hs]; reflexivity); reflexivity).
  by destruct s.
Qed.

Lemma good_io o s i out : good o s → Forall (λ c, 0 ≤ c) i → good o (set_kern (set_io i out (sh_kern s)) s).
Proof.
  intros (Hs & Ht) Hi. split; [|done]. split; try apply Hs; [|done]. apply kern_ok_io, Hs.
Qed.

Lemma getchar_key o s ch l : good o s → keys s = ch :: l → ∃ s', sh_getchar s = Ok (ch, s') ∧ keys s' = l ∧ good o s'.
Proof.
  intros Hs Hk. unfold keys in Hk. destruct (k_in (sh_kern s)) as [|c i] eqn:Ei; [done|]. injection Hk as <- <-.
  pose proof (sk_in _ _ _ _ (proj1 Hs)) as Hin. rewrite Ei in Hin. apply Forall_cons in Hin as [_ Hi].
  exists (set_kern (set_io i (k_out (sh_kern s) ++ key_echo c) (sh_kern s)) s).
  split; [|split; [done|by apply good_io]].
  pose proof (sys_read_console (sh_kern s) A D F (λ _, 0) 0) as E. rewrite Ei in E. unfold sh_getchar, invoke_buf.
  mstep by (mstep by (unfold in_kern; rewrite E by first [apply Hs|apply zero_oth|rewrite <- Ei; apply Hs]; reflexivity); reflexivity).
  reflexivity.
Qed.

(** The lines that are typed, each ended by a key of its own. *)
Fixpoint lines_from (text input : list Z) : list (list Z) :=
  match input with
  | [] => []
  | ch :: input => if ends_line ch then text :: lines_from [] input else lines_from (edit 128 text ch) input
  end.

Lemma lines_typed text input :
  lines_from text input =
  match (typed 128 text input).2 with Some rest => (typed 128 text input).1 :: lines_from [] rest | None => [] end.
Proof.
  revert text. induction input as [|ch input IH]; intros text; [done|]. cbn [lines_from typed].
  destruct (ends_line ch); [done|]. apply IH.
Qed.

Lemma typed_rest text input rest : (typed 128 text input).2 = Some rest → (length rest < length input)%nat.
Proof.
  revert text. induction input as [|ch input IH]; intros text; [done|]. cbn [typed length].
  destruct (ends_line ch); [intros [= ->]; lia|]. intros H%IH. lia.
Qed.

Lemma typed_printable text input :
  Forall (λ c, 0 ≤ c < 256) input → Forall (λ c, 0 < c) text → Forall (λ c, 0 < c) (typed 128 text input).1.
Proof.
  intros Hi. revert text. induction Hi as [|ch input Hch _ IH]; intros text Ht; [done|]. cbn [typed].
  destruct (ends_line ch); [done|]. apply IH. unfold edit. repeat case_match; try done.
  - by apply Forall_take.
  - apply Forall_app. split; [done|]. repeat constructor. rewrite u8_small by done.
    unfold CH_SPACE in *. lia.
Qed.

Lemma good_get_line o s fuel :
  good o s → (length (keys s) < fuel)%nat →
  ∃ rest s', get_line sh_getchar fuel (sh_line s) 128 s =
      Ok (match (typed 128 [] (keys s)).2 with Some _ => 1 | None => 0 end, (typed 128 [] (keys s)).1 ++ rest, s') ∧
    keys s' = default [] (typed 128 [] (keys s)).2 ∧ good o s' ∧ zlen ((typed 128 [] (keys s)).1 ++ rest) = 128 ∧
    ((typed 128 [] (keys s)).2 ≠ None → head rest = Some NUL).
Proof.
  intros Hs Hf. pose proof (sk_line _ _ _ _ (proj1 Hs)) as Hl.
  apply (get_line_loop_spec sh_getchar keys (good o) (getchar_at_end o) (getchar_key o) fuel s [] (sh_line s) 128); try done.
  - by intros E; rewrite E in Hl.
  - apply Forall_fmap, Forall_true. intros c. apply (key_range c).
Qed.

Lemma shell_loop_ends fuel fuel' o s :
  good o s → Forall known (lines_from [] (keys s)) → (length (keys s) < fuel)%nat → (length (keys s) < fuel')%nat →
  wp (shell_loop fuel fuel') (λ _ s', (∃ o, good o s') ∧ k_in (sh_kern s') = []) s.
Proof.
  revert o s. induction fuel as [|fuel IH]; intros o s Hs Hk Hf Hf'; [lia|]. cbn [shell_loop].
  eapply wp_seq; [exact (run_getcwd o s Hs)|]. intros _ s1 (_ & Hs1 & E1).
  eapply wp_seq; [exact (run_temp o s1 Hs1)|]. intros temp s2 (Htemp & Hs2 & E2).
  eapply wp_seq; [exact (run_print_string o _ Htemp s2 Hs2)|]. intros _ s3 (_ & Hs3 & E3).
  eapply wp_seq; [exact (run_print_string o _ (lit_string "# "%string eq_refl) s3 Hs3)|]. intros _ s4 (_ & Hs4 & E4).
  assert (keys s4 = keys s) as Ek by (unfold keys; congruence).
  destruct (good_get_line o s4 fuel' Hs4 ltac:(by rewrite Ek)) as (rest & s5 & Eg & E5 & Hs5 & Hl5 & Hh). rewrite Ek in *.
  apply wp_bind, wp_gets, wp_bind. eapply wp_ok; [exact Eg|]. cbv beta iota. apply wp_bind, wp_modify.
  pose proof (good_line o s5 _ Hs5 Hl5) as Hs6. pose proof (lines_typed [] (keys s)) as Elines.
  pose proof (typed_rest [] (keys s)) as Hr. pose proof (typed_printable [] (keys s)) as Hp.
  destruct (typed 128 [] (keys s)) as [text [more|]]; cbn [fst snd default] in *.
  - change (1 =? 0) with false. cbv iota. rewrite Elines in Hk. apply Forall_cons in Hk as [Hk Hks].
    specialize (Hh ltac:(done)). destruct rest as [|c rest]; [done|]. injection Hh as ->.
    eapply wp_seq.
    + eapply (exec_line_ends o _ text rest Hs6); [done| |done]. apply Hp; [|done]. apply Forall_fmap, Forall_true. apply key_range.
    + intros _ s7 [[o' Hs7] E7]. assert (keys s7 = more) as E7' by (unfold keys; rewrite E7; exact E5).
      specialize (Hr more eq_refl). apply (IH o'); rewrite ?E7'; [done..|lia|lia].
  - change (0 =? 0) with true. cbv iota. apply wp_ret. split; [eauto|]. by apply fmap_nil_inv in E5.
Qed.
End Runs.

(** ** The start *)

Lemma umask_run s mask :
  ∃ e, sh_umask mask s = Ok ((), set_err e (set_kern (set_cur (set_umask (Z.land mask MODE_0777) (k_proc (sh_kern s))) (sh_kern s)) s)).
Proof.
  unfold sh_umask, invoke, call_result. set (old := p_umask (k_proc (sh_kern s))).
  exists (if s16 old <? 0 then s16 (- s16 old) else sh_errno s).
  rewrite (bind_ok _ _ s (if s16 old <? 0 then -1 else s16 old) (set_err (if s16 old <? 0 then s16 (- s16 old) else sh_errno s)
    (set_kern (set_cur (set_umask (Z.land mask MODE_0777) (k_proc (sh_kern s))) (sh_kern s)) s))); [done|].
  mstep by reflexivity. fold old. destruct (s16 old <? 0); [done|]. unfold mret, M_ret. by destruct s.
Qed.

(** What the start of the shell finds. *)
Record fresh s D : Prop := {
  fr_ok : shell_ok s boot_tree D boot_free;
  fr_fds : table (sh_kern s) = shell_fds;
  fr_cwd : cwd_ok (sh_kern s) [chars "root"];
  fr_root : k_root (sh_kern s) = boot_root;
}.

Lemma fresh_out s D out : fresh s D → fresh (out_to out s) D.
Proof. intros [Hs Ht Hc Hr]. split; [by apply shell_ok_out|done..]. Qed.

(** What it leaves: the tree of its script. *)
Definition built i s : Prop :=
  ∃ A D F o, good A D F o s ∧ modes_ok A ∧ tree 4 A boot_root [] = rootfs_nodes ∧ k_in (sh_kern s) = i.

Lemma built_runs {X} (m : M shell X) i s :
  (∀ A D F, modes_ok A → ∃ P, ∀ o, runs A D F o m P) → built i s → wp m (λ _ s', built i s') s.
Proof.
  intros Hm (A & D & F & o & Hs & HA & Ht & E). destruct (Hm A D F HA) as [P Hr].
  eapply wp_mono; [exact (Hr o s Hs)|]. intros x s' (_ & Hs' & E'). rewrite <- E, <- E'. by exists A, D, F, o.
Qed.

Lemma make_rootfs_built s D :
  fresh s D → p_umask (k_proc (sh_kern s)) = 0 → wp make_rootfs (λ r s', r = 0 ∧ built (k_in (sh_kern s)) s') s.
Proof.
  intros [Hs Ht Hc Hr] Hu. destruct (make_rootfs_ok s D Hs Hc Hr Hu) as (k' & A & D' & F & E & Hs' & HA & Hmade & Htree & _).
  eapply wp_ok; [exact E|]. split; [done|]. exists A, D', F, (g_optind (sh_getopt s)).
  split; [split; [done|split; [simpl; by rewrite (proj1 (proj2 Hmade))|done]]|]. split; [done|]. split; [done|].
  simpl. rewrite (proj1 (proj1 Hmade)). by destruct (sh_kern s).
Qed.

Lemma umask_fresh s D : fresh s D → wp (sh_umask 0) (λ _ s', fresh s' D ∧ p_umask (k_proc (sh_kern s')) = 0 ∧
  k_in (sh_kern s') = k_in (sh_kern s)) s.
Proof.
  intros [Hs Ht Hc Hr]. destruct (umask_run s 0) as [e E]. eapply wp_ok; [exact E|].
  destruct (sys_umask_quiet (sh_kern s) boot_tree D boot_free _ 0 (sk_proc _ _ _ _ Hs)) as (_ & Hk & Hf).
  split; [|done]. split; [|done|exact Hc|done]. apply shell_ok_err. eapply shell_ok_kern; [exact Hs|exact Hk|exact Hf|done].
Qed.

Lemma fresh_outputs {X} (m : M shell X) s D :
  (∀ A D F, outputs A D F m) → fresh s D → wp m (λ _ s', fresh s' D ∧ k_in (sh_kern s') = k_in (sh_kern s) ∧ k_proc (sh_kern s') = k_proc (sh_kern s)) s.
Proof.
  intros Hm Hs. destruct (Hm _ _ _ s (fr_ok _ _ Hs)) as (x & out & E). eapply wp_ok; [exact E|].
  split; [by apply fresh_out|done].
Qed.

Lemma print_boot_time_outputs A D F : outputs A D F print_boot_time.
Proof.
  intros s Hs. assert (in_kern (clock_gettime CLOCK_MONOTONIC true) s = Ok (inr (timespec_of (k_mono (sh_kern s))), s)) as E
    by (by destruct s). unfold print_boot_time. mstep by exact E. revert s Hs E. intros s Hs _.
  set (ts := timespec_of _). clearbody ts. revert s Hs. fold (outputs A D F
    (_ ← print_string (Some (lit "Boot time ... ")); _ ← print_number (u32 (if 500000000 <=? tv_nsec ts then s32 (tv_sec ts + 1) else tv_sec ts)) 2;
     print_string (Some (lit_nl "s")))).
  apply outputs_bind; [by apply print_string_outputs, (lit_string "Boot time ... "%string)|intros _].
  apply outputs_bind; [by apply print_number_outputs|intros _]. by apply print_string_outputs, (lit_nl_string "s"%string).
Qed.

#[local] Tactic Notation "bstep" "by" tactic3(tac) := apply (runs_bind _ _ _ _ _ _ (λ _, True)); [tac|intros ? _].

(** Whether the call of rootfs.c succeeded or not, what comes next keeps the
    tree; without an SD card the mount of one fails. *)
Lemma init_rest_built r i s : have_sd = false → built i s → wp (
  _ ← (if r <? 0 then print_error None
       else
         _ ← add_fstab (lit "/") (lit "ramfs") (lit "ramfs") (lit "rw");
         print_string (Some (lit_nl "ok")));
  r ← sh_mount None;
  _ ← (if r =? 0 then
         _ ← print_string (Some (lit "Mounting SD card ... "));
         _ ← print_flush;
         result ← sh_mount (Some (lit "/mnt/sd"));
         _ ← (if result <? 0 then print_error None
              else if result =? 1 then print_string (Some (lit_nl "No card found"))
              else print_string (Some (lit_nl "ok")));
         if 0 <=? result then add_fstab (lit "/mnt/sd") (lit "/dev/mmcblk0") (lit "vfat") (lit "ro")
         else mret ()
       else mret ());
  _ ← sh_umask (Z.lor S_IWGRP S_IWOTH);
  print_boot_time) (λ _ s', built i s') s.
Proof.
  intros Hsd. apply built_runs. intros A D F _. exists (λ _, True). intros o.
  bstep by (destruct (r <? 0); [by apply run_print_error|]; bstep by (by apply run_add_fstab; apply lit_string);
    by apply run_print_string, (lit_nl_string "ok"%string)).
  bstep by (by apply run_invoke, quiet_mount). bstep by idtac.
  { case_match; [|by apply runs_ret]. bstep by (by apply run_print_string, (lit_string "Mounting SD card ... "%string)).
    bstep by (by apply runs_ret). bstep by (by apply run_invoke, quiet_mount).
    bstep by (repeat case_match; [by apply run_print_error|by apply run_print_string, (lit_nl_string "No card found"%string)|
      by apply run_print_string, (lit_nl_string "ok"%string)]).
    case_match; [by apply run_add_fstab; apply lit_string|by apply runs_ret]. }
  bstep by (unfold sh_umask; bstep by (apply run_invoke, quiet_umask); by apply runs_ret).
  apply runs_out, print_boot_time_outputs.
Qed.

Lemma init_built s D : have_sd = false → fresh s D → wp init (λ _ s', built (k_in (sh_kern s)) s') s.
Proof.
  intros Hsd Hs. unfold init. eapply wp_seq; [by apply umask_fresh|]. intros _ s1 (Hs1 & Hu & <-).
  eapply wp_seq.
  { apply (fresh_outputs _ s1 D); [|done]. intros A D' F.
    by apply print_string_outputs, (lit_string "Mounting root filesystem ... "%string). }
  intros _ s2 (Hs2 & <- & Ep). rewrite <- Ep in Hu. apply wp_bind, wp_ret.
  eapply wp_seq; [by apply (make_rootfs_built s2 D)|]. intros r s3 [_ Hs3]. by apply init_rest_built.
Qed.

(** The lines that the keys make are executed without a look past the table
    of commands. *)
Definition typed_known (input : list Z) : Prop := Forall known (lines_from [] (key <$> input)).

Lemma shell_main_ok fuel s D :
  have_sd = false → fresh s D → typed_known (k_in (sh_kern s)) → (length (k_in (sh_kern s)) < fuel)%nat →
  wp (shell_main fuel) (λ r s', r = 0 ∧ built [] s') s.
Proof.
  intros Hsd Hs Hk Hf. unfold shell_main.
  eapply wp_seq; [apply (fresh_outputs _ s D); [apply print_nl_outputs|done]|]. intros _ s1 (Hs1 & E1 & _).
  eapply wp_seq; [apply (fresh_outputs _ s1 D); [intros A D' F; apply uname_text_outputs|done]|]. intros _ s2 (Hs2 & E2 & _).
  eapply wp_seq; [apply (fresh_outputs _ s2 D); [apply print_nl_outputs|done]|]. intros _ s3 (Hs3 & E3 & _).
  eapply wp_seq; [by apply (init_built s3 D)|]. rewrite E3, E2, E1. intros _ s4 Hs4.
  eapply wp_seq; [eapply built_runs, Hs4; intros A D' F _; exists (λ _, True); intros o; apply runs_out, print_nl_outputs|].
  intros _ s5 (A & D' & F & o & Hs5 & HA & Ht & E5).
  eapply wp_seq; [apply (shell_loop_ends A D' F HA fuel fuel o s5 Hs5); unfold keys; rewrite E5; [done|by rewrite length_fmap..]|].
  intros _ s6 [[o' Hs6] E6].
  eapply wp_seq; [apply (runs_out A D' F o' print_nl); [apply print_nl_outputs|done]|]. intros _ s7 (_ & Hs7 & E7).
  apply wp_ret. split; [done|]. exists A, D', F, o'. by rewrite E7.
Qed.

(** C2: A whole run of the shell, on a target without an SD card, on keys none
    of whose lines starts with a word that sorts after "uname" (for such a word,
    "vi" for one, cmd_find_builtin() reads past its table, which
    [cmd_exec_refines] states): from the state that the start of the kernel
    leaves, main() terminates and returns 0 without a fault, with all of the
    input consumed.  Reading and editing the lines, the parsing, and the commands
    cd, ls, mount, pwd and uname with any arguments keep the invariant of the
    kernel and of the shell's variables, close every descriptor that they open,
    and leave exactly the tree that the start built. *)
Theorem shell_session_safe fuel s D :
  have_sd = false → shell_ok s boot_tree D boot_free → table (sh_kern s) = shell_fds →
  cwd_ok (sh_kern s) [chars "root"] → k_root (sh_kern s) = boot_root →
  typed_known (k_in (sh_kern s)) → (length (k_in (sh_kern s)) < fuel)%nat →
  ∃ s' A D' F, shell_main fuel s = Ok (0, s') ∧ shell_ok s' A D' F ∧ table (sh_kern s') = shell_fds ∧
    tree 4 A boot_root [] = rootfs_nodes ∧ k_in (sh_kern s') = [].
Proof.
  intros Hsd Hs Ht Hc Hr Hk Hf.
  destruct (shell_main_ok fuel s D Hsd ltac:(by split) Hk Hf) as (r & s' & E & -> & A & D' & F & o & (Hs' & Ht' & _) & _ & Htree & Hin).
  by exists s', A, D', F.
Qed.
End Session.

#[local] Existing Instances no_card sim_console sim_build.

(** A session with an edited line, an error, and input that ends in a line. *)
Definition sim_input : list Z := chars "ls -lF /dev /nope" ++ [CH_LF] ++ chars "cd /mnx" ++ [CH_DEL] ++ chars "t" ++ [CH_CR] ++ chars "cd -; pwd".

Lemma shell_session_safe_witness :
  ∃ s' A D' F, shell_main 100 (sim_shell sim_input) = Ok (0, s') ∧ shell_ok s' A D' F ∧
    p_fd (k_proc (sh_kern s')) = shell_fds ∧ tree 4 A boot_root [] = rootfs_nodes ∧ k_in (sh_kern s') = [].
Proof.
  destruct (sim_shell_ok sim_input ltac:(compute_decide)) as (Hs & Ht & Hc & Hr).
  apply (shell_session_safe 100 (sim_shell sim_input) ∅ eq_refl Hs Ht Hc Hr).
  - change (k_in (sh_kern (sim_shell sim_input))) with sim_input. unfold typed_known.
    assert (lines_from [] (key <$> sim_input) = [chars "ls -lF /dev /nope"; chars "cd /mnt"]) as -> by (vm_compute; reflexivity).
    by repeat constructor.
  - change (k_in (sh_kern (sim_shell sim_input))) with sim_input. simpl. lia.
Defined.
